(** * JSON++ (JONX) codec: a shallow embedding of the Python sources

    The development follows [src/jsonplusplus/encoder.py],
    [src/jsonplusplus/decoder.py] and the [preview] endpoint of [server.py].

    Python values are a tagged union, exceptions are an error monad, byte
    strings are lists of [Byte.byte].  The two external libraries the codec
    calls, [zstandard] and [orjson], are interfaces ([zstd_api], [json_api])
    whose laws are stated as predicates and discharged on reference
    instances. *)

From Stdlib Require Import Strings.Byte Strings.String Strings.Ascii.
From Stdlib Require Import ZArith List Bool Lia QArith Permutation Sorted.
Import ListNotations.

Local Open Scope Z_scope.
Set Implicit Arguments.
Set Warnings "-register-all".

(* ------------------------------------------------------------------ *)
(** ** Exceptions as an error monad *)

Inductive pyerr : Type :=
| ValueError | KeyError | TypeError | IndexError | AttributeError
| OverflowError | StructError | ZstdError
| JSONEncodeError | JSONDecodeError | UnicodeError | HTTPException.

Inductive result (A : Type) : Type :=
| Ok (a : A)
| Err (e : pyerr).
Arguments Ok {A} a.
Arguments Err {A} e.

Definition bind {A B} (r : result A) (k : A -> result B) : result B :=
  match r with
  | Ok a => k a
  | Err e => Err e
  end.

Notation "x <- c ;; k" := (bind c (fun x => k))
  (at level 61, c at next level, right associativity).
Notation "' pat <- c ;; k" := (bind c (fun x => match x with pat => k end))
  (at level 61, pat pattern, c at next level, right associativity).

Definition raises {A} (r : result A) : Prop := exists e, r = Err e.

Definition is_ok {A} (r : result A) : bool :=
  match r with Ok _ => true | Err _ => false end.

Fixpoint mapM {A B} (f : A -> result B) (l : list A) : result (list B) :=
  match l with
  | [] => Ok []
  | x :: t => y <- f x ;; ys <- mapM f t ;; Ok (y :: ys)
  end.

(** A loop that threads an accumulator and stops at the first exception. *)
Fixpoint foldM {A B} (f : B -> A -> result B) (l : list A) (acc : B)
  : result B :=
  match l with
  | [] => Ok acc
  | x :: t => acc' <- f acc x ;; foldM f t acc'
  end.

(* ------------------------------------------------------------------ *)
(** ** Python [str] and [bytes] *)

(** A [str] is a sequence of Unicode code points; [len] counts code points. *)
Definition pystr := list Z.
Definition bytes := list byte.

Definition lit (s : string) : pystr :=
  map (fun a => Z.of_N (N_of_ascii a)) (list_ascii_of_string s).
Arguments lit s%_string.

Definition Z_of_byte (b : byte) : Z := Z.of_N (Byte.to_N b).

Definition byte_of_Z (z : Z) : byte :=
  match Byte.of_N (Z.to_N (z mod 256)) with
  | Some b => b
  | None => x00
  end.

Definition blit (s : string) : bytes :=
  map (fun a => byte_of_Z (Z.of_N (N_of_ascii a))) (list_ascii_of_string s).
Arguments blit s%_string.

Fixpoint str_eqb (a b : pystr) : bool :=
  match a, b with
  | [], [] => true
  | x :: a', y :: b' => (x =? y) && str_eqb a' b'
  | _, _ => false
  end.

(** Lexicographic comparison by code point, as [str.__lt__] does. *)
Fixpoint str_compare (a b : pystr) : comparison :=
  match a, b with
  | [], [] => Eq
  | [], _ :: _ => Lt
  | _ :: _, [] => Gt
  | x :: a', y :: b' =>
      match x ?= y with
      | Eq => str_compare a' b'
      | c => c
      end
  end.

(** [data[a:b]] for [0 <= a]: slicing clamps, it never raises. *)
Definition slice {A} (l : list A) (a b : Z) : list A :=
  firstn (Z.to_nat (b - a)) (skipn (Z.to_nat a) l).

Definition len {A} (l : list A) : Z := Z.of_nat (length l).

(* ------------------------------------------------------------------ *)
(** ** Python [float]: IEEE-754 binary64 values

    A finite non-zero float is [(-1)^neg * m * 2^e]; the representation is
    canonical when [m] is odd, so that equal values are equal terms.  The
    same type carries binary16 and binary32 values (every one of them is a
    binary64 value), which is what widening on unpack produces. *)

Inductive pyfloat : Type :=
| FNaN
| FInf (neg : bool)
| FZero (neg : bool)
| FFin (neg : bool) (m : positive) (e : Z).

Fixpoint strip (m : positive) (e : Z) : positive * Z :=
  match m with
  | xO m' => strip m' (e + 1)
  | _ => (m, e)
  end.

Definition digits (m : positive) : Z := Z.pos (Pos.size m).

Definition canonical (f : pyfloat) : Prop :=
  match f with
  | FFin _ m _ => strip m 0 = (m, 0)
  | _ => True
  end.

(** [n / 2^k] rounded to the nearest integer, ties to even ([0 < k]). *)
Definition rne_shift (n k : Z) : Z :=
  let q := n / 2 ^ k in
  let r := n mod 2 ^ k in
  let half := 2 ^ (k - 1) in
  if r <? half then q
  else if half <? r then q + 1
  else if Z.even q then q else q + 1.

(** Rounding of [m * 2^e] to the format with [p] bits of precision, least
    exponent [emin] for the unit in the last place, and values below
    [2^emax]; overflow gives an infinity. *)
Definition round_to (p emin emax : Z) (neg : bool) (m : positive) (e : Z)
  : pyfloat :=
  let e' := Z.max (digits m + e - p) emin in
  let q := if e' <=? e then Z.pos m else rne_shift (Z.pos m) (e' - e) in
  let e'' := if e' <=? e then e else e' in
  match q with
  | Z.pos q' =>
      let '(m1, e1) := strip q' e'' in
      if emax <? digits m1 + e1 then FInf neg else FFin neg m1 e1
  | _ => FZero neg
  end.

Definition fits (p emin emax : Z) (f : pyfloat) : Prop :=
  match f with
  | FFin _ m e => digits m <= p /\ emin <= e /\ digits m + e <= emax
  | _ => True
  end.

Definition to_format (p emin emax : Z) (f : pyfloat) : pyfloat :=
  match f with
  | FFin s m e => round_to p emin emax s m e
  | _ => f
  end.

Definition to_double := to_format 53 (-1074) 1024.
Definition to_single := to_format 24 (-149) 128.
Definition to_half := to_format 11 (-24) 16.

(** The binary64 value nearest to [n / d] ([0 < n], [0 < d]): the quotient
    is computed with more than 64 extra bits and a sticky bit, then rounded
    once.  This is how a decimal literal, or the decimal string produced
    inside [round], is read back. *)
Definition float_of_ratio (neg : bool) (n d : Z) : pyfloat :=
  let k := 64 + Z.log2 d + 1 in
  let big := n * 2 ^ k in
  let q := big / d in
  let sticky := if big mod d =? 0 then 0 else 1 in
  match 2 * q + sticky with
  | Z.pos m => round_to 53 (-1074) 1024 neg m (- k - 1)
  | _ => FZero neg
  end.

(** [float(z)] for an [int]; Python raises [OverflowError] when the integer
    is beyond the binary64 range. *)
Definition float_of_int (z : Z) : result pyfloat :=
  match z with
  | Z0 => Ok (FZero false)
  | Z.pos m =>
      match round_to 53 (-1074) 1024 false m 0 with
      | FInf _ => Err OverflowError
      | f => Ok f
      end
  | Z.neg m =>
      match round_to 53 (-1074) 1024 true m 0 with
      | FInf _ => Err OverflowError
      | f => Ok f
      end
  end.

(** [round(x, 3)] on a float: the exact value is rounded half-even to three
    decimals, and the decimal result is read back as the nearest binary64
    value.  Non-finite values and zeros round to themselves. *)
Definition float_round3 (f : pyfloat) : pyfloat :=
  match f with
  | FFin s m e =>
      let n := if 0 <=? e then Z.pos m * 1000 * 2 ^ e
               else rne_shift (Z.pos m * 1000) (- e) in
      if n =? 0 then FZero s else float_of_ratio s n 1000
  | _ => f
  end.

(** *** Exact numeric value, for comparisons *)

Inductive xreal : Type :=
| XNaN
| XNegInf
| XFin (q : Q)
| XPosInf.

Definition dyadic_Q (m e : Z) : Q :=
  if 0 <=? e then inject_Z (m * 2 ^ e)
  else Qmake m (2 ^ Z.to_pos (- e))%positive.

Definition float_x (f : pyfloat) : xreal :=
  match f with
  | FNaN => XNaN
  | FInf true => XNegInf
  | FInf false => XPosInf
  | FZero _ => XFin 0%Q
  | FFin s m e => XFin (dyadic_Q (if s then Z.neg m else Z.pos m) e)
  end.

Definition x_lt (a b : xreal) : bool :=
  match a, b with
  | XNaN, _ | _, XNaN => false
  | XNegInf, XNegInf => false
  | XNegInf, _ => true
  | _, XNegInf => false
  | XPosInf, _ => false
  | _, XPosInf => true
  | XFin p, XFin q => match (p ?= q)%Q with Lt => true | _ => false end
  end.

Definition x_eq (a b : xreal) : bool :=
  match a, b with
  | XNegInf, XNegInf | XPosInf, XPosInf => true
  | XFin p, XFin q => match (p ?= q)%Q with Eq => true | _ => false end
  | _, _ => false
  end.

Definition x_le (a b : xreal) : bool := x_lt a b || x_eq a b.

(* ------------------------------------------------------------------ *)
(** ** Python values

    The JSON-like values a record can hold.  A [dict] is an association list
    in insertion order; its keys are hashable values (strings, for anything
    read from JSON). *)

Inductive value : Type :=
| VNone
| VBool (b : bool)
| VInt (z : Z)
| VFloat (f : pyfloat)
| VStr (s : pystr)
| VList (l : list value)
| VDict (d : list (value * value)).

Definition as_number (v : value) : option xreal :=
  match v with
  | VBool b => Some (XFin (inject_Z (Z.b2z b)))
  | VInt z => Some (XFin (inject_Z z))
  | VFloat f => Some (float_x f)
  | _ => None
  end.

Definition hashable (v : value) : bool :=
  match v with
  | VList _ | VDict _ => false
  | _ => true
  end.

(** Key equality of [dict]: equal hash and [==].  Numbers compare by value
    across [bool], [int] and [float].  A NaN key is found again only through
    object identity, which the model renders as NaN matching NaN. *)
Definition key_eqb (a b : value) : bool :=
  match a, b with
  | VNone, VNone => true
  | VStr s, VStr t => str_eqb s t
  | VFloat FNaN, VFloat FNaN => true
  | _, _ =>
      match as_number a, as_number b with
      | Some x, Some y => x_eq x y
      | _, _ => false
      end
  end.

Fixpoint dict_get {V} (d : list (value * V)) (k : value) : option V :=
  match d with
  | [] => None
  | (k', v) :: t => if key_eqb k' k then Some v else dict_get t k
  end.

(** [d[k] = v]: an existing key keeps its position. *)
Fixpoint dict_set {V} (d : list (value * V)) (k : value) (v : V)
  : list (value * V) :=
  match d with
  | [] => [(k, v)]
  | (k', v') :: t =>
      if key_eqb k' k then (k', v) :: t else (k', v') :: dict_set t k v
  end.

(** A [dict] comprehension: the pairs are stored one after the other. *)
Definition dict_of_list {V} (kvs : list (value * V)) : list (value * V) :=
  fold_left (fun d kv => dict_set d (fst kv) (snd kv)) kvs [].

(** [a == b]. *)
Fixpoint py_eq (a b : value) {struct a} : bool :=
  match a, b with
  | VNone, VNone => true
  | VStr s, VStr t => str_eqb s t
  | VList la, VList lb =>
      (fix go (la lb : list value) : bool :=
         match la, lb with
         | [], [] => true
         | x :: xs, y :: ys => py_eq x y && go xs ys
         | _, _ => false
         end) la lb
  | VDict da, VDict db =>
      (length da =? length db)%nat &&
      (fix go (da : list (value * value)) : bool :=
         match da with
         | [] => true
         | (k, v) :: t =>
             match dict_get db k with
             | Some v' => py_eq v v'
             | None => false
             end && go t
         end) da
  | _, _ =>
      match as_number a, as_number b with
      | Some x, Some y => x_eq x y
      | _, _ => false
      end
  end.

Inductive cmpop : Type := OpLt | OpLe | OpGt | OpGe.

Definition x_cmp (op : cmpop) (x y : xreal) : bool :=
  match op with
  | OpLt => x_lt x y
  | OpLe => x_le x y
  | OpGt => x_lt y x
  | OpGe => x_le y x
  end.

Definition cmp_holds (op : cmpop) (c : comparison) : bool :=
  match op, c with
  | OpLt, Lt | OpLe, Lt | OpLe, Eq
  | OpGt, Gt | OpGe, Gt | OpGe, Eq => true
  | _, _ => false
  end.

(** [a < b], [a <= b], [a > b], [a >= b]: defined between numbers, between
    strings and between lists; [TypeError] otherwise. *)
Fixpoint py_cmp (op : cmpop) (a b : value) {struct a} : result bool :=
  match a, b with
  | VStr s, VStr t => Ok (cmp_holds op (str_compare s t))
  | VList la, VList lb =>
      (fix go (la lb : list value) : result bool :=
         match la, lb with
         | [], [] => Ok (cmp_holds op Eq)
         | [], _ :: _ => Ok (cmp_holds op Lt)
         | _ :: _, [] => Ok (cmp_holds op Gt)
         | x :: xs, y :: ys =>
             if py_eq x y then go xs ys else py_cmp op x y
         end) la lb
  | _, _ =>
      match as_number a, as_number b with
      | Some x, Some y => Ok (x_cmp op x y)
      | _, _ => Err TypeError
      end
  end.

Definition py_lt := py_cmp OpLt.
Definition py_le := py_cmp OpLe.
Definition py_gt := py_cmp OpGt.

(** [min(values)]: the first element that no later element is [<] than. *)
Definition py_min (values : list value) : result value :=
  match values with
  | [] => Err ValueError
  | v :: t =>
      fold_left
        (fun acc item =>
           cur <- acc ;;
           b <- py_lt item cur ;;
           Ok (if b then item else cur))
        t (Ok v)
  end.

Definition py_max (values : list value) : result value :=
  match values with
  | [] => Err ValueError
  | v :: t =>
      fold_left
        (fun acc item =>
           cur <- acc ;;
           b <- py_gt item cur ;;
           Ok (if b then item else cur))
        t (Ok v)
  end.

(** [round(v, 3)]: an [int] (or [bool]) rounds to the same integer. *)
Definition py_round3 (v : value) : result value :=
  match v with
  | VBool b => Ok (VInt (Z.b2z b))
  | VInt z => Ok (VInt z)
  | VFloat f => Ok (VFloat (float_round3 f))
  | _ => Err TypeError
  end.

(** [sorted(idx, key=lambda i: column[i])], on the keys already looked up.
    The sort is stable and uses [<] only; it is rendered as an insertion
    sort, which returns the same list as any stable sort whenever [<] is a
    strict weak order on the keys, that is on numbers other than NaN.  On
    keys that hold a NaN every [<] with it is false and the list CPython
    returns depends on the runs and merges of its own algorithm: it is a
    permutation of the rows, and nothing more is stated of it below. *)
Fixpoint insert_by_key (x : nat * value) (l : list (nat * value))
  : result (list (nat * value)) :=
  match l with
  | [] => Ok [x]
  | y :: t =>
      b <- py_lt (snd y) (snd x) ;;
      if b then (r <- insert_by_key x t ;; Ok (y :: r))
      else Ok (x :: y :: t)
  end.

Fixpoint sort_by_key (l : list (nat * value)) : result (list (nat * value)) :=
  match l with
  | [] => Ok []
  | x :: t => r <- sort_by_key t ;; insert_by_key x r
  end.

(** [list(zip(range(n0, n0 + len(column)), column))]. *)
Fixpoint enumerate_from (n0 : nat) (column : list value)
  : list (nat * value) :=
  match column with
  | [] => []
  | v :: t => (n0, v) :: enumerate_from (S n0) t
  end.

(** [sorted(range(len(column)), key=lambda i: column[i])]. *)
Definition sorted_index (column : list value) : result (list nat) :=
  r <- sort_by_key (enumerate_from 0 column) ;; Ok (map fst r).

(* ------------------------------------------------------------------ *)
(** ** Type detection ([encoder.py], lines 14-63) *)

Inductive storage_type : Type :=
| TBool | TInt16 | TInt32 | TFloat16 | TFloat32 | TStr | TJson.

Definition type_name (t : storage_type) : pystr :=
  match t with
  | TBool => lit "bool"
  | TInt16 => lit "int16"
  | TInt32 => lit "int32"
  | TFloat16 => lit "float16"
  | TFloat32 => lit "float32"
  | TStr => lit "str"
  | TJson => lit "json"
  end.

Definition storage_type_eqb (a b : storage_type) : bool :=
  match a, b with
  | TBool, TBool | TInt16, TInt16 | TInt32, TInt32
  | TFloat16, TFloat16 | TFloat32, TFloat32 | TStr, TStr | TJson, TJson => true
  | _, _ => false
  end.

(** [lo <= v <= hi], a chained comparison: the second test runs only when
    the first holds. *)
Definition py_between (lo : Z) (v : value) (hi : Z) : result bool :=
  b1 <- py_le (VInt lo) v ;;
  if b1 then py_le v (VInt hi) else Ok false.

Definition detect_numeric_type_int (values : list value)
  : result storage_type :=
  min_v <- py_min values ;;
  max_v <- py_max values ;;
  b1 <- py_between (-32768) min_v 32767 ;;
  b2 <- (if b1 then py_between (-32768) max_v 32767 else Ok false) ;;
  if b2 then Ok TInt16 else Ok TInt32.

Fixpoint detect_numeric_type_float (values : list value)
  : result storage_type :=
  match values with
  | [] => Ok TFloat16
  | v :: t =>
      inr <- py_between (-65504) v 65504 ;;
      if negb inr then Ok TFloat32
      else
        r <- py_round3 v ;;
        if negb (py_eq r v) then Ok TFloat32
        else detect_numeric_type_float t
  end.

Definition detect_type (values : list value) : result storage_type :=
  match values with
  | [] => Err IndexError
  | first :: _ =>
      match first with
      | VBool _ => Ok TBool
      | VInt _ => detect_numeric_type_int values
      | VFloat _ => detect_numeric_type_float values
      | VStr _ => Ok TStr
      | _ => Ok TJson
      end
  end.

(* ------------------------------------------------------------------ *)
(** ** Built-in operations on values *)

(** Truth value, as [1 if v else 0] and [if fields] test it. *)
Definition py_truth (v : value) : bool :=
  match v with
  | VNone => false
  | VBool b => b
  | VInt z => negb (z =? 0)
  | VFloat (FZero _) => false
  | VFloat _ => true
  | VStr s => negb (len s =? 0)
  | VList l => negb (len l =? 0)
  | VDict d => negb (len d =? 0)
  end.

Definition py_len (v : value) : result Z :=
  match v with
  | VStr s => Ok (len s)
  | VList l => Ok (len l)
  | VDict d => Ok (len d)
  | _ => Err TypeError
  end.

(** [for x in v]: the items of a list, the characters of a string, the keys
    of a dict. *)
Definition py_iter (v : value) : result (list value) :=
  match v with
  | VList l => Ok l
  | VStr s => Ok (map (fun c => VStr [c]) s)
  | VDict d => Ok (map fst d)
  | _ => Err TypeError
  end.

(** [l[i]] on a sequence of length [n]: negative positions count from the
    end. *)
Definition seq_index {A} (l : list A) (i : Z) : result A :=
  let n := len l in
  let j := if i <? 0 then i + n else i in
  if (0 <=? j) && (j <? n) then
    match nth_error l (Z.to_nat j) with
    | Some x => Ok x
    | None => Err IndexError
    end
  else Err IndexError.

(** [c[k]]. *)
Definition py_getitem (c k : value) : result value :=
  match c with
  | VDict d =>
      if hashable k then
        match dict_get d k with
        | Some v => Ok v
        | None => Err KeyError
        end
      else Err TypeError
  | VList l =>
      match k with
      | VInt i => seq_index l i
      | VBool b => seq_index l (Z.b2z b)
      | _ => Err TypeError
      end
  | VStr s =>
      match k with
      | VInt i => c <- seq_index s i ;; Ok (VStr [c])
      | VBool b => c <- seq_index s (Z.b2z b) ;; Ok (VStr [c])
      | _ => Err TypeError
      end
  | _ => Err TypeError
  end.

(** *** [str.encode("utf-8")] and [bytes.decode()] *)

Definition utf8_char (c : Z) : result bytes :=
  if c <? 0 then Err UnicodeError
  else if c <? 128 then Ok [byte_of_Z c]
  else if c <? 2048 then
    Ok [byte_of_Z (192 + c / 64); byte_of_Z (128 + c mod 64)]
  else if c <? 65536 then
    if (55296 <=? c) && (c <=? 57343) then Err UnicodeError
    else Ok [byte_of_Z (224 + c / 4096); byte_of_Z (128 + (c / 64) mod 64);
             byte_of_Z (128 + c mod 64)]
  else if c <? 1114112 then
    Ok [byte_of_Z (240 + c / 262144); byte_of_Z (128 + (c / 4096) mod 64);
        byte_of_Z (128 + (c / 64) mod 64); byte_of_Z (128 + c mod 64)]
  else Err UnicodeError.

Fixpoint utf8_encode (s : pystr) : result bytes :=
  match s with
  | [] => Ok []
  | c :: t => b <- utf8_char c ;; r <- utf8_encode t ;; Ok (b ++ r)
  end.

(** [str.encode("latin-1")]: one byte per code point below 256. *)
Definition latin1_char (c : Z) : result byte :=
  if (0 <=? c) && (c <? 256) then Ok (byte_of_Z c) else Err UnicodeError.

Definition latin1_encode (s : pystr) : result bytes := mapM latin1_char s.

Definition is_cont (b : byte) : bool :=
  (128 <=? Z_of_byte b) && (Z_of_byte b <? 192).

Definition cont (b : byte) : Z := Z_of_byte b - 128.

(** Strict UTF-8 decoding: over-long forms, surrogates and truncated
    sequences are errors. *)
Fixpoint utf8_decode (bs : bytes) : result pystr :=
  match bs with
  | [] => Ok []
  | b0 :: t =>
      let x := Z_of_byte b0 in
      if x <? 128 then r <- utf8_decode t ;; Ok (x :: r)
      else if (194 <=? x) && (x <? 224) then
        match t with
        | b1 :: t1 =>
            if is_cont b1 then
              r <- utf8_decode t1 ;; Ok (((x - 192) * 64 + cont b1) :: r)
            else Err UnicodeError
        | _ => Err UnicodeError
        end
      else if (224 <=? x) && (x <? 240) then
        match t with
        | b1 :: b2 :: t2 =>
            let c := (x - 224) * 4096 + cont b1 * 64 + cont b2 in
            if is_cont b1 && is_cont b2 && (2048 <=? c)
               && negb ((55296 <=? c) && (c <=? 57343)) then
              r <- utf8_decode t2 ;; Ok (c :: r)
            else Err UnicodeError
        | _ => Err UnicodeError
        end
      else if (240 <=? x) && (x <? 245) then
        match t with
        | b1 :: b2 :: b3 :: t3 =>
            let c := (x - 240) * 262144 + cont b1 * 4096
                     + cont b2 * 64 + cont b3 in
            if is_cont b1 && is_cont b2 && is_cont b3
               && (65536 <=? c) && (c <? 1114112) then
              r <- utf8_decode t3 ;; Ok (c :: r)
            else Err UnicodeError
        | _ => Err UnicodeError
        end
      else Err UnicodeError
  end.

(* ------------------------------------------------------------------ *)
(** ** The [struct] module and the numpy conversions *)

Fixpoint le_bytes (k : nat) (n : Z) : bytes :=
  match k with
  | O => []
  | S k' => byte_of_Z n :: le_bytes k' (n / 256)
  end.

Fixpoint le_value (bs : bytes) : Z :=
  match bs with
  | [] => 0
  | b :: t => Z_of_byte b + 256 * le_value t
  end.

(** [struct.pack("I", n)]. *)
Definition pack_I (n : Z) : result bytes :=
  if (0 <=? n) && (n <? 2 ^ 32) then Ok (le_bytes 4 n) else Err StructError.

(** [struct.unpack("I", b)[0]]: the buffer must hold exactly four bytes. *)
Definition unpack_I (b : bytes) : result Z :=
  if len b =? 4 then Ok (le_value b) else Err StructError.

Definition signed (w : Z) (z : Z) : Z :=
  if z <? 2 ^ (w - 1) then z else z - 2 ^ w.

(** One integer of [struct.pack("h" / "i", ...)], on [k] bytes: the argument
    must be an [int] (a [bool] is one) within the signed range. *)
Definition pack_int (k : nat) (v : value) : result bytes :=
  let w := 8 * Z.of_nat k in
  let go (z : Z) :=
    if (- 2 ^ (w - 1) <=? z) && (z <? 2 ^ (w - 1))
    then Ok (le_bytes k (z mod 2 ^ w)) else Err StructError in
  match v with
  | VInt z => go z
  | VBool b => go (Z.b2z b)
  | _ => Err StructError
  end.

(** Splits a buffer into chunks of [k] bytes; [None] when the length is not
    a multiple of [k]. *)
Fixpoint chunks (fuel : nat) (k : nat) (b : bytes) : option (list bytes) :=
  match b with
  | [] => Some []
  | _ =>
      match fuel with
      | O => None
      | S fuel' =>
          if (length b <? k)%nat then None
          else
            match chunks fuel' k (skipn k b) with
            | Some r => Some (firstn k b :: r)
            | None => None
            end
      end
  end.

(** [n = len(packed) // k; struct.unpack(f"{n}h", packed)]: the buffer must
    hold exactly [n] items. *)
Definition unpack_ints (k : nat) (packed : bytes) : result (list value) :=
  match chunks (length packed) k packed with
  | Some cs =>
      Ok (map (fun c => VInt (signed (8 * Z.of_nat k) (le_value c))) cs)
  | None => Err StructError
  end.

(** The bit pattern of a value of the binary format with [p] bits of
    precision and [w] exponent bits. *)
Definition float_bits (p w : Z) (f : pyfloat) : Z :=
  let bias := 2 ^ (w - 1) - 1 in
  let sgn (s : bool) := if s then 2 ^ (p - 1 + w) else 0 in
  match f with
  | FNaN => (2 ^ w - 1) * 2 ^ (p - 1) + 2 ^ (p - 2)
  | FInf s => sgn s + (2 ^ w - 1) * 2 ^ (p - 1)
  | FZero s => sgn s
  | FFin s m e =>
      let d := digits m in
      if 1 - bias <=? d + e - 1 then
        sgn s + (d + e - 1 + bias) * 2 ^ (p - 1)
        + (Z.pos m * 2 ^ (p - d) - 2 ^ (p - 1))
      else sgn s + Z.pos m * 2 ^ (e - (2 - bias - p))
  end.

Definition bits_float (p w : Z) (bits : Z) : pyfloat :=
  let bias := 2 ^ (w - 1) - 1 in
  let s := negb ((bits / 2 ^ (p - 1 + w)) mod 2 =? 0) in
  let biased := (bits / 2 ^ (p - 1)) mod 2 ^ w in
  let frac := bits mod 2 ^ (p - 1) in
  if biased =? 2 ^ w - 1 then (if frac =? 0 then FInf s else FNaN)
  else if biased =? 0 then
    match frac with
    | Z.pos f => let '(m, e) := strip f (2 - bias - p) in FFin s m e
    | _ => FZero s
    end
  else
    match 2 ^ (p - 1) + frac with
    | Z.pos f => let '(m, e) := strip f (biased - bias - (p - 1)) in FFin s m e
    | _ => FZero s
    end.

(** The C double a numeric argument is converted to. *)
Definition as_double (v : value) : result pyfloat :=
  match v with
  | VFloat f => Ok f
  | VInt z => float_of_int z
  | VBool b => float_of_int (Z.b2z b)
  | VNone => Err TypeError
  | _ => Err ValueError
  end.

(** One float of [struct.pack("f", ...)] in native mode: the double is cast
    to a C float (a value beyond the binary32 range becomes an infinity); an
    argument that is not a number is a [struct.error]. *)
Definition pack_f32 (v : value) : result bytes :=
  match as_double v with
  | Ok x => Ok (le_bytes 4 (float_bits 24 8 (to_single x)))
  | Err _ => Err StructError
  end.

(** One element of [np.array(values, dtype=np.float16).tobytes()], for an
    element that is a number: the double is rounded to binary16, overflow
    gives an infinity.  numpy also converts [None], strings that spell a
    number and nested lists; the detector's comparisons raise on all of
    them, so a column the encoder packs as float16 holds numbers only, and
    the statements below that pack a column by itself ask for numbers. *)
Definition pack_f16 (v : value) : result bytes :=
  x <- as_double v ;; Ok (le_bytes 2 (float_bits 11 5 (to_half x))).

Definition unpack_floats (p w : Z) (k : nat) (err : pyerr) (packed : bytes)
  : result (list value) :=
  match chunks (length packed) k packed with
  | Some cs => Ok (map (fun c => VFloat (bits_float p w (le_value c))) cs)
  | None => Err err
  end.

(* ------------------------------------------------------------------ *)
(** ** The external libraries: [zstandard] and [orjson] *)

Record zstd_api : Type := {
  (** [ZstdCompressor(level=l).compress(b)] *)
  zstd_compress : Z -> bytes -> bytes;
  (** [ZstdDecompressor().decompress(b)] *)
  zstd_decompress : bytes -> result bytes
}.

Record json_api : Type := {
  dumps : value -> result bytes;
  loads : bytes -> result value
}.

(** [ZSTD = zstd.ZstdCompressor(level=7)] ([encoder.py], line 7). *)
Definition ZSTD_level : Z := 7.

(* ------------------------------------------------------------------ *)
(** ** Packing ([encoder.py], lines 70-90) *)

Definition pack_column (J : json_api) (values : list value)
    (col_type : storage_type) : result bytes :=
  match col_type with
  | TInt16 => r <- mapM (pack_int 2) values ;; Ok (concat r)
  | TInt32 => r <- mapM (pack_int 4) values ;; Ok (concat r)
  | TFloat16 => r <- mapM pack_f16 values ;; Ok (concat r)
  | TFloat32 => r <- mapM pack_f32 values ;; Ok (concat r)
  | TBool => Ok (map (fun v => byte_of_Z (if py_truth v then 1 else 0)) values)
  | TStr | TJson => dumps J (VList values)
  end.

Definition is_numeric_type (t : storage_type) : bool :=
  match t with
  | TInt16 | TInt32 | TFloat16 | TFloat32 => true
  | _ => false
  end.

(* ------------------------------------------------------------------ *)
(** ** The encoder ([encoder.py], lines 97-147) *)

Definition columns_t := list (value * list value).

(** [{f: [row[f] for row in json_data] for f in fields}]. *)
Definition build_columns (rows : list value) (fields : list value)
  : result columns_t :=
  r <- mapM (fun f =>
               col <- mapM (fun row => py_getitem row f) rows ;;
               Ok (f, col)) fields ;;
  Ok (dict_of_list r).

(** [{f: detect_type(col) for f, col in columns.items()}]. *)
Definition detect_types (columns : columns_t)
  : result (list (value * storage_type)) :=
  r <- mapM (fun fc => t <- detect_type (snd fc) ;; Ok (fst fc, t)) columns ;;
  Ok (dict_of_list r).

Definition lookup {V} (d : list (value * V)) (k : value) : result V :=
  match dict_get d k with
  | Some v => Ok v
  | None => Err KeyError
  end.

(** The loop of lines 108-111. *)
Definition compress_columns (Zs : zstd_api) (J : json_api)
    (fields : list value) (columns : columns_t)
    (types : list (value * storage_type)) : result (list (value * bytes)) :=
  foldM
    (fun d f =>
       col <- lookup columns f ;;
       t <- lookup types f ;;
       blob <- pack_column J col t ;;
       Ok (dict_set d f (zstd_compress Zs ZSTD_level blob)))
    fields [].

(** The loop of lines 114-119: one index per column of a numeric type. *)
Definition build_indexes (Zs : zstd_api) (J : json_api)
    (columns : columns_t) (types : list (value * storage_type))
  : result (list (value * bytes)) :=
  foldM
    (fun d ft =>
       if is_numeric_type (snd ft) then
         col <- lookup columns (fst ft) ;;
         sorted_idx <- sorted_index col ;;
         b <- dumps J (VList (map (fun i => VInt (Z.of_nat i)) sorted_idx)) ;;
         Ok (dict_set d (fst ft) (zstd_compress Zs ZSTD_level b))
       else Ok d)
    types [].

Definition schema_value (fields : list value)
    (types : list (value * storage_type)) : value :=
  VDict [(VStr (lit "fields"), VList fields);
         (VStr (lit "types"),
          VDict (map (fun ft => (fst ft, VStr (type_name (snd ft)))) types))].

(** A length-prefixed block: [struct.pack("I", len(b))] then [b]. *)
Definition write_block (b : bytes) : result bytes :=
  n <- pack_I (len b) ;; Ok (n ++ b).

(** Lines 134-137. *)
Definition write_columns (fields : list value)
    (compressed_columns : list (value * bytes)) : result bytes :=
  r <- mapM (fun f => col <- lookup compressed_columns f ;; write_block col)
         fields ;;
  Ok (concat r).

(** One entry of the index table (lines 142-145): the length written for
    the name is [len(f)], the name itself is [f.encode("utf-8")]. *)
Definition write_index (entry : value * bytes) : result bytes :=
  match fst entry with
  | VStr f =>
      n <- pack_I (len f) ;;
      name <- utf8_encode f ;;
      blk <- write_block (snd entry) ;;
      Ok (n ++ name ++ blk)
  | _ => Err TypeError
  end.

Definition write_indexes (indexes : list (value * bytes)) : result bytes :=
  n <- pack_I (len indexes) ;;
  r <- mapM write_index indexes ;;
  Ok (n ++ concat r).

Definition magic : bytes := blit "JONX".

(** Lines 98-119: what the encoder computes before it writes anything. *)
Record blocks : Type := {
  e_fields : list value;
  e_columns : columns_t;
  e_types : list (value * storage_type);
  e_compressed : list (value * bytes);
  e_indexes : list (value * bytes)
}.

Definition encode_blocks (Zs : zstd_api) (J : json_api) (json_data : value)
  : result blocks :=
  match json_data with
  | VList (row0 :: rest) =>
      let rows := row0 :: rest in
      fields <- match row0 with
                | VDict d => Ok (map fst d)
                | _ => Err AttributeError
                end ;;
      columns <- build_columns rows fields ;;
      types <- detect_types columns ;;
      compressed_columns <- compress_columns Zs J fields columns types ;;
      indexes <- build_indexes Zs J columns types ;;
      Ok {| e_fields := fields; e_columns := columns; e_types := types;
            e_compressed := compressed_columns; e_indexes := indexes |}
  | _ => Err ValueError
  end.

(** Lines 121-147: header, schema, columns, index table. *)
Definition write_container (Zs : zstd_api) (J : json_api) (b : blocks)
  : result bytes :=
  version <- pack_I 1 ;;
  schema_json <- dumps J (schema_value (e_fields b) (e_types b)) ;;
  schema_block <- write_block (zstd_compress Zs ZSTD_level schema_json) ;;
  cols <- write_columns (e_fields b) (e_compressed b) ;;
  idx <- write_indexes (e_indexes b) ;;
  Ok (magic ++ version ++ schema_block ++ cols ++ idx).

Definition encode_to_bytes (Zs : zstd_api) (J : json_api) (json_data : value)
  : result bytes :=
  b <- encode_blocks Zs J json_data ;; write_container Zs J b.

(* ------------------------------------------------------------------ *)
(** ** The decoder ([decoder.py], lines 7-80) *)

Fixpoint startswith (data prefix : bytes) : bool :=
  match prefix, data with
  | [], _ => true
  | p :: ps, d :: ds => Byte.eqb p d && startswith ds ps
  | _ :: _, [] => false
  end.

(** The branch on [col_type] of lines 35-55: which unpacker a schema value
    selects; anything that is not one of the five names is parsed as JSON. *)
Definition unpacker_of (col_type : value) : storage_type :=
  match col_type with
  | VStr s =>
      if str_eqb s (lit "int16") then TInt16
      else if str_eqb s (lit "int32") then TInt32
      else if str_eqb s (lit "float16") then TFloat16
      else if str_eqb s (lit "float32") then TFloat32
      else if str_eqb s (lit "bool") then TBool
      else TJson
  | _ => TJson
  end.

Definition unpack_column (J : json_api) (col_type : value) (packed : bytes)
  : result value :=
  match unpacker_of col_type with
  | TInt16 => r <- unpack_ints 2 packed ;; Ok (VList r)
  | TInt32 => r <- unpack_ints 4 packed ;; Ok (VList r)
  | TFloat16 => r <- unpack_floats 11 5 2 ValueError packed ;; Ok (VList r)
  | TFloat32 => r <- unpack_floats 24 8 4 StructError packed ;; Ok (VList r)
  | TBool => Ok (VList (map (fun b => VBool (negb (Z_of_byte b =? 0))) packed))
  | _ => loads J packed
  end.

(** [n = struct.unpack("I", data[offset:offset + 4])[0]]. *)
Definition read_u32 (data : bytes) (offset : Z) : result Z :=
  unpack_I (slice data offset (offset + 4)).

(** The loop of lines 27-55, threading [columns] and [offset]. *)
Fixpoint read_columns (Zs : zstd_api) (J : json_api) (data : bytes)
    (types : value) (fields : list value)
    (columns : list (value * value)) (offset : Z)
  : result (list (value * value) * Z) :=
  match fields with
  | [] => Ok (columns, offset)
  | field :: rest =>
      col_size <- read_u32 data offset ;;
      let offset := offset + 4 in
      packed <- zstd_decompress Zs (slice data offset (offset + col_size)) ;;
      let offset := offset + col_size in
      col_type <- py_getitem types field ;;
      col <- unpack_column J col_type packed ;;
      if hashable field then
        read_columns Zs J data types rest (dict_set columns field col) offset
      else Err TypeError
  end.

(** The loop of lines 61-65: the index table is stepped over, its bytes are
    not looked at. *)
Fixpoint skip_indexes (data : bytes) (n : nat) (offset : Z) : result Z :=
  match n with
  | O => Ok offset
  | S n' =>
      name_len <- read_u32 data offset ;;
      let offset := offset + (4 + name_len) in
      idx_size <- read_u32 data offset ;;
      let offset := offset + (4 + idx_size) in
      skip_indexes data n' offset
  end.

(** [{field: columns[field][i] for field in fields}]. *)
Definition build_row (columns : list (value * value)) (fields : list value)
    (i : Z) : result value :=
  r <- mapM (fun field =>
               col <- lookup columns field ;;
               x <- py_getitem col (VInt i) ;;
               Ok (field, x)) fields ;;
  Ok (VDict (dict_of_list r)).

Record decoded : Type := {
  version : Z;
  fields : value;
  types : value;
  num_rows : Z;
  json_data : list value
}.

(** Lines 8-65: header, schema, columns and the index table. *)
Record parsed : Type := {
  p_version : Z;
  p_fields : value;
  p_types : value;
  p_flist : list value;
  p_columns : list (value * value);
  p_end : Z
}.

Definition parse_container (Zs : zstd_api) (J : json_api) (data : bytes)
  : result parsed :=
  if negb (startswith data magic) then Err ValueError
  else
    version <- unpack_I (slice data 4 8) ;;
    schema_size <- read_u32 data 8 ;;
    schema_json <- zstd_decompress Zs (slice data 12 (12 + schema_size)) ;;
    schema <- loads J schema_json ;;
    let offset := 12 + schema_size in
    fields <- py_getitem schema (VStr (lit "fields")) ;;
    types <- py_getitem schema (VStr (lit "types")) ;;
    flist <- py_iter fields ;;
    '(columns, offset) <- read_columns Zs J data types flist [] offset ;;
    num_indexes <- read_u32 data offset ;;
    offset <- skip_indexes data (Z.to_nat num_indexes) (offset + 4) ;;
    Ok {| p_version := version; p_fields := fields; p_types := types;
          p_flist := flist; p_columns := columns; p_end := offset |}.

(** Lines 67-80: the rows are rebuilt from the columns; the number of rows
    is the length of the first field's column. *)
Definition reconstruct (p : parsed) : result decoded :=
  num_rows <- (if py_truth (p_fields p) then
                 f0 <- py_getitem (p_fields p) (VInt 0) ;;
                 col <- (if hashable f0 then lookup (p_columns p) f0
                         else Err TypeError) ;;
                 py_len col
               else Ok 0) ;;
  json_data <- mapM (fun i => build_row (p_columns p) (p_flist p)
                                (Z.of_nat i))
                 (seq 0 (Z.to_nat num_rows)) ;;
  Ok {| version := p_version p; fields := p_fields p; types := p_types p;
        num_rows := num_rows; json_data := json_data |}.

Definition decode_from_bytes (Zs : zstd_api) (J : json_api) (data : bytes)
  : result decoded :=
  p <- parse_container Zs J data ;; reconstruct p.

(* ------------------------------------------------------------------ *)
(** ** The lazy reader ([decoder.py], lines 83-164) *)

Record JONXFile : Type := {
  jx_fields : value;
  jx_types : value;
  jx_compressed_columns : list (value * bytes);
  jx_indexes : list (value * bytes)
}.

(** The loop of lines 109-113. *)
Fixpoint load_columns (data : bytes) (flist : list value)
    (acc : list (value * bytes)) (offset : Z)
  : result (list (value * bytes) * Z) :=
  match flist with
  | [] => Ok (acc, offset)
  | field :: rest =>
      col_size <- read_u32 data offset ;;
      let offset := offset + 4 in
      if hashable field then
        load_columns data rest
          (dict_set acc field (slice data offset (offset + col_size)))
          (offset + col_size)
      else Err TypeError
  end.

(** The loop of lines 119-128. *)
Fixpoint load_indexes (data : bytes) (n : nat)
    (acc : list (value * bytes)) (offset : Z)
  : result (list (value * bytes)) :=
  match n with
  | O => Ok acc
  | S n' =>
      name_len <- read_u32 data offset ;;
      let offset := offset + 4 in
      name <- utf8_decode (slice data offset (offset + name_len)) ;;
      let offset := offset + name_len in
      idx_size <- read_u32 data offset ;;
      let offset := offset + 4 in
      load_indexes data n'
        (dict_set acc (VStr name) (slice data offset (offset + idx_size)))
        (offset + idx_size)
  end.

(** [JONXFile(path)], on the bytes read from [path]. *)
Definition load_file (Zs : zstd_api) (J : json_api) (data : bytes)
  : result JONXFile :=
  r <- decode_from_bytes Zs J data ;;
  if negb (startswith data magic) then Err ValueError
  else
    schema_size <- read_u32 data 8 ;;
    flist <- py_iter (fields r) ;;
    '(cols, offset) <- load_columns data flist [] (12 + schema_size) ;;
    num_indexes <- read_u32 data offset ;;
    idx <- load_indexes data (Z.to_nat num_indexes) [] (offset + 4) ;;
    Ok {| jx_fields := fields r; jx_types := types r;
          jx_compressed_columns := cols; jx_indexes := idx |}.

Definition decompress_column (Zs : zstd_api) (J : json_api) (self : JONXFile)
    (field_name : value) (compressed : bytes) : result value :=
  packed <- zstd_decompress Zs compressed ;;
  t <- py_getitem (jx_types self) field_name ;;
  unpack_column J t packed.

Definition get_column (Zs : zstd_api) (J : json_api) (self : JONXFile)
    (field_name : value) : result value :=
  c <- (if hashable field_name
        then lookup (jx_compressed_columns self) field_name
        else Err TypeError) ;;
  decompress_column Zs J self field_name c.

(** [min(column)] on whatever the column is. *)
Definition py_min_of (column : value) : result value :=
  items <- py_iter column ;; py_min items.

Definition find_min (Zs : zstd_api) (J : json_api) (self : JONXFile)
    (field : value) (column : option value) (use_index : bool)
  : result value :=
  column <- match column with
            | Some c => Ok c
            | None => get_column Zs J self field
            end ;;
  if use_index then
    if hashable field then
      match dict_get (jx_indexes self) field with
      | Some blob =>
          raw <- zstd_decompress Zs blob ;;
          idx <- loads J raw ;;
          i0 <- py_getitem idx (VInt 0) ;;
          py_getitem column i0
      | None => py_min_of column
      end
    else Err TypeError
  else py_min_of column.

(* ------------------------------------------------------------------ *)
(** ** The preview endpoint ([server.py], lines 595-637) *)

Record preview_t : Type := {
  pv_fields : list value;
  pv_types : list (value * storage_type);
  pv_num_rows : Z;
  estimated_size : Z
}.

(** [p.get(field)]: a missing key reads as [None]. *)
Definition dict_get_default (p : list (value * value)) (field : value)
  : value :=
  match dict_get p field with
  | Some v => v
  | None => VNone
  end.

Definition is_preview_indexed (t : storage_type) : bool :=
  match t with
  | TInt32 | TFloat32 => true
  | _ => false
  end.

Definition preview_level : Z := 3.

Definition preview_body (Zs : zstd_api) (J : json_api)
    (data : list (list (value * value))) : result preview_t :=
  match data with
  | [] => Err HTTPException
  | row0 :: _ =>
      let fields := map fst row0 in
      let columns :=
        dict_of_list
          (map (fun f => (f, map (fun p => dict_get_default p f) data))
               fields) in
      types <- detect_types columns ;;
      schema_json <- dumps J (schema_value fields types) ;;
      let size0 :=
        8 + (4 + len (zstd_compress Zs preview_level schema_json)) in
      size1 <- foldM
                 (fun sz f =>
                    col <- lookup columns f ;;
                    t <- lookup types f ;;
                    packed <- pack_column J col t ;;
                    Ok (sz + (4 + len (zstd_compress Zs preview_level packed))))
                 fields size0 ;;
      size2 <- foldM
                 (fun sz ft =>
                    if is_preview_indexed (snd ft) then
                      col <- lookup columns (fst ft) ;;
                      sorted_idx <- sorted_index col ;;
                      b <- dumps J (VList (map (fun i => VInt (Z.of_nat i))
                                             sorted_idx)) ;;
                      name <- match fst ft with
                              | VStr s => utf8_encode s
                              | _ => Err AttributeError
                              end ;;
                      Ok (sz + (4 + len name + 4
                                + len (zstd_compress Zs preview_level b)))
                    else Ok sz)
                 types (size1 + 4) ;;
      Ok {| pv_fields := fields; pv_types := types;
            pv_num_rows := len data; estimated_size := size2 |}
  end.

(** Every exception of the body is turned into an [HTTPException]. *)
Definition preview (Zs : zstd_api) (J : json_api)
    (data : list (list (value * value))) : result preview_t :=
  match preview_body Zs J data with
  | Ok r => Ok r
  | Err _ => Err HTTPException
  end.

(* ------------------------------------------------------------------ *)
(** ** The other endpoints ([server.py], lines 184-487)

    The body of an endpoint runs inside [try].  What it raises is either
    an exception of the codec or an [HTTPException] with a status; the
    [except] clauses that follow turn it into the [HTTPException] the
    client gets.  [HTTPException] derives from [Exception], so that the
    clause [except Exception] also catches the ones the body raised
    itself. *)

Inductive raised : Type :=
| Exn (e : pyerr)
| Http (status : Z).

Inductive outcome (A : Type) : Type :=
| Return (a : A)
| Raise (x : raised).
Arguments Return {A} a.
Arguments Raise {A} x.

Definition lift {A} (r : result A) : outcome A :=
  match r with
  | Ok a => Return a
  | Err e => Raise (Exn e)
  end.

Definition obind {A B} (r : outcome A) (k : A -> outcome B) : outcome B :=
  match r with
  | Return a => k a
  | Raise x => Raise x
  end.

(** The exceptions that [except ValueError] catches: [ValueError] and its
    subclasses [orjson.JSONDecodeError] and [UnicodeError]. *)
Definition is_value_error (e : pyerr) : bool :=
  match e with
  | ValueError | JSONDecodeError | UnicodeError => true
  | _ => false
  end.

(** An uploaded file: its name, if any, and its content. *)
Record upload : Type := {
  filename : option pystr;
  content : bytes
}.

(** [not file.filename]: no name, or an empty one. *)
Definition no_filename (file : upload) : bool :=
  match filename file with
  | Some (_ :: _) => false
  | _ => true
  end.

Definition the_filename (file : upload) : pystr :=
  match filename file with
  | Some s => s
  | None => []
  end.

(** [s.rsplit('.', 1)]: [Some] of what precedes the last dot, [None] when
    [s] has no dot. *)
Fixpoint before_last_dot (s : pystr) : option pystr :=
  match s with
  | [] => None
  | c :: t =>
      match before_last_dot t with
      | Some h => Some (c :: h)
      | None => if c =? 46 then Some [] else None
      end
  end.

(** [s.rsplit('.', 1)[0]]. *)
Definition rsplit_head (s : pystr) : pystr :=
  match before_last_dot s with
  | Some h => h
  | None => s
  end.

(** The [Response] of the two encoding endpoints. *)
Record response : Type := {
  r_content : bytes;
  r_media_type : pystr;
  r_disposition : pystr
}.

Definition attachment (name : pystr) : pystr :=
  lit "attachment; filename=" ++ [34] ++ name ++ [34].

Definition is_list (v : value) : bool :=
  match v with
  | VList _ => true
  | _ => false
  end.

(** [Response(content, media_type, headers)] with a Content-Disposition
    header: the constructor encodes the name and the value of the header,
    then the content type, as latin-1, and raises [UnicodeEncodeError] on a
    code point it cannot encode. *)
Definition make_response (content : bytes) (media_type disposition : pystr)
  : result response :=
  _ <- latin1_encode (lit "content-disposition") ;;
  _ <- latin1_encode disposition ;;
  _ <- latin1_encode media_type ;;
  Ok {| r_content := content;
        r_media_type := media_type;
        r_disposition := disposition |}.

(** [encode] (lines 184-266): the [try] body, then the endpoint with its
    two [except] clauses. *)
Definition api_encode_body (Zs : zstd_api) (J : json_api) (file : upload)
  : outcome response :=
  if no_filename file then Raise (Http 400)
  else
    obind (lift (loads J (content file))) (fun json_data =>
    if negb (is_list json_data) then Raise (Http 400)
    else
      obind (lift (py_len json_data)) (fun n =>
      if n =? 0 then Raise (Http 400)
      else
        obind (lift (encode_to_bytes Zs J json_data)) (fun jonx_bytes =>
        let output_filename :=
          rsplit_head (the_filename file) ++ lit ".json++" in
        lift (make_response jonx_bytes (lit "application/octet-stream")
                (attachment output_filename))))).

Definition api_encode (Zs : zstd_api) (J : json_api) (file : upload)
  : outcome response :=
  match api_encode_body Zs J file with
  | Return r => Return r
  | Raise (Exn JSONDecodeError) => Raise (Http 400)
  | Raise _ => Raise (Http 500)
  end.

(** [encode_from_json] (lines 291-367); [request.data] was validated as a
    list of objects before the body runs. *)
Definition api_encode_from_json_body (Zs : zstd_api) (J : json_api)
    (data : list (list (value * value))) : outcome response :=
  let json_data := VList (map VDict data) in
  if negb (is_list json_data) then Raise (Http 400)
  else if len data =? 0 then Raise (Http 400)
  else
    obind (lift (encode_to_bytes Zs J json_data)) (fun jonx_bytes =>
    lift (make_response jonx_bytes (lit "application/octet-stream")
            (attachment (lit "output.json++")))).

Definition api_encode_from_json (Zs : zstd_api) (J : json_api)
    (data : list (list (value * value))) : outcome response :=
  match api_encode_from_json_body Zs J data with
  | Return r => Return r
  | Raise _ => Raise (Http 500)
  end.

(** [decode] (lines 389-487). *)
Record decode_reply : Type := {
  d_success : bool;
  d_file_name : pystr;
  d_file_size : Z;
  d_version : Z;
  d_fields : value;
  d_types : value;
  d_num_rows : Z;
  d_json_data : list value
}.

Definition api_decode_body (Zs : zstd_api) (J : json_api) (file : upload)
  : outcome decode_reply :=
  if no_filename file then Raise (Http 400)
  else
    let file_data := content file in
    obind (lift (decode_from_bytes Zs J file_data)) (fun result =>
    Return {| d_success := true;
              d_file_name := the_filename file;
              d_file_size := len file_data;
              d_version := version result;
              d_fields := fields result;
              d_types := types result;
              d_num_rows := num_rows result;
              d_json_data := json_data result |}).

Definition api_decode (Zs : zstd_api) (J : json_api) (file : upload)
  : outcome decode_reply :=
  match api_decode_body Zs J file with
  | Return r => Return r
  | Raise (Exn e) =>
      if is_value_error e then Raise (Http 400) else Raise (Http 500)
  | Raise (Http _) => Raise (Http 500)
  end.

(* ------------------------------------------------------------------ *)
(** ** Reference instances of the two libraries

    A stored-frame compressor (magic number, content size, content) and a
    binary value serializer.  They are executable stand-ins on which the
    laws assumed of [zstandard] and [orjson] are proved, and on which the
    codec is run. *)

Fixpoint pos_code (p : positive) : bytes :=
  match p with
  | xH => [x00]
  | xO q => x01 :: pos_code q
  | xI q => x02 :: pos_code q
  end.

Fixpoint pos_parse (b : bytes) : option (positive * bytes) :=
  match b with
  | [] => None
  | t :: r =>
      if Z_of_byte t =? 0 then Some (xH, r)
      else if Z_of_byte t =? 1 then
        match pos_parse r with
        | Some (q, r') => Some (xO q, r')
        | None => None
        end
      else if Z_of_byte t =? 2 then
        match pos_parse r with
        | Some (q, r') => Some (xI q, r')
        | None => None
        end
      else None
  end.

Definition frame_magic : bytes := [x28; xb5; x2f; xfd].

Definition stored_compress (level : Z) (b : bytes) : bytes :=
  frame_magic ++ pos_code (Pos.of_succ_nat (length b)) ++ b.

Definition stored_decompress (b : bytes) : result bytes :=
  if startswith b frame_magic then
    match pos_parse (skipn 4 b) with
    | Some (p, r) =>
        if (S (length r) =? Pos.to_nat p)%nat then Ok r else Err ZstdError
    | None => Err ZstdError
    end
  else Err ZstdError.

Definition stored_zstd : zstd_api :=
  {| zstd_compress := stored_compress; zstd_decompress := stored_decompress |}.

Definition zcode (z : Z) : bytes :=
  match z with
  | Z0 => [x00]
  | Zpos p => x01 :: pos_code p
  | Zneg p => x02 :: pos_code p
  end.

Definition zparse (b : bytes) : option (Z * bytes) :=
  match b with
  | [] => None
  | t :: r =>
      if Z_of_byte t =? 0 then Some (0, r)
      else if Z_of_byte t =? 1 then
        match pos_parse r with
        | Some (p, r') => Some (Zpos p, r')
        | None => None
        end
      else if Z_of_byte t =? 2 then
        match pos_parse r with
        | Some (p, r') => Some (Zneg p, r')
        | None => None
        end
      else None
  end.

Definition bcode (b : bool) : byte := if b then x01 else x00.

Definition bparse (b : bytes) : option (bool * bytes) :=
  match b with
  | [] => None
  | t :: r =>
      if Z_of_byte t =? 0 then Some (false, r)
      else if Z_of_byte t =? 1 then Some (true, r)
      else None
  end.

Definition fcode (f : pyfloat) : bytes :=
  match f with
  | FNaN => [x00]
  | FInf s => [x01; bcode s]
  | FZero s => [x02; bcode s]
  | FFin s m e => x03 :: bcode s :: pos_code m ++ zcode e
  end.

Definition fparse (b : bytes) : option (pyfloat * bytes) :=
  match b with
  | [] => None
  | t :: r =>
      if Z_of_byte t =? 0 then Some (FNaN, r)
      else if Z_of_byte t =? 1 then
        match bparse r with
        | Some (s, r') => Some (FInf s, r')
        | None => None
        end
      else if Z_of_byte t =? 2 then
        match bparse r with
        | Some (s, r') => Some (FZero s, r')
        | None => None
        end
      else if Z_of_byte t =? 3 then
        match bparse r with
        | Some (s, r1) =>
            match pos_parse r1 with
            | Some (m, r2) =>
                match zparse r2 with
                | Some (e, r3) => Some (FFin s m e, r3)
                | None => None
                end
            | None => None
            end
        | None => None
        end
      else None
  end.

Fixpoint str_code (s : pystr) : bytes :=
  match s with
  | [] => [x00]
  | c :: t => x01 :: zcode c ++ str_code t
  end.

Fixpoint str_parse (fuel : nat) (b : bytes) : option (pystr * bytes) :=
  match fuel, b with
  | S fuel', t :: r =>
      if Z_of_byte t =? 0 then Some ([], r)
      else if Z_of_byte t =? 1 then
        match zparse r with
        | Some (c, r1) =>
            match str_parse fuel' r1 with
            | Some (s, r2) => Some (c :: s, r2)
            | None => None
            end
        | None => None
        end
      else None
  | _, _ => None
  end.

Fixpoint items_code (ser : value -> bytes) (l : list value) : bytes :=
  match l with
  | [] => [x00]
  | x :: t => x01 :: ser x ++ items_code ser t
  end.

Fixpoint pairs_code (ser : value -> bytes) (d : list (value * value))
  : bytes :=
  match d with
  | [] => [x00]
  | (k, x) :: t => x01 :: ser k ++ ser x ++ pairs_code ser t
  end.

Fixpoint js_ser (v : value) : bytes :=
  match v with
  | VNone => [x00]
  | VBool b => [x01; bcode b]
  | VInt z => x02 :: zcode z
  | VFloat f => x03 :: fcode f
  | VStr s => x04 :: str_code s
  | VList l => x05 :: items_code js_ser l
  | VDict d => x06 :: pairs_code js_ser d
  end.

Fixpoint js_parse (fuel : nat) (b : bytes) : option (value * bytes) :=
  match fuel, b with
  | S fuel', t :: r =>
      if Z_of_byte t =? 0 then Some (VNone, r)
      else if Z_of_byte t =? 1 then
        match bparse r with
        | Some (x, r') => Some (VBool x, r')
        | None => None
        end
      else if Z_of_byte t =? 2 then
        match zparse r with
        | Some (z, r') => Some (VInt z, r')
        | None => None
        end
      else if Z_of_byte t =? 3 then
        match fparse r with
        | Some (f, r') => Some (VFloat f, r')
        | None => None
        end
      else if Z_of_byte t =? 4 then
        match str_parse fuel' r with
        | Some (s, r') => Some (VStr s, r')
        | None => None
        end
      else if Z_of_byte t =? 5 then
        match js_parse_items fuel' r with
        | Some (l, r') => Some (VList l, r')
        | None => None
        end
      else if Z_of_byte t =? 6 then
        match js_parse_pairs fuel' r with
        | Some (d, r') => Some (VDict d, r')
        | None => None
        end
      else None
  | _, _ => None
  end
with js_parse_items (fuel : nat) (b : bytes) : option (list value * bytes) :=
  match fuel, b with
  | S fuel', t :: r =>
      if Z_of_byte t =? 0 then Some ([], r)
      else if Z_of_byte t =? 1 then
        match js_parse fuel' r with
        | Some (x, r1) =>
            match js_parse_items fuel' r1 with
            | Some (l, r2) => Some (x :: l, r2)
            | None => None
            end
        | None => None
        end
      else None
  | _, _ => None
  end
with js_parse_pairs (fuel : nat) (b : bytes)
  : option (list (value * value) * bytes) :=
  match fuel, b with
  | S fuel', t :: r =>
      if Z_of_byte t =? 0 then Some ([], r)
      else if Z_of_byte t =? 1 then
        match js_parse fuel' r with
        | Some (k, r1) =>
            match js_parse fuel' r1 with
            | Some (x, r2) =>
                match js_parse_pairs fuel' r2 with
                | Some (d, r3) => Some ((k, x) :: d, r3)
                | None => None
                end
            | None => None
            end
        | None => None
        end
      else None
  | _, _ => None
  end.

Definition ref_dumps (v : value) : result bytes := Ok (js_ser v).

Definition ref_loads (b : bytes) : result value :=
  match js_parse (length b) b with
  | Some (v, []) => Ok v
  | _ => Err JSONDecodeError
  end.

Definition ref_json : json_api := {| dumps := ref_dumps; loads := ref_loads |}.

(** Literals: the float nearest to a decimal fraction, and a record with
    string keys. *)
Definition flt (n d : Z) : value :=
  VFloat (match n with
          | Z.neg p => float_of_ratio true (Z.pos p) d
          | _ => float_of_ratio false n d
          end).

Definition fld (name : string) (v : value) : value * value :=
  (VStr (lit name), v).
Arguments fld name%_string v.

(** A container written by hand, whose second column holds more values
    than its first. *)
Definition mismatched_container : result bytes :=
  a <- mapM (pack_int 2) [VInt 1] ;;
  b <- mapM (pack_int 2) [VInt 10; VInt 20] ;;
  write_container stored_zstd ref_json
    {| e_fields := [VStr (lit "a"); VStr (lit "b")];
       e_columns := [];
       e_types := [(VStr (lit "a"), TInt16); (VStr (lit "b"), TInt16)];
       e_compressed :=
         [(VStr (lit "a"), stored_compress ZSTD_level (concat a));
          (VStr (lit "b"), stored_compress ZSTD_level (concat b))];
       e_indexes := [] |}.

Definition mismatched_bytes : bytes :=
  match mismatched_container with
  | Ok b => b
  | Err _ => []
  end.

(** A container with one integer column, hence one index. *)
Definition sample_rows : value := VList [VDict [fld "x" (VInt 7)]].

Definition sample_container : bytes :=
  match encode_to_bytes stored_zstd ref_json sample_rows with
  | Ok b => b
  | Err _ => []
  end.

(** Two containers with one float column each, and the readers loaded
    from them: prices stored as float32, and a column that holds a NaN. *)
Definition price_column : list value := [flt 5 2; flt 1 10; flt 10001 10000].

Definition price_rows : value :=
  VList (map (fun v => VDict [fld "x" v]) price_column).

Definition nan_rows : value :=
  VList [VDict [fld "x" (flt 2 1)]; VDict [fld "x" (VFloat FNaN)];
         VDict [fld "x" (flt 1 1)]].

Definition empty_file : JONXFile :=
  {| jx_fields := VNone; jx_types := VNone;
     jx_compressed_columns := []; jx_indexes := [] |}.

Definition container_of (rows : value) : bytes :=
  match encode_to_bytes stored_zstd ref_json rows with
  | Ok b => b
  | Err _ => []
  end.

Definition file_of (rows : value) : JONXFile :=
  match load_file stored_zstd ref_json (container_of rows) with
  | Ok self => self
  | Err _ => empty_file
  end.

(** A list of records with one column of each kind, all of whose values
    are stored without change. *)
Definition shop_records : list value :=
  [VDict [fld "id" (VInt 1); fld "name" (VStr (lit "pen"));
          fld "price" (flt 5 2); fld "stock" (VBool true)];
   VDict [fld "id" (VInt 70000); fld "name" (VStr (lit "ink"));
          fld "price" (flt 1 4); fld "stock" (VBool false)]].

Definition shop_rows : value := VList shop_records.

Definition empty_blocks : blocks :=
  {| e_fields := []; e_columns := []; e_types := [];
     e_compressed := []; e_indexes := [] |}.

Definition blocks_of (rows : value) : blocks :=
  match encode_blocks stored_zstd ref_json rows with
  | Ok b => b
  | Err _ => empty_blocks
  end.

(** A list whose first record has no key, and a list with an integer
    beyond 32 bits. *)
Definition hollow_rows : value :=
  VList [VDict []; VDict [fld "a" (VInt 1)]].

Definition wide_rows : value :=
  VList [VDict [fld "id" (VInt 1)]; VDict [fld "id" (VInt 5000000000)]].

(** Two lists that agree on the keys of the first record: the second
    record of one has a key more, in another order. *)
Definition plain_rows : value :=
  VList [VDict [fld "a" (VInt 1); fld "b" (VStr (lit "x"))];
         VDict [fld "a" (VInt 2); fld "b" (VStr (lit "y"))]].

Definition padded_rows : value :=
  VList [VDict [fld "a" (VInt 1); fld "b" (VStr (lit "x"))];
         VDict [fld "c" (VBool true); fld "b" (VStr (lit "y"));
                fld "a" (VInt 2)]].
(* ------------------------------------------------------------------ *)
(** ** Predicates on values used in the statements *)

Definition not_nan (x : xreal) : Prop := x <> XNaN.

(** A value that is a number other than NaN. *)
Definition real (v : value) : Prop :=
  exists x, as_number v = Some x /\ not_nan x.

Definition number (v : value) : Prop := exists x, as_number v = Some x.

(** [v <= w] between two numbers, as a proposition. *)
Definition vle (v w : value) : Prop :=
  match as_number v, as_number w with
  | Some x, Some y => x_le x y = true
  | _, _ => False
  end.


(** [lo <= v <= hi] for a number [v]; a value that is not a number lies in
    no interval. *)
Definition in_range (lo hi : Z) (v : value) : bool :=
  match as_number v with
  | Some x => x_le (XFin (inject_Z lo)) x && x_le x (XFin (inject_Z hi))
  | None => false
  end.

(** [round(v, 3) == v]. *)
Definition round3_exact (v : value) : bool :=
  match py_round3 v with
  | Ok r => py_eq r v
  | Err _ => false
  end.

Definition fits_float16 (v : value) : bool :=
  in_range (-65504) 65504 v && round3_exact v.

(** Field names as JSON has them: the keys of a record are strings. *)
Definition is_str (v : value) : Prop := exists s, v = VStr s.

(** What [struct.pack] takes for an integer format: an [int] or a [bool]. *)
Definition int_like (v : value) : Prop :=
  match v with
  | VInt _ | VBool _ => True
  | _ => False
  end.

Definition is_dict (v : value) : Prop := exists d, v = VDict d.

(** The value of row [i] of a column. *)
Definition key_at (column : list value) (i : nat) : value :=
  nth i column VNone.

(** The order an index must list the rows in: ascending values, and rows
    with equal values in row order. *)
Definition index_order (column : list value) (i j : nat) : Prop :=
  vle (key_at column i) (key_at column j)
  /\ (vle (key_at column j) (key_at column i) -> (i < j)%nat).

Definition no_nan (column : list value) : Prop :=
  Forall (fun v => v <> VFloat FNaN) column.

(** The JSON array an index is stored as. *)
Definition index_value (idx : list nat) : value :=
  VList (map (fun i => VInt (Z.of_nat i)) idx).

(** The same order on the (row, value) pairs the sort works on. *)
Definition pair_order (x y : nat * value) : Prop :=
  vle (snd x) (snd y) /\ (vle (snd y) (snd x) -> (fst x < fst y)%nat).


(** *** Laws of the two libraries *)

(** Decompression inverts compression, at every level. *)
Definition zstd_roundtrip (Zs : zstd_api) : Prop :=
  forall level b, zstd_decompress Zs (zstd_compress Zs level b) = Ok b.

(** A frame that was cut short is refused. *)
Definition zstd_rejects_truncated (Zs : zstd_api) : Prop :=
  forall level b k,
    (k < length (zstd_compress Zs level b))%nat ->
    raises (zstd_decompress Zs (firstn k (zstd_compress Zs level b))).

(** Values JSON can carry exactly: no NaN, no infinity, string keys. *)
Fixpoint json_clean (v : value) : bool :=
  match v with
  | VFloat FNaN | VFloat (FInf _) => false
  | VList l => forallb json_clean l
  | VDict d =>
      forallb (fun kv => match fst kv with
                         | VStr _ => json_clean (snd kv)
                         | _ => false
                         end) d
  | _ => true
  end.

(** What was serialized is read back unchanged. *)
Definition json_roundtrip (J : json_api) : Prop :=
  forall v b, json_clean v = true -> dumps J v = Ok b -> loads J b = Ok v.

(** The reference parser reads back what the reference serializer wrote,
    given fuel for it. *)
Definition parses (x : value) : Prop :=
  forall fuel r, (length (js_ser x) <= fuel)%nat ->
                 js_parse fuel (js_ser x ++ r) = Some (x, r).


(** *** The byte layout of a container *)

(** A length-prefixed block. *)
Definition block (c : bytes) : bytes := le_bytes 4 (len c) ++ c.

(** An entry of the index table: name and payload, both length-prefixed. *)
Definition entry_bytes (e : bytes * bytes) : bytes :=
  block (fst e) ++ block (snd e).

(** The part of a container that the decoder never looks at: the payload
    of the last index entry. *)
Definition unread_tail (indexes : list (value * bytes)) : nat :=
  length (snd (last indexes (VNone, []))).

(** The bytes of an ASCII field name, and the table entry of an index. *)
Definition name_bytes (k : value) : bytes :=
  match k with
  | VStr s => map byte_of_Z s
  | _ => []
  end.

Definition index_entry (kv : value * bytes) : bytes * bytes :=
  (name_bytes (fst kv), snd kv).


Definition ascii_str (s : pystr) : Prop := Forall (fun c => 0 <= c < 128) s.

(** Field names made of ASCII characters. *)
Definition ascii_names (keys : list value) : Prop :=
  Forall (fun k => exists s, k = VStr s /\ ascii_str s) keys.

(** *** What a stored column reads back as *)

Definition int_of (v : value) : Z :=
  match v with
  | VInt z => z
  | VBool b => Z.b2z b
  | _ => 0
  end.

Definition double_of (v : value) : pyfloat :=
  match as_double v with
  | Ok x => x
  | Err _ => FNaN
  end.

(** The value that a value written into a column of type [t] is read back
    as. *)
Definition stored (t : storage_type) (v : value) : value :=
  match t with
  | TInt16 | TInt32 => VInt (int_of v)
  | TFloat16 => VFloat (to_half (double_of v))
  | TFloat32 => VFloat (to_single (double_of v))
  | TBool => VBool (py_truth v)
  | TStr | TJson => v
  end.

(** A float that is a binary64 value, in canonical form. *)
Definition binary64 (v : value) : Prop :=
  match v with
  | VFloat f => canonical f /\ fits 53 (-1074) 1024 f
  | _ => True
  end.

(** *** Dictionaries filled by a run of assignments *)

(** [for k, v in l: acc[k] = v]. *)
Definition assign_all {V} (l acc : list (value * V)) : list (value * V) :=
  fold_left (fun d kv => dict_set d (fst kv) (snd kv)) l acc.

(** *** Exact values of floats, for the proofs about rounding *)

(** The exponent of the unit in the last place that [m * 2^e] is rounded
    at. *)
Definition grid (p emin : Z) (m : positive) (e : Z) : Z :=
  Z.max (digits m + e - p) emin.

(** [n / 2^k] to the nearest integer, for [0 <= k]. *)
Definition near (n k : Z) : Z := if k =? 0 then n else rne_shift n k.

(** The rounded magnitude of [m * 2^e], counted in units of [2^c]. *)
Definition units (p emin c : Z) (m : positive) (e : Z) : Z :=
  near (Z.pos m * 2 ^ (e - c)) (grid p emin m e - c)
  * 2 ^ (grid p emin m e - c).

(** [x] is the real [n * 2^c], for [c <= 0]. *)
Definition at_scale (c : Z) (x : xreal) (n : Z) : Prop :=
  exists q, x = XFin q /\ (q == n # Z.to_pos (2 ^ (- c)))%Q.

Definition signed_pos (s : bool) (m : positive) : Z :=
  if s then Z.neg m else Z.pos m.

Definition int_float (z : Z) : pyfloat :=
  match z with
  | Z0 => FZero false
  | Z.pos m => FFin false m 0
  | Z.neg m => FFin true m 0
  end.

(** The float with the exact value of a number. *)
Definition exact_float (v : value) : pyfloat :=
  match v with
  | VFloat f => f
  | VInt z => int_float z
  | VBool b => int_float (Z.b2z b)
  | _ => FNaN
  end.

(** *** What the decoder rebuilds from an encoded list *)

(** A column that goes through JSON holds values JSON carries exactly. *)
Definition clean_column (t : storage_type) (c : list value) : Prop :=
  match t with
  | TStr | TJson => json_clean (VList c) = true
  | _ => True
  end.

Definition type_of (b : blocks) (f : value) : storage_type :=
  match dict_get (e_types b) f with
  | Some t => t
  | None => TJson
  end.

Definition column_of (b : blocks) (f : value) : list value :=
  match dict_get (e_columns b) f with
  | Some c => c
  | None => []
  end.

(** Row [i] as it is rebuilt: the fields of the first record, each with
    the stored form of the value the row had for it. *)
Definition stored_row (b : blocks) (i : nat) : value :=
  VDict (dict_of_list
           (map (fun f => (f, stored (type_of b f)
                                (nth i (column_of b f) VNone)))
              (e_fields b))).

Definition stored_rows (b : blocks) (n : nat) : list value :=
  map (stored_row b) (seq 0 n).

(** The number of rows the decoder finds: the length of the first field's
    column, and none when there is no field. *)
Definition rows_found (b : blocks) (n : nat) : nat :=
  match e_fields b with
  | [] => 0%nat
  | _ :: _ => n
  end.

(** *** A list of records, as the encoder reads it *)

(** The fields: the keys of the first record. *)
Definition first_fields (rows : list value) : list value :=
  match rows with
  | VDict d :: _ => map fst d
  | _ => []
  end.

(** [row[f]], for a record that has the key. *)
Definition cell (f row : value) : value :=
  match py_getitem row f with
  | Ok v => v
  | Err _ => VNone
  end.

(** [[row[f] for row in rows]]. *)
Definition input_column (rows : list value) (f : value) : list value :=
  map (cell f) rows.

(** The storage type the detector gives the column of a field. *)
Definition detected (rows : list value) (f : value) : storage_type :=
  match detect_type (input_column rows f) with
  | Ok t => t
  | Err _ => TJson
  end.

(** A record as it is read back: the fields of the first record, each
    with the stored form of the value the record has for it. *)
Definition stored_record (rows : list value) (row : value) : value :=
  VDict (map (fun f => (f, stored (detected rows f) (cell f row)))
           (first_fields rows)).

(** The rows the decoder rebuilds: one per record, and none at all when
    the first record has no key. *)
Definition decoded_rows (rows : list value) : list value :=
  match first_fields rows with
  | [] => []
  | _ :: _ => map (stored_record rows) rows
  end.

(** *** Checks that compute *)

Definition ascii_names_b (keys : list value) : bool :=
  forallb (fun k => match k with
                    | VStr s => forallb (fun c => (0 <=? c) && (c <? 128)) s
                    | _ => false
                    end) keys.

Definition clean_column_b (t : storage_type) (c : list value) : bool :=
  match t with
  | TStr | TJson => json_clean (VList c)
  | _ => true
  end.

Definition clean_columns_b (b : blocks) : bool :=
  forallb (fun f => clean_column_b (type_of b f) (column_of b f))
    (e_fields b).

(** The sum of a list of sizes. *)
Definition total (l : list Z) : Z := fold_right Z.add 0 l.

(** *** Header values *)

(** A [str] that latin-1 can encode: every code point is below 256. *)
Definition latin1 (s : pystr) : bool :=
  forallb (fun c => (0 <=? c) && (c <? 256)) s.

(** *** The exceptions of the encoder *)

(** Every exception but those of [zstandard], of the JSON parser and of
    the web framework. *)
Definition encode_error (e : pyerr) : bool :=
  match e with
  | ZstdError | JSONDecodeError | HTTPException => false
  | _ => true
  end.

(** A computation that raises nothing else. *)
Definition raises_only {A} (r : result A) : Prop :=
  forall e, r = Err e -> encode_error e = true.

(** [orjson.dumps] raises [JSONEncodeError] and nothing else. *)
Definition dumps_errors (J : json_api) : Prop :=
  forall v e, dumps J v = Err e -> e = JSONEncodeError.
(* ------------------------------------------------------------------ *)
(** ** The order of numbers *)

Unset Implicit Arguments.

Lemma x_lt_fin (p q : Q) : x_lt (XFin p) (XFin q) = true <-> (p < q)%Q.
Proof.
  simpl. rewrite Qlt_alt. destruct (p ?= q)%Q; split; congruence.
Qed.

Lemma x_eq_fin (p q : Q) : x_eq (XFin p) (XFin q) = true <-> (p == q)%Q.
Proof.
  simpl. rewrite Qeq_alt. destruct (p ?= q)%Q; split; congruence.
Qed.

Lemma x_le_fin (p q : Q) : x_le (XFin p) (XFin q) = true <-> (p <= q)%Q.
Proof.
  unfold x_le. rewrite orb_true_iff, x_lt_fin, x_eq_fin.
  rewrite Qle_lteq. tauto.
Qed.

Lemma x_le_refl (x : xreal) : not_nan x -> x_le x x = true.
Proof.
  destruct x; intros H; try reflexivity.
  - now elim H.
  - apply x_le_fin. apply Qle_refl.
Qed.

Lemma x_le_trans (x y z : xreal) :
  x_le x y = true -> x_le y z = true -> x_le x z = true.
Proof.
  destruct x, y, z; try reflexivity; try discriminate.
  rewrite !x_le_fin. apply Qle_trans.
Qed.

Lemma x_lt_le (x y : xreal) : x_lt x y = true -> x_le x y = true.
Proof. unfold x_le. intros ->. reflexivity. Qed.

Lemma x_nlt_le (x y : xreal) :
  not_nan x -> not_nan y -> x_lt x y = false -> x_le y x = true.
Proof.
  destruct x, y; intros Hx Hy; try reflexivity; try discriminate;
    try (now elim Hx); try (now elim Hy).
  intros H. apply x_le_fin. apply Qnot_lt_le. intros C.
  apply x_lt_fin in C. congruence.
Qed.

Lemma x_le_nlt (x y : xreal) : x_le x y = true -> x_lt y x = false.
Proof.
  destruct x, y; try reflexivity; try discriminate.
  rewrite x_le_fin. intros H.
  destruct (x_lt (XFin q0) (XFin q)) eqn:E; [|reflexivity].
  apply x_lt_fin in E. exfalso. revert E. now apply Qle_not_lt.
Qed.

Lemma x_le_total (x y : xreal) :
  not_nan x -> not_nan y -> x_le x y = true \/ x_le y x = true.
Proof.
  intros Hx Hy. destruct (x_lt y x) eqn:E.
  - right. now apply x_lt_le.
  - left. now apply x_nlt_le.
Qed.

Lemma real_number (v : value) : real v -> number v.
Proof. intros (x & H & _). now exists x. Qed.

Lemma py_cmp_number (op : cmpop) (a b : value) (x y : xreal) :
  as_number a = Some x -> as_number b = Some y ->
  py_cmp op a b = Ok (x_cmp op x y).
Proof.
  intros Ha Hb.
  destruct a; try discriminate; destruct b; try discriminate;
    simpl in *; inversion Ha; inversion Hb; subst; reflexivity.
Qed.

Lemma py_eq_number (a b : value) (x y : xreal) :
  as_number a = Some x -> as_number b = Some y -> py_eq a b = x_eq x y.
Proof.
  intros Ha Hb.
  destruct a; try discriminate; destruct b; try discriminate;
    simpl in *; inversion Ha; inversion Hb; subst; reflexivity.
Qed.

Lemma vle_refl (v : value) : real v -> vle v v.
Proof.
  intros (x & H & Hn). unfold vle. rewrite H. now apply x_le_refl.
Qed.

Lemma vle_trans (u v w : value) : vle u v -> vle v w -> vle u w.
Proof.
  unfold vle.
  destruct (as_number u), (as_number v), (as_number w); try tauto.
  apply x_le_trans.
Qed.

Lemma py_lt_real (a b : value) :
  real a -> real b ->
  exists c, py_lt a b = Ok c /\
            (c = true -> vle a b) /\ (c = false -> vle b a).
Proof.
  intros (x & Ha & Hx) (y & Hb & Hy).
  exists (x_lt x y). unfold py_lt, vle.
  rewrite (py_cmp_number OpLt _ _ _ _ Ha Hb), Ha, Hb. simpl.
  repeat split.
  - apply x_lt_le.
  - now apply x_nlt_le.
Qed.

Lemma py_gt_real (a b : value) :
  real a -> real b ->
  exists c, py_gt a b = Ok c /\
            (c = true -> vle b a) /\ (c = false -> vle a b).
Proof.
  intros (x & Ha & Hx) (y & Hb & Hy).
  exists (x_lt y x). unfold py_gt, vle.
  rewrite (py_cmp_number OpGt _ _ _ _ Ha Hb), Ha, Hb. simpl.
  repeat split.
  - apply x_lt_le.
  - now apply x_nlt_le.
Qed.

(** *** [min] and [max] on columns of numbers *)

Lemma fold_min_real (t : list value) (cur : value) :
  real cur -> Forall real t ->
  exists m,
    fold_left
      (fun acc item =>
         cur <- acc ;; b <- py_lt item cur ;; Ok (if b then item else cur))
      t (Ok cur) = Ok m
    /\ In m (cur :: t) /\ Forall (vle m) (cur :: t).
Proof.
  intros Hc Ht. revert cur Hc. induction Ht as [|v t Hv Ht IH]; intros cur Hc.
  - exists cur. simpl. repeat split; auto.
    constructor; auto using vle_refl.
  - destruct (py_lt_real _ _ Hv Hc) as (c & E & Ht1 & Hf1).
    cbn [fold_left bind]. rewrite E. cbn [bind].
    destruct c.
    + destruct (IH v Hv) as (m & Em & Hin & Hall).
      exists m. split; [exact Em|]. split.
      * destruct Hin as [<-|Hin]; simpl; auto.
      * inversion Hall; subst. constructor.
        -- eapply vle_trans; eauto.
        -- constructor; auto.
    + destruct (IH cur Hc) as (m & Em & Hin & Hall).
      exists m. split; [exact Em|]. split.
      * destruct Hin as [<-|Hin]; simpl; auto.
      * inversion Hall; subst. constructor; auto.
        constructor; auto. eapply vle_trans; eauto.
Qed.

Lemma fold_max_real (t : list value) (cur : value) :
  real cur -> Forall real t ->
  exists m,
    fold_left
      (fun acc item =>
         cur <- acc ;; b <- py_gt item cur ;; Ok (if b then item else cur))
      t (Ok cur) = Ok m
    /\ In m (cur :: t) /\ Forall (fun w => vle w m) (cur :: t).
Proof.
  intros Hc Ht. revert cur Hc. induction Ht as [|v t Hv Ht IH]; intros cur Hc.
  - exists cur. simpl. repeat split; auto.
    constructor; auto using vle_refl.
  - destruct (py_gt_real _ _ Hv Hc) as (c & E & Ht1 & Hf1).
    cbn [fold_left bind]. rewrite E. cbn [bind].
    destruct c.
    + destruct (IH v Hv) as (m & Em & Hin & Hall).
      exists m. split; [exact Em|]. split.
      * destruct Hin as [<-|Hin]; simpl; auto.
      * inversion Hall; subst. constructor.
        -- eapply vle_trans; eauto.
        -- constructor; auto.
    + destruct (IH cur Hc) as (m & Em & Hin & Hall).
      exists m. split; [exact Em|]. split.
      * destruct Hin as [<-|Hin]; simpl; auto.
      * inversion Hall; subst. constructor; auto.
        constructor; auto. eapply vle_trans; eauto.
Qed.

Lemma py_min_real (values : list value) :
  values <> [] -> Forall real values ->
  exists m, py_min values = Ok m /\ In m values /\ Forall (vle m) values.
Proof.
  destruct values as [|v t]; [congruence|]. intros _ H.
  inversion H; subst. now apply fold_min_real.
Qed.

Lemma py_max_real (values : list value) :
  values <> [] -> Forall real values ->
  exists m, py_max values = Ok m /\ In m values
            /\ Forall (fun w => vle w m) values.
Proof.
  destruct values as [|v t]; [congruence|]. intros _ H.
  inversion H; subst. now apply fold_max_real.
Qed.

(* ------------------------------------------------------------------ *)
(** ** Type detection *)

Lemma py_between_number (lo hi : Z) (v : value) :
  number v -> py_between lo v hi = Ok (in_range lo hi v).
Proof.
  intros (x & Hx). unfold py_between, py_le, in_range. rewrite Hx.
  rewrite (py_cmp_number OpLe (VInt lo) v _ _ eq_refl Hx). cbn [bind x_cmp].
  destruct (x_le (XFin (inject_Z lo)) x); [|reflexivity].
  rewrite (py_cmp_number OpLe v (VInt hi) _ _ Hx eq_refl). reflexivity.
Qed.

Lemma py_round3_number (v : value) :
  number v -> exists r, py_round3 v = Ok r.
Proof.
  intros (x & Hx). destruct v; try discriminate; simpl; eauto.
Qed.

Lemma detect_float_numbers (values : list value) :
  Forall number values ->
  detect_numeric_type_float values
  = Ok (if forallb fits_float16 values then TFloat16 else TFloat32).
Proof.
  induction 1 as [|v t Hv Ht IH]; [reflexivity|].
  cbn [detect_numeric_type_float forallb].
  rewrite (py_between_number _ _ _ Hv). cbn [bind].
  unfold fits_float16 at 1.
  destruct (in_range (-65504) 65504 v); [|reflexivity]. cbn [negb andb].
  unfold round3_exact. destruct (py_round3_number _ Hv) as (r & ->).
  cbn [bind]. destruct (py_eq r v); [|reflexivity]. exact IH.
Qed.

Lemma in_range_vle (lo hi : Z) (v : value) :
  in_range lo hi v = true <-> vle (VInt lo) v /\ vle v (VInt hi).
Proof.
  unfold in_range, vle. simpl.
  destruct (as_number v); [|intuition discriminate].
  rewrite andb_true_iff. tauto.
Qed.

Lemma forallb_in_range (lo hi : Z) (values : list value) (m M : value) :
  In m values -> In M values ->
  Forall (vle m) values -> Forall (fun w => vle w M) values ->
  forallb (in_range lo hi) values = in_range lo hi m && in_range lo hi M.
Proof.
  intros Hm HM Hmin Hmax.
  apply eq_true_iff_eq. rewrite andb_true_iff, forallb_forall. split.
  - intros H. split; apply H; assumption.
  - intros [H1 H2] v Hv. apply in_range_vle.
    apply in_range_vle in H1. apply in_range_vle in H2.
    rewrite Forall_forall in Hmin, Hmax. split.
    + eapply vle_trans; [apply H1|]. now apply Hmin.
    + eapply vle_trans; [|apply H2]. now apply Hmax.
Qed.

Lemma detect_int_reals (values : list value) :
  values <> [] -> Forall real values ->
  detect_numeric_type_int values
  = Ok (if forallb (in_range (-32768) 32767) values then TInt16 else TInt32).
Proof.
  intros Hne Hr.
  destruct (py_min_real _ Hne Hr) as (m & Em & Hm & Hmin).
  destruct (py_max_real _ Hne Hr) as (M & EM & HM & Hmax).
  unfold detect_numeric_type_int. rewrite Em, EM. cbn [bind].
  rewrite Forall_forall in Hr.
  rewrite (py_between_number _ _ _ (real_number _ (Hr _ Hm))). cbn [bind].
  rewrite (forallb_in_range _ _ values m M Hm HM Hmin Hmax).
  destruct (in_range (-32768) 32767 m); cbn [bind andb]; [|reflexivity].
  rewrite (py_between_number _ _ _ (real_number _ (Hr _ HM))). cbn [bind].
  destruct (in_range (-32768) 32767 M); reflexivity.
Qed.

(** C5, as the code has it: on a column of numbers whose first element is a
    float, [detect_type] answers [float16] exactly when every value lies in
    [[-65504, 65504]] and satisfies [round(v, 3) == v], and [float32]
    otherwise; the column [[1.2345]] is a [float32] column. *)
Theorem detect_type_float_column (f : pyfloat) (rest : list value)
    (Hnum : Forall number (VFloat f :: rest)) :
  detect_type (VFloat f :: rest)
  = Ok (if forallb fits_float16 (VFloat f :: rest) then TFloat16 else TFloat32)
  /\ detect_type [flt 12345 10000] = Ok TFloat32.
Proof.
  split; [|vm_compute; reflexivity].
  unfold detect_type. now apply detect_float_numbers.
Qed.

Lemma detect_type_float_column_witness :
  Forall number [flt 105 10; VInt 2; VFloat FNaN]
  /\ detect_type [flt 105 10; VInt 2; VFloat FNaN] = Ok TFloat32.
Proof.
  assert (H : Forall number
                [VFloat (float_of_ratio false 105 10); VInt 2; VFloat FNaN]).
  { repeat constructor; eexists; reflexivity. }
  split; [exact H|].
  exact (proj1 (detect_type_float_column _ _ H)).
Defined.

(** C5 fails as stated: a column that starts with a float and holds a
    string makes [detect_type] raise, it returns neither type. *)
Lemma detect_type_float_column_mixed :
  detect_type [flt 15 10; VStr (lit "x")] = Err TypeError.
Proof. vm_compute. reflexivity. Qed.

(** C6, as the code has it: on a column of numbers other than NaN whose
    first element is an integer, [detect_type] answers [int16] exactly when
    every value lies in [[-32768, 32767]], and [int32] otherwise; the
    column [[40000, -1]] is an [int32] column. *)
Theorem detect_type_int_column (z : Z) (rest : list value)
    (Hreal : Forall real (VInt z :: rest)) :
  detect_type (VInt z :: rest)
  = Ok (if forallb (in_range (-32768) 32767) (VInt z :: rest)
        then TInt16 else TInt32)
  /\ detect_type [VInt 40000; VInt (-1)] = Ok TInt32.
Proof.
  split; [|vm_compute; reflexivity].
  unfold detect_type. apply detect_int_reals; [discriminate|assumption].
Qed.

Lemma real_int (z : Z) : real (VInt z).
Proof. eexists. split; [reflexivity|discriminate]. Qed.

Lemma detect_type_int_column_witness :
  Forall real [VInt 7; VInt (-32768); VInt 32767]
  /\ detect_type [VInt 7; VInt (-32768); VInt 32767] = Ok TInt16.
Proof.
  assert (H : Forall real [VInt 7; VInt (-32768); VInt 32767]).
  { repeat constructor; apply real_int. }
  split; [exact H|].
  exact (proj1 (detect_type_int_column _ _ H)).
Defined.

(** C6 fails as stated: a column that starts with an integer and holds a
    string makes [detect_type] raise, and one that holds a NaN is an
    [int16] column although NaN lies in no interval. *)
Lemma detect_type_int_column_mixed :
  detect_type [VInt 1; VStr (lit "x")] = Err TypeError
  /\ detect_type [VInt 1; VFloat FNaN] = Ok TInt16
  /\ in_range (-32768) 32767 (VFloat FNaN) = false.
Proof. vm_compute. repeat split. Qed.

(* ------------------------------------------------------------------ *)
(** ** The error monad and dictionaries *)

Lemma bind_ok {A B} (r : result A) (k : A -> result B) (b : B) :
  bind r k = Ok b -> exists a, r = Ok a /\ k a = Ok b.
Proof. destruct r; simpl; [eauto|discriminate]. Qed.

Lemma bind_err {A B} (r : result A) (k : A -> result B) (e : pyerr) :
  r = Err e -> bind r k = Err e.
Proof. intros ->. reflexivity. Qed.

Ltac inv_bind H :=
  let a := fresh "a" in
  let E := fresh "E" in
  apply bind_ok in H; destruct H as (a & E & H).

Ltac inv_bind_as H a E :=
  apply bind_ok in H; destruct H as (a & E & H).

Lemma mapM_ok_inv {A B} (f : A -> result B) (l : list A) (r : list B) :
  mapM f l = Ok r -> Forall2 (fun x y => f x = Ok y) l r.
Proof.
  revert r. induction l as [|x t IH]; intros r H; simpl in H.
  - inversion H. constructor.
  - inv_bind H. inv_bind H. inversion H; subst.
    constructor; auto.
Qed.

Lemma mapM_ok_intro {A B} (f : A -> result B) (l : list A) (r : list B) :
  Forall2 (fun x y => f x = Ok y) l r -> mapM f l = Ok r.
Proof.
  induction 1 as [|x y l r H _ IH]; simpl; [reflexivity|].
  rewrite H. simpl. rewrite IH. reflexivity.
Qed.

Lemma mapM_length {A B} (f : A -> result B) (l : list A) (r : list B) :
  mapM f l = Ok r -> length r = length l.
Proof.
  intros H. apply mapM_ok_inv in H. symmetry. eapply Forall2_length; eauto.
Qed.

Lemma mapM_err {A B} (f : A -> result B) (l : list A) (e : pyerr) :
  (forall x, In x l -> f x = Err e \/ exists y, f x = Ok y) ->
  (exists x, In x l /\ f x = Err e) ->
  mapM f l = Err e.
Proof.
  induction l as [|x t IH]; intros Hall (x0 & Hin & Hx0); [destruct Hin|].
  simpl. destruct (Hall x (or_introl eq_refl)) as [->|(y & Hy)];
    [reflexivity|].
  rewrite Hy. simpl. rewrite IH; [reflexivity| |].
  - intros x' Hx'. apply Hall. now right.
  - destruct Hin as [->|Hin]; [congruence|]. eauto.
Qed.

Lemma mapM_ok_or_err {A B} (f : A -> result B) (l : list A) (e : pyerr) :
  (forall x, In x l -> f x = Err e \/ exists y, f x = Ok y) ->
  mapM f l = Err e \/ exists r, mapM f l = Ok r.
Proof.
  induction l as [|x t IH]; intros Hall; simpl; [eauto|].
  destruct (Hall x (or_introl eq_refl)) as [->|(y & ->)]; [now left|].
  simpl. destruct IH as [->|(r & ->)]; simpl; eauto.
  intros x' Hx'. apply Hall. now right.
Qed.

Lemma mapM_all_ok {A B} (f : A -> result B) (l : list A) :
  (forall x, In x l -> exists y, f x = Ok y) -> exists r, mapM f l = Ok r.
Proof.
  induction l as [|x t IH]; intros Hall; simpl; [eauto|].
  destruct (Hall x (or_introl eq_refl)) as (y & ->).
  destruct IH as (r & ->); [|simpl; eauto].
  intros x' Hx'. apply Hall. now right.
Qed.

Lemma foldM_ok_inv {A B} (f : B -> A -> result B) (l : list A) (a b : B) :
  foldM f l a = Ok b ->
  forall x, In x l -> exists a' b', f a' x = Ok b'.
Proof.
  revert a. induction l as [|y t IH]; intros a H x Hin; [destruct Hin|].
  simpl in H. inv_bind H. destruct Hin as [<-|Hin]; eauto.
Qed.

Lemma str_eqb_eq (a b : pystr) : str_eqb a b = true <-> a = b.
Proof.
  revert b. induction a as [|x a IH]; destruct b as [|y b]; simpl;
    try (split; intros; congruence).
  rewrite andb_true_iff, Z.eqb_eq, IH. split.
  - intros [-> ->]. reflexivity.
  - intros H. inversion H. auto.
Qed.

Lemma str_eqb_refl (a : pystr) : str_eqb a a = true.
Proof. now apply str_eqb_eq. Qed.

Lemma key_eqb_str_l (s : pystr) (k : value) :
  key_eqb (VStr s) k = true <-> k = VStr s.
Proof.
  destruct k as [|b|z|f|t|l|d]; simpl;
    try (destruct f); try (split; intros; congruence).
  rewrite str_eqb_eq. split; congruence.
Qed.

Lemma key_eqb_str_r (s : pystr) (k : value) :
  key_eqb k (VStr s) = true <-> k = VStr s.
Proof.
  destruct k as [|b|z|f|t|l|d]; simpl;
    try (destruct f); try (split; intros; congruence).
  rewrite str_eqb_eq. split; congruence.
Qed.

Lemma key_eqb_str_refl (s : pystr) : key_eqb (VStr s) (VStr s) = true.
Proof. now apply key_eqb_str_l. Qed.

Lemma dict_get_in {V} (d : list (value * V)) (k : value) (v : V) :
  is_str k -> dict_get d k = Some v -> In (k, v) d.
Proof.
  intros (s & ->). induction d as [|[k' v'] t IH]; simpl; [discriminate|].
  destruct (key_eqb k' (VStr s)) eqn:E.
  - apply key_eqb_str_r in E. subst. intros H. inversion H. now left.
  - intros H. right. auto.
Qed.

Lemma dict_get_some {V} (d : list (value * V)) (k : value) :
  In k (map fst d) -> is_str k -> exists v, dict_get d k = Some v.
Proof.
  intros Hin (s & ->). induction d as [|[k' v'] t IH]; [destruct Hin|].
  simpl. destruct (key_eqb k' (VStr s)) eqn:E; [eauto|].
  destruct Hin as [H|H]; [|auto].
  simpl in H. subst. rewrite key_eqb_str_refl in E. discriminate.
Qed.

Lemma dict_get_none {V} (d : list (value * V)) (k : value) :
  is_str k -> dict_get d k = None -> ~ In k (map fst d).
Proof.
  intros Hs Hn Hin. destruct (dict_get_some d k Hin Hs) as (v & E). congruence.
Qed.

Lemma dict_set_in {V} (d : list (value * V)) (k k' : value) (v v' : V) :
  In (k', v') (dict_set d k v) -> In (k', v') d \/ (v' = v /\ key_eqb k' k = true \/ (k', v') = (k, v)).
Proof.
  induction d as [|[k0 v0] t IH]; simpl.
  - intros [H|[]]. inversion H. auto.
  - destruct (key_eqb k0 k) eqn:E; simpl.
    + intros [H|H]; [|auto]. inversion H; subst. right. left. auto.
    + intros [H|H]; [auto|]. destruct (IH H) as [?|?]; auto.
Qed.

(** With string keys, the pairs of a comprehension are among the pairs it
    was built from. *)
Lemma dict_of_list_in {V} (kvs : list (value * V)) (k : value) (v : V) :
  is_str k -> In (k, v) (dict_of_list kvs) -> In (k, v) kvs.
Proof.
  intros (s & ->). unfold dict_of_list.
  enough (G : forall acc, In (VStr s, v)
                (fold_left (fun d kv => dict_set d (fst kv) (snd kv)) kvs acc)
              -> In (VStr s, v) acc \/ In (VStr s, v) kvs).
  { intros H. destruct (G [] H) as [[]|?]; assumption. }
  induction kvs as [|[k0 v0] t IH]; intros acc H; simpl in *; [auto|].
  destruct (IH _ H) as [H1|H1]; [|auto].
  apply dict_set_in in H1. destruct H1 as [?|[[-> E]|E]]; auto.
  - apply key_eqb_str_l in E. subst. auto.
Qed.

Lemma dict_set_keys {V} (d : list (value * V)) (k k' : value) (v : V) :
  In k' (map fst d) -> In k' (map fst (dict_set d k v)).
Proof.
  induction d as [|[k0 v0] t IH]; simpl; [tauto|].
  destruct (key_eqb k0 k); simpl; tauto.
Qed.

Lemma dict_set_key_new {V} (d : list (value * V)) (k : value) (v : V) :
  is_str k -> In k (map fst (dict_set d k v)).
Proof.
  intros (s & ->). induction d as [|[k0 v0] t IH]; simpl; [auto|].
  destruct (key_eqb k0 (VStr s)) eqn:E; simpl; [|auto].
  apply key_eqb_str_r in E. auto.
Qed.

Lemma dict_of_list_keys {V} (kvs : list (value * V)) (k : value) :
  is_str k -> In k (map fst kvs) -> In k (map fst (dict_of_list kvs)).
Proof.
  intros Hs. unfold dict_of_list.
  enough (G : forall acc, In k (map fst acc) \/ In k (map fst kvs) ->
              In k (map fst (fold_left
                (fun d kv => dict_set d (fst kv) (snd kv)) kvs acc))).
  { intros H. apply G. auto. }
  induction kvs as [|[k0 v0] t IH]; intros acc H; simpl in *; [tauto|].
  apply IH. destruct H as [H|[H|H]]; auto.
  - left. now apply dict_set_keys.
  - subst. left. now apply dict_set_key_new.
Qed.

(* ------------------------------------------------------------------ *)
(** ** What a successful run of the encoder went through *)

Lemma Forall2_in_right {A B} (R : A -> B -> Prop) (l : list A) (r : list B)
    (y : B) :
  Forall2 R l r -> In y r -> exists x, In x l /\ R x y.
Proof.
  induction 1 as [|x0 y0 l r H _ IH]; intros Hin; [destruct Hin|].
  destruct Hin as [<-|Hin].
  - exists x0. split; [now left|assumption].
  - destruct (IH Hin) as (x & Hx & HR). exists x. split; [now right|assumption].
Qed.

Lemma Forall2_in_left {A B} (R : A -> B -> Prop) (l : list A) (r : list B)
    (x : A) :
  Forall2 R l r -> In x l -> exists y, In y r /\ R x y.
Proof.
  induction 1 as [|x0 y0 l r H _ IH]; intros Hin; [destruct Hin|].
  destruct Hin as [<-|Hin].
  - exists y0. split; [now left|assumption].
  - destruct (IH Hin) as (y & Hy & HR). exists y. split; [now right|assumption].
Qed.

Lemma build_columns_in (rows fields : list value) (columns : columns_t)
    (f : value) (c : list value) :
  build_columns rows fields = Ok columns -> is_str f ->
  In (f, c) columns ->
  In f fields /\ mapM (fun row => py_getitem row f) rows = Ok c.
Proof.
  unfold build_columns. intros H Hs Hin. inv_bind H. inversion H; subst.
  apply dict_of_list_in in Hin; [|assumption].
  apply mapM_ok_inv in E.
  destruct (Forall2_in_right _ _ _ _ E Hin) as (x & Hx & HR).
  inv_bind HR. inversion HR; subst. auto.
Qed.

Lemma detect_types_in (columns : columns_t)
    (types : list (value * storage_type)) (f : value) (t : storage_type) :
  detect_types columns = Ok types -> is_str f ->
  In (f, t) types ->
  exists c, In (f, c) columns /\ detect_type c = Ok t.
Proof.
  unfold detect_types. intros H Hs Hin. inv_bind H. inversion H; subst.
  apply dict_of_list_in in Hin; [|assumption].
  apply mapM_ok_inv in E.
  destruct (Forall2_in_right _ _ _ _ E Hin) as ([f' c] & Hx & HR).
  inv_bind HR. simpl in *. inversion HR; subst. eauto.
Qed.

Lemma lookup_ok {V} (d : list (value * V)) (k : value) (v : V) :
  lookup d k = Ok v -> dict_get d k = Some v.
Proof. unfold lookup. destruct (dict_get d k); congruence. Qed.

(** Every field of a container that was written had its column detected
    and packed. *)
Lemma compress_columns_field (Zs : zstd_api) (J : json_api)
    (rows fields : list value) (columns : columns_t)
    (types : list (value * storage_type)) (cc : list (value * bytes))
    (f : value) :
  build_columns rows fields = Ok columns ->
  detect_types columns = Ok types ->
  compress_columns Zs J fields columns types = Ok cc ->
  In f fields -> is_str f ->
  exists c t blob,
    mapM (fun row => py_getitem row f) rows = Ok c
    /\ detect_type c = Ok t
    /\ lookup columns f = Ok c /\ lookup types f = Ok t
    /\ pack_column J c t = Ok blob.
Proof.
  intros Hb Hd Hc Hin Hs.
  destruct (foldM_ok_inv _ _ _ _ Hc _ Hin) as (a' & b' & H).
  inv_bind H. inv_bind H. inv_bind H.
  rename a into c, a0 into t, a1 into blob.
  exists c, t, blob.
  pose proof (dict_get_in _ _ _ Hs (lookup_ok _ _ _ E)) as Hc1.
  pose proof (dict_get_in _ _ _ Hs (lookup_ok _ _ _ E0)) as Ht1.
  destruct (build_columns_in _ _ _ _ _ Hb Hs Hc1) as (_ & Hcol).
  destruct (detect_types_in _ _ _ _ Hd Hs Ht1) as (c' & Hc' & Hdet).
  destruct (build_columns_in _ _ _ _ _ Hb Hs Hc') as (_ & Hcol').
  assert (c' = c) by congruence. subst c'.
  repeat split; assumption.
Qed.

Lemma pack_int_like (k : nat) (v : value) (b : bytes) :
  pack_int k v = Ok b -> int_like v.
Proof. destruct v; simpl; intros; try discriminate; exact I. Qed.

Lemma pack_ints_like (k : nat) (values : list value) (r : list bytes) :
  mapM (pack_int k) values = Ok r -> Forall int_like values.
Proof.
  intros H. apply mapM_ok_inv in H.
  induction H; constructor; eauto using pack_int_like.
Qed.

Lemma detect_int_result (values : list value) (t : storage_type) :
  detect_numeric_type_int values = Ok t -> t = TInt16 \/ t = TInt32.
Proof.
  unfold detect_numeric_type_int. intros H.
  inv_bind H. inv_bind H. inv_bind H. inv_bind H.
  destruct a2; inversion H; auto.
Qed.

(* ------------------------------------------------------------------ *)
(** ** Input validation of the encoder *)

Lemma getitem_dict_str (d : list (value * value)) (f : value) :
  is_str f ->
  py_getitem (VDict d) f = Err KeyError
  \/ exists y, py_getitem (VDict d) f = Ok y.
Proof.
  intros (s & ->). simpl. destruct (dict_get d (VStr s)); eauto.
Qed.

(** C8, as the code has it: an empty list is rejected with the exception
    the code raises for it ([ValueError]), and a record that lacks one of
    the first record's fields makes the column construction raise
    [KeyError]; both happen before any detection or packing. *)
Theorem encode_rejects_bad_input (Zs : zstd_api) (J : json_api)
    (d0 d : list (value * value)) (rest : list value) (f : value)
    (Hrows : Forall is_dict rest)
    (Hkeys : Forall is_str (map fst d0))
    (Hrow : In (VDict d) (VDict d0 :: rest))
    (Hfield : In f (map fst d0))
    (Hmissing : dict_get d f = None) :
  encode_to_bytes Zs J (VList []) = Err ValueError
  /\ encode_to_bytes Zs J (VList (VDict d0 :: rest)) = Err KeyError
  /\ build_columns (VDict d0 :: rest) (map fst d0) = Err KeyError.
Proof.
  split; [reflexivity|].
  assert (Hb : build_columns (VDict d0 :: rest) (map fst d0) = Err KeyError).
  { unfold build_columns. apply bind_err.
    rewrite Forall_forall in Hkeys.
    assert (Hd : forall row, In row (VDict d0 :: rest) -> is_dict row).
    { intros row [<-|Hr]; [now exists d0|].
      rewrite Forall_forall in Hrows. auto. }
    apply mapM_err.
    - intros x Hx.
      destruct (mapM_ok_or_err (fun row => py_getitem row x)
                  (VDict d0 :: rest) KeyError) as [->|(r & ->)]; simpl; eauto.
      intros row Hr. destruct (Hd _ Hr) as (dr & ->).
      apply getitem_dict_str. auto.
    - exists f. split; [assumption|]. apply bind_err.
      apply mapM_err.
      + intros row Hr. destruct (Hd _ Hr) as (dr & ->).
        apply getitem_dict_str. auto.
      + exists (VDict d). split; [assumption|].
        destruct (Hkeys _ Hfield) as (s & ->). simpl in *.
        rewrite Hmissing. reflexivity. }
  split; [|exact Hb].
  unfold encode_to_bytes. cbn [encode_blocks bind]. rewrite Hb. reflexivity.
Qed.

Lemma encode_rejects_bad_input_witness :
  encode_to_bytes stored_zstd ref_json
    (VList [VDict [fld "a" (VInt 1); fld "b" (VInt 2)];
            VDict [fld "a" (VInt 3)]]) = Err KeyError.
Proof.
  refine (proj1 (proj2 (encode_rejects_bad_input stored_zstd ref_json
            [fld "a" (VInt 1); fld "b" (VInt 2)] [fld "a" (VInt 3)]
            [VDict [fld "a" (VInt 3)]] (VStr (lit "b")) _ _ _ _ _))).
  - repeat constructor. eexists. reflexivity.
  - repeat constructor; eexists; reflexivity.
  - right. left. reflexivity.
  - right. left. reflexivity.
  - reflexivity.
Defined.

(** C8 fails as stated: a record with a key the first record does not have
    is accepted, and the extra field is dropped from the container. *)
Lemma encode_accepts_extra_key :
  exists b,
    encode_to_bytes stored_zstd ref_json
      (VList [VDict [fld "a" (VInt 1)];
              VDict [fld "a" (VInt 2); fld "b" (VInt 3)]]) = Ok b
    /\ encode_to_bytes stored_zstd ref_json
         (VList [VDict [fld "a" (VInt 1)]; VDict [fld "a" (VInt 2)]]) = Ok b.
Proof. eexists. split; vm_compute; reflexivity. Qed.

(** C10, as the code has it: when a column starts with an integer and
    holds a value that is neither an integer nor a boolean, [encode_to_bytes]
    raises and returns no container. *)
Theorem encode_raises_on_mixed_int_column (Zs : zstd_api) (J : json_api)
    (d0 : list (value * value)) (rest : list value) (f : value)
    (z : Z) (col_rest : list value) (v : value)
    (Hkeys : Forall is_str (map fst d0))
    (Hfield : In f (map fst d0))
    (Hcol : mapM (fun row => py_getitem row f) (VDict d0 :: rest)
            = Ok (VInt z :: col_rest))
    (Hin : In v col_rest)
    (Hbad : ~ int_like v) :
  raises (encode_to_bytes Zs J (VList (VDict d0 :: rest))).
Proof.
  destruct (encode_to_bytes Zs J (VList (VDict d0 :: rest))) as [b|e] eqn:H;
    [|now exists e].
  exfalso. unfold encode_to_bytes in H. inv_bind H. clear H. rename E into H.
  cbn [encode_blocks bind] in H.
  inv_bind H. rename a0 into columns, E into Hb.
  inv_bind H. rename a into types, E into Hd.
  inv_bind H. rename a into cc, E into Hc.
  rewrite Forall_forall in Hkeys.
  destruct (compress_columns_field _ _ _ _ _ _ _ _ Hb Hd Hc Hfield
              (Hkeys _ Hfield))
    as (c & t & blob & Hcol' & Hdet & _ & _ & Hpack).
  assert (c = VInt z :: col_rest) by congruence. subst c.
  cbn [detect_type] in Hdet. apply detect_int_result in Hdet.
  apply Hbad.
  assert (Hall : Forall int_like (VInt z :: col_rest)).
  { destruct Hdet; subst t; cbn [pack_column] in Hpack; inv_bind Hpack;
      eapply pack_ints_like; eauto. }
  rewrite Forall_forall in Hall. apply Hall. now right.
Qed.

Lemma encode_raises_on_mixed_int_column_witness :
  raises (encode_to_bytes stored_zstd ref_json
            (VList [VDict [fld "n" (VInt 1)];
                    VDict [fld "n" (VStr (lit "x"))]])).
Proof.
  refine (encode_raises_on_mixed_int_column stored_zstd ref_json
            [fld "n" (VInt 1)] [VDict [fld "n" (VStr (lit "x"))]]
            (VStr (lit "n")) 1 [VStr (lit "x")] (VStr (lit "x")) _ _ _ _ _).
  - repeat constructor. eexists. reflexivity.
  - left. reflexivity.
  - reflexivity.
  - left. reflexivity.
  - intros H. exact H.
Defined.

(** C10 fails as stated: a boolean after an integer is packed as the
    integer 1 (or 0); the container is written and reads back as
    integers. *)
Lemma encode_packs_bool_as_int :
  exists b,
    encode_to_bytes stored_zstd ref_json
      (VList [VDict [fld "n" (VInt 1)]; VDict [fld "n" (VBool true)]]) = Ok b
    /\ ~ (exists z, VBool true = VInt z)
    /\ option_map json_data
         (match decode_from_bytes stored_zstd ref_json b with
          | Ok r => Some r
          | Err _ => None
          end)
       = Some [VDict [fld "n" (VInt 1)]; VDict [fld "n" (VInt 1)]].
Proof.
  eexists. split; [vm_compute; reflexivity|]. split.
  - intros (z & H). discriminate.
  - vm_compute. reflexivity.
Qed.

(* ------------------------------------------------------------------ *)
(** ** The sort index *)

Lemma py_lt_real_strict (a b : value) :
  real a -> real b ->
  exists c, py_lt a b = Ok c /\
            (c = true -> vle a b /\ ~ vle b a) /\ (c = false -> vle b a).
Proof.
  intros (x & Ha & Hx) (y & Hb & Hy).
  exists (x_lt x y). unfold py_lt, vle.
  rewrite (py_cmp_number OpLt _ _ _ _ Ha Hb), Ha, Hb. simpl.
  repeat split.
  - now apply x_lt_le.
  - intros C. apply x_le_nlt in C. congruence.
  - now apply x_nlt_le.
Qed.

Lemma insert_by_key_sorted (x : nat * value) (l : list (nat * value)) :
  real (snd x) -> Forall (fun y => real (snd y)) l ->
  Forall (fun y => (fst x < fst y)%nat) l ->
  StronglySorted pair_order l ->
  exists r, insert_by_key x l = Ok r
            /\ Permutation (x :: l) r /\ StronglySorted pair_order r.
Proof.
  intros Hx Hl Hpos Hs. induction l as [|y t IH].
  - exists [x]. simpl. repeat split; auto. repeat constructor.
  - inversion Hl as [|? ? Hy Ht]; subst.
    inversion Hpos as [|? ? Hxy Hpt]; subst.
    inversion Hs as [|? ? Hst Hyt]; subst.
    destruct (py_lt_real_strict _ _ Hy Hx) as (c & E & Htrue & Hfalse).
    cbn [insert_by_key]. rewrite E. cbn [bind]. destruct c.
    + destruct (IH Ht Hpt Hst) as (r & Er & Hperm & Hsr).
      rewrite Er. cbn [bind]. exists (y :: r). split; [reflexivity|]. split.
      * rewrite perm_swap. now constructor.
      * constructor; [assumption|].
        destruct (Htrue eq_refl) as (Hle & Hnle).
        assert (Hall : Forall (pair_order y) (x :: t)).
        { constructor; [|assumption]. split; [assumption|tauto]. }
        rewrite Forall_forall in Hall |- *.
        intros z Hz. apply Hall.
        eapply Permutation_in; [symmetry; exact Hperm|exact Hz].
    + exists (x :: y :: t). split; [reflexivity|]. split; [reflexivity|].
      constructor; [assumption|].
      specialize (Hfalse eq_refl).
      constructor.
      * split; [assumption|]. intros _. exact Hxy.
      * rewrite Forall_forall in Hyt, Hpt |- *. intros z Hz. split.
        -- eapply vle_trans; [exact Hfalse|]. apply (Hyt z Hz).
        -- intros _. apply (Hpt z Hz).
Qed.

Lemma enumerate_from_fst (n0 : nat) (column : list value) :
  map fst (enumerate_from n0 column) = seq n0 (length column).
Proof.
  revert n0. induction column as [|v t IH]; intros n0; simpl; [reflexivity|].
  now rewrite IH.
Qed.

Lemma enumerate_from_in (n0 : nat) (column : list value) (p : nat * value) :
  In p (enumerate_from n0 column) ->
  (n0 <= fst p)%nat /\ nth_error column (fst p - n0) = Some (snd p).
Proof.
  revert n0. induction column as [|v t IH]; intros n0; simpl; [tauto|].
  intros [<-|H].
  - simpl. rewrite Nat.sub_diag. auto.
  - destruct (IH _ H) as (Hle & Hnth). split; [lia|].
    replace (fst p - n0)%nat with (S (fst p - S n0)) by lia. exact Hnth.
Qed.

Lemma sort_by_key_sorted (n0 : nat) (column : list value) :
  Forall real column ->
  exists r, sort_by_key (enumerate_from n0 column) = Ok r
            /\ Permutation (enumerate_from n0 column) r
            /\ StronglySorted pair_order r.
Proof.
  intros Hr. revert n0. induction Hr as [|v t Hv Ht IH]; intros n0.
  - exists []. simpl. repeat split; auto. constructor.
  - destruct (IH (S n0)) as (r & Er & Hperm & Hs).
    cbn [enumerate_from sort_by_key]. rewrite Er. cbn [bind].
    destruct (insert_by_key_sorted (n0, v) r) as (r' & Er' & Hperm' & Hs');
      try assumption.
    + rewrite Forall_forall in Ht |- *. intros y Hy.
      apply (Permutation_in _ (Permutation_sym Hperm)) in Hy.
      apply enumerate_from_in in Hy. destruct Hy as (_ & Hy).
      apply nth_error_In in Hy. auto.
    + rewrite Forall_forall. intros y Hy.
      apply (Permutation_in _ (Permutation_sym Hperm)) in Hy.
      apply enumerate_from_in in Hy. simpl. lia.
    + exists r'. split; [assumption|]. split; [|assumption].
      rewrite <- Hperm'. now constructor.
Qed.

Lemma StronglySorted_map {A B} (R : B -> B -> Prop) (f : A -> B)
    (l : list A) :
  StronglySorted R (map f l) -> StronglySorted (fun x y => R (f x) (f y)) l.
Proof.
  induction l as [|x t IH]; simpl; intros H; [constructor|].
  inversion H; subst. constructor; [auto|].
  rewrite Forall_forall in *. intros y Hy. auto using in_map.
Qed.

(** The index of a column of numbers without NaN is the stable ascending
    permutation of its row positions. *)
Lemma sorted_index_valid (column : list value) :
  Forall real column ->
  exists idx, sorted_index column = Ok idx
              /\ Permutation idx (seq 0 (length column))
              /\ StronglySorted (index_order column) idx.
Proof.
  intros Hr. destruct (sort_by_key_sorted 0 column Hr) as (r & Er & Hp & Hs).
  unfold sorted_index. rewrite Er. cbn [bind]. exists (map fst r).
  split; [reflexivity|]. split.
  - rewrite <- (enumerate_from_fst 0 column). symmetry.
    now apply Permutation_map.
  - assert (Hr' : r = map (fun i => (i, key_at column i)) (map fst r)).
    { rewrite map_map. rewrite <- (map_id r) at 1. apply map_ext_in.
      intros [i v] Hin. simpl.
      apply (Permutation_in _ (Permutation_sym Hp)) in Hin.
      apply enumerate_from_in in Hin. simpl in Hin. destruct Hin as (_ & Hn).
      rewrite Nat.sub_0_r in Hn. unfold key_at.
      now rewrite (nth_error_nth _ _ _ Hn). }
    rewrite Hr' in Hs. apply StronglySorted_map in Hs. exact Hs.
Qed.

Lemma dict_get_set {V} (d : list (value * V)) (k k' : value) (v : V) :
  is_str k ->
  dict_get (dict_set d k v) k'
  = if key_eqb k k' then Some v else dict_get d k'.
Proof.
  intros (s & ->).
  induction d as [|[k0 v0] t IH]; cbn [dict_set dict_get]; [reflexivity|].
  destruct (key_eqb k0 (VStr s)) eqn:E0; cbn [dict_get].
  - apply key_eqb_str_r in E0. subst k0.
    destruct (key_eqb (VStr s) k'); reflexivity.
  - rewrite IH. destruct (key_eqb (VStr s) k') eqn:E1; [|reflexivity].
    apply key_eqb_str_l in E1. subst k'. rewrite E0. reflexivity.
Qed.

(** One step of the index loop, as a function of the field and its type. *)
Lemma build_indexes_get (Zs : zstd_api) (J : json_api) (columns : columns_t)
    (types : list (value * storage_type)) (indexes : list (value * bytes))
    (k : value) :
  build_indexes Zs J columns types = Ok indexes ->
  is_str k -> Forall is_str (map fst types) ->
  match dict_get indexes k with
  | Some blob =>
      exists t col idx b,
        In (k, t) types /\ is_numeric_type t = true
        /\ lookup columns k = Ok col /\ sorted_index col = Ok idx
        /\ dumps J (index_value idx) = Ok b
        /\ blob = zstd_compress Zs ZSTD_level b
  | None => forall t, In (k, t) types -> is_numeric_type t = false
  end.
Proof.
  unfold build_indexes. intros H Hk Hs.
  set (step := fun (d : list (value * bytes)) (ft : value * storage_type) =>
     if is_numeric_type (snd ft) then
       col <- lookup columns (fst ft) ;;
       sorted_idx <- sorted_index col ;;
       b <- dumps J (VList (map (fun i => VInt (Z.of_nat i)) sorted_idx)) ;;
       Ok (dict_set d (fst ft) (zstd_compress Zs ZSTD_level b))
     else Ok d) in *.
  enough (G : forall acc,
    foldM step types acc = Ok indexes ->
    match dict_get indexes k with
    | Some blob =>
        dict_get acc k = Some blob \/
        exists t col idx b,
          In (k, t) types /\ is_numeric_type t = true
          /\ lookup columns k = Ok col /\ sorted_index col = Ok idx
          /\ dumps J (index_value idx) = Ok b
          /\ blob = zstd_compress Zs ZSTD_level b
    | None => dict_get acc k = None
              /\ forall t, In (k, t) types -> is_numeric_type t = false
    end).
  { specialize (G [] H). destruct (dict_get indexes k).
    - destruct G as [G|G]; [discriminate|exact G].
    - exact (proj2 G). }
  clear H. induction types as [|[f t] rest IH]; intros acc H.
  - simpl in H. inversion H; subst. destruct (dict_get indexes k); auto.
    split; [reflexivity|]. intros t [].
  - simpl in Hs. inversion Hs as [|? ? Hf Hrest]; subst.
    cbn [foldM] in H. inv_bind H. specialize (IH Hrest _ H).
    unfold step in E. cbn [fst snd] in E.
    destruct (is_numeric_type t) eqn:Et.
    + inv_bind E. inv_bind E. inv_bind E. inversion E; subst. clear E.
      rename a0 into col, a1 into idx, a2 into b.
      destruct (dict_get indexes k) as [blob|].
      * destruct IH as [IH|(t' & col' & idx' & b' & Hin & IH)].
        -- rewrite (dict_get_set _ f k _ Hf) in IH.
           destruct (key_eqb f k) eqn:Ek.
           ++ destruct Hk as (s & ->). apply key_eqb_str_r in Ek. subst f.
              inversion IH; subst. right.
              exists t, col, idx, b. repeat split; auto. now left.
           ++ now left.
        -- right. exists t', col', idx', b'. split; [now right|exact IH].
      * destruct IH as (IH1 & IH2).
        rewrite (dict_get_set _ f k _ Hf) in IH1.
        destruct (key_eqb f k) eqn:Ek; [discriminate|].
        split; [assumption|]. intros t' [Heq|Hin]; [|auto].
        inversion Heq; subst. destruct Hk as (s & ->).
        rewrite key_eqb_str_refl in Ek. discriminate.
    + inversion E; subst. clear E.
      destruct (dict_get indexes k) as [blob|].
      * destruct IH as [IH|(t' & col' & idx' & b' & Hin & IH)];
          [now left|].
        right. exists t', col', idx', b'. split; [now right|exact IH].
      * destruct IH as (IH1 & IH2). split; [assumption|].
        intros t' [Heq|Hin]; [|auto]. inversion Heq; subst. assumption.
Qed.

Lemma build_indexes_some (Zs : zstd_api) (J : json_api) (columns : columns_t)
    (types : list (value * storage_type)) (indexes : list (value * bytes))
    (k : value) (t : storage_type) :
  build_indexes Zs J columns types = Ok indexes ->
  is_str k -> Forall is_str (map fst types) ->
  In (k, t) types -> is_numeric_type t = true ->
  exists blob, dict_get indexes k = Some blob.
Proof.
  intros H Hk Hs Hin Ht.
  pose proof (build_indexes_get _ _ _ _ _ k H Hk Hs) as G.
  destruct (dict_get indexes k) as [blob|]; [eauto|].
  rewrite (G t Hin) in Ht. discriminate.
Qed.

Lemma dict_set_keys_inv {V} (d : list (value * V)) (k k' : value) (v : V) :
  In k' (map fst (dict_set d k v)) -> In k' (map fst d) \/ k' = k.
Proof.
  induction d as [|[k0 v0] t IH]; simpl.
  - intros [H|[]]. auto.
  - destruct (key_eqb k0 k); simpl; intros [H|H]; auto.
    destruct (IH H); auto.
Qed.

Lemma dict_of_list_keys_inv {V} (kvs : list (value * V)) (k : value) :
  In k (map fst (dict_of_list kvs)) -> In k (map fst kvs).
Proof.
  unfold dict_of_list.
  enough (G : forall acc,
             In k (map fst (fold_left
                (fun d kv => dict_set d (fst kv) (snd kv)) kvs acc)) ->
             In k (map fst acc) \/ In k (map fst kvs)).
  { intros H. destruct (G [] H) as [[]|?]; assumption. }
  induction kvs as [|[k0 v0] t IH]; intros acc H; simpl in *; [auto|].
  destruct (IH _ H) as [H1|H1]; [|auto].
  apply dict_set_keys_inv in H1. destruct H1; auto.
Qed.

Lemma build_columns_keys (rows fields : list value) (columns : columns_t) :
  build_columns rows fields = Ok columns ->
  forall k, In k (map fst columns) -> In k fields.
Proof.
  unfold build_columns. intros H k Hin. inv_bind H. inversion H; subst.
  apply dict_of_list_keys_inv in Hin. apply mapM_ok_inv in E.
  apply in_map_iff in Hin. destruct Hin as ([k' c] & <- & Hin).
  destruct (Forall2_in_right _ _ _ _ E Hin) as (x & Hx & HR).
  inv_bind HR. inversion HR; subst. assumption.
Qed.

Lemma detect_types_keys (columns : columns_t)
    (types : list (value * storage_type)) :
  detect_types columns = Ok types ->
  forall k, In k (map fst types) -> In k (map fst columns).
Proof.
  unfold detect_types. intros H k Hin. inv_bind H. inversion H; subst.
  apply dict_of_list_keys_inv in Hin. apply mapM_ok_inv in E.
  apply in_map_iff in Hin. destruct Hin as ([k' t] & <- & Hin).
  destruct (Forall2_in_right _ _ _ _ E Hin) as ([f c] & Hx & HR).
  inv_bind HR. cbn [fst snd] in HR. inversion HR; subst.
  apply (in_map fst) in Hx. exact Hx.
Qed.

Lemma as_double_number (v : value) (x : pyfloat) :
  as_double v = Ok x -> number v.
Proof.
  destruct v; simpl; intros H; try discriminate; eexists; reflexivity.
Qed.

Lemma pack_column_numbers (J : json_api) (c : list value)
    (t : storage_type) (blob : bytes) :
  pack_column J c t = Ok blob -> is_numeric_type t = true ->
  Forall number c.
Proof.
  intros H Ht. destruct t; try discriminate; cbn [pack_column] in H;
    inv_bind H; apply mapM_ok_inv in E; clear H.
  - induction E as [|v y l r Hv _ IH]; constructor; auto.
    apply pack_int_like in Hv. destruct v; simpl in Hv; try contradiction;
      eexists; reflexivity.
  - induction E as [|v y l r Hv _ IH]; constructor; auto.
    apply pack_int_like in Hv. destruct v; simpl in Hv; try contradiction;
      eexists; reflexivity.
  - induction E as [|v y l r Hv _ IH]; constructor; auto.
    unfold pack_f16 in Hv. inv_bind Hv. eapply as_double_number; eauto.
  - induction E as [|v y l r Hv _ IH]; constructor; auto.
    unfold pack_f32 in Hv. destruct (as_double v) eqn:Ev; [|discriminate].
    eapply as_double_number; eauto.
Qed.

Lemma number_real (v : value) : number v -> v <> VFloat FNaN -> real v.
Proof.
  intros (x & Hx) Hn. exists x. split; [assumption|].
  intros ->. apply Hn. destruct v as [|b|z|f|s|l|d]; try discriminate.
  simpl in Hx. destruct f as [|[]| |]; try discriminate. reflexivity.
Qed.

(** The fields, columns, types and blocks a successful encoder run works
    with are consistent with one another. *)
Lemma encode_blocks_inv (Zs : zstd_api) (J : json_api)
    (d0 : list (value * value)) (rest : list value) (b : blocks) :
  encode_blocks Zs J (VList (VDict d0 :: rest)) = Ok b ->
  e_fields b = map fst d0
  /\ build_columns (VDict d0 :: rest) (e_fields b) = Ok (e_columns b)
  /\ detect_types (e_columns b) = Ok (e_types b)
  /\ compress_columns Zs J (e_fields b) (e_columns b) (e_types b)
     = Ok (e_compressed b)
  /\ build_indexes Zs J (e_columns b) (e_types b) = Ok (e_indexes b).
Proof.
  intros H. cbn [encode_blocks bind] in H.
  inv_bind H. inv_bind H. inv_bind H. inv_bind H.
  inversion H; subst. simpl. auto.
Qed.

(** C7, as the code has it.  The indexes are built after every column has
    been packed, so there is one only when the encoder accepts the input.
    When it does, a column of a numeric storage type that holds no NaN
    gets an index that is a permutation of the row positions, lists the
    values in ascending order and keeps rows with equal values in row
    order; a column of type bool, str or json gets no index. *)
Theorem encode_index_valid (Zs : zstd_api) (J : json_api)
    (d0 : list (value * value)) (rest : list value) (b : blocks)
    (f : value) (c : list value) (t : storage_type)
    (Hkeys : Forall is_str (map fst d0))
    (Henc : encode_blocks Zs J (VList (VDict d0 :: rest)) = Ok b)
    (Hf : In f (e_fields b))
    (Hc : lookup (e_columns b) f = Ok c)
    (Ht : lookup (e_types b) f = Ok t) :
  (is_numeric_type t = false -> dict_get (e_indexes b) f = None)
  /\ (is_numeric_type t = true -> no_nan c ->
      exists idx blob,
        Permutation idx (seq 0 (length c))
        /\ StronglySorted (index_order c) idx
        /\ dumps J (index_value idx) = Ok blob
        /\ dict_get (e_indexes b) f
           = Some (zstd_compress Zs ZSTD_level blob)).
Proof.
  destruct (encode_blocks_inv _ _ _ _ _ Henc) as (Hfl & Hb & Hd & Hcc & Hi).
  rewrite Forall_forall in Hkeys.
  assert (Hsf : is_str f) by (apply Hkeys; congruence).
  assert (Hst : Forall is_str (map fst (e_types b))).
  { rewrite Forall_forall. intros k Hk. apply Hkeys. rewrite <- Hfl.
    eapply build_columns_keys; [exact Hb|].
    eapply detect_types_keys; eauto. }
  destruct (compress_columns_field _ _ _ _ _ _ _ _ Hb Hd Hcc Hf Hsf)
    as (c' & t' & blob0 & Hcol & Hdet & Hc' & Ht' & Hpack).
  assert (c' = c) by congruence. assert (t' = t) by congruence. subst c' t'.
  assert (Huniq : forall t1, In (f, t1) (e_types b) -> t1 = t).
  { intros t1 Hin.
    destruct (detect_types_in _ _ _ _ Hd Hsf Hin) as (c1 & Hc1 & Hd1).
    destruct (build_columns_in _ _ _ _ _ Hb Hsf Hc1) as (_ & Hm1).
    congruence. }
  pose proof (build_indexes_get _ _ _ _ _ f Hi Hsf Hst) as G.
  split.
  - intros Hn. destruct (dict_get (e_indexes b) f) as [blob|]; [|reflexivity].
    destruct G as (t1 & _ & _ & _ & Hin & Hnum & _).
    rewrite (Huniq _ Hin) in Hnum. congruence.
  - intros Hn Hnan.
    pose proof (dict_get_in _ _ _ Hsf (lookup_ok _ _ _ Ht)) as Hin.
    destruct (build_indexes_some _ _ _ _ _ f t Hi Hsf Hst Hin Hn)
      as (blob & Eb).
    rewrite Eb in G.
    destruct G as (t1 & col & idx & bj & _ & _ & Hcol1 & Hidx & Hdump & ->).
    assert (col = c) by congruence. subst col.
    assert (Hr : Forall real c).
    { pose proof (pack_column_numbers _ _ _ _ Hpack Hn) as Hnum.
      unfold no_nan in Hnan. rewrite Forall_forall in Hnum, Hnan |- *.
      intros v Hv. apply number_real; auto. }
    destruct (sorted_index_valid c Hr) as (idx' & Hidx' & Hperm & Hsorted).
    assert (idx' = idx) by congruence. subst idx'.
    exists idx, bj. rewrite Eb. auto.
Qed.

Lemma encode_index_valid_witness :
  exists idx blob,
    Permutation idx (seq 0 4)
    /\ StronglySorted (index_order [VInt 3; VInt 1; VInt 2; VInt 1]) idx
    /\ dumps ref_json (index_value idx) = Ok blob
    /\ dict_get
         (match encode_blocks stored_zstd ref_json
                  (VList [VDict [fld "n" (VInt 3)]; VDict [fld "n" (VInt 1)];
                          VDict [fld "n" (VInt 2)]; VDict [fld "n" (VInt 1)]])
          with
          | Ok b => e_indexes b
          | Err _ => []
          end) (VStr (lit "n"))
       = Some (zstd_compress stored_zstd ZSTD_level blob).
Proof.
  refine (proj2 (encode_index_valid stored_zstd ref_json
            [fld "n" (VInt 3)]
            [VDict [fld "n" (VInt 1)]; VDict [fld "n" (VInt 2)];
             VDict [fld "n" (VInt 1)]]
            _ (VStr (lit "n")) [VInt 3; VInt 1; VInt 2; VInt 1] TInt16
            _ _ _ _ _) _ _).
  - repeat constructor. eexists. reflexivity.
  - vm_compute. reflexivity.
  - left. reflexivity.
  - reflexivity.
  - reflexivity.
  - reflexivity.
  - repeat constructor; discriminate.
Defined.

(** C7 fails as stated: a float32 column that holds a NaN gets an index,
    and that index does not list the values in ascending order. *)
Lemma encode_index_nan_unsorted :
  exists b,
    encode_blocks stored_zstd ref_json
      (VList [VDict [fld "x" (flt 1 1)]; VDict [fld "x" (VFloat FNaN)]])
    = Ok b
    /\ lookup (e_types b) (VStr (lit "x")) = Ok TFloat32
    /\ dict_get (e_indexes b) (VStr (lit "x"))
       = Some (stored_compress ZSTD_level
                 (js_ser (index_value [0%nat; 1%nat])))
    /\ ~ StronglySorted (index_order [flt 1 1; VFloat FNaN])
           [0%nat; 1%nat].
Proof.
  eexists. split; [vm_compute; reflexivity|].
  split; [reflexivity|]. split; [reflexivity|].
  intros H. inversion H as [|? ? _ Hall]; subst.
  inversion Hall as [|? ? Ho _]; subst.
  destruct Ho as (Hle & _). vm_compute in Hle. discriminate.
Qed.

(* ------------------------------------------------------------------ *)
(** ** Row reconstruction in the decoder *)

Lemma seq_index_nat {A} (l : list A) (i : nat) :
  seq_index l (Z.of_nat i)
  = match nth_error l i with
    | Some x => Ok x
    | None => Err IndexError
    end.
Proof.
  unfold seq_index, len.
  replace (Z.of_nat i <? 0) with false by (symmetry; apply Z.ltb_ge; lia).
  rewrite Nat2Z.id.
  destruct (nth_error l i) as [x|] eqn:E.
  - assert (i < length l)%nat by (apply nth_error_Some; congruence).
    replace ((0 <=? Z.of_nat i) && (Z.of_nat i <? Z.of_nat (length l)))
      with true; [reflexivity|].
    symmetry. apply andb_true_iff. split; [apply Z.leb_le|apply Z.ltb_lt]; lia.
  - apply nth_error_None in E.
    replace (Z.of_nat i <? Z.of_nat (length l)) with false
      by (symmetry; apply Z.ltb_ge; lia).
    rewrite andb_false_r. reflexivity.
Qed.

Lemma read_columns_hashable (Zs : zstd_api) (J : json_api) (data : bytes)
    (types : value) (flist : list value) (acc : list (value * value))
    (offset : Z) (r : list (value * value) * Z) :
  read_columns Zs J data types flist acc offset = Ok r ->
  Forall (fun f => hashable f = true) flist.
Proof.
  revert acc offset. induction flist as [|f t IH]; intros acc offset H;
    [constructor|].
  cbn [read_columns] in H. inv_bind H. inv_bind H. inv_bind H. inv_bind H.
  destruct (hashable f) eqn:Eh; [|discriminate].
  constructor; eauto.
Qed.

Lemma parse_container_inv (Zs : zstd_api) (J : json_api) (data : bytes)
    (p : parsed) :
  parse_container Zs J data = Ok p ->
  py_iter (p_fields p) = Ok (p_flist p)
  /\ Forall (fun f => hashable f = true) (p_flist p).
Proof.
  unfold parse_container. intros H.
  destruct (negb (startswith data magic)); [discriminate|].
  inv_bind H. inv_bind H. inv_bind H. inv_bind H. inv_bind H. inv_bind H.
  inv_bind H. inv_bind H. destruct a6 as [columns offset].
  inv_bind H. inv_bind H. inversion H; subst. simpl.
  split; [assumption|]. eapply read_columns_hashable; eauto.
Qed.

Lemma build_row_ok_or_index (columns : list (value * value))
    (flist : list value) (i : nat) :
  (forall f, In f flist -> exists l, dict_get columns f = Some (VList l)) ->
  build_row columns flist (Z.of_nat i) = Err IndexError
  \/ exists y, build_row columns flist (Z.of_nat i) = Ok y.
Proof.
  intros Hc. unfold build_row.
  destruct (mapM_ok_or_err
              (fun field => col <- lookup columns field ;;
                            x <- py_getitem col (VInt (Z.of_nat i)) ;;
                            Ok (field, x)) flist IndexError) as [->|(r & ->)];
    simpl; eauto.
  intros f Hf. destruct (Hc f Hf) as (l & Hl). unfold lookup. rewrite Hl.
  cbn [bind py_getitem]. rewrite seq_index_nat.
  destruct (nth_error l i); simpl; eauto.
Qed.

(** C4, as the code has it: the number of rows is the length of the first
    field's column.  When another column yields fewer values, decoding
    fails with [IndexError]; when every column yields at least as many,
    decoding succeeds with that number of rows, whatever the other columns
    hold beyond it. *)
Theorem decode_row_count (Zs : zstd_api) (J : json_api) (data : bytes)
    (p : parsed) (f0 : value) (others first : list value)
    (Hparse : parse_container Zs J data = Ok p)
    (Hfields : p_fields p = VList (f0 :: others))
    (Hcols : forall f, In f (f0 :: others) ->
                       exists l, dict_get (p_columns p) f = Some (VList l))
    (Hfirst : dict_get (p_columns p) f0 = Some (VList first)) :
  ((exists f l, In f (f0 :: others)
                /\ dict_get (p_columns p) f = Some (VList l)
                /\ (length l < length first)%nat) ->
   decode_from_bytes Zs J data = Err IndexError)
  /\ ((forall f l, In f (f0 :: others) ->
                   dict_get (p_columns p) f = Some (VList l) ->
                   (length first <= length l)%nat) ->
      exists r, decode_from_bytes Zs J data = Ok r
                /\ num_rows r = len first
                /\ length (json_data r) = length first).
Proof.
  destruct (parse_container_inv _ _ _ _ Hparse) as (Hiter & Hhash).
  rewrite Hfields in Hiter. simpl in Hiter. inversion Hiter as [Hfl].
  rewrite <- Hfl in Hhash. inversion Hhash as [|? ? Hh0 _]; subst.
  unfold decode_from_bytes. rewrite Hparse. cbn [bind].
  assert (Hrec : reconstruct p
                 = (rows <- mapM (fun i => build_row (p_columns p)
                                            (f0 :: others) (Z.of_nat i))
                              (seq 0 (length first)) ;;
                    Ok {| version := p_version p; fields := p_fields p;
                          types := p_types p; num_rows := len first;
                          json_data := rows |})).
  { unfold reconstruct. rewrite Hfields. cbn [py_truth py_getitem].
    replace (negb (len (f0 :: others) =? 0)) with true
      by (unfold len; simpl length; symmetry; apply negb_true_iff;
          apply Z.eqb_neq; lia).
    change 0 with (Z.of_nat 0). rewrite seq_index_nat. cbn [nth_error bind].
    rewrite Hh0. unfold lookup. rewrite Hfirst. cbn [bind py_len].
    unfold len. rewrite Nat2Z.id. rewrite <- Hfl. reflexivity. }
  rewrite Hrec. clear Hrec. split.
  - intros (f & l & Hf & Hl & Hlt).
    apply bind_err. apply mapM_err.
    + intros i _. apply build_row_ok_or_index. exact Hcols.
    + exists (length l). split; [apply in_seq; lia|].
      unfold build_row. apply bind_err. apply mapM_err.
      * intros g Hg. destruct (Hcols g Hg) as (lg & Hlg).
        unfold lookup. rewrite Hlg. cbn [bind py_getitem].
        rewrite seq_index_nat. destruct (nth_error lg (length l)); simpl; eauto.
      * exists f. split; [assumption|]. unfold lookup. rewrite Hl.
        cbn [bind py_getitem]. rewrite seq_index_nat.
        replace (nth_error l (length l)) with (@None value);
          [reflexivity|].
        symmetry. apply nth_error_None. lia.
  - intros Hlong.
    assert (Hrows : exists rows,
              mapM (fun i => build_row (p_columns p) (f0 :: others)
                               (Z.of_nat i)) (seq 0 (length first))
              = Ok rows).
    { apply mapM_all_ok. intros i Hi. apply in_seq in Hi.
      unfold build_row.
      destruct (mapM_all_ok
              (fun field => col <- lookup (p_columns p) field ;;
                            x <- py_getitem col (VInt (Z.of_nat i)) ;;
                            Ok (field, x)) (f0 :: others)) as (r & ->);
        [|simpl; eauto].
      intros g Hg. destruct (Hcols g Hg) as (lg & Hlg).
      unfold lookup. rewrite Hlg. cbn [bind py_getitem].
      rewrite seq_index_nat.
      pose proof (Hlong g lg Hg Hlg) as Hle.
      destruct (nth_error lg i) eqn:En; [simpl; eauto|].
      apply nth_error_None in En. lia. }
    destruct Hrows as (rows & Hrows). rewrite Hrows. cbn [bind].
    eexists. split; [reflexivity|]. simpl. split; [reflexivity|].
    apply mapM_length in Hrows. rewrite Hrows. apply length_seq.
Qed.

Lemma decode_row_count_witness :
  exists r,
    decode_from_bytes stored_zstd ref_json mismatched_bytes = Ok r
    /\ num_rows r = len [VInt 1]
    /\ length (json_data r) = length [VInt 1].
Proof.
  refine (proj2 (decode_row_count stored_zstd ref_json mismatched_bytes _
                   (VStr (lit "a")) [VStr (lit "b")] [VInt 1] _ _ _ _) _).
  - vm_compute. reflexivity.
  - reflexivity.
  - intros f [<-|[<-|[]]]; eexists; reflexivity.
  - reflexivity.
  - intros f l [<-|[<-|[]]] H; vm_compute in H; inversion H; subst;
      simpl; lia.
Defined.

(** C4 fails as stated: a container whose second column yields two values
    while its first yields one is decoded without any error; the surplus
    value is dropped. *)
Lemma decode_accepts_longer_column :
  exists p r,
    parse_container stored_zstd ref_json mismatched_bytes = Ok p
    /\ p_columns p = [(VStr (lit "a"), VList [VInt 1]);
                      (VStr (lit "b"), VList [VInt 10; VInt 20])]
    /\ decode_from_bytes stored_zstd ref_json mismatched_bytes = Ok r
    /\ json_data r = [VDict [fld "a" (VInt 1); fld "b" (VInt 10)]].
Proof.
  eexists. eexists.
  split; [vm_compute; reflexivity|]. split; [reflexivity|].
  split; [vm_compute; reflexivity|]. reflexivity.
Qed.

(* ------------------------------------------------------------------ *)
(** ** Bytes, slices and the [struct] integers *)

Lemma Z_of_byte_range (b : byte) : 0 <= Z_of_byte b < 256.
Proof.
  unfold Z_of_byte. pose proof (Byte.to_N_bounded b). lia.
Qed.

Lemma Z_of_byte_of_Z (z : Z) : Z_of_byte (byte_of_Z z) = z mod 256.
Proof.
  unfold Z_of_byte, byte_of_Z.
  pose proof (Z.mod_pos_bound z 256 ltac:(lia)) as Hz.
  destruct (Byte.of_N (Z.to_N (z mod 256))) as [b|] eqn:E.
  - apply Byte.to_of_N in E. rewrite E. lia.
  - apply Byte.of_N_None_iff in E. lia.
Qed.

Lemma byte_of_Z_of_byte (b : byte) : byte_of_Z (Z_of_byte b) = b.
Proof.
  unfold byte_of_Z. pose proof (Z_of_byte_range b) as H.
  rewrite Z.mod_small by assumption. unfold Z_of_byte.
  rewrite N2Z.id. rewrite Byte.of_to_N. reflexivity.
Qed.

Lemma le_bytes_length (k : nat) (n : Z) : length (le_bytes k n) = k.
Proof.
  revert n. induction k as [|k IH]; intros n; simpl; [reflexivity|].
  now rewrite IH.
Qed.

Lemma le_value_bytes (k : nat) (n : Z) :
  0 <= n < 256 ^ Z.of_nat k -> le_value (le_bytes k n) = n.
Proof.
  revert n. induction k as [|k IH]; intros n Hn.
  - simpl in *. lia.
  - cbn [le_bytes le_value]. rewrite Z_of_byte_of_Z.
    rewrite Nat2Z.inj_succ, Z.pow_succ_r in Hn by lia.
    rewrite IH.
    + pose proof (Z.div_mod n 256 ltac:(lia)). lia.
    + split; [apply Z.div_pos; lia|].
      apply Z.div_lt_upper_bound; lia.
Qed.

Lemma le_value_range (b : bytes) : 0 <= le_value b < 256 ^ len b.
Proof.
  unfold len. induction b as [|x t IH].
  - simpl. lia.
  - cbn [le_value length]. rewrite Nat2Z.inj_succ, Z.pow_succ_r by lia.
    pose proof (Z_of_byte_range x). lia.
Qed.

Lemma pack_I_ok (n : Z) (b : bytes) :
  pack_I n = Ok b -> 0 <= n < 2 ^ 32 /\ b = le_bytes 4 n.
Proof.
  unfold pack_I. destruct ((0 <=? n) && (n <? 2 ^ 32)) eqn:E; [|discriminate].
  apply andb_true_iff in E. destruct E as (E1 & E2).
  apply Z.leb_le in E1. apply Z.ltb_lt in E2. intros H. inversion H. auto.
Qed.

Lemma unpack_I_le_bytes (n : Z) :
  0 <= n < 2 ^ 32 -> unpack_I (le_bytes 4 n) = Ok n.
Proof.
  intros Hn. unfold unpack_I, len. rewrite le_bytes_length.
  cbn [Z.of_nat Pos.of_succ_nat Pos.succ Z.eqb Pos.eqb].
  rewrite le_value_bytes; [reflexivity|]. simpl. lia.
Qed.

Lemma unpack_I_short (b : bytes) :
  (length b < 4)%nat -> unpack_I b = Err StructError.
Proof.
  intros H. unfold unpack_I, len.
  replace (Z.of_nat (length b) =? 4) with false; [reflexivity|].
  symmetry. apply Z.eqb_neq. lia.
Qed.

Lemma unpack_I_nonneg (b : bytes) (n : Z) : unpack_I b = Ok n -> 0 <= n.
Proof.
  unfold unpack_I. destruct (len b =? 4); [|discriminate].
  intros H. inversion H. apply le_value_range.
Qed.

Lemma len_app {A} (a b : list A) : len (a ++ b) = len a + len b.
Proof. unfold len. rewrite length_app. lia. Qed.

Lemma len_nonneg {A} (a : list A) : 0 <= len a.
Proof. unfold len. lia. Qed.

(** The block that starts right after [pre]. *)
Lemma slice_app {A} (pre mid post : list A) :
  slice (pre ++ mid ++ post) (len pre) (len pre + len mid) = mid.
Proof.
  unfold slice, len.
  replace (Z.of_nat (length pre) + Z.of_nat (length mid)
           - Z.of_nat (length pre)) with (Z.of_nat (length mid)) by lia.
  rewrite !Nat2Z.id. rewrite skipn_app, Nat.sub_diag.
  rewrite skipn_all. simpl. rewrite firstn_app, Nat.sub_diag.
  rewrite firstn_all. simpl. apply app_nil_r.
Qed.

(** A slice of a truncated buffer is the truncated slice. *)
Lemma slice_firstn {A} (l : list A) (k : nat) (a b : Z) :
  slice (firstn k l) a b = firstn (k - Z.to_nat a) (slice l a b).
Proof.
  unfold slice. rewrite skipn_firstn_comm. rewrite !firstn_firstn.
  f_equal. lia.
Qed.

Lemma read_u32_app (pre post : bytes) (n : Z) :
  0 <= n < 2 ^ 32 ->
  read_u32 (pre ++ le_bytes 4 n ++ post) (len pre) = Ok n.
Proof.
  intros Hn. unfold read_u32.
  replace 4 with (len (le_bytes 4 n)) at 1
    by (unfold len; now rewrite le_bytes_length).
  rewrite slice_app. now apply unpack_I_le_bytes.
Qed.

(** On a truncated buffer a length field either reads as on the whole
    buffer, or is cut and raises. *)
Lemma read_u32_firstn (full : bytes) (k : nat) (off : Z) (n : Z) :
  0 <= off -> read_u32 full off = Ok n ->
  read_u32 (firstn k full) off
  = if (Z.to_nat off + 4 <=? k)%nat then Ok n else Err StructError.
Proof.
  intros Hoff H. unfold read_u32 in *. rewrite slice_firstn.
  assert (Hl : length (slice full off (off + 4)) = 4%nat).
  { unfold unpack_I in H. destruct (len (slice full off (off + 4)) =? 4) eqn:E;
      [|discriminate]. apply Z.eqb_eq in E. unfold len in E. lia. }
  destruct (Z.to_nat off + 4 <=? k)%nat eqn:E.
  - apply Nat.leb_le in E. rewrite firstn_all2 by lia. exact H.
  - apply Nat.leb_gt in E. apply unpack_I_short.
    rewrite length_firstn. lia.
Qed.

(* ------------------------------------------------------------------ *)
(** ** The reference instances satisfy the laws *)

Lemma pos_parse_code (p : positive) (r : bytes) :
  pos_parse (pos_code p ++ r) = Some (p, r).
Proof.
  induction p as [q IH|q IH|]; simpl; [| |reflexivity]; now rewrite IH.
Qed.

Lemma pos_parse_truncated (p : positive) (j : nat) :
  (j < length (pos_code p))%nat -> pos_parse (firstn j (pos_code p)) = None.
Proof.
  revert j. induction p as [q IH|q IH|]; intros j Hj; simpl in Hj;
    (destruct j as [|j]; [reflexivity|]); simpl.
  - rewrite IH by lia. reflexivity.
  - rewrite IH by lia. reflexivity.
  - lia.
Qed.

Lemma startswith_app (p r : bytes) : startswith (p ++ r) p = true.
Proof.
  induction p as [|x t IH]; simpl; [destruct r; reflexivity|].
  rewrite (Byte.byte_dec_lb (eq_refl x)). exact IH.
Qed.

Lemma startswith_inv (d p : bytes) :
  startswith d p = true -> d = p ++ skipn (length p) d.
Proof.
  revert d. induction p as [|x t IH]; intros d H; [reflexivity|].
  destruct d as [|y d]; [discriminate|]. simpl in H.
  apply andb_true_iff in H. destruct H as (H1 & H2).
  apply Byte.byte_dec_bl in H1. subst y. simpl. f_equal. now apply IH.
Qed.

Lemma stored_zstd_roundtrip : zstd_roundtrip stored_zstd.
Proof.
  intros level b. simpl. unfold stored_decompress, stored_compress.
  rewrite startswith_app. change (skipn 4 (frame_magic ++ ?x)) with x.
  cbn [frame_magic app skipn]. rewrite pos_parse_code.
  rewrite SuccNat2Pos.id_succ, Nat.eqb_refl. reflexivity.
Qed.

Lemma stored_zstd_rejects_truncated : zstd_rejects_truncated stored_zstd.
Proof.
  intros level b k Hk. simpl in *. unfold stored_compress in *.
  exists ZstdError. unfold stored_decompress.
  destruct k as [|[|[|[|k]]]]; try reflexivity.
  match goal with
  | |- context [firstn _ (frame_magic ++ ?r)] =>
      change (firstn (S (S (S (S k)))) (frame_magic ++ r))
        with (frame_magic ++ firstn k r)
  end.
  rewrite startswith_app. change (skipn 4 (frame_magic ++ ?x)) with x.
  cbn [frame_magic app length] in Hk. rewrite length_app in Hk.
  set (code := pos_code (Pos.of_succ_nat (length b))) in *.
  destruct (Nat.lt_ge_cases k (length code)) as [Hlt|Hge].
  - rewrite firstn_app.
    replace (k - length code)%nat with 0%nat by lia.
    simpl. rewrite app_nil_r. unfold code.
    rewrite pos_parse_truncated by assumption. reflexivity.
  - rewrite firstn_app. rewrite firstn_all2 by assumption.
    unfold code at 1. rewrite pos_parse_code.
    rewrite SuccNat2Pos.id_succ. rewrite length_firstn.
    replace (S (Nat.min (k - length code) (length b)) =? S (length b))%nat
      with false; [reflexivity|].
    symmetry. apply Nat.eqb_neq. lia.
Qed.

Lemma value_nested_ind (P : value -> Prop) :
  P VNone -> (forall b, P (VBool b)) -> (forall z, P (VInt z)) ->
  (forall f, P (VFloat f)) -> (forall s, P (VStr s)) ->
  (forall l, Forall P l -> P (VList l)) ->
  (forall d, Forall (fun kv => P (fst kv) /\ P (snd kv)) d -> P (VDict d)) ->
  forall v, P v.
Proof.
  intros HN HB HI HF HS HL HD.
  refine (fix go (v : value) : P v :=
            match v with
            | VNone => HN
            | VBool b => HB b
            | VInt z => HI z
            | VFloat f => HF f
            | VStr s => HS s
            | VList l =>
                HL l ((fix gol (l : list value) : Forall P l :=
                         match l with
                         | [] => Forall_nil _
                         | x :: t => Forall_cons _ (go x) (gol t)
                         end) l)
            | VDict d =>
                HD d ((fix god (d : list (value * value))
                         : Forall (fun kv => P (fst kv) /\ P (snd kv)) d :=
                         match d with
                         | [] => Forall_nil _
                         | kv :: t =>
                             Forall_cons _ (conj (go (fst kv)) (go (snd kv)))
                               (god t)
                         end) d)
            end).
Qed.

Lemma zparse_code (z : Z) (r : bytes) : zparse (zcode z ++ r) = Some (z, r).
Proof.
  destruct z; simpl; [reflexivity| |]; now rewrite pos_parse_code.
Qed.

Lemma bparse_code (b : bool) (r : bytes) : bparse (bcode b :: r) = Some (b, r).
Proof. destruct b; reflexivity. Qed.

Lemma fparse_code (f : pyfloat) (r : bytes) :
  fparse (fcode f ++ r) = Some (f, r).
Proof.
  destruct f as [|s|s|s m e]; try destruct s; simpl; try reflexivity;
    rewrite <- app_assoc, pos_parse_code, zparse_code; reflexivity.
Qed.

Lemma str_parse_code (s : pystr) (fuel : nat) (r : bytes) :
  (length (str_code s) <= fuel)%nat ->
  str_parse fuel (str_code s ++ r) = Some (s, r).
Proof.
  revert fuel. induction s as [|c t IH]; intros fuel Hf.
  - destruct fuel; [simpl in Hf; lia|]. reflexivity.
  - cbn [str_code] in *. cbn [length] in Hf. rewrite length_app in Hf.
    destruct fuel as [|fuel]; [lia|].
    cbn [app str_parse]. change (Z_of_byte "001" =? 0) with false.
    change (Z_of_byte "001" =? 1) with true. cbn match.
    rewrite <- app_assoc, zparse_code, IH by lia. reflexivity.
Qed.

Lemma js_parse_items_code (l : list value) :
  Forall parses l ->
  forall fuel r, (length (items_code js_ser l) <= fuel)%nat ->
    js_parse_items fuel (items_code js_ser l ++ r) = Some (l, r).
Proof.
  induction 1 as [|x t Hx _ IH]; intros fuel r Hf.
  - destruct fuel; [simpl in Hf; lia|]. reflexivity.
  - cbn [items_code] in *. cbn [length] in Hf. rewrite length_app in Hf.
    destruct fuel as [|fuel]; [lia|].
    cbn [app js_parse_items]. change (Z_of_byte "001" =? 0) with false.
    change (Z_of_byte "001" =? 1) with true. cbn match.
    rewrite <- app_assoc, Hx, IH by lia. reflexivity.
Qed.

Lemma js_parse_pairs_code (d : list (value * value)) :
  Forall (fun kv => parses (fst kv) /\ parses (snd kv)) d ->
  forall fuel r, (length (pairs_code js_ser d) <= fuel)%nat ->
    js_parse_pairs fuel (pairs_code js_ser d ++ r) = Some (d, r).
Proof.
  induction 1 as [|[k x] t (Hk & Hx) _ IH]; intros fuel r Hf.
  - destruct fuel; [simpl in Hf; lia|]. reflexivity.
  - cbn [pairs_code fst snd] in *. cbn [length] in Hf.
    rewrite !length_app in Hf.
    destruct fuel as [|fuel]; [lia|].
    cbn [app js_parse_pairs]. change (Z_of_byte "001" =? 0) with false.
    change (Z_of_byte "001" =? 1) with true. cbn match.
    rewrite <- !app_assoc, Hk, Hx, IH by lia. reflexivity.
Qed.

Lemma js_parse_ser (v : value) : parses v.
Proof.
  induction v using value_nested_ind; intros fuel r Hf;
    (destruct fuel as [|fuel]; [simpl in Hf; lia|]); cbn [js_ser] in *.
  - reflexivity.
  - destruct b; reflexivity.
  - cbn [app js_parse]. change (Z_of_byte "002" =? 0) with false.
    change (Z_of_byte "002" =? 1) with false.
    change (Z_of_byte "002" =? 2) with true. cbn match.
    rewrite zparse_code. reflexivity.
  - cbn [app js_parse]. change (Z_of_byte "003" =? 0) with false.
    change (Z_of_byte "003" =? 1) with false.
    change (Z_of_byte "003" =? 2) with false.
    change (Z_of_byte "003" =? 3) with true. cbn match.
    rewrite fparse_code. reflexivity.
  - cbn [app js_parse length] in *. change (Z_of_byte "004" =? 0) with false.
    change (Z_of_byte "004" =? 1) with false.
    change (Z_of_byte "004" =? 2) with false.
    change (Z_of_byte "004" =? 3) with false.
    change (Z_of_byte "004" =? 4) with true. cbn match.
    rewrite str_parse_code by lia. reflexivity.
  - cbn [app js_parse length] in *. change (Z_of_byte "005" =? 0) with false.
    change (Z_of_byte "005" =? 1) with false.
    change (Z_of_byte "005" =? 2) with false.
    change (Z_of_byte "005" =? 3) with false.
    change (Z_of_byte "005" =? 4) with false.
    change (Z_of_byte "005" =? 5) with true. cbn match.
    rewrite js_parse_items_code by (assumption || lia). reflexivity.
  - cbn [app js_parse length] in *. change (Z_of_byte "006" =? 0) with false.
    change (Z_of_byte "006" =? 1) with false.
    change (Z_of_byte "006" =? 2) with false.
    change (Z_of_byte "006" =? 3) with false.
    change (Z_of_byte "006" =? 4) with false.
    change (Z_of_byte "006" =? 5) with false.
    change (Z_of_byte "006" =? 6) with true. cbn match.
    rewrite js_parse_pairs_code by (assumption || lia). reflexivity.
Qed.

Lemma ref_json_roundtrip : json_roundtrip ref_json.
Proof.
  intros v b _ H. simpl in *. unfold ref_dumps in H. inversion H; subst.
  unfold ref_loads.
  pose proof (js_parse_ser v (length (js_ser v)) [] (le_n _)) as P.
  rewrite app_nil_r in P. rewrite P. reflexivity.
Qed.

(* ------------------------------------------------------------------ *)
(** ** Reading length-prefixed blocks, whole and truncated *)

Lemma raises_bind {A B} (r : result A) (k : A -> result B) :
  raises r -> raises (bind r k).
Proof. intros (e & ->). now exists e. Qed.

Lemma raises_err {A} (e : pyerr) : raises (@Err A e).
Proof. now exists e. Qed.

Lemma not_raises_ok {A} (r : result A) (a : A) : r = Ok a -> ~ raises r.
Proof. intros -> (e & H). discriminate. Qed.

Lemma slice_app3 {A} (pre mid post : list A) (a b : Z) :
  a = len pre -> b = len pre + len mid ->
  slice (pre ++ mid ++ post) a b = mid.
Proof. intros -> ->. apply slice_app. Qed.

Lemma len_le_bytes (k : nat) (n : Z) : len (le_bytes k n) = Z.of_nat k.
Proof. unfold len. now rewrite le_bytes_length. Qed.

Lemma len_block (c : bytes) : len (block c) = 4 + len c.
Proof. unfold block. rewrite len_app, len_le_bytes. lia. Qed.

Section BlockReader.
Variable Zs : zstd_api.
Hypothesis Hrt : zstd_roundtrip Zs.
Hypothesis Htr : zstd_rejects_truncated Zs.

(** The two-step read of a block: its length, then its decompressed
    content.  On a buffer cut before the end of the block it raises. *)
Lemma read_block_firstn {B} (pre post blob : bytes) (level : Z) (k : nat)
    (K : Z -> bytes -> result B) :
  let c := zstd_compress Zs level blob in
  let full := pre ++ block c ++ post in
  let data := firstn k full in
  len c < 2 ^ 32 ->
  (len pre + 4 + len c <= Z.of_nat k ->
   (n <- read_u32 data (len pre) ;;
    p <- zstd_decompress Zs
           (slice data (len pre + 4) (len pre + 4 + n)) ;;
    K n p) = K (len c) blob)
  /\ (Z.of_nat k < len pre + 4 + len c ->
      raises (n <- read_u32 data (len pre) ;;
              p <- zstd_decompress Zs
                     (slice data (len pre + 4) (len pre + 4 + n)) ;;
              K n p)).
Proof.
  intros c full data Hc.
  assert (Hlc : 0 <= len c < 2 ^ 32) by (pose proof (len_nonneg c); lia).
  assert (Hread : read_u32 full (len pre) = Ok (len c)).
  { unfold full, block. rewrite <- app_assoc. now apply read_u32_app. }
  assert (Hslice : slice full (len pre + 4) (len pre + 4 + len c) = c).
  { unfold full, block. rewrite <- app_assoc.
    rewrite (app_assoc pre). apply slice_app3.
    - rewrite len_app, len_le_bytes. lia.
    - rewrite len_app, len_le_bytes. lia. }
  pose proof (len_nonneg pre) as Hpre.
  unfold data. rewrite (read_u32_firstn full k _ _ Hpre Hread).
  split; intros Hk.
  - replace (Z.to_nat (len pre) + 4 <=? k)%nat with true
      by (symmetry; apply Nat.leb_le; lia).
    cbn [bind]. rewrite slice_firstn, Hslice.
    rewrite firstn_all2 by (unfold len, c in *; lia).
    unfold c. rewrite Hrt. reflexivity.
  - destruct (Z.to_nat (len pre) + 4 <=? k)%nat eqn:E;
      [|apply raises_err].
    apply Nat.leb_le in E. cbn [bind]. rewrite slice_firstn, Hslice.
    apply raises_bind. apply Htr. unfold len, c in *. lia.
Qed.

Variable J : json_api.

(** The column section of a truncated container: either the read
    raises, or it ends at the end of the section. *)
Lemma read_columns_firstn (types : value) (cs : list bytes) :
  Forall (fun c => (exists level blob, c = zstd_compress Zs level blob)
                   /\ len c < 2 ^ 32) cs ->
  forall (flist : list value) (pre post : bytes)
         (acc : list (value * value)) (k : nat),
    length flist = length cs ->
    let full := pre ++ concat (map block cs) ++ post in
    raises (read_columns Zs J (firstn k full) types flist acc (len pre))
    \/ exists cols,
         read_columns Zs J (firstn k full) types flist acc (len pre)
         = Ok (cols, len pre + len (concat (map block cs))).
Proof.
  induction 1 as [|c cs ((level & blob & Hc) & Hlen) _ IH];
    intros flist pre post acc k Hfl full.
  - destruct flist; [|discriminate]. right. exists acc. simpl.
    unfold len at 2. simpl. now rewrite Z.add_0_r.
  - destruct flist as [|f flist]; [discriminate|].
    injection Hfl as Hfl. subst c.
    cbn [read_columns].
    assert (Hfull : full = pre ++ block (zstd_compress Zs level blob)
                           ++ (concat (map block cs) ++ post)).
    { unfold full. cbn [map concat]. now rewrite <- app_assoc. }
    destruct (read_block_firstn pre (concat (map block cs) ++ post)
                blob level k
                (fun col_size packed =>
                   col_type <- py_getitem types f ;;
                   col <- unpack_column J col_type packed ;;
                   if hashable f
                   then read_columns Zs J (firstn k full) types flist
                          (dict_set acc f col)
                          (len pre + 4 + col_size)
                   else Err TypeError) Hlen) as (Hok & Hbad).
    rewrite <- Hfull in Hok, Hbad.
    destruct (Z_le_gt_dec (len pre + 4
                           + len (zstd_compress Zs level blob))
                          (Z.of_nat k)) as [Hk|Hk].
    + rewrite (Hok Hk).
      destruct (py_getitem types f) as [col_type|e];
        [|left; apply raises_err]. cbn [bind].
      destruct (unpack_column J col_type blob) as [col|e];
        [|left; apply raises_err]. cbn [bind].
      destruct (hashable f); [|left; apply raises_err].
      specialize (IH flist (pre ++ block (zstd_compress Zs level blob))
                    post (dict_set acc f col) k Hfl).
      cbv zeta in IH. rewrite <- app_assoc in IH. rewrite <- Hfull in IH.
      rewrite len_app, len_block in IH.
      cbn [map concat]. rewrite len_app, len_block.
      replace (len pre + (4 + len (zstd_compress Zs level blob)))
        with (len pre + 4 + len (zstd_compress Zs level blob)) in IH
        by lia.
      replace (len pre
               + (4 + len (zstd_compress Zs level blob)
                  + len (concat (map block cs))))
        with (len pre + 4 + len (zstd_compress Zs level blob)
              + len (concat (map block cs))) by lia.
      exact IH.
    + left. apply Hbad. lia.
Qed.
End BlockReader.

(** The index table of a truncated container: the walk over the entries
    raises unless the cut lies inside the payload of the last entry. *)
Lemma skip_indexes_firstn (es : list (bytes * bytes)) :
  Forall (fun e => len (fst e) < 2 ^ 32 /\ len (snd e) < 2 ^ 32) es ->
  es <> [] ->
  forall (pre : bytes) (k : nat),
    let full := pre ++ concat (map entry_bytes es) in
    Z.of_nat k < len full - len (snd (last es ([], []))) ->
    skip_indexes (firstn k full) (length es) (len pre) = Err StructError.
Proof.
  induction 1 as [|[name blob] es (Hn & Hb) Hes IH]; intros Hne pre k full Hk;
    [now elim Hne|].
  cbn [fst snd] in *. cbn [length skip_indexes].
  pose proof (len_nonneg name) as Hn0. pose proof (len_nonneg blob) as Hb0.
  pose proof (len_nonneg pre) as Hp0.
  assert (Hfull : full = pre ++ le_bytes 4 (len name)
                    ++ (name ++ le_bytes 4 (len blob) ++ blob
                        ++ concat (map entry_bytes es))).
  { unfold full. cbn [map concat]. unfold entry_bytes at 1, block.
    cbn [fst snd]. now rewrite <- !app_assoc. }
  assert (Hr1 : read_u32 full (len pre) = Ok (len name)).
  { rewrite Hfull. apply read_u32_app. lia. }
  assert (Hr2 : read_u32 full (len pre + (4 + len name)) = Ok (len blob)).
  { rewrite Hfull.
    replace (len pre + (4 + len name))
      with (len (pre ++ le_bytes 4 (len name) ++ name))
      by (rewrite !len_app, len_le_bytes; lia).
    replace (pre ++ le_bytes 4 (len name)
               ++ name ++ le_bytes 4 (len blob) ++ blob
               ++ concat (map entry_bytes es))
      with ((pre ++ le_bytes 4 (len name) ++ name)
              ++ le_bytes 4 (len blob)
              ++ (blob ++ concat (map entry_bytes es)))
      by (now rewrite <- !app_assoc).
    apply read_u32_app. lia. }
  rewrite (read_u32_firstn full k _ _ Hp0 Hr1).
  destruct (Z.to_nat (len pre) + 4 <=? k)%nat eqn:E1; [|reflexivity].
  cbn [bind].
  assert (Ho2 : 0 <= len pre + (4 + len name)) by lia.
  rewrite (read_u32_firstn full k _ _ Ho2 Hr2).
  destruct (Z.to_nat (len pre + (4 + len name)) + 4 <=? k)%nat eqn:E2;
    [|reflexivity].
  cbn [bind]. apply Nat.leb_le in E2.
  assert (Hlenfull : len full = len pre + (4 + len name) + (4 + len blob)
                                + len (concat (map entry_bytes es))).
  { rewrite Hfull. rewrite !len_app, !len_le_bytes. lia. }
  destruct es as [|e2 es'].
  - exfalso. change (len (concat (map entry_bytes []))) with 0 in Hlenfull.
    change (snd (last [(name, blob)] ([], []))) with blob in Hk.
    rewrite Hlenfull in Hk. lia.
  - specialize (IH ltac:(discriminate) (pre ++ entry_bytes (name, blob)) k).
    cbv zeta in IH.
    replace (len pre + (4 + len name) + (4 + len blob))
      with (len (pre ++ entry_bytes (name, blob)))
      by (unfold entry_bytes; cbn [fst snd];
          rewrite !len_app, !len_block; lia).
    assert (Hfull2 : (pre ++ entry_bytes (name, blob))
                       ++ concat (map entry_bytes (e2 :: es')) = full).
    { unfold full. cbn [map concat]. now rewrite <- app_assoc. }
    rewrite Hfull2 in IH. apply IH.
    change (last ((name, blob) :: e2 :: es') ([], []))
      with (last (e2 :: es') ([], [])) in Hk.
    exact Hk.
Qed.

Lemma short_not_startswith (p d : bytes) :
  (length d < length p)%nat -> startswith d p = false.
Proof.
  revert d. induction p as [|x t IH]; intros d H; [simpl in H; lia|].
  destruct d as [|y d]; [reflexivity|]. simpl in *.
  rewrite IH by lia. apply andb_false_r.
Qed.

(** *** The layout of what the writer emits *)

Lemma write_block_ok (c b : bytes) :
  write_block c = Ok b -> b = block c /\ len c < 2 ^ 32.
Proof.
  unfold write_block. intros H. inv_bind H. inversion H; subst.
  apply pack_I_ok in E. destruct E as (Hr & ->). split; [reflexivity|lia].
Qed.

Lemma write_columns_layout (fields : list value)
    (cc : list (value * bytes)) (b : bytes) :
  write_columns fields cc = Ok b ->
  exists cs, Forall2 (fun f c => lookup cc f = Ok c /\ len c < 2 ^ 32)
               fields cs
             /\ b = concat (map block cs).
Proof.
  unfold write_columns. intros H. inv_bind H. inversion H; subst. clear H.
  apply mapM_ok_inv in E. induction E as [|f y fields ys Hy _ IH].
  - exists []. split; [constructor|reflexivity].
  - destruct IH as (cs & Hcs & Heq). inv_bind Hy.
    apply write_block_ok in Hy. destruct Hy as (-> & Hlen).
    exists (a :: cs). split; [constructor; auto|].
    cbn [map concat]. now rewrite Heq.
Qed.

Lemma utf8_encode_ascii (s : pystr) :
  ascii_str s -> utf8_encode s = Ok (map byte_of_Z s).
Proof.
  induction 1 as [|c t Hc _ IH]; [reflexivity|].
  cbn [utf8_encode map]. unfold utf8_char.
  replace (c <? 0) with false by (symmetry; apply Z.ltb_ge; lia).
  replace (c <? 128) with true by (symmetry; apply Z.ltb_lt; lia).
  cbn [bind]. rewrite IH. reflexivity.
Qed.

Lemma write_indexes_layout (indexes : list (value * bytes)) (b : bytes) :
  write_indexes indexes = Ok b ->
  ascii_names (map fst indexes) ->
  b = le_bytes 4 (len indexes)
      ++ concat (map entry_bytes (map index_entry indexes))
  /\ len indexes < 2 ^ 32
  /\ Forall (fun e => len (fst e) < 2 ^ 32 /\ len (snd e) < 2 ^ 32)
       (map index_entry indexes).
Proof.
  unfold write_indexes. intros H Ha. inv_bind H. inv_bind H.
  inversion H; subst. clear H.
  apply pack_I_ok in E. destruct E as (Hr & ->).
  apply mapM_ok_inv in E0.
  assert (G : a0 = map entry_bytes (map index_entry indexes)
              /\ Forall (fun e => len (fst e) < 2 ^ 32
                                  /\ len (snd e) < 2 ^ 32)
                   (map index_entry indexes)).
  { unfold ascii_names in Ha. clear Hr.
    induction E0 as [|[k blob] y indexes ys Hy _ IH].
    - split; [reflexivity|constructor].
    - simpl in Ha. inversion Ha as [|? ? (s & -> & Hs) Ha']; subst.
      destruct (IH Ha') as (-> & Hall).
      unfold write_index in Hy. cbn [fst snd] in Hy.
      inv_bind_as Hy n En. inv_bind_as Hy nm Enm. inv_bind_as Hy bl Ebl.
      inversion Hy; subst. clear Hy.
      apply pack_I_ok in En. destruct En as (Hls & ->).
      rewrite (utf8_encode_ascii _ Hs) in Enm. inversion Enm; subst.
      clear Enm.
      apply write_block_ok in Ebl. destruct Ebl as (-> & Hlb).
      assert (Hlen : len (map byte_of_Z s) = len s)
        by (unfold len; now rewrite length_map).
      split.
      + cbn [map]. f_equal. unfold entry_bytes, index_entry, block.
        cbn [fst snd name_bytes]. rewrite Hlen. now rewrite <- !app_assoc.
      + cbn [map]. constructor; [|assumption].
        unfold index_entry. cbn [fst snd name_bytes]. rewrite Hlen. lia. }
  destruct G as (-> & Hall). repeat split; [lia|assumption].
Qed.

Lemma dict_get_in_any {V} (d : list (value * V)) (k : value) (v : V) :
  dict_get d k = Some v -> exists k', In (k', v) d.
Proof.
  induction d as [|[k0 v0] t IH]; simpl; [discriminate|].
  destruct (key_eqb k0 k).
  - intros H. inversion H; subst. eauto.
  - intros H. destruct (IH H) as (k' & Hk'). eauto.
Qed.

Lemma compress_columns_values (Zs : zstd_api) (J : json_api)
    (fields : list value) (columns : columns_t)
    (types : list (value * storage_type)) (cc : list (value * bytes)) :
  compress_columns Zs J fields columns types = Ok cc ->
  forall k c, In (k, c) cc -> exists blob, c = zstd_compress Zs ZSTD_level blob.
Proof.
  unfold compress_columns.
  enough (G : forall acc,
             (forall k c, In (k, c) acc ->
                          exists blob, c = zstd_compress Zs ZSTD_level blob) ->
             foldM (fun d f =>
                      col <- lookup columns f ;;
                      t <- lookup types f ;;
                      blob <- pack_column J col t ;;
                      Ok (dict_set d f (zstd_compress Zs ZSTD_level blob)))
               fields acc = Ok cc ->
             forall k c, In (k, c) cc ->
                         exists blob, c = zstd_compress Zs ZSTD_level blob).
  { apply G. intros k c []. }
  induction fields as [|f t IH]; intros acc Hacc H.
  - simpl in H. inversion H; subst. exact Hacc.
  - cbn [foldM] in H. inv_bind H. apply (IH a); [|exact H].
    inv_bind E. inv_bind E. inv_bind E. inversion E; subst.
    intros k c Hin. apply dict_set_in in Hin.
    destruct Hin as [Hin|[(-> & _)|Heq]]; eauto.
    inversion Heq; subst. eauto.
Qed.

Lemma build_indexes_keys (Zs : zstd_api) (J : json_api) (columns : columns_t)
    (types : list (value * storage_type)) (indexes : list (value * bytes)) :
  build_indexes Zs J columns types = Ok indexes ->
  forall k, In k (map fst indexes) -> In k (map fst types).
Proof.
  unfold build_indexes.
  enough (G : forall acc,
    foldM (fun d ft =>
       if is_numeric_type (snd ft) then
         col <- lookup columns (fst ft) ;;
         sorted_idx <- sorted_index col ;;
         b <- dumps J (VList (map (fun i => VInt (Z.of_nat i)) sorted_idx)) ;;
         Ok (dict_set d (fst ft) (zstd_compress Zs ZSTD_level b))
       else Ok d) types acc = Ok indexes ->
    forall k, In k (map fst indexes) ->
              In k (map fst acc) \/ In k (map fst types)).
  { intros H k Hk. destruct (G [] H k Hk) as [[]|?]. assumption. }
  induction types as [|[f t] rest IH]; intros acc H k Hk.
  - simpl in H. inversion H; subst. now left.
  - cbn [foldM] in H. inv_bind H. cbn [fst snd] in E.
    destruct (IH _ H k Hk) as [Hin|Hin]; [|right; now right].
    destruct (is_numeric_type t).
    + inv_bind E. inv_bind E. inv_bind E. inversion E; subst.
      apply dict_set_keys_inv in Hin. destruct Hin as [? | ->]; auto.
      right. now left.
    + inversion E; subst. now left.
Qed.

Lemma encode_blocks_rows (Zs : zstd_api) (J : json_api) (json_data : value)
    (b : blocks) :
  encode_blocks Zs J json_data = Ok b ->
  exists d0 rest, json_data = VList (VDict d0 :: rest).
Proof.
  destruct json_data as [| | | | |l|]; try discriminate.
  destruct l as [|row0 rest]; [discriminate|].
  destruct row0; try discriminate. eauto.
Qed.

Lemma schema_fields (fl : list value) (ty : list (value * storage_type)) :
  py_getitem (schema_value fl ty) (VStr (lit "fields")) = Ok (VList fl).
Proof. reflexivity. Qed.

Lemma schema_types (fl : list value) (ty : list (value * storage_type)) :
  py_getitem (schema_value fl ty) (VStr (lit "types"))
  = Ok (VDict (map (fun ft => (fst ft, VStr (type_name (snd ft)))) ty)).
Proof. reflexivity. Qed.

Lemma schema_clean (fl : list value) (ty : list (value * storage_type)) :
  Forall is_str fl -> Forall is_str (map fst ty) ->
  json_clean (schema_value fl ty) = true.
Proof.
  intros Hf Ht. unfold schema_value. cbn [json_clean forallb fst snd].
  rewrite !andb_true_r. apply andb_true_iff. split.
  - apply forallb_forall. rewrite Forall_forall in Hf.
    intros x Hx. destruct (Hf x Hx) as (s & ->). reflexivity.
  - apply forallb_forall. intros [k v] Hin.
    apply in_map_iff in Hin. destruct Hin as ([f t] & [= <- <-] & Hin).
    cbn [fst snd]. rewrite Forall_forall in Ht.
    destruct (Ht f) as (s & ->); [|reflexivity].
    apply in_map_iff. exists (f, t). auto.
Qed.

Lemma last_map {A B} (f : A -> B) (l : list A) (d : A) :
  last (map f l) (f d) = f (last l d).
Proof.
  induction l as [|x t IH]; [reflexivity|].
  destruct t; [reflexivity|]. exact IH.
Qed.

Lemma ascii_names_str (keys : list value) :
  ascii_names keys -> Forall is_str keys.
Proof.
  unfold ascii_names. apply Forall_impl. intros k (s & -> & _). now exists s.
Qed.

(** Everything the decoder reads of a truncated container up to the end of
    the header and of the schema block. *)
Lemma read_block_cases (Zs : zstd_api) (pre post blob : bytes) (level : Z)
    (k : nat) :
  zstd_roundtrip Zs -> zstd_rejects_truncated Zs ->
  let c := zstd_compress Zs level blob in
  let data := firstn k (pre ++ block c ++ post) in
  len c < 2 ^ 32 ->
  read_u32 data (len pre) = Err StructError
  \/ (read_u32 data (len pre) = Ok (len c)
      /\ raises (zstd_decompress Zs
                   (slice data (len pre + 4) (len pre + 4 + len c))))
  \/ (read_u32 data (len pre) = Ok (len c)
      /\ zstd_decompress Zs (slice data (len pre + 4) (len pre + 4 + len c))
         = Ok blob
      /\ len pre + 4 + len c <= Z.of_nat k).
Proof.
  intros Hrt Htr c data Hc.
  destruct (read_block_firstn Zs Hrt Htr pre post blob level k
              (fun n p => Ok (n, p)) Hc) as (Hok & Hbad).
  fold c in Hok, Hbad. fold data in Hok, Hbad.
  destruct (read_u32 data (len pre)) as [n|e] eqn:E.
  - cbn [bind] in *.
    destruct (Z_le_gt_dec (len pre + 4 + len c) (Z.of_nat k)) as [Hk|Hk].
    + specialize (Hok Hk). inv_bind Hok. inversion Hok; subst.
      right. right. auto.
    + assert (Hraise := Hbad ltac:(lia)).
      assert (n = len c).
      { unfold data in E.
        assert (Hfull : read_u32 (pre ++ block c ++ post) (len pre)
                        = Ok (len c)).
        { unfold block. rewrite <- app_assoc. apply read_u32_app.
          pose proof (len_nonneg c). lia. }
        rewrite (read_u32_firstn _ k _ _ (len_nonneg pre) Hfull) in E.
        destruct (Z.to_nat (len pre) + 4 <=? k)%nat; congruence. }
      subst n. right. left. split; [reflexivity|].
      destruct Hraise as (e & He).
      destruct (zstd_decompress Zs _) eqn:Ed; [discriminate|].
      apply raises_err.
  - left. unfold data in E.
    assert (Hfull : read_u32 (pre ++ block c ++ post) (len pre)
                    = Ok (len c)).
    { unfold block. rewrite <- app_assoc. apply read_u32_app.
      pose proof (len_nonneg c). lia. }
    rewrite (read_u32_firstn _ k _ _ (len_nonneg pre) Hfull) in E.
    destruct (Z.to_nat (len pre) + 4 <=? k)%nat; congruence.
Qed.

(** The bytes [write_container] produces, block by block. *)
Lemma write_container_layout (Zs : zstd_api) (J : json_api) (b : blocks)
    (data : bytes) :
  write_container Zs J b = Ok data ->
  ascii_names (map fst (e_indexes b)) ->
  exists schema_json cs,
    dumps J (schema_value (e_fields b) (e_types b)) = Ok schema_json
    /\ len (zstd_compress Zs ZSTD_level schema_json) < 2 ^ 32
    /\ Forall2 (fun f c => lookup (e_compressed b) f = Ok c
                           /\ len c < 2 ^ 32) (e_fields b) cs
    /\ len (e_indexes b) < 2 ^ 32
    /\ Forall (fun e => len (fst e) < 2 ^ 32 /\ len (snd e) < 2 ^ 32)
         (map index_entry (e_indexes b))
    /\ data = magic ++ le_bytes 4 1
              ++ block (zstd_compress Zs ZSTD_level schema_json)
              ++ concat (map block cs)
              ++ le_bytes 4 (len (e_indexes b))
              ++ concat (map entry_bytes (map index_entry (e_indexes b))).
Proof.
  unfold write_container. intros H Ha.
  inv_bind_as H v Ev. inv_bind_as H sj Esj. inv_bind_as H sb Esb.
  inv_bind_as H cols Ecols. inv_bind_as H idx Eidx. inversion H; subst.
  apply pack_I_ok in Ev. destruct Ev as (_ & ->).
  apply write_block_ok in Esb. destruct Esb as (-> & Hsc).
  apply write_columns_layout in Ecols. destruct Ecols as (cs & Hcs & ->).
  destruct (write_indexes_layout _ _ Eidx Ha) as (-> & Hn & Hes).
  exists sj, cs. repeat split; assumption.
Qed.

(** C2, as the code has it: a container cut anywhere before the payload of
    its last index entry (anywhere at all, when it has no index) makes the
    decoder raise. *)
Theorem truncated_container_rejected (Zs : zstd_api) (J : json_api)
    (json_data : value) (b : blocks) (data : bytes) (k : nat)
    (Hrt : zstd_roundtrip Zs)
    (Htr : zstd_rejects_truncated Zs)
    (Hjs : json_roundtrip J)
    (Henc : encode_blocks Zs J json_data = Ok b)
    (Hwr : write_container Zs J b = Ok data)
    (Hnames : ascii_names (e_fields b))
    (Hk : (k < length data - unread_tail (e_indexes b))%nat) :
  encode_to_bytes Zs J json_data = Ok data
  /\ raises (decode_from_bytes Zs J (firstn k data)).
Proof.
  split; [unfold encode_to_bytes; rewrite Henc; exact Hwr|].
  destruct (encode_blocks_rows _ _ _ _ Henc) as (d0 & rest & ->).
  destruct (encode_blocks_inv _ _ _ _ _ Henc) as (Hfl & Hb & Hd & Hcc & Hi).
  assert (Hstr : Forall is_str (e_fields b)) by now apply ascii_names_str.
  assert (Htk : forall k0, In k0 (map fst (e_types b)) -> In k0 (e_fields b)).
  { intros k0 Hk0. eapply build_columns_keys; [exact Hb|].
    eapply detect_types_keys; eauto. }
  assert (Hia : ascii_names (map fst (e_indexes b))).
  { unfold ascii_names in *. rewrite Forall_forall in *. intros k0 Hk0.
    apply Hnames. apply Htk. eapply build_indexes_keys; eauto. }
  destruct (write_container_layout _ _ _ _ Hwr Hia)
    as (sj & cs & Hsj & Hsc & Hcs & Hn & Hes & Hdata).
  set (sc := zstd_compress Zs ZSTD_level sj) in *.
  set (CB := concat (map block cs)) in *.
  set (es := map index_entry (e_indexes b)) in *.
  set (ES := concat (map entry_bytes es)) in *.
  set (N := len (e_indexes b)) in *.
  pose proof (len_nonneg sc) as Hsc0.
  pose proof (len_nonneg CB) as HCB0.
  assert (Hcsall : Forall (fun c =>
             (exists level blob, c = zstd_compress Zs level blob)
             /\ len c < 2 ^ 32) cs).
  { rewrite Forall_forall. intros c Hc.
    destruct (Forall2_in_right _ _ _ _ Hcs Hc) as (f & _ & Hl & Hlen).
    split; [|assumption]. apply lookup_ok in Hl.
    apply dict_get_in_any in Hl. destruct Hl as (k' & Hin).
    destruct (compress_columns_values _ _ _ _ _ _ Hcc _ _ Hin) as (blob & ->).
    eauto. }
  assert (Hlencs : length (e_fields b) = length cs)
    by (eapply Forall2_length; eauto).
  unfold decode_from_bytes. apply raises_bind. unfold parse_container.
  destruct (negb (startswith (firstn k data) magic)); [apply raises_err|].
  (* version *)
  change (unpack_I (slice (firstn k data) 4 8))
    with (read_u32 (firstn k data) 4).
  assert (Hv : read_u32 data 4 = Ok 1).
  { rewrite Hdata. change 4 with (len magic) at 1.
    apply read_u32_app. lia. }
  assert (Ho1 : 0 <= 4) by lia.
  rewrite (read_u32_firstn data k 4 1 Ho1 Hv).
  destruct (Z.to_nat 4 + 4 <=? k)%nat eqn:Ek8; [|apply raises_err].
  cbn [bind].
  (* schema block *)
  assert (Hd1 : data = (magic ++ le_bytes 4 1) ++ block sc
                       ++ (CB ++ le_bytes 4 N ++ ES)).
  { rewrite Hdata. now rewrite <- !app_assoc. }
  pose proof (read_block_cases Zs (magic ++ le_bytes 4 1)
                (CB ++ le_bytes 4 N ++ ES) sj ZSTD_level k Hrt Htr Hsc)
    as Hcases.
  cbv zeta in Hcases. fold sc in Hcases. rewrite <- Hd1 in Hcases.
  change (len (magic ++ le_bytes 4 1)) with 8 in Hcases.
  change (8 + 4) with 12 in Hcases.
  destruct Hcases as [-> | [(-> & Hr) | (-> & Hdec & Hk12)]];
    [apply raises_err | cbn [bind]; now apply raises_bind |].
  cbn [bind]. rewrite Hdec. cbn [bind].
  assert (Hst : Forall is_str (map fst (e_types b))).
  { rewrite Forall_forall in Hstr |- *. intros k0 Hk0. apply Hstr. auto. }
  rewrite (Hjs _ _ (schema_clean _ _ Hstr Hst) Hsj). cbn [bind].
  rewrite schema_fields, schema_types. cbn [bind py_iter].
  (* columns *)
  assert (Hd2 : data = (magic ++ le_bytes 4 1 ++ block sc) ++ CB
                       ++ (le_bytes 4 N ++ ES)).
  { rewrite Hdata. now rewrite <- !app_assoc. }
  assert (Hl2 : len (magic ++ le_bytes 4 1 ++ block sc) = 12 + len sc).
  { rewrite !len_app, len_block, len_le_bytes. change (len magic) with 4.
    lia. }
  pose proof (read_columns_firstn Zs Hrt Htr J
                (VDict (map (fun ft => (fst ft, VStr (type_name (snd ft))))
                          (e_types b)))
                cs Hcsall (e_fields b) (magic ++ le_bytes 4 1 ++ block sc)
                (le_bytes 4 N ++ ES) [] k Hlencs) as Hrc.
  cbv zeta in Hrc. fold CB in Hrc. rewrite <- Hd2, Hl2 in Hrc.
  destruct Hrc as [Hrc | (cols & Hrc)]; [now apply raises_bind|].
  rewrite Hrc. cbn [bind].
  (* index table *)
  assert (Hd3 : data = (magic ++ le_bytes 4 1 ++ block sc ++ CB)
                       ++ le_bytes 4 N ++ ES).
  { rewrite Hdata. now rewrite <- !app_assoc. }
  assert (Hl3 : len (magic ++ le_bytes 4 1 ++ block sc ++ CB)
                = 12 + len sc + len CB).
  { rewrite !len_app, len_block, len_le_bytes. change (len magic) with 4.
    lia. }
  assert (Hni : read_u32 data (12 + len sc + len CB) = Ok N).
  { rewrite Hd3, <- Hl3. apply read_u32_app.
    unfold N. pose proof (len_nonneg (e_indexes b)). lia. }
  assert (Ho3 : 0 <= 12 + len sc + len CB) by lia.
  rewrite (read_u32_firstn data k _ _ Ho3 Hni).
  destruct (Z.to_nat (12 + len sc + len CB) + 4 <=? k)%nat eqn:Eni;
    [|apply raises_err].
  cbn [bind]. apply Nat.leb_le in Eni. apply raises_bind.
  assert (Hd4 : data = (magic ++ le_bytes 4 1 ++ block sc ++ CB
                          ++ le_bytes 4 N) ++ ES).
  { rewrite Hdata. now rewrite <- !app_assoc. }
  assert (Hl4 : len (magic ++ le_bytes 4 1 ++ block sc ++ CB
                       ++ le_bytes 4 N) = 12 + len sc + len CB + 4).
  { rewrite !len_app, len_block, !len_le_bytes. change (len magic) with 4.
    lia. }
  assert (HN : Z.to_nat N = length es).
  { unfold N, es, len. rewrite Nat2Z.id, length_map. reflexivity. }
  assert (Htail : unread_tail (e_indexes b)
                  = length (snd (last es ([], [])))).
  { unfold unread_tail, es.
    change (@nil byte, @nil byte) with (index_entry (VNone, [])).
    rewrite last_map. reflexivity. }
  rewrite HN.
  assert (HlenES : len data = 12 + len sc + len CB + 4 + len ES).
  { rewrite Hd4, len_app, Hl4. reflexivity. }
  destruct (Nat.eq_dec (length es) 0) as [Hz|Hnz].
  - exfalso. apply length_zero_iff_nil in Hz.
    rewrite Htail, Hz in Hk. cbn [last snd length] in Hk.
    unfold ES in HlenES. rewrite Hz in HlenES.
    change (len (concat (map entry_bytes []))) with 0 in HlenES.
    unfold len in *. lia.
  - assert (Hne : es <> []) by (intros C; rewrite C in Hnz; now apply Hnz).
    pose proof (skip_indexes_firstn es Hes Hne
                  (magic ++ le_bytes 4 1 ++ block sc ++ CB ++ le_bytes 4 N)
                  k) as Hskip.
    cbv zeta in Hskip. fold ES in Hskip. rewrite <- Hd4, Hl4 in Hskip.
    rewrite Hskip; [apply raises_err|].
    rewrite Htail in Hk. unfold len. lia.
Qed.

Lemma truncated_container_rejected_witness :
  encode_to_bytes stored_zstd ref_json sample_rows = Ok sample_container
  /\ raises (decode_from_bytes stored_zstd ref_json
               (firstn 200 sample_container)).
Proof.
  refine (truncated_container_rejected stored_zstd ref_json sample_rows
            _ sample_container 200
            stored_zstd_roundtrip stored_zstd_rejects_truncated
            ref_json_roundtrip _ _ _ _).
  - vm_compute. reflexivity.
  - vm_compute. reflexivity.
  - repeat constructor. eexists. split; [reflexivity|].
    repeat constructor; lia.
  - apply Nat.ltb_lt. vm_compute. reflexivity.
Defined.

(** C2 fails as stated: a container cut inside the payload of its last
    index entry (here, with its last byte removed) is decoded without any
    error, to the same result as the whole container. *)
Lemma truncated_index_payload_accepted :
  (length sample_container - 1 < length sample_container)%nat
  /\ exists r,
       decode_from_bytes stored_zstd ref_json
         (firstn (length sample_container - 1) sample_container) = Ok r
       /\ decode_from_bytes stored_zstd ref_json sample_container = Ok r.
Proof.
  split; [apply Nat.ltb_lt; vm_compute; reflexivity|].
  eexists. split; vm_compute; reflexivity.
Qed.

(* ------------------------------------------------------------------ *)
(** ** Round trip and size estimate at particular inputs *)

(** C1 at the input [[{"x": 0.1}]]: the detector's criterion holds for the
    column (0.1 lies in the float16 range and [round(0.1, 3) == 0.1]), the
    column is stored as float16, and the decoded value is
    0.0999755859375, not 0.1.  A second defect breaks the round trip of
    records that are stored exactly: the index table records [len(f)], the
    number of characters of a field name, before the UTF-8 bytes of the
    name, so that with a non-ASCII name followed by another index the
    decoder walks off the table and raises. *)
Theorem roundtrip_float16_lossy :
  fits_float16 (flt 1 10) = true
  /\ detect_type [flt 1 10] = Ok TFloat16
  /\ (exists b r,
        encode_to_bytes stored_zstd ref_json (VList [VDict [fld "x" (flt 1 10)]])
        = Ok b
        /\ decode_from_bytes stored_zstd ref_json b = Ok r
        /\ json_data r = [VDict [fld "x" (VFloat (FFin false 819 (-13)))]]
        /\ json_data r <> [VDict [fld "x" (flt 1 10)]])
  /\ (exists b,
        encode_to_bytes stored_zstd ref_json
          (VList [VDict [(VStr [233], VInt 1); fld "b" (VInt 2)]]) = Ok b
        /\ decode_from_bytes stored_zstd ref_json b = Err StructError).
Proof.
  split; [vm_compute; reflexivity|]. split; [vm_compute; reflexivity|]. split.
  - eexists. eexists. split; [vm_compute; reflexivity|].
    split; [vm_compute; reflexivity|]. split; [reflexivity|].
    vm_compute. discriminate.
  - eexists. split; [vm_compute; reflexivity|]. vm_compute. reflexivity.
Qed.

(** C3 at the input [[{"id": 1}]]: the column is an int16 column, the
    encoder writes an index for it, the preview counts index blocks for
    int32 and float32 columns only and compresses at level 3 while the
    encoder compresses at level 7.  Even with a compressor whose output
    does not depend on the level, the estimate (238) is not the size of the
    container (260). *)
Theorem preview_size_differs :
  preview_level = 3 /\ ZSTD_level = 7
  /\ is_numeric_type TInt16 = true /\ is_preview_indexed TInt16 = false
  /\ exists r b,
       preview stored_zstd ref_json [[fld "id" (VInt 1)]] = Ok r
       /\ pv_types r = [(VStr (lit "id"), TInt16)]
       /\ encode_to_bytes stored_zstd ref_json
            (VList [VDict [fld "id" (VInt 1)]]) = Ok b
       /\ estimated_size r = 238
       /\ len b = 260.
Proof.
  repeat (split; [reflexivity|]).
  eexists. eexists. split; [vm_compute; reflexivity|].
  split; [reflexivity|]. split; [vm_compute; reflexivity|].
  split; reflexivity.
Qed.

(* ------------------------------------------------------------------ *)
(** ** Dictionaries built by successive assignments *)

Lemma dict_set_fresh {V} (d : list (value * V)) (k : value) (v : V) :
  is_str k -> ~ In k (map fst d) -> dict_set d k v = d ++ [(k, v)].
Proof.
  intros (s & ->). induction d as [|[k0 v0] t IH]; intros Hn; [reflexivity|].
  cbn [dict_set]. destruct (key_eqb k0 (VStr s)) eqn:E.
  - apply key_eqb_str_r in E. subst. exfalso. apply Hn. now left.
  - cbn [app]. f_equal. apply IH. intros C. apply Hn. now right.
Qed.

Lemma dict_set_nodup {V} (d : list (value * V)) (k : value) (v : V) :
  is_str k -> NoDup (map fst d) -> NoDup (map fst (dict_set d k v)).
Proof.
  intros Hs. induction d as [|[k0 v0] t IH]; intros Hn.
  - simpl. constructor; [intros []|constructor].
  - cbn [dict_set]. simpl in Hn. inversion Hn as [|? ? Hk0 Ht]; subst.
    destruct (key_eqb k0 k) eqn:E; simpl.
    + constructor; assumption.
    + constructor; [|auto]. intros C.
      apply dict_set_keys_inv in C. destruct C as [C | ->]; [contradiction|].
      destruct Hs as (s & ->). rewrite key_eqb_str_refl in E. discriminate.
Qed.

Lemma dict_get_nodup {V} (d : list (value * V)) (k : value) (v : V) :
  is_str k -> NoDup (map fst d) -> In (k, v) d -> dict_get d k = Some v.
Proof.
  intros (s & ->). induction d as [|[k0 v0] t IH]; intros Hn Hin;
    [destruct Hin|].
  simpl in Hn. inversion Hn as [|? ? Hk0 Ht]; subst.
  cbn [dict_get]. destruct Hin as [Heq|Hin].
  - inversion Heq; subst. now rewrite key_eqb_str_refl.
  - destruct (key_eqb k0 (VStr s)) eqn:E; [|auto].
    apply key_eqb_str_r in E. subst. exfalso. apply Hk0.
    apply (in_map fst) in Hin. exact Hin.
Qed.

(** After a run of assignments, a key that was assigned holds the value
    its last assignment gave it; when values are a function of the key,
    that is the value of the function. *)
Lemma assign_all_get {V} (l : list (value * V)) (g : value -> option V)
    (k : value) :
  Forall is_str (map fst l) ->
  (forall kv, In kv l -> g (fst kv) = Some (snd kv)) ->
  forall acc,
    (In k (map fst l) \/ (dict_get acc k = g k /\ g k <> None)) ->
    dict_get (assign_all l acc) k = g k.
Proof.
  unfold assign_all.
  induction l as [|[k0 v0] t IH]; intros Hs Hg acc Hk.
  - simpl. destruct Hk as [[]|(H & _)]. exact H.
  - simpl in Hs. inversion Hs as [|? ? Hs0 Hst]; subst.
    cbn [fold_left fst snd]. apply IH; [assumption| |].
    + intros kv Hkv. apply Hg. now right.
    + pose proof (Hg (k0, v0) (or_introl eq_refl)) as Hg0.
      cbn [fst snd] in Hg0.
      destruct Hk as [[Heq|Hin]|(Hacc & Hnn)].
      * simpl in Heq. subst k0. right. rewrite (dict_get_set _ k k _ Hs0).
        destruct Hs0 as (s & ->). rewrite key_eqb_str_refl.
        split; congruence.
      * now left.
      * right. rewrite (dict_get_set _ k0 k _ Hs0).
        destruct (key_eqb k0 k) eqn:E; [|auto].
        destruct Hs0 as (s & ->). apply key_eqb_str_l in E. subst k.
        split; congruence.
Qed.

Lemma assign_all_other {V} (l : list (value * V)) (k : value) :
  Forall is_str (map fst l) -> ~ In k (map fst l) ->
  forall acc, dict_get (assign_all l acc) k = dict_get acc k.
Proof.
  unfold assign_all.
  induction l as [|[k0 v0] t IH]; intros Hs Hn acc; [reflexivity|].
  simpl in Hs. inversion Hs as [|? ? Hs0 Hst]; subst.
  cbn [fold_left fst snd]. rewrite IH; [|assumption|].
  - rewrite (dict_get_set _ k0 k _ Hs0).
    destruct (key_eqb k0 k) eqn:E; [|reflexivity].
    destruct Hs0 as (s & ->). apply key_eqb_str_l in E. subst k.
    exfalso. apply Hn. now left.
  - intros C. apply Hn. now right.
Qed.

Lemma dict_get_map_values {V W} (h : V -> W) (d : list (value * V))
    (k : value) :
  dict_get (map (fun kv => (fst kv, h (snd kv))) d) k
  = option_map h (dict_get d k).
Proof.
  induction d as [|[k0 v0] t IH]; [reflexivity|].
  cbn [map dict_get fst snd]. destruct (key_eqb k0 k); [reflexivity|exact IH].
Qed.

Lemma dict_get_absent {V} (d : list (value * V)) (k : value) :
  ~ In k (map fst d) -> is_str k -> dict_get d k = None.
Proof.
  intros Hn (s & ->). induction d as [|[k0 v0] t IH]; [reflexivity|].
  cbn [dict_get]. destruct (key_eqb k0 (VStr s)) eqn:E.
  - apply key_eqb_str_r in E. subst. exfalso. apply Hn. now left.
  - apply IH. intros C. apply Hn. now right.
Qed.

(* ------------------------------------------------------------------ *)
(** ** The lazy reader on a container the encoder wrote *)

Lemma utf8_decode_ascii (s : pystr) :
  ascii_str s -> utf8_decode (map byte_of_Z s) = Ok s.
Proof.
  induction 1 as [|c t Hc _ IH]; [reflexivity|].
  cbn [map utf8_decode]. rewrite Z_of_byte_of_Z.
  rewrite Z.mod_small by lia.
  replace (c <? 128) with true by (symmetry; apply Z.ltb_lt; lia).
  rewrite IH. reflexivity.
Qed.

Lemma load_columns_layout (cs : list bytes) :
  forall (flist : list value) (pre post : bytes)
         (acc : list (value * bytes)),
    Forall2 (fun f c => is_str f /\ len c < 2 ^ 32) flist cs ->
    load_columns (pre ++ concat (map block cs) ++ post) flist acc (len pre)
    = Ok (assign_all (combine flist cs) acc,
          len pre + len (concat (map block cs))).
Proof.
  induction cs as [|c cs IH]; intros flist pre post acc H.
  - inversion H; subst. simpl. unfold len at 2. simpl.
    now rewrite Z.add_0_r.
  - inversion H as [|f ? fl ? ((s & ->) & Hc) Hrest]; subst.
    cbn [load_columns map concat combine].
    pose proof (len_nonneg c) as Hc0.
    assert (Hr : read_u32 (pre ++ (block c ++ concat (map block cs)) ++ post)
                   (len pre) = Ok (len c)).
    { unfold block at 1. rewrite <- !app_assoc. apply read_u32_app. lia. }
    rewrite Hr. cbn [bind hashable].
    assert (Hs : slice (pre ++ (block c ++ concat (map block cs)) ++ post)
                   (len pre + 4) (len pre + 4 + len c) = c).
    { unfold block at 1. rewrite <- !app_assoc.
      rewrite (app_assoc pre). apply slice_app3.
      - rewrite len_app, len_le_bytes. lia.
      - rewrite len_app, len_le_bytes. lia. }
    rewrite Hs.
    specialize (IH fl (pre ++ block c) post
                  (dict_set acc (VStr s) c) Hrest).
    rewrite <- app_assoc in IH.
    rewrite <- (app_assoc (block c)).
    rewrite len_app, len_block in IH.
    replace (len pre + 4 + len c) with (len pre + (4 + len c)) by lia.
    rewrite IH. unfold assign_all. cbn [fold_left fst snd].
    rewrite len_app, len_block. f_equal. f_equal. lia.
Qed.

Lemma load_indexes_layout (indexes : list (value * bytes)) :
  forall (pre : bytes) (acc : list (value * bytes)),
    ascii_names (map fst indexes) ->
    Forall (fun e => len (fst e) < 2 ^ 32 /\ len (snd e) < 2 ^ 32)
      (map index_entry indexes) ->
    load_indexes (pre ++ concat (map entry_bytes (map index_entry indexes)))
      (length indexes) acc (len pre)
    = Ok (assign_all indexes acc).
Proof.
  induction indexes as [|[k blob] rest IH]; intros pre acc Ha Hl;
    [reflexivity|].
  simpl in Ha. inversion Ha as [|? ? (s & -> & Hs) Ha']; subst.
  simpl in Hl. inversion Hl as [|? ? (Hn & Hb) Hl']; subst.
  cbn [fst snd index_entry name_bytes] in Hn, Hb.
  cbn [length load_indexes map].
  set (name := map byte_of_Z s) in *.
  pose proof (len_nonneg name) as Hn0. pose proof (len_nonneg blob) as Hb0.
  set (tail := concat (map entry_bytes (map index_entry rest))).
  assert (Hfull : pre ++ concat (entry_bytes (index_entry (VStr s, blob))
                                   :: map entry_bytes (map index_entry rest))
                  = pre ++ le_bytes 4 (len name)
                    ++ name ++ le_bytes 4 (len blob) ++ blob ++ tail).
  { cbn [concat]. unfold entry_bytes, index_entry, block.
    cbn [fst snd name_bytes]. fold name. fold tail.
    now rewrite <- !app_assoc. }
  rewrite Hfull.
  rewrite read_u32_app by lia. cbn [bind].
  assert (Hs1 : slice (pre ++ le_bytes 4 (len name)
                         ++ name ++ le_bytes 4 (len blob) ++ blob ++ tail)
                  (len pre + 4) (len pre + 4 + len name) = name).
  { rewrite (app_assoc pre). apply slice_app3.
    - rewrite len_app, len_le_bytes. lia.
    - rewrite len_app, len_le_bytes. lia. }
  rewrite Hs1. unfold name at 1. rewrite (utf8_decode_ascii _ Hs).
  cbn [bind].
  assert (Hr2 : read_u32 (pre ++ le_bytes 4 (len name)
                            ++ name ++ le_bytes 4 (len blob) ++ blob ++ tail)
                  (len pre + 4 + len name) = Ok (len blob)).
  { replace (len pre + 4 + len name)
      with (len (pre ++ le_bytes 4 (len name) ++ name))
      by (rewrite !len_app, len_le_bytes; lia).
    replace (pre ++ le_bytes 4 (len name)
               ++ name ++ le_bytes 4 (len blob) ++ blob ++ tail)
      with ((pre ++ le_bytes 4 (len name) ++ name)
              ++ le_bytes 4 (len blob) ++ (blob ++ tail))
      by (now rewrite <- !app_assoc).
    apply read_u32_app. lia. }
  rewrite Hr2. cbn [bind].
  assert (Hs2 : slice (pre ++ le_bytes 4 (len name)
                         ++ name ++ le_bytes 4 (len blob) ++ blob ++ tail)
                  (len pre + 4 + len name + 4)
                  (len pre + 4 + len name + 4 + len blob) = blob).
  { replace (pre ++ le_bytes 4 (len name)
               ++ name ++ le_bytes 4 (len blob) ++ blob ++ tail)
      with ((pre ++ le_bytes 4 (len name) ++ name ++ le_bytes 4 (len blob))
              ++ blob ++ tail)
      by (now rewrite <- !app_assoc).
    apply slice_app3.
    - rewrite !len_app, !len_le_bytes. lia.
    - rewrite !len_app, !len_le_bytes. lia. }
  rewrite Hs2.
  specialize (IH (pre ++ le_bytes 4 (len name) ++ name
                    ++ le_bytes 4 (len blob) ++ blob)
                (dict_set acc (VStr s) blob) Ha' Hl').
  fold tail in IH.
  replace (len pre + 4 + len name + 4 + len blob)
    with (len (pre ++ le_bytes 4 (len name) ++ name
                 ++ le_bytes 4 (len blob) ++ blob))
    by (rewrite !len_app, !len_le_bytes; lia).
  replace (pre ++ le_bytes 4 (len name)
             ++ name ++ le_bytes 4 (len blob) ++ blob ++ tail)
    with ((pre ++ le_bytes 4 (len name) ++ name
             ++ le_bytes 4 (len blob) ++ blob) ++ tail)
    by (now rewrite <- !app_assoc).
  exact IH.
Qed.

Lemma block_at (pre post c : bytes) :
  len c < 2 ^ 32 ->
  read_u32 (pre ++ block c ++ post) (len pre) = Ok (len c)
  /\ slice (pre ++ block c ++ post) (len pre + 4) (len pre + 4 + len c) = c.
Proof.
  intros Hc. pose proof (len_nonneg c) as Hc0. split.
  - unfold block. rewrite <- app_assoc. apply read_u32_app. lia.
  - unfold block. rewrite <- app_assoc. rewrite (app_assoc pre).
    apply slice_app3; rewrite len_app, len_le_bytes; lia.
Qed.

Section Written.
Variable Zs : zstd_api.
Variable J : json_api.
Hypothesis Hrt : zstd_roundtrip Zs.
Hypothesis Hjs : json_roundtrip J.
Variable b : blocks.
Variable data : bytes.
Hypothesis Hwr : write_container Zs J b = Ok data.
Hypothesis Hnames : ascii_names (e_fields b).
Hypothesis Htypes : forall k, In k (map fst (e_types b)) -> In k (e_fields b).
Hypothesis Hidx : forall k, In k (map fst (e_indexes b)) ->
                            In k (map fst (e_types b)).

Lemma written_index_names : ascii_names (map fst (e_indexes b)).
Proof.
  unfold ascii_names in *. rewrite Forall_forall in *. intros k Hk.
  apply Hnames. auto.
Qed.

(** The schema a container is read back with is the schema it was written
    with. *)
Lemma decode_schema (r : decoded) :
  decode_from_bytes Zs J data = Ok r ->
  fields r = VList (e_fields b)
  /\ types r = VDict (map (fun ft => (fst ft, VStr (type_name (snd ft))))
                        (e_types b)).
Proof.
  destruct (write_container_layout _ _ _ _ Hwr written_index_names)
    as (sj & cs & Hsj & Hsc & Hcs & Hn & Hes & Hdata).
  pose proof (ascii_names_str _ Hnames) as Hstr.
  assert (Hst : Forall is_str (map fst (e_types b))).
  { rewrite Forall_forall in Hstr |- *. auto. }
  unfold decode_from_bytes, parse_container. intros H.
  rewrite Hdata in H at 1. rewrite startswith_app in H. cbn [negb] in H.
  inv_bind_as H p Ep. inv_bind_as Ep v Ev.
  destruct (block_at (magic ++ le_bytes 4 1)
              (concat (map block cs) ++ le_bytes 4 (len (e_indexes b))
               ++ concat (map entry_bytes (map index_entry (e_indexes b))))
              (zstd_compress Zs ZSTD_level sj) Hsc) as (Hr & Hs).
  rewrite <- app_assoc in Hr, Hs. rewrite <- Hdata in Hr, Hs.
  change (len (magic ++ le_bytes 4 1)) with 8 in Hr, Hs.
  change (8 + 4) with 12 in Hs.
  rewrite Hr in Ep. cbn [bind] in Ep. rewrite Hs, Hrt in Ep.
  cbn [bind] in Ep.
  rewrite (Hjs _ _ (schema_clean _ _ Hstr Hst) Hsj) in Ep. cbn [bind] in Ep.
  rewrite schema_fields, schema_types in Ep. cbn [bind py_iter] in Ep.
  inv_bind_as Ep rc Erc. destruct rc as [columns offset].
  inv_bind_as Ep ni Eni. inv_bind_as Ep off Eoff. inversion Ep; subst p.
  unfold reconstruct in H. cbn [p_fields p_types] in H.
  inv_bind_as H nr Enr. inv_bind_as H jd Ejd. inversion H; subst r.
  split; reflexivity.
Qed.

(** What the lazy reader holds after loading the container. *)
Lemma load_file_inv (self : JONXFile) :
  load_file Zs J data = Ok self ->
  jx_types self = VDict (map (fun ft => (fst ft, VStr (type_name (snd ft))))
                           (e_types b))
  /\ (forall f c, In f (e_fields b) -> lookup (e_compressed b) f = Ok c ->
                  dict_get (jx_compressed_columns self) f = Some c)
  /\ jx_indexes self = assign_all (e_indexes b) [].
Proof.
  destruct (write_container_layout _ _ _ _ Hwr written_index_names)
    as (sj & cs & Hsj & Hsc & Hcs & Hn & Hes & Hdata).
  pose proof (ascii_names_str _ Hnames) as Hstr.
  unfold load_file. intros H. inv_bind_as H r Er.
  destruct (decode_schema _ Er) as (Hfields & Htys).
  rewrite Hdata in H at 1. rewrite startswith_app in H. cbn [negb] in H.
  destruct (block_at (magic ++ le_bytes 4 1)
              (concat (map block cs) ++ le_bytes 4 (len (e_indexes b))
               ++ concat (map entry_bytes (map index_entry (e_indexes b))))
              (zstd_compress Zs ZSTD_level sj) Hsc) as (Hr & _).
  rewrite <- app_assoc in Hr. rewrite <- Hdata in Hr.
  change (len (magic ++ le_bytes 4 1)) with 8 in Hr.
  rewrite Hr in H. cbn [bind] in H.
  rewrite Hfields in H. cbn [py_iter bind] in H.
  set (sc := zstd_compress Zs ZSTD_level sj) in *.
  assert (Hcs' : Forall2 (fun f c => is_str f /\ len c < 2 ^ 32)
                   (e_fields b) cs).
  { rewrite Forall_forall in Hstr. clear - Hcs Hstr.
    induction Hcs as [|f c fl cs' (_ & Hc) _ IH]; constructor.
    - split; [apply Hstr; now left|assumption].
    - apply IH. intros x Hx. apply Hstr. now right. }
  pose proof (load_columns_layout cs (e_fields b)
                (magic ++ le_bytes 4 1 ++ block sc)
                (le_bytes 4 (len (e_indexes b))
                 ++ concat (map entry_bytes (map index_entry (e_indexes b))))
                [] Hcs') as Hlc.
  assert (Hl2 : len (magic ++ le_bytes 4 1 ++ block sc) = 12 + len sc).
  { rewrite !len_app, len_block, len_le_bytes. change (len magic) with 4.
    lia. }
  rewrite <- !app_assoc in Hlc. rewrite <- Hdata, Hl2 in Hlc.
  rewrite Hlc in H. cbn [bind] in H.
  set (CB := concat (map block cs)) in *.
  assert (Hni : read_u32 data (12 + len sc + len CB)
                = Ok (len (e_indexes b))).
  { replace (12 + len sc + len CB)
      with (len (magic ++ le_bytes 4 1 ++ block sc ++ CB))
      by (rewrite !len_app, len_block, len_le_bytes;
          change (len magic) with 4; lia).
    rewrite Hdata.
    replace (magic ++ le_bytes 4 1 ++ block sc ++ CB
             ++ le_bytes 4 (len (e_indexes b))
             ++ concat (map entry_bytes (map index_entry (e_indexes b))))
      with ((magic ++ le_bytes 4 1 ++ block sc ++ CB)
              ++ le_bytes 4 (len (e_indexes b))
              ++ concat (map entry_bytes (map index_entry (e_indexes b))))
      by (now rewrite <- !app_assoc).
    apply read_u32_app. pose proof (len_nonneg (e_indexes b)). lia. }
  rewrite Hni in H. cbn [bind] in H.
  pose proof (load_indexes_layout (e_indexes b)
                (magic ++ le_bytes 4 1 ++ block sc ++ CB
                 ++ le_bytes 4 (len (e_indexes b))) []
                written_index_names Hes) as Hli.
  replace ((magic ++ le_bytes 4 1 ++ block sc ++ CB
            ++ le_bytes 4 (len (e_indexes b)))
           ++ concat (map entry_bytes (map index_entry (e_indexes b))))
    with data in Hli by (rewrite Hdata; now rewrite <- !app_assoc).
  replace (len (magic ++ le_bytes 4 1 ++ block sc ++ CB
                ++ le_bytes 4 (len (e_indexes b))))
    with (12 + len sc + len CB + 4) in Hli
    by (rewrite !len_app, len_block, !len_le_bytes;
        change (len magic) with 4; lia).
  replace (Z.to_nat (len (e_indexes b))) with (length (e_indexes b)) in H
    by (unfold len; now rewrite Nat2Z.id).
  rewrite Hli in H. cbn [bind] in H. inversion H; subst self.
  cbn [jx_types jx_compressed_columns jx_indexes].
  split; [exact Htys|]. split; [|reflexivity].
  intros f c Hf Hl.
  rewrite (assign_all_get (combine (e_fields b) cs)
             (dict_get (e_compressed b)) f).
  - now apply lookup_ok.
  - rewrite Forall_forall in Hstr |- *. intros k Hk. apply Hstr.
    apply in_map_iff in Hk. destruct Hk as ([k' c'] & <- & Hin).
    apply in_combine_l in Hin. exact Hin.
  - intros [k' c'] Hin. cbn [fst snd].
    clear - Hcs Hin. induction Hcs as [|f0 c0 fl cs' (Hl0 & _) _ IH];
      [destruct Hin|].
    destruct Hin as [Heq|Hin]; [|auto].
    inversion Heq; subst. now apply lookup_ok.
  - left. rewrite (Forall2_length Hcs') at 1 || idtac.
    clear - Hcs Hf. induction Hcs as [|f0 c0 fl cs' _ _ IH];
      [destruct Hf|].
    simpl. destruct Hf as [->|Hf]; auto.
Qed.

End Written.

Lemma compress_columns_get (Zs : zstd_api) (J : json_api)
    (fields : list value) (columns : columns_t)
    (types : list (value * storage_type)) (cc : list (value * bytes))
    (f : value) (col : list value) (t : storage_type) :
  compress_columns Zs J fields columns types = Ok cc ->
  Forall is_str fields -> In f fields ->
  lookup columns f = Ok col -> lookup types f = Ok t ->
  exists blob, pack_column J col t = Ok blob
               /\ lookup cc f = Ok (zstd_compress Zs ZSTD_level blob).
Proof.
  intros H Hs Hin Hc Ht. unfold compress_columns in H.
  set (g := fun k : value =>
              c <- lookup columns k ;; t <- lookup types k ;;
              blob <- pack_column J c t ;;
              Ok (zstd_compress Zs ZSTD_level blob)).
  enough (G : forall acc,
             foldM (fun d f =>
                      col <- lookup columns f ;;
                      t <- lookup types f ;;
                      blob <- pack_column J col t ;;
                      Ok (dict_set d f (zstd_compress Zs ZSTD_level blob)))
               fields acc = Ok cc ->
             (In f fields \/ exists v, dict_get acc f = Some v /\ g f = Ok v) ->
             exists v, g f = Ok v /\ dict_get cc f = Some v).
  { destruct (G [] H (or_introl Hin)) as (v & Hg & Hv).
    unfold g in Hg. rewrite Hc, Ht in Hg. cbn [bind] in Hg.
    destruct (pack_column J col t) as [blob|] eqn:Ep; [|discriminate].
    cbn [bind] in Hg. inversion Hg; subst. exists blob.
    split; [reflexivity|]. unfold lookup. now rewrite Hv. }
  clear H Hin. induction fields as [|f0 rest IH]; intros acc H Hk.
  - simpl in H. inversion H; subst. destruct Hk as [[]|(v & Hv & Hg)]. eauto.
  - inversion Hs as [|? ? Hs0 Hsr]; subst. cbn [foldM] in H.
    inv_bind_as H acc1 E1. apply (IH Hsr acc1 H).
    inv_bind_as E1 c0 Ec0. inv_bind_as E1 t0 Et0. inv_bind_as E1 b0 Eb0.
    inversion E1; subst acc1. clear E1.
    assert (Hg0 : g f0 = Ok (zstd_compress Zs ZSTD_level b0)).
    { unfold g. rewrite Ec0, Et0. cbn [bind]. rewrite Eb0. reflexivity. }
    rewrite (dict_get_set _ f0 f _ Hs0).
    destruct (key_eqb f0 f) eqn:E.
    + destruct Hs0 as (s & ->). apply key_eqb_str_l in E. subst f.
      right. eauto.
    + destruct Hk as [[->|Hin]|Hk]; [|now left|now right].
      destruct Hs0 as (s & ->). rewrite key_eqb_str_refl in E. discriminate.
Qed.

Lemma build_indexes_nodup (Zs : zstd_api) (J : json_api)
    (columns : columns_t) (types : list (value * storage_type))
    (indexes : list (value * bytes)) :
  build_indexes Zs J columns types = Ok indexes ->
  Forall is_str (map fst types) -> NoDup (map fst indexes).
Proof.
  unfold build_indexes. intros H Hs.
  enough (G : forall acc, NoDup (map fst acc) ->
    foldM (fun d ft =>
       if is_numeric_type (snd ft) then
         col <- lookup columns (fst ft) ;;
         sorted_idx <- sorted_index col ;;
         b <- dumps J (VList (map (fun i => VInt (Z.of_nat i)) sorted_idx)) ;;
         Ok (dict_set d (fst ft) (zstd_compress Zs ZSTD_level b))
       else Ok d) types acc = Ok indexes -> NoDup (map fst indexes)).
  { apply (G []); [constructor|exact H]. }
  clear H. induction types as [|[f t] rest IH]; intros acc Hn H.
  - simpl in H. inversion H; subst. exact Hn.
  - simpl in Hs. inversion Hs as [|? ? Hs0 Hsr]; subst.
    cbn [foldM fst snd] in H. inv_bind_as H acc1 E1.
    apply (IH Hsr acc1); [|exact H].
    destruct (is_numeric_type t).
    + inv_bind_as E1 c Ec. inv_bind_as E1 si Esi. inv_bind_as E1 bj Ebj.
      inversion E1; subst. now apply dict_set_nodup.
    + inversion E1; subst. exact Hn.
Qed.

(** On a dictionary with distinct string keys, re-assigning its pairs in
    order changes no lookup. *)
Lemma assign_all_self {V} (d : list (value * V)) (k : value) :
  Forall is_str (map fst d) -> NoDup (map fst d) -> is_str k ->
  dict_get (assign_all d []) k = dict_get d k.
Proof.
  intros Hs Hn Hk. destruct (dict_get d k) as [v|] eqn:E.
  - rewrite (assign_all_get d (dict_get d) k Hs); [exact E| |].
    + intros [k' v'] Hin. cbn [fst snd]. apply dict_get_nodup; auto.
      rewrite Forall_forall in Hs. apply Hs. apply (in_map fst) in Hin.
      exact Hin.
    + left. apply dict_get_in in E; [|assumption].
      apply (in_map fst) in E. exact E.
  - rewrite assign_all_other; [reflexivity|assumption|].
    now apply dict_get_none.
Qed.

Lemma insert_by_key_perm (x : nat * value) (l r : list (nat * value)) :
  insert_by_key x l = Ok r -> Permutation (x :: l) r.
Proof.
  revert r. induction l as [|y t IH]; intros r H.
  - simpl in H. inversion H. reflexivity.
  - cbn [insert_by_key] in H. inv_bind_as H c Ec. destruct c.
    + inv_bind_as H r' Er. inversion H; subst.
      rewrite perm_swap. constructor. now apply IH.
    + inversion H. reflexivity.
Qed.

Lemma sort_by_key_perm (l r : list (nat * value)) :
  sort_by_key l = Ok r -> Permutation l r.
Proof.
  revert r. induction l as [|x t IH]; intros r H.
  - simpl in H. inversion H. constructor.
  - cbn [sort_by_key] in H. inv_bind_as H r' Er.
    apply insert_by_key_perm in H. rewrite <- H. constructor. now apply IH.
Qed.

Lemma sorted_index_perm (column : list value) (idx : list nat) :
  sorted_index column = Ok idx -> Permutation idx (seq 0 (length column)).
Proof.
  unfold sorted_index. intros H. inv_bind_as H r Er. inversion H; subst.
  apply sort_by_key_perm in Er. rewrite <- (enumerate_from_fst 0 column).
  symmetry. now apply Permutation_map.
Qed.

(* ------------------------------------------------------------------ *)
(** ** What a packed column reads back as *)

Lemma chunks_concat (k : nat) (bs : list bytes) :
  (0 < k)%nat -> Forall (fun c => length c = k) bs ->
  forall fuel, (length bs <= fuel)%nat ->
               chunks fuel k (concat bs) = Some bs.
Proof.
  intros Hk. induction 1 as [|c bs Hc _ IH]; intros fuel Hf.
  - destruct fuel; reflexivity.
  - cbn [concat]. destruct fuel as [|fuel]; [simpl in Hf; lia|].
    assert (Hsk : skipn k (c ++ concat bs) = concat bs).
    { rewrite <- Hc. rewrite skipn_app, skipn_all, Nat.sub_diag.
      reflexivity. }
    assert (Hfi : firstn k (c ++ concat bs) = c).
    { rewrite <- Hc. rewrite firstn_app, firstn_all, Nat.sub_diag.
      simpl. apply app_nil_r. }
    assert (Hlt : (length (c ++ concat bs) <? k)%nat = false).
    { apply Nat.ltb_ge. rewrite length_app. lia. }
    destruct c as [|x c']; [simpl in Hc; lia|].
    change ((x :: c') ++ concat bs) with (x :: (c' ++ concat bs)) in *.
    cbn [chunks]. rewrite Hlt, Hsk, Hfi.
    rewrite IH by (simpl in Hf; lia). reflexivity.
Qed.

Lemma signed_mod (w z : Z) :
  0 < w -> - 2 ^ (w - 1) <= z < 2 ^ (w - 1) -> signed w (z mod 2 ^ w) = z.
Proof.
  intros Hw Hz. unfold signed.
  assert (H2 : 2 ^ w = 2 * 2 ^ (w - 1)).
  { replace w with (Z.succ (w - 1)) at 1 by lia. apply Z.pow_succ_r. lia. }
  assert (Hp : 0 < 2 ^ (w - 1)) by (apply Z.pow_pos_nonneg; lia).
  destruct (Z_lt_le_dec z 0) as [Hneg|Hpos].
  - replace (z mod 2 ^ w) with (z + 2 ^ w).
    + replace (z + 2 ^ w <? 2 ^ (w - 1)) with false
        by (symmetry; apply Z.ltb_ge; lia). lia.
    + symmetry. rewrite <- (Z_mod_plus_full z 1 (2 ^ w)).
      rewrite Z.mul_1_l. apply Z.mod_small. lia.
  - rewrite Z.mod_small by lia.
    replace (z <? 2 ^ (w - 1)) with true by (symmetry; apply Z.ltb_lt; lia).
    reflexivity.
Qed.

Lemma pack_int_inv (k : nat) (v : value) (c : bytes) :
  (0 < k)%nat -> pack_int k v = Ok c ->
  int_like v /\ length c = k
  /\ signed (8 * Z.of_nat k) (le_value c) = int_of v.
Proof.
  intros Hk H.
  assert (G : forall w z, w = 8 * Z.of_nat k ->
             (if (- 2 ^ (w - 1) <=? z) && (z <? 2 ^ (w - 1))
              then Ok (le_bytes k (z mod 2 ^ w))
              else Err StructError) = Ok c ->
             length c = k /\ signed w (le_value c) = z).
  { intros w z Hw Hz.
    destruct ((- 2 ^ (w - 1) <=? z) && (z <? 2 ^ (w - 1))) eqn:E;
      [|discriminate].
    apply andb_true_iff in E. destruct E as (E1 & E2).
    apply Z.leb_le in E1. apply Z.ltb_lt in E2.
    injection Hz as Hz. rewrite <- Hz. split; [apply le_bytes_length|].
    rewrite le_value_bytes.
    - apply signed_mod; lia.
    - replace (256 ^ Z.of_nat k) with (2 ^ w)
        by (rewrite Hw, Z.pow_mul_r by lia; reflexivity).
      apply Z.mod_pos_bound. apply Z.pow_pos_nonneg; lia. }
  destruct v; try discriminate; cbn [pack_int] in H;
    destruct (G _ _ eq_refl H) as (Hl & Hv); repeat split; assumption.
Qed.

Lemma unpack_pack_ints (k : nat) (col : list value) (r : list bytes) :
  (0 < k)%nat -> mapM (pack_int k) col = Ok r ->
  unpack_ints k (concat r) = Ok (map (fun v => VInt (int_of v)) col).
Proof.
  intros Hk H. apply mapM_ok_inv in H. unfold unpack_ints.
  assert (Hlen : Forall (fun c => length c = k) r).
  { clear - H Hk. induction H as [|v c col r Hv _ IH]; constructor; auto.
    now destruct (pack_int_inv k v c Hk Hv) as (_ & Hl & _). }
  rewrite (chunks_concat k r Hk Hlen).
  - f_equal. clear Hlen. induction H as [|v c col r Hv _ IH]; [reflexivity|].
    cbn [map]. rewrite IH.
    destruct (pack_int_inv k v c Hk Hv) as (_ & _ & Hs). now rewrite Hs.
  - clear - Hlen Hk. induction Hlen as [|c r Hc _ IH]; [simpl; lia|].
    cbn [concat length]. rewrite length_app. simpl. lia.
Qed.

Lemma unpacker_of_type_name (t : storage_type) :
  unpacker_of (VStr (type_name t))
  = match t with TStr | TJson => TJson | _ => t end.
Proof. destruct t; reflexivity. Qed.

(* ------------------------------------------------------------------ *)
(** ** Binary floating-point formats *)

Lemma digits_pos (m : positive) : 1 <= digits m.
Proof. unfold digits. lia. Qed.

Lemma digits_upper (m : positive) : Z.pos m < 2 ^ digits m.
Proof.
  unfold digits. pose proof (Pos.size_gt m) as H.
  apply Pos2Z.pos_lt_pos in H. rewrite Pos2Z.inj_pow in H. exact H.
Qed.

Lemma digits_lower (m : positive) : 2 ^ (digits m - 1) <= Z.pos m.
Proof.
  unfold digits. pose proof (Pos.size_le m) as H.
  apply Pos2Z.pos_le_pos in H. rewrite Pos2Z.inj_pow in H.
  change (Z.pos m~0) with (2 * Z.pos m) in H.
  replace (Z.pos (Pos.size m)) with (Z.succ (Z.pos (Pos.size m) - 1)) in H
    by lia.
  rewrite Z.pow_succ_r in H by lia. lia.
Qed.

Lemma digits_le (m : positive) (n : Z) :
  0 <= n -> Z.pos m < 2 ^ n -> digits m <= n.
Proof.
  intros Hn H. pose proof (digits_lower m) as Hl. pose proof (digits_pos m).
  destruct (Z_le_gt_dec (digits m) n) as [|Hgt]; [assumption|].
  exfalso. assert (2 ^ n <= 2 ^ (digits m - 1))
    by (apply Z.pow_le_mono_r; lia). lia.
Qed.

Lemma digits_ge (m : positive) (n : Z) :
  2 ^ n <= Z.pos m -> n < digits m.
Proof.
  intros H. pose proof (digits_upper m) as Hu. pose proof (digits_pos m).
  destruct (Z_lt_le_dec n (digits m)) as [|Hge]; [assumption|].
  exfalso. assert (2 ^ digits m <= 2 ^ n)
    by (apply Z.pow_le_mono_r; lia). lia.
Qed.

(** [strip] takes out the factors two of the mantissa. *)
Lemma strip_spec (m : positive) (e : Z) :
  exists j : nat,
    snd (strip m e) = e + Z.of_nat j
    /\ Z.pos m = Z.pos (fst (strip m e)) * 2 ^ Z.of_nat j
    /\ (forall e', strip (fst (strip m e)) e' = (fst (strip m e), e')).
Proof.
  revert e. induction m as [q IH|q IH|]; intros e.
  - exists 0%nat. simpl. repeat split; lia.
  - destruct (IH (e + 1)) as (j & Hs & Hm & Ho). exists (S j).
    cbn [strip]. rewrite Hs. split; [lia|]. split; [|exact Ho].
    rewrite Nat2Z.inj_succ, Z.pow_succ_r by lia.
    change (Z.pos q~0) with (2 * Z.pos q). rewrite Hm. ring.
  - exists 0%nat. simpl. repeat split; lia.
Qed.

Lemma strip_canonical (m : positive) (e : Z) :
  strip m 0 = (m, 0) -> strip m e = (m, e).
Proof.
  intros H. destruct m as [q|q|]; try reflexivity.
  exfalso. cbn [strip] in H.
  destruct (strip_spec q (0 + 1)) as (j & Hs & _). rewrite H in Hs.
  cbn [snd] in Hs. lia.
Qed.

Lemma strip_digits (m : positive) (e : Z) :
  digits (fst (strip m e)) + snd (strip m e) = digits m + e.
Proof.
  revert e. induction m as [q IH|q IH|]; intros e; try reflexivity.
  cbn [strip]. rewrite IH. unfold digits. cbn [Pos.size].
  rewrite Pos2Z.inj_succ. lia.
Qed.

Lemma rne_shift_bounds (n k : Z) :
  n / 2 ^ k <= rne_shift n k <= n / 2 ^ k + 1.
Proof.
  unfold rne_shift.
  destruct (n mod 2 ^ k <? 2 ^ (k - 1)); [lia|].
  destruct (2 ^ (k - 1) <? n mod 2 ^ k); [lia|].
  destruct (Z.even (n / 2 ^ k)); lia.
Qed.

Lemma round_to_exact (p emin emax : Z) (s : bool) (m : positive) (e : Z) :
  canonical (FFin s m e) -> fits p emin emax (FFin s m e) ->
  round_to p emin emax s m e = FFin s m e.
Proof.
  cbn [canonical fits]. intros Hc (Hd & He & Ho). unfold round_to.
  replace (Z.max (digits m + e - p) emin <=? e) with true
    by (symmetry; apply Z.leb_le; lia).
  rewrite (strip_canonical m e Hc).
  replace (emax <? digits m + e) with false
    by (symmetry; apply Z.ltb_ge; lia).
  reflexivity.
Qed.

Lemma pow2_split (p : Z) : 1 <= p -> 2 ^ p = 2 * 2 ^ (p - 1).
Proof.
  intros Hp. replace p with (Z.succ (p - 1)) at 1 by lia.
  apply Z.pow_succ_r. lia.
Qed.

(** What [round_to] returns is a value of the format, in canonical form. *)
Lemma round_to_fits (p emin emax : Z) (s : bool) (m : positive) (e : Z)
    (s' : bool) (m1 : positive) (e1 : Z) :
  1 <= p ->
  round_to p emin emax s m e = FFin s' m1 e1 ->
  s' = s /\ canonical (FFin s' m1 e1) /\ fits p emin emax (FFin s' m1 e1).
Proof.
  intros Hp. unfold round_to.
  set (d := digits m). set (e' := Z.max (d + e - p) emin).
  set (q := if e' <=? e then Z.pos m else rne_shift (Z.pos m) (e' - e)).
  set (e'' := if e' <=? e then e else e').
  assert (He'' : emin <= e'').
  { unfold e''. destruct (e' <=? e) eqn:E; [apply Z.leb_le in E|];
      unfold e' in *; lia. }
  assert (Hq : q <= 2 ^ p).
  { unfold q. pose proof (digits_upper m) as Hu. fold d in Hu.
    pose proof (digits_pos m) as Hd1. fold d in Hd1.
    destruct (e' <=? e) eqn:E.
    - apply Z.leb_le in E. assert (d <= p) by (unfold e' in E; lia).
      assert (2 ^ d <= 2 ^ p) by (apply Z.pow_le_mono_r; lia). lia.
    - apply Z.leb_gt in E. set (k := e' - e).
      assert (Hk : 0 < k) by (unfold k; lia).
      assert (Hdk : d - k <= p) by (unfold k, e'; lia).
      pose proof (rne_shift_bounds (Z.pos m) k) as (_ & Hb).
      assert (Hk2 : 0 < 2 ^ k) by (apply Z.pow_pos_nonneg; lia).
      destruct (Z_le_gt_dec k d) as [Hkd|Hkd].
      + assert (Z.pos m / 2 ^ k < 2 ^ (d - k)).
        { apply Z.div_lt_upper_bound; [assumption|].
          rewrite <- Z.pow_add_r by lia. replace (k + (d - k)) with d by lia.
          exact Hu. }
        assert (2 ^ (d - k) <= 2 ^ p) by (apply Z.pow_le_mono_r; lia). lia.
      + assert (Z.pos m / 2 ^ k = 0).
        { apply Z.div_small. split; [lia|].
          assert (2 ^ d <= 2 ^ k) by (apply Z.pow_le_mono_r; lia). lia. }
        assert (0 < 2 ^ p) by (apply Z.pow_pos_nonneg; lia). lia. }
  destruct q as [|q'|q'] eqn:Eq; try discriminate.
  destruct (strip_spec q' e'') as (j & Hs & Hm & Ho).
  pose proof (strip_digits q' e'') as Hsd.
  destruct (strip q' e'') as [m1' e1'] eqn:Es. cbn [fst snd] in *.
  destruct (emax <? digits m1' + e1') eqn:Eo; [discriminate|].
  apply Z.ltb_ge in Eo. intros H. injection H as <- <- <-.
  split; [reflexivity|]. split; [apply Ho|].
  cbn [fits]. repeat split; try lia.
  assert (Hdm : digits m1' = digits q' - Z.of_nat j) by lia.
  destruct (Z_lt_le_dec (Z.pos q') (2 ^ p)) as [Hlt|Hge].
  - pose proof (digits_le q' p ltac:(lia) Hlt). lia.
  - assert (Heq : Z.pos q' = 2 ^ p) by lia.
    rewrite (pow2_split p Hp) in Heq.
    assert (0 < 2 ^ (p - 1)) by (apply Z.pow_pos_nonneg; lia).
    destruct q' as [q''|q''|].
    + exfalso. change (Z.pos q''~1) with (2 * Z.pos q'' + 1) in Heq. lia.
    + cbn [strip] in Es.
      destruct (strip_spec q'' (e'' + 1)) as (j' & Hs' & _).
      rewrite Es in Hs'. cbn [snd] in Hs'.
      assert (Hd2 : digits q''~0 <= p + 1).
      { apply digits_le; [lia|]. rewrite Heq.
        rewrite (pow2_split (p + 1)) by lia.
        replace (p + 1 - 1) with p by lia. rewrite (pow2_split p Hp). lia. }
      lia.
    + exfalso. lia.
Qed.

(** *** Rounding to nearest is monotone *)

Lemma pow2_pos (k : Z) : 0 <= k -> 0 < 2 ^ k.
Proof. intros H. apply Z.pow_pos_nonneg; lia. Qed.

Lemma rne_shift_mono (n n' k : Z) :
  0 < k -> n <= n' -> rne_shift n k <= rne_shift n' k.
Proof.
  intros Hk Hn.
  assert (Hp : 0 < 2 ^ k) by (apply pow2_pos; lia).
  assert (Hq : n / 2 ^ k <= n' / 2 ^ k) by (apply Z.div_le_mono; lia).
  destruct (Z_lt_le_dec (n / 2 ^ k) (n' / 2 ^ k)) as [Hlt|Hge].
  - pose proof (rne_shift_bounds n k). pose proof (rne_shift_bounds n' k).
    lia.
  - assert (Heq : n / 2 ^ k = n' / 2 ^ k) by lia.
    assert (Hr : n mod 2 ^ k <= n' mod 2 ^ k).
    { rewrite !Z.mod_eq by lia. rewrite Heq. lia. }
    unfold rne_shift. rewrite <- Heq.
    destruct (n mod 2 ^ k <? 2 ^ (k - 1)) eqn:E1;
      destruct (n' mod 2 ^ k <? 2 ^ (k - 1)) eqn:E2;
      destruct (2 ^ (k - 1) <? n mod 2 ^ k) eqn:E3;
      destruct (2 ^ (k - 1) <? n' mod 2 ^ k) eqn:E4;
      destruct (Z.even (n / 2 ^ k));
      try apply Z.ltb_lt in E1; try apply Z.ltb_ge in E1;
      try apply Z.ltb_lt in E2; try apply Z.ltb_ge in E2;
      try apply Z.ltb_lt in E3; try apply Z.ltb_ge in E3;
      try apply Z.ltb_lt in E4; try apply Z.ltb_ge in E4; lia.
Qed.

Lemma rne_shift_scale (n k j : Z) :
  0 < k -> 0 <= j -> rne_shift (n * 2 ^ j) (k + j) = rne_shift n k.
Proof.
  intros Hk Hj.
  assert (Hpk : 0 < 2 ^ k) by (apply pow2_pos; lia).
  assert (Hpj : 0 < 2 ^ j) by (apply pow2_pos; lia).
  assert (Hph : 0 < 2 ^ (k - 1)) by (apply pow2_pos; lia).
  unfold rne_shift.
  rewrite (Z.pow_add_r 2 k j) by lia.
  rewrite Z.div_mul_cancel_r by lia.
  rewrite Z.mul_mod_distr_r by lia.
  replace (k + j - 1) with (k - 1 + j) by lia.
  rewrite (Z.pow_add_r 2 (k - 1) j) by lia.
  replace (n mod 2 ^ k * 2 ^ j <? 2 ^ (k - 1) * 2 ^ j)
    with (n mod 2 ^ k <? 2 ^ (k - 1)).
  2:{ destruct (n mod 2 ^ k <? 2 ^ (k - 1)) eqn:E; symmetry.
      - apply Z.ltb_lt. apply Z.ltb_lt in E. nia.
      - apply Z.ltb_ge. apply Z.ltb_ge in E. nia. }
  replace (2 ^ (k - 1) * 2 ^ j <? n mod 2 ^ k * 2 ^ j)
    with (2 ^ (k - 1) <? n mod 2 ^ k).
  2:{ destruct (2 ^ (k - 1) <? n mod 2 ^ k) eqn:E; symmetry.
      - apply Z.ltb_lt. apply Z.ltb_lt in E. nia.
      - apply Z.ltb_ge. apply Z.ltb_ge in E. nia. }
  reflexivity.
Qed.

Lemma rne_shift_grid (q k : Z) : 0 < k -> rne_shift (q * 2 ^ k) k = q.
Proof.
  intros Hk.
  assert (Hpk : 0 < 2 ^ k) by (apply pow2_pos; lia).
  assert (Hph : 0 < 2 ^ (k - 1)) by (apply pow2_pos; lia).
  unfold rne_shift. rewrite Z.div_mul by lia. rewrite Z.mod_mul by lia.
  replace (0 <? 2 ^ (k - 1)) with true by (symmetry; apply Z.ltb_lt; lia).
  reflexivity.
Qed.

Lemma near_mono (n n' k : Z) : 0 <= k -> n <= n' -> near n k <= near n' k.
Proof.
  intros Hk Hn. unfold near. destruct (k =? 0) eqn:E; [assumption|].
  apply Z.eqb_neq in E. apply rne_shift_mono; lia.
Qed.

Lemma near_grid (q k : Z) : 0 <= k -> near (q * 2 ^ k) k = q.
Proof.
  intros Hk. unfold near. destruct (k =? 0) eqn:E.
  - apply Z.eqb_eq in E. subst k. simpl. lia.
  - apply Z.eqb_neq in E. apply rne_shift_grid. lia.
Qed.

Lemma near_nonneg (n k : Z) : 0 <= k -> 0 <= n -> 0 <= near n k.
Proof.
  intros Hk Hn. rewrite <- (near_grid 0 k Hk). apply near_mono; lia.
Qed.

(** The scaled mantissa lies in the binade its digit count names. *)
Lemma scaled_bounds (m : positive) (j : Z) :
  0 <= j ->
  2 ^ (digits m + j - 1) <= Z.pos m * 2 ^ j < 2 ^ (digits m + j).
Proof.
  intros Hj. pose proof (digits_pos m). pose proof (digits_lower m).
  pose proof (digits_upper m). pose proof (pow2_pos j Hj).
  replace (digits m + j - 1) with (digits m - 1 + j) by lia.
  rewrite !Z.pow_add_r by lia. nia.
Qed.

Lemma units_mono (p emin c : Z) (m : positive) (e : Z) (m' : positive)
    (e' : Z) :
  1 <= p -> c <= e -> c <= e' -> c <= emin ->
  Z.pos m * 2 ^ (e - c) <= Z.pos m' * 2 ^ (e' - c) ->
  units p emin c m e <= units p emin c m' e'.
Proof.
  intros Hp He He' Hc Hle. unfold units, grid.
  pose proof (scaled_bounds m (e - c) ltac:(lia)) as (Hl & Hu).
  pose proof (scaled_bounds m' (e' - c) ltac:(lia)) as (Hl' & Hu').
  pose proof (digits_pos m) as Hd. pose proof (digits_pos m') as Hd'.
  set (N := Z.pos m * 2 ^ (e - c)) in *.
  set (N' := Z.pos m' * 2 ^ (e' - c)) in *.
  set (E := digits m + (e - c)) in *. set (E' := digits m' + (e' - c)) in *.
  replace (Z.max (digits m + e - p) emin - c)
    with (Z.max (E - p) (emin - c)) by (unfold E; lia).
  replace (Z.max (digits m' + e' - p) emin - c)
    with (Z.max (E' - p) (emin - c)) by (unfold E'; lia).
  set (K := Z.max (E - p) (emin - c)). set (K' := Z.max (E' - p) (emin - c)).
  assert (HEE : E <= E').
  { destruct (Z_le_gt_dec E E') as [|Hgt]; [assumption|]. exfalso.
    assert (2 ^ E' <= 2 ^ (E - 1)) by (apply Z.pow_le_mono_r; lia). lia. }
  assert (HK : 0 <= K) by (unfold K; lia).
  assert (HK' : 0 <= K') by (unfold K'; lia).
  destruct (Z.eq_dec K K') as [Heq|Hne].
  - rewrite <- Heq. apply Z.mul_le_mono_nonneg_r.
    + pose proof (pow2_pos K HK). lia.
    + apply near_mono; assumption.
  - assert (HKK : K < K') by (unfold K, K' in *; lia).
    assert (HK'E : K' = E' - p) by (unfold K, K' in *; lia).
    assert (HElt : E < E') by (unfold K, K' in *; lia).
    set (B := 2 ^ (E' - 1)).
    assert (HNB : N <= B).
    { assert (2 ^ E <= B) by (apply Z.pow_le_mono_r; lia). lia. }
    assert (HB1 : B = 2 ^ (E' - 1 - K) * 2 ^ K).
    { unfold B. rewrite <- Z.pow_add_r by lia. f_equal. lia. }
    assert (HB2 : B = 2 ^ (p - 1) * 2 ^ K').
    { unfold B. rewrite <- Z.pow_add_r by lia. f_equal. lia. }
    apply Z.le_trans with B.
    + rewrite HB1. apply Z.mul_le_mono_nonneg_r.
      * pose proof (pow2_pos K HK). lia.
      * rewrite <- (near_grid (2 ^ (E' - 1 - K)) K HK). rewrite <- HB1.
        apply near_mono; assumption.
    + rewrite HB2. apply Z.mul_le_mono_nonneg_r.
      * pose proof (pow2_pos K' HK'). lia.
      * rewrite <- (near_grid (2 ^ (p - 1)) K' HK'). rewrite <- HB2.
        apply near_mono; assumption.
Qed.

(** [round_to] in units of [2^c]. *)
Lemma round_units (p emin c : Z) (m : positive) (e : Z) :
  c <= e -> c <= emin ->
  (if grid p emin m e <=? e then Z.pos m
   else rne_shift (Z.pos m) (grid p emin m e - e))
  * 2 ^ ((if grid p emin m e <=? e then e else grid p emin m e) - c)
  = units p emin c m e.
Proof.
  intros He Hc. unfold units.
  assert (Hg : emin <= grid p emin m e) by (unfold grid; lia).
  set (g := grid p emin m e) in *.
  destruct (g <=? e) eqn:E.
  - apply Z.leb_le in E.
    replace (Z.pos m * 2 ^ (e - c))
      with (Z.pos m * 2 ^ (e - g) * 2 ^ (g - c)).
    + rewrite near_grid by lia. reflexivity.
    + rewrite <- Z.mul_assoc, <- Z.pow_add_r by lia. do 2 f_equal. lia.
  - apply Z.leb_gt in E. f_equal. unfold near.
    replace (g - c =? 0) with false by (symmetry; apply Z.eqb_neq; lia).
    replace (g - c) with (g - e + (e - c)) by lia.
    symmetry. apply rne_shift_scale; lia.
Qed.

Lemma round_to_cases (p emin emax c : Z) (s : bool) (m : positive) (e : Z) :
  1 <= p -> emin <= emax -> c <= e -> c <= emin ->
  (round_to p emin emax s m e = FZero s /\ units p emin c m e = 0)
  \/ (round_to p emin emax s m e = FInf s
      /\ 2 ^ (emax - c) <= units p emin c m e)
  \/ (exists m1 e1,
        round_to p emin emax s m e = FFin s m1 e1 /\ c <= e1
        /\ Z.pos m1 * 2 ^ (e1 - c) = units p emin c m e
        /\ 0 < units p emin c m e < 2 ^ (emax - c)).
Proof.
  intros Hp Hemax He Hc.
  pose proof (round_units p emin c m e He Hc) as Hu.
  unfold round_to. fold (grid p emin m e).
  assert (Hg : emin <= grid p emin m e) by (unfold grid; lia).
  set (g := grid p emin m e) in *.
  set (q := if g <=? e then Z.pos m else rne_shift (Z.pos m) (g - e)) in *.
  set (e'' := if g <=? e then e else g) in *.
  assert (He'' : c <= e'').
  { unfold e''. destruct (g <=? e); lia. }
  assert (Hq : 0 <= q).
  { unfold q. destruct (g <=? e) eqn:E; [lia|]. apply Z.leb_gt in E.
    pose proof (rne_shift_bounds (Z.pos m) (g - e)) as (Hb & _).
    assert (0 <= Z.pos m / 2 ^ (g - e)).
    { apply Z.div_pos; [lia|]. apply pow2_pos. lia. }
    lia. }
  destruct q as [|q'|q'] eqn:Eq; [left| |lia].
  - split; [reflexivity|]. lia.
  - right.
    destruct (strip_spec q' e'') as (j & Hs & Hm & Ho).
    destruct (strip q' e'') as [m1 e1]. cbn [fst snd] in *.
    assert (Hv : Z.pos m1 * 2 ^ (e1 - c) = units p emin c m e).
    { rewrite <- Hu, Hm, Hs. rewrite <- Z.mul_assoc, <- Z.pow_add_r by lia.
      do 2 f_equal. lia. }
    pose proof (scaled_bounds m1 (e1 - c) ltac:(lia)) as (Hl1 & Hu1).
    destruct (emax <? digits m1 + e1) eqn:Eo.
    + left. split; [reflexivity|]. apply Z.ltb_lt in Eo.
      rewrite <- Hv.
      assert (2 ^ (emax - c) <= 2 ^ (digits m1 + (e1 - c) - 1))
        by (apply Z.pow_le_mono_r; lia). lia.
    + right. apply Z.ltb_ge in Eo. exists m1, e1.
      split; [reflexivity|]. split; [lia|]. split; [exact Hv|].
      rewrite <- Hv.
      assert (2 ^ (digits m1 + (e1 - c)) <= 2 ^ (emax - c))
        by (apply Z.pow_le_mono_r; lia).
      pose proof (digits_pos m1).
      pose proof (pow2_pos (digits m1 + (e1 - c) - 1) ltac:(lia)). lia.
Qed.

(** *** Exact values as scaled integers *)

Lemma at_scale_le (c : Z) (x y : xreal) (n n' : Z) :
  c <= 0 -> at_scale c x n -> at_scale c y n' ->
  (x_le x y = true <-> n <= n').
Proof.
  intros Hc (q & -> & Hq) (q' & -> & Hq').
  rewrite x_le_fin, Hq, Hq'. unfold Qle. cbn [Qnum Qden].
  pose proof (pow2_pos (- c) ltac:(lia)) as Hp.
  rewrite Z2Pos.id by assumption. split; intros H; nia.
Qed.

Lemma dyadic_at_scale (c z e : Z) :
  c <= 0 -> c <= e -> at_scale c (XFin (dyadic_Q z e)) (z * 2 ^ (e - c)).
Proof.
  intros Hc He. exists (dyadic_Q z e). split; [reflexivity|].
  pose proof (pow2_pos (- c) ltac:(lia)) as Hp.
  unfold dyadic_Q, Qeq. destruct (0 <=? e) eqn:E.
  - apply Z.leb_le in E. cbn [Qnum Qden inject_Z].
    rewrite Z2Pos.id by assumption.
    replace (e - c) with (e + - c) by lia. rewrite Z.pow_add_r by lia. ring.
  - apply Z.leb_gt in E. cbn [Qnum Qden].
    rewrite Z2Pos.id by assumption.
    rewrite Pos2Z.inj_pow, Z2Pos.id by lia.
    rewrite <- Z.mul_assoc, <- Z.pow_add_r by lia.
    do 2 f_equal. lia.
Qed.

Lemma zero_at_scale (c : Z) : at_scale c (XFin 0%Q) 0.
Proof. exists 0%Q. split; reflexivity. Qed.

Lemma int_at_scale (c z : Z) :
  c <= 0 -> at_scale c (XFin (inject_Z z)) (z * 2 ^ (- c)).
Proof.
  intros Hc. exists (inject_Z z). split; [reflexivity|].
  pose proof (pow2_pos (- c) ltac:(lia)) as Hp.
  unfold Qeq. cbn [Qnum Qden inject_Z]. rewrite Z2Pos.id by assumption. ring.
Qed.

Lemma fin_at_scale (c : Z) (s : bool) (m : positive) (e : Z) :
  c <= 0 -> c <= e ->
  at_scale c (float_x (FFin s m e)) (signed_pos s m * 2 ^ (e - c)).
Proof. intros Hc He. now apply dyadic_at_scale. Qed.

(** *** Rounding keeps the order *)

Section Rounding.
Variables p emin emax : Z.
Hypothesis Hp : 1 <= p.
Hypothesis Hemax : emin <= emax.

Lemma round_to_sign (s : bool) (m : positive) (e : Z) :
  if s then x_le (float_x (round_to p emin emax s m e)) (XFin 0%Q) = true
  else x_le (XFin 0%Q) (float_x (round_to p emin emax s m e)) = true.
Proof.
  set (c := Z.min (Z.min e emin) 0).
  assert (Hc0 : c <= 0) by (unfold c; lia).
  destruct (round_to_cases p emin emax c s m e Hp Hemax)
    as [(-> & _)|[(-> & _)|(m1 & e1 & -> & He1 & Hv & Hb)]];
    try (unfold c; lia).
  - destruct s; reflexivity.
  - destruct s; reflexivity.
  - destruct s.
    + apply (at_scale_le c _ _ _ _ Hc0 (fin_at_scale c true m1 e1 Hc0 He1)
               (zero_at_scale c)).
      cbn [signed_pos]. lia.
    + apply (at_scale_le c _ _ _ _ Hc0 (zero_at_scale c)
               (fin_at_scale c false m1 e1 Hc0 He1)).
      cbn [signed_pos]. lia.
Qed.

Lemma round_to_real (s : bool) (m : positive) (e : Z) :
  not_nan (float_x (round_to p emin emax s m e)).
Proof.
  pose proof (round_to_sign s m e) as H. intros C. rewrite C in H.
  destruct s; discriminate.
Qed.

Lemma round_to_mono (s : bool) (m : positive) (e : Z) (m' : positive)
    (e' : Z) :
  x_le (float_x (FFin s m e)) (float_x (FFin s m' e')) = true ->
  x_le (float_x (round_to p emin emax s m e))
       (float_x (round_to p emin emax s m' e')) = true.
Proof.
  set (c := Z.min (Z.min (Z.min e e') emin) 0).
  assert (Hc0 : c <= 0) by (unfold c; lia).
  assert (Hce : c <= e) by (unfold c; lia).
  assert (Hce' : c <= e') by (unfold c; lia).
  assert (Hcm : c <= emin) by (unfold c; lia).
  intros H.
  apply (at_scale_le c _ _ _ _ Hc0 (fin_at_scale c s m e Hc0 Hce)
           (fin_at_scale c s m' e' Hc0 Hce')) in H.
  pose proof (pow2_pos (emax - c) ltac:(lia)) as Hpe.
  assert (Hu : if s then units p emin c m' e' <= units p emin c m e
               else units p emin c m e <= units p emin c m' e').
  { destruct s; cbn [signed_pos] in H; apply units_mono; auto; lia. }
  destruct (round_to_cases p emin emax c s m e Hp Hemax Hce Hcm)
    as [(-> & Hv)|[(-> & Hv)|(m1 & e1 & -> & He1 & Hv & Hb)]];
  destruct (round_to_cases p emin emax c s m' e' Hp Hemax Hce' Hcm)
    as [(-> & Hv')|[(-> & Hv')|(m1' & e1' & -> & He1' & Hv' & Hb')]];
    destruct s; try reflexivity; try (exfalso; lia).
  - apply (at_scale_le c _ _ _ _ Hc0 (zero_at_scale c)
             (fin_at_scale c false m1' e1' Hc0 He1')).
    cbn [signed_pos]. lia.
  - apply (at_scale_le c _ _ _ _ Hc0 (fin_at_scale c true m1 e1 Hc0 He1)
             (zero_at_scale c)).
    cbn [signed_pos]. lia.
  - apply (at_scale_le c _ _ _ _ Hc0 (fin_at_scale c true m1 e1 Hc0 He1)
             (fin_at_scale c true m1' e1' Hc0 He1')).
    cbn [signed_pos]. lia.
  - apply (at_scale_le c _ _ _ _ Hc0 (fin_at_scale c false m1 e1 Hc0 He1)
             (fin_at_scale c false m1' e1' Hc0 He1')).
    cbn [signed_pos]. lia.
Qed.

Lemma fin_sign_order (s s' : bool) (m m' : positive) (e e' : Z) :
  x_le (float_x (FFin s m e)) (float_x (FFin s' m' e')) = true ->
  s = s' \/ (s = true /\ s' = false).
Proof.
  set (c := Z.min (Z.min e e') 0).
  assert (Hc0 : c <= 0) by (unfold c; lia).
  assert (Hce : c <= e) by (unfold c; lia).
  assert (Hce' : c <= e') by (unfold c; lia).
  intros H.
  apply (at_scale_le c _ _ _ _ Hc0 (fin_at_scale c s m e Hc0 Hce)
           (fin_at_scale c s' m' e' Hc0 Hce')) in H.
  pose proof (pow2_pos (e - c) ltac:(lia)).
  pose proof (pow2_pos (e' - c) ltac:(lia)).
  destruct s, s'; auto. exfalso. cbn [signed_pos] in H. nia.
Qed.

Lemma fin_zero_order (s : bool) (m : positive) (e : Z) :
  (x_le (float_x (FFin s m e)) (XFin 0%Q) = true -> s = true)
  /\ (x_le (XFin 0%Q) (float_x (FFin s m e)) = true -> s = false).
Proof.
  set (c := Z.min e 0).
  assert (Hc0 : c <= 0) by (unfold c; lia).
  assert (Hce : c <= e) by (unfold c; lia).
  pose proof (pow2_pos (e - c) ltac:(lia)) as Hpos.
  split; intros H.
  - apply (at_scale_le c _ _ _ _ Hc0 (fin_at_scale c s m e Hc0 Hce)
             (zero_at_scale c)) in H.
    destruct s; [reflexivity|]. exfalso. cbn [signed_pos] in H. nia.
  - apply (at_scale_le c _ _ _ _ Hc0 (zero_at_scale c)
             (fin_at_scale c s m e Hc0 Hce)) in H.
    destruct s; [|reflexivity]. exfalso. cbn [signed_pos] in H. nia.
Qed.

(** Conversion to a narrower format is monotone. *)
Lemma to_format_mono (a b : pyfloat) :
  a <> FNaN -> b <> FNaN ->
  x_le (float_x a) (float_x b) = true ->
  x_le (float_x (to_format p emin emax a))
       (float_x (to_format p emin emax b)) = true.
Proof.
  intros Ha Hb H.
  destruct a as [|sa|sa|sa ma ea]; [congruence| | |];
    destruct b as [|sb|sb|sb mb eb]; try congruence;
    cbn [to_format]; try exact H.
  - (* an infinity and a finite value *)
    destruct sa; [|discriminate].
    pose proof (round_to_real sb mb eb) as Hr.
    destruct (float_x (round_to p emin emax sb mb eb)); try reflexivity.
    now elim Hr.
  - destruct (fin_zero_order sb mb eb) as (_ & Hs). rewrite (Hs H).
    apply (round_to_sign false).
  - destruct sb; [discriminate|].
    pose proof (round_to_real sa ma ea) as Hr.
    destruct (float_x (round_to p emin emax sa ma ea)); try reflexivity.
    now elim Hr.
  - destruct (fin_zero_order sa ma ea) as (Hs & _). rewrite (Hs H).
    apply (round_to_sign true).
  - destruct (fin_sign_order _ _ _ _ _ _ H) as [<-|(-> & ->)].
    + now apply round_to_mono.
    + eapply x_le_trans; [apply (round_to_sign true)|].
      apply (round_to_sign false).
Qed.

End Rounding.

(** *** Bit patterns *)

Lemma strip_shift (j : nat) (f m : positive) (e0 : Z) :
  Z.pos f = Z.pos m * 2 ^ Z.of_nat j ->
  strip m 0 = (m, 0) -> strip f e0 = (m, e0 + Z.of_nat j).
Proof.
  revert f e0. induction j as [|j IH]; intros f e0 Hf Hm.
  - simpl in Hf. assert (f = m) by lia. subst f.
    rewrite (strip_canonical m e0 Hm). f_equal. lia.
  - rewrite Nat2Z.inj_succ, Z.pow_succ_r in Hf by lia.
    destruct f as [f'|f'|].
    + exfalso. change (Z.pos f'~1) with (2 * Z.pos f' + 1) in Hf. lia.
    + cbn [strip]. rewrite (IH f' (e0 + 1)); [f_equal; lia| |assumption].
      change (Z.pos f'~0) with (2 * Z.pos f') in Hf. lia.
    + exfalso. pose proof (pow2_pos (Z.of_nat j) ltac:(lia)). lia.
Qed.

Section Bits.
Variables p w : Z.
Hypothesis Hp : 2 <= p.
Hypothesis Hw : 2 <= w.

Lemma bits_fields (s : bool) (B F : Z) :
  0 <= B < 2 ^ w -> 0 <= F < 2 ^ (p - 1) ->
  let bits := (if s then 2 ^ (p - 1 + w) else 0) + B * 2 ^ (p - 1) + F in
  negb ((bits / 2 ^ (p - 1 + w)) mod 2 =? 0) = s
  /\ (bits / 2 ^ (p - 1)) mod 2 ^ w = B
  /\ bits mod 2 ^ (p - 1) = F
  /\ 0 <= bits < 2 ^ (p + w).
Proof.
  intros HB HF bits.
  pose proof (pow2_pos (p - 1) ltac:(lia)) as HP.
  pose proof (pow2_pos w ltac:(lia)) as HW.
  assert (HS : 2 ^ (p - 1 + w) = 2 ^ w * 2 ^ (p - 1)).
  { rewrite Z.pow_add_r by lia. ring. }
  assert (HT : 2 ^ (p + w) = 2 * 2 ^ (p - 1 + w)).
  { replace (p + w) with (Z.succ (p - 1 + w)) by lia.
    apply Z.pow_succ_r. lia. }
  set (sg := if s then 1 else 0).
  assert (Hbits : bits = (sg * 2 ^ w + B) * 2 ^ (p - 1) + F).
  { unfold bits, sg. rewrite HS. destruct s; ring. }
  assert (Hlow : 0 <= B * 2 ^ (p - 1) + F < 2 ^ w * 2 ^ (p - 1)) by nia.
  assert (Hdiv : bits / 2 ^ (p - 1) = sg * 2 ^ w + B).
  { rewrite Hbits. rewrite Z.div_add_l by lia.
    rewrite (Z.div_small F) by lia. lia. }
  repeat split.
  - assert (Hq : bits / 2 ^ (p - 1 + w) = sg).
    { rewrite HS. replace bits with (sg * (2 ^ w * 2 ^ (p - 1))
                                     + (B * 2 ^ (p - 1) + F))
        by (rewrite Hbits; ring).
      rewrite Z.div_add_l by lia. rewrite Z.div_small by lia. lia. }
    rewrite Hq. unfold sg. destruct s; reflexivity.
  - rewrite Hdiv. rewrite Z.add_comm, Z.mod_add by lia.
    apply Z.mod_small. lia.
  - rewrite Hbits. rewrite Z.add_comm, Z.mod_add by lia.
    apply Z.mod_small. lia.
  - unfold bits. destruct s; lia.
  - unfold bits. rewrite HT. destruct s; lia.
Qed.

(** A value of the format is read back from its bit pattern. *)
Lemma bits_float_bits (f : pyfloat) :
  canonical f ->
  fits p (2 - (2 ^ (w - 1) - 1) - p) (2 ^ (w - 1) - 1 + 1) f ->
  bits_float p w (float_bits p w f) = f
  /\ 0 <= float_bits p w f < 2 ^ (p + w).
Proof.
  set (bias := 2 ^ (w - 1) - 1). intros Hc Hf.
  pose proof (pow2_pos (p - 1) ltac:(lia)) as HP.
  pose proof (pow2_pos (p - 2) ltac:(lia)) as HP2.
  pose proof (pow2_pos (w - 1) ltac:(lia)) as HW1.
  assert (HPP : 2 ^ (p - 1) = 2 * 2 ^ (p - 2)).
  { replace (p - 1) with (Z.succ (p - 2)) by lia. apply Z.pow_succ_r. lia. }
  assert (HWW : 2 ^ w = 2 * 2 ^ (w - 1)) by (apply pow2_split; lia).
  assert (HW2 : 2 <= 2 ^ (w - 1)).
  { replace (w - 1) with (Z.succ (w - 2)) by lia.
    rewrite Z.pow_succ_r by lia.
    pose proof (pow2_pos (w - 2) ltac:(lia)). lia. }
  assert (G : forall (s : bool) (B F : Z),
             0 <= B < 2 ^ w -> 0 <= F < 2 ^ (p - 1) ->
             forall bits : Z,
               bits = (if s then 2 ^ (p - 1 + w) else 0)
                      + B * 2 ^ (p - 1) + F ->
               bits_float p w bits
               = (if B =? 2 ^ w - 1 then (if F =? 0 then FInf s else FNaN)
                  else if B =? 0 then
                    match F with
                    | Z.pos f => let '(m, e) := strip f (2 - bias - p) in
                                 FFin s m e
                    | _ => FZero s
                    end
                  else
                    match 2 ^ (p - 1) + F with
                    | Z.pos f =>
                        let '(m, e) := strip f (B - bias - (p - 1)) in
                        FFin s m e
                    | _ => FZero s
                    end)
               /\ 0 <= bits < 2 ^ (p + w)).
  { intros s B F HB HF bits ->.
    destruct (bits_fields s B F HB HF) as (H1 & H2 & H3 & H4).
    split; [|exact H4]. unfold bits_float. fold bias.
    rewrite H1, H2, H3. reflexivity. }
  destruct f as [|s|s|s m e]; unfold float_bits; fold bias; cbv zeta.
  - destruct (G false (2 ^ w - 1) (2 ^ (p - 2)) ltac:(lia) ltac:(lia)
                _ eq_refl) as (E & R).
    rewrite Z.add_0_l in E, R.
    split; [|exact R]. rewrite E, Z.eqb_refl.
    replace (2 ^ (p - 2) =? 0) with false
      by (symmetry; apply Z.eqb_neq; lia).
    reflexivity.
  - destruct (G s (2 ^ w - 1) 0 ltac:(lia) ltac:(lia) _ eq_refl)
      as (E & R).
    rewrite Z.add_0_r in E, R.
    split; [|exact R]. rewrite E, Z.eqb_refl. reflexivity.
  - destruct (G s 0 0 ltac:(lia) ltac:(lia)
                (if s then 2 ^ (p - 1 + w) else 0) ltac:(lia)) as (E & R).
    split; [|exact R]. rewrite E.
    replace (0 =? 2 ^ w - 1) with false by (symmetry; apply Z.eqb_neq; lia).
    reflexivity.
  - cbn [canonical fits] in Hc, Hf. destruct Hf as (Hd & Hemin & Hemax).
    pose proof (digits_pos m) as Hd1.
    destruct (1 - bias <=? digits m + e - 1) eqn:En.
    + apply Z.leb_le in En.
      pose proof (scaled_bounds m (p - digits m) ltac:(lia)) as (Hl & Hu).
      replace (digits m + (p - digits m) - 1) with (p - 1) in Hl by lia.
      replace (digits m + (p - digits m)) with p in Hu by lia.
      rewrite (pow2_split p) in Hu by lia.
      assert (HB : 0 <= digits m + e - 1 + bias < 2 ^ w)
        by (unfold bias in *; lia).
      assert (HF : 0 <= Z.pos m * 2 ^ (p - digits m) - 2 ^ (p - 1)
                   < 2 ^ (p - 1)) by lia.
      destruct (G s _ _ HB HF _ eq_refl) as (E & R).
      split; [|exact R]. rewrite E.
      replace (digits m + e - 1 + bias =? 2 ^ w - 1) with false
        by (symmetry; apply Z.eqb_neq; unfold bias in *; lia).
      replace (digits m + e - 1 + bias =? 0) with false
        by (symmetry; apply Z.eqb_neq; lia).
      replace (2 ^ (p - 1) + (Z.pos m * 2 ^ (p - digits m) - 2 ^ (p - 1)))
        with (Z.pos m * 2 ^ (p - digits m)) by lia.
      destruct (Z.pos m * 2 ^ (p - digits m)) as [|f|f] eqn:Ef; try lia.
      rewrite (strip_shift (Z.to_nat (p - digits m)) f m _); try assumption.
      * rewrite Z2Nat.id by lia. f_equal. lia.
      * rewrite Z2Nat.id by lia. symmetry. exact Ef.
    + apply Z.leb_gt in En.
      pose proof (scaled_bounds m (e - (2 - bias - p)) ltac:(lia))
        as (Hl & Hu).
      assert (Hlt : 2 ^ (digits m + (e - (2 - bias - p))) <= 2 ^ (p - 1))
        by (apply Z.pow_le_mono_r; lia).
      pose proof (pow2_pos (digits m + (e - (2 - bias - p)) - 1)
                    ltac:(lia)) as Hpos.
      destruct (G s 0 (Z.pos m * 2 ^ (e - (2 - bias - p)))
                  ltac:(lia) ltac:(lia)
                  ((if s then 2 ^ (p - 1 + w) else 0)
                   + Z.pos m * 2 ^ (e - (2 - bias - p))) ltac:(lia))
        as (E & R).
      split; [|exact R]. rewrite E.
      replace (0 =? 2 ^ w - 1) with false
        by (symmetry; apply Z.eqb_neq; lia).
      cbn [Z.eqb].
      destruct (Z.pos m * 2 ^ (e - (2 - bias - p))) as [|f|f] eqn:Ef;
        try lia.
      rewrite (strip_shift (Z.to_nat (e - (2 - bias - p))) f m _);
        try assumption.
      * rewrite Z2Nat.id by lia. f_equal. lia.
      * rewrite Z2Nat.id by lia. symmetry. exact Ef.
Qed.

End Bits.

(* ------------------------------------------------------------------ *)
(** ** Float columns read back *)

Lemma to_format_fits (p emin emax : Z) (f : pyfloat) :
  1 <= p ->
  canonical (to_format p emin emax f)
  /\ fits p emin emax (to_format p emin emax f).
Proof.
  intros Hp. destruct f as [|s|s|s m e]; cbn [to_format canonical fits];
    auto.
  destruct (round_to p emin emax s m e) as [|s'|s'|s' m1 e1] eqn:E;
    cbn [canonical fits]; auto.
  destruct (round_to_fits p emin emax s m e s' m1 e1 Hp E) as (_ & Hc & Hf).
  auto.
Qed.

Lemma to_format_real (p emin emax : Z) (f : pyfloat) :
  1 <= p -> emin <= emax -> f <> FNaN -> to_format p emin emax f <> FNaN.
Proof.
  intros Hp He Hf. destruct f as [|s|s|s m e]; cbn [to_format]; try congruence.
  intros C. apply (round_to_real p emin emax Hp He s m e). now rewrite C.
Qed.

Lemma unpack_pack_floats (p w : Z) (k : nat) (err : pyerr)
    (pack : value -> result bytes) (conv : value -> pyfloat)
    (col : list value) (r : list bytes) :
  (0 < k)%nat ->
  (forall v c, pack v = Ok c ->
               length c = k /\ bits_float p w (le_value c) = conv v) ->
  mapM pack col = Ok r ->
  unpack_floats p w k err (concat r)
  = Ok (map (fun v => VFloat (conv v)) col).
Proof.
  intros Hk Hpack H. apply mapM_ok_inv in H. unfold unpack_floats.
  assert (Hlen : Forall (fun c => length c = k) r).
  { clear - H Hpack. induction H as [|v c col r Hv _ IH]; constructor; auto.
    now destruct (Hpack v c Hv). }
  rewrite (chunks_concat k r Hk Hlen).
  - f_equal. clear Hlen. induction H as [|v c col r Hv _ IH]; [reflexivity|].
    cbn [map]. rewrite IH. destruct (Hpack v c Hv) as (_ & Hs).
    now rewrite Hs.
  - clear - Hlen Hk. induction Hlen as [|c r Hc _ IH]; [simpl; lia|].
    cbn [concat length]. rewrite length_app. simpl. lia.
Qed.

Lemma double_of_ok (v : value) (x : pyfloat) :
  as_double v = Ok x -> double_of v = x.
Proof. unfold double_of. now intros ->. Qed.

Lemma pack_f32_inv (v : value) (c : bytes) :
  pack_f32 v = Ok c ->
  length c = 4%nat
  /\ bits_float 24 8 (le_value c) = to_single (double_of v).
Proof.
  unfold pack_f32. destruct (as_double v) as [x|] eqn:E; [|discriminate].
  intros H. rewrite (double_of_ok _ _ E).
  assert (Hcb : c = le_bytes 4 (float_bits 24 8 (to_single x)))
    by congruence.
  rewrite Hcb. clear H Hcb.
  split; [apply le_bytes_length|].
  destruct (to_format_fits 24 (-149) 128 x ltac:(lia)) as (Hc & Hf).
  destruct (bits_float_bits 24 8 ltac:(lia) ltac:(lia) (to_single x) Hc Hf)
    as (Hb & Hr).
  rewrite le_value_bytes; [exact Hb|].
  change (256 ^ Z.of_nat 4) with (2 ^ (24 + 8)). exact Hr.
Qed.

Lemma pack_f16_inv (v : value) (c : bytes) :
  pack_f16 v = Ok c ->
  length c = 2%nat
  /\ bits_float 11 5 (le_value c) = to_half (double_of v).
Proof.
  unfold pack_f16. destruct (as_double v) as [x|] eqn:E; [|discriminate].
  cbn [bind]. intros H. rewrite (double_of_ok _ _ E).
  assert (Hcb : c = le_bytes 2 (float_bits 11 5 (to_half x)))
    by congruence.
  rewrite Hcb. clear H Hcb.
  split; [apply le_bytes_length|].
  destruct (to_format_fits 11 (-24) 16 x ltac:(lia)) as (Hc & Hf).
  destruct (bits_float_bits 11 5 ltac:(lia) ltac:(lia) (to_half x) Hc Hf)
    as (Hb & Hr).
  rewrite le_value_bytes; [exact Hb|].
  change (256 ^ Z.of_nat 2) with (2 ^ (11 + 5)). exact Hr.
Qed.

(** A column of a numeric type reads back as its stored values. *)
Lemma stored_column (J : json_api) (col : list value) (t : storage_type)
    (blob : bytes) :
  pack_column J col t = Ok blob -> is_numeric_type t = true ->
  unpack_column J (VStr (type_name t)) blob = Ok (VList (map (stored t) col)).
Proof.
  intros H Ht. unfold unpack_column. rewrite unpacker_of_type_name.
  destruct t; try discriminate; cbn [pack_column] in H;
    inv_bind_as H r Er; injection H as <-; cbn [stored].
  - rewrite (unpack_pack_ints 2 col r ltac:(lia) Er). reflexivity.
  - rewrite (unpack_pack_ints 4 col r ltac:(lia) Er). reflexivity.
  - rewrite (unpack_pack_floats 11 5 2 ValueError pack_f16
               (fun v => to_half (double_of v)) col r ltac:(lia)
               pack_f16_inv Er).
    reflexivity.
  - rewrite (unpack_pack_floats 24 8 4 StructError pack_f32
               (fun v => to_single (double_of v)) col r ltac:(lia)
               pack_f32_inv Er).
    reflexivity.
Qed.

(** *** Storing keeps the order *)

Lemma x_le_antisym (x y : xreal) :
  x_le x y = true -> x_le y x = true -> x_eq x y = true.
Proof.
  destruct x, y; try reflexivity; try discriminate.
  rewrite !x_le_fin, x_eq_fin. apply Qle_antisym.
Qed.

Lemma float_of_int_exact (z : Z) (x : pyfloat) :
  float_of_int z = Ok x -> x = to_double (int_float z).
Proof.
  destruct z as [|m|m]; cbn [float_of_int int_float]; unfold to_double;
    cbn [to_format].
  - congruence.
  - destruct (round_to 53 (-1074) 1024 false m 0); congruence.
  - destruct (round_to 53 (-1074) 1024 true m 0); congruence.
Qed.

Lemma as_double_exact (v : value) (x : pyfloat) :
  as_double v = Ok x -> binary64 v -> x = to_double (exact_float v).
Proof.
  destruct v as [|b|z|f|s|l|d]; cbn [as_double exact_float binary64];
    try discriminate.
  - intros H _. now apply float_of_int_exact.
  - intros H _. now apply float_of_int_exact.
  - intros H (Hc & Hf). injection H as <-.
    destruct f as [|s|s|s m e]; try reflexivity.
    unfold to_double. cbn [to_format]. symmetry.
    now apply round_to_exact.
Qed.

Lemma int_float_same (z : Z) :
  x_le (float_x (int_float z)) (XFin (inject_Z z)) = true
  /\ x_le (XFin (inject_Z z)) (float_x (int_float z)) = true.
Proof.
  destruct z as [|m|m]; cbn [int_float float_x].
  - split; reflexivity.
  - rewrite !x_le_fin. unfold dyadic_Q, Qle. cbn. split; lia.
  - rewrite !x_le_fin. unfold dyadic_Q, Qle. cbn. split; lia.
Qed.

Lemma exact_float_same (v : value) (x : xreal) :
  as_number v = Some x -> not_nan x ->
  x_le (float_x (exact_float v)) x = true
  /\ x_le x (float_x (exact_float v)) = true.
Proof.
  destruct v as [|b|z|f|s|l|d]; cbn [as_number exact_float];
    try discriminate; intros H Hx; injection H as <-.
  - apply int_float_same.
  - apply int_float_same.
  - split; now apply x_le_refl.
Qed.

Lemma exact_float_real (v : value) :
  number v -> v <> VFloat FNaN -> exact_float v <> FNaN.
Proof.
  intros (x & Hx) Hv.
  destruct v as [|b|z|f|s|l|d]; try discriminate; cbn [exact_float].
  - destruct b; discriminate.
  - destruct z; discriminate.
  - congruence.
Qed.

Section StoredOrder.
Variables p emin emax : Z.
Hypothesis Hp : 1 <= p.
Hypothesis Hemax : emin <= emax.

Lemma stored_float_mono (u v : value) (xu xv : pyfloat) :
  as_double u = Ok xu -> as_double v = Ok xv ->
  binary64 u -> binary64 v -> u <> VFloat FNaN -> v <> VFloat FNaN ->
  vle u v ->
  x_le (float_x (to_format p emin emax xu))
       (float_x (to_format p emin emax xv)) = true.
Proof.
  intros Eu Ev Bu Bv Nu Nv Hle.
  pose proof (as_double_number _ _ Eu) as Hnu.
  pose proof (as_double_number _ _ Ev) as Hnv.
  pose proof (exact_float_real u Hnu Nu) as Ru.
  pose proof (exact_float_real v Hnv Nv) as Rv.
  destruct (number_real u Hnu Nu) as (au & Hau & Hru).
  destruct (number_real v Hnv Nv) as (av & Hav & Hrv).
  unfold vle in Hle. rewrite Hau, Hav in Hle.
  destruct (exact_float_same u au Hau Hru) as (Hu1 & _).
  destruct (exact_float_same v av Hav Hrv) as (_ & Hv2).
  assert (Hex : x_le (float_x (exact_float u)) (float_x (exact_float v))
                = true).
  { eapply x_le_trans; [exact Hu1|]. eapply x_le_trans; eassumption. }
  rewrite (as_double_exact u xu Eu Bu), (as_double_exact v xv Ev Bv).
  apply to_format_mono; try assumption.
  - apply to_format_real; [lia|lia|assumption].
  - apply to_format_real; [lia|lia|assumption].
  - apply to_format_mono; try assumption; lia.
Qed.

End StoredOrder.

(* ------------------------------------------------------------------ *)
(** ** The lazy reader on a container written by the encoder *)

Lemma encode_field_inv (Zs : zstd_api) (J : json_api)
    (d0 : list (value * value)) (rest : list value) (b : blocks)
    (f : value) (c : list value) (t : storage_type) :
  Forall is_str (map fst d0) ->
  encode_blocks Zs J (VList (VDict d0 :: rest)) = Ok b ->
  In f (e_fields b) ->
  lookup (e_columns b) f = Ok c -> lookup (e_types b) f = Ok t ->
  c <> []
  /\ (exists blob,
        pack_column J c t = Ok blob
        /\ lookup (e_compressed b) f = Ok (zstd_compress Zs ZSTD_level blob))
  /\ (is_numeric_type t = false -> dict_get (e_indexes b) f = None)
  /\ (is_numeric_type t = true ->
      exists idx bj,
        sorted_index c = Ok idx /\ dumps J (index_value idx) = Ok bj
        /\ dict_get (e_indexes b) f
           = Some (zstd_compress Zs ZSTD_level bj)).
Proof.
  intros Hkeys Henc Hf Hc Ht.
  destruct (encode_blocks_inv _ _ _ _ _ Henc) as (Hfl & Hb & Hd & Hcc & Hi).
  assert (Hsfl : Forall is_str (e_fields b)) by (rewrite Hfl; exact Hkeys).
  rewrite Forall_forall in Hkeys.
  assert (Hsf : is_str f) by (apply Hkeys; congruence).
  assert (Hst : Forall is_str (map fst (e_types b))).
  { rewrite Forall_forall. intros k Hk. apply Hkeys. rewrite <- Hfl.
    eapply build_columns_keys; [exact Hb|].
    eapply detect_types_keys; eauto. }
  destruct (compress_columns_field _ _ _ _ _ _ _ _ Hb Hd Hcc Hf Hsf)
    as (c' & t' & blob0 & Hcol & Hdet & Hc' & Ht' & Hpack).
  assert (c' = c) by congruence. assert (t' = t) by congruence. subst c' t'.
  assert (Huniq : forall t1, In (f, t1) (e_types b) -> t1 = t).
  { intros t1 Hin.
    destruct (detect_types_in _ _ _ _ Hd Hsf Hin) as (c1 & Hc1 & Hd1).
    destruct (build_columns_in _ _ _ _ _ Hb Hsf Hc1) as (_ & Hm1).
    congruence. }
  pose proof (build_indexes_get _ _ _ _ _ f Hi Hsf Hst) as G.
  split; [|split; [|split]].
  - apply mapM_length in Hcol. intros ->. discriminate.
  - destruct (compress_columns_get _ _ _ _ _ _ _ _ _ Hcc Hsfl Hf Hc Ht)
      as (blob & Hp & Hl).
    exists blob. auto.
  - intros Hn. destruct (dict_get (e_indexes b) f) as [blob|]; [|reflexivity].
    destruct G as (t1 & _ & _ & _ & Hin & Hnum & _).
    rewrite (Huniq _ Hin) in Hnum. congruence.
  - intros Hn.
    pose proof (dict_get_in _ _ _ Hsf (lookup_ok _ _ _ Ht)) as Hin.
    destruct (build_indexes_some _ _ _ _ _ f t Hi Hsf Hst Hin Hn)
      as (blob & Eb).
    rewrite Eb in G.
    destruct G as (t1 & col & idx & bj & _ & _ & Hcol1 & Hidx & Hdump & ->).
    assert (col = c) by congruence. subst col.
    exists idx, bj. rewrite Eb. auto.
Qed.

Lemma index_value_clean (idx : list nat) : json_clean (index_value idx) = true.
Proof.
  unfold index_value. cbn [json_clean]. apply forallb_forall.
  intros x Hx. apply in_map_iff in Hx. destruct Hx as (i & <- & _).
  reflexivity.
Qed.

Lemma is_str_hashable (f : value) : is_str f -> hashable f = true.
Proof. intros (s & ->). reflexivity. Qed.

Lemma list_getitem_nat (l : list value) (i : nat) :
  py_getitem (VList l) (VInt (Z.of_nat i))
  = match nth_error l i with
    | Some x => Ok x
    | None => Err IndexError
    end.
Proof. cbn [py_getitem]. apply seq_index_nat. Qed.

(** With the index of a field at hand, [find_min] reads the column at the
    first position the index lists. *)
Lemma find_min_indexed (Zs : zstd_api) (J : json_api) (self : JONXFile)
    (f column : value) (i0 : nat) (rest : list nat) (bj : bytes) :
  zstd_roundtrip Zs -> json_roundtrip J -> is_str f ->
  dumps J (index_value (i0 :: rest)) = Ok bj ->
  dict_get (jx_indexes self) f = Some (zstd_compress Zs ZSTD_level bj) ->
  find_min Zs J self f (Some column) true
  = py_getitem column (VInt (Z.of_nat i0)).
Proof.
  intros Hrt Hjs Hf Hd Hi. unfold find_min. cbn [bind].
  rewrite (is_str_hashable f Hf), Hi, Hrt. cbn [bind].
  rewrite (Hjs _ _ (index_value_clean _) Hd). cbn [bind].
  unfold index_value. cbn [map].
  change (py_getitem (VList (VInt (Z.of_nat i0)
                             :: map (fun i => VInt (Z.of_nat i)) rest))
            (VInt 0)) with (Ok (VInt (Z.of_nat i0)) : result value).
  reflexivity.
Qed.

Lemma find_min_no_index (Zs : zstd_api) (J : json_api) (self : JONXFile)
    (f : value) (column : option value) :
  is_str f -> dict_get (jx_indexes self) f = None ->
  find_min Zs J self f column true = find_min Zs J self f column false.
Proof.
  intros Hf Hi. unfold find_min. rewrite (is_str_hashable f Hf), Hi.
  reflexivity.
Qed.

(** The first row a sorted index lists holds a least value of the column. *)
Lemma sorted_index_first (c : list value) (i0 : nat) (rest : list nat) :
  Forall real c -> sorted_index c = Ok (i0 :: rest) ->
  (i0 < length c)%nat /\ Forall (vle (key_at c i0)) c.
Proof.
  intros Hr Hs.
  destruct (sorted_index_valid c Hr) as (idx & Hidx & Hperm & Hsorted).
  assert (idx = i0 :: rest) by congruence. subst idx.
  assert (Hi0 : (i0 < length c)%nat).
  { assert (Hin : In i0 (seq 0 (length c)))
      by (eapply Permutation_in; [exact Hperm|now left]).
    apply in_seq in Hin. lia. }
  split; [exact Hi0|].
  inversion Hsorted as [|? ? _ Hall]; subst.
  rewrite Forall_forall in Hall, Hr |- *. intros v Hv.
  destruct (In_nth _ _ VNone Hv) as (j & Hj & Hnth).
  assert (Hin : In j (i0 :: rest)).
  { eapply Permutation_in; [symmetry; exact Hperm|].
    apply in_seq. lia. }
  destruct Hin as [<-|Hin].
  - unfold key_at. rewrite Hnth. apply vle_refl. auto.
  - destruct (Hall j Hin) as (Hle & _). unfold key_at in Hle.
    rewrite Hnth in Hle. exact Hle.
Qed.

(** A stored number is a number, and storing keeps the order of the
    values of a column that was packed. *)
Lemma stored_order (J : json_api) (c : list value) (t : storage_type)
    (blob : bytes) :
  pack_column J c t = Ok blob -> is_numeric_type t = true ->
  no_nan c -> Forall binary64 c ->
  Forall real (map (stored t) c)
  /\ (forall u v, In u c -> In v c -> vle u v ->
                  vle (stored t u) (stored t v)).
Proof.
  intros Hpack Ht Hnan Hbin.
  unfold no_nan in Hnan. rewrite Forall_forall in Hnan, Hbin.
  assert (Hint : forall k r, (0 < k)%nat -> mapM (pack_int k) c = Ok r ->
                 forall u, In u c ->
                   as_number (VInt (int_of u)) = as_number u).
  { intros k r Hk Hr u Hu. apply mapM_ok_inv in Hr.
    destruct (Forall2_in_left _ _ _ _ Hr Hu) as (cb & _ & Hp).
    destruct (pack_int_inv k u cb Hk Hp) as (Hil & _).
    destruct u; try contradiction; reflexivity. }
  assert (Hflt : forall (pack : value -> result bytes) r,
             (forall v cb, pack v = Ok cb -> exists x, as_double v = Ok x) ->
             mapM pack c = Ok r ->
             forall u, In u c -> exists x, as_double u = Ok x).
  { intros pack r Hp Hr u Hu. apply mapM_ok_inv in Hr.
    destruct (Forall2_in_left _ _ _ _ Hr Hu) as (cb & _ & Hpu). eauto. }
  assert (H16 : forall v cb, pack_f16 v = Ok cb ->
                             exists x, as_double v = Ok x).
  { intros v cb. unfold pack_f16. destruct (as_double v); [eauto|].
    discriminate. }
  assert (H32 : forall v cb, pack_f32 v = Ok cb ->
                             exists x, as_double v = Ok x).
  { intros v cb. unfold pack_f32. destruct (as_double v); [eauto|].
    discriminate. }
  pose proof (pack_column_numbers _ _ _ _ Hpack Ht) as Hnum.
  rewrite Forall_forall in Hnum.
  destruct t; try discriminate; cbn [pack_column] in Hpack;
    inv_bind_as Hpack r Er; cbn [stored].
  - split.
    + rewrite Forall_forall. intros w Hw. apply in_map_iff in Hw.
      destruct Hw as (u & <- & Hu). cbn [stored].
      destruct (number_real u (Hnum u Hu) (Hnan u Hu)) as (x & Hx & Hr).
      unfold real. rewrite (Hint 2%nat r ltac:(lia) Er u Hu). eauto.
    + intros u v Hu Hv. cbn [stored]. unfold vle.
      rewrite (Hint 2%nat r ltac:(lia) Er u Hu).
      rewrite (Hint 2%nat r ltac:(lia) Er v Hv). auto.
  - split.
    + rewrite Forall_forall. intros w Hw. apply in_map_iff in Hw.
      destruct Hw as (u & <- & Hu). cbn [stored].
      destruct (number_real u (Hnum u Hu) (Hnan u Hu)) as (x & Hx & Hr).
      unfold real. rewrite (Hint 4%nat r ltac:(lia) Er u Hu). eauto.
    + intros u v Hu Hv. cbn [stored]. unfold vle.
      rewrite (Hint 4%nat r ltac:(lia) Er u Hu).
      rewrite (Hint 4%nat r ltac:(lia) Er v Hv). auto.
  - split.
    + rewrite Forall_forall. intros w Hw. apply in_map_iff in Hw.
      destruct Hw as (u & <- & Hu). cbn [stored].
      destruct (Hflt pack_f16 r H16 Er u Hu) as (x & Hx).
      rewrite (double_of_ok _ _ Hx).
      exists (float_x (to_half x)). split; [reflexivity|].
      rewrite (as_double_exact u x Hx (Hbin u Hu)).
      assert (Hne : to_half (to_double (exact_float u)) <> FNaN).
      { apply to_format_real; [lia|lia|]. apply to_format_real; [lia|lia|].
        apply exact_float_real; auto. }
      intros C. apply Hne.
      destruct (to_half (to_double (exact_float u))) as [|[|]| |];
        try discriminate; reflexivity.
    + intros u v Hu Hv Hle. cbn [stored].
      destruct (Hflt pack_f16 r H16 Er u Hu) as (xu & Hxu).
      destruct (Hflt pack_f16 r H16 Er v Hv) as (xv & Hxv).
      rewrite (double_of_ok _ _ Hxu), (double_of_ok _ _ Hxv).
      unfold vle. cbn [as_number].
      apply (stored_float_mono 11 (-24) 16 ltac:(lia) ltac:(lia) u v);
        auto.
  - split.
    + rewrite Forall_forall. intros w Hw. apply in_map_iff in Hw.
      destruct Hw as (u & <- & Hu). cbn [stored].
      destruct (Hflt pack_f32 r H32 Er u Hu) as (x & Hx).
      rewrite (double_of_ok _ _ Hx).
      exists (float_x (to_single x)). split; [reflexivity|].
      rewrite (as_double_exact u x Hx (Hbin u Hu)).
      assert (Hne : to_single (to_double (exact_float u)) <> FNaN).
      { apply to_format_real; [lia|lia|]. apply to_format_real; [lia|lia|].
        apply exact_float_real; auto. }
      intros C. apply Hne.
      destruct (to_single (to_double (exact_float u))) as [|[|]| |];
        try discriminate; reflexivity.
    + intros u v Hu Hv Hle. cbn [stored].
      destruct (Hflt pack_f32 r H32 Er u Hu) as (xu & Hxu).
      destruct (Hflt pack_f32 r H32 Er v Hv) as (xv & Hxv).
      rewrite (double_of_ok _ _ Hxu), (double_of_ok _ _ Hxv).
      unfold vle. cbn [as_number].
      apply (stored_float_mono 24 (-149) 128 ltac:(lia) ltac:(lia) u v);
        auto.
Qed.

Lemma find_min_loaded (Zs : zstd_api) (J : json_api) (self : JONXFile)
    (f column : value) (use_index : bool) :
  get_column Zs J self f = Ok column ->
  find_min Zs J self f None use_index
  = find_min Zs J self f (Some column) use_index.
Proof. intros H. unfold find_min. rewrite H. reflexivity. Qed.

(* ------------------------------------------------------------------ *)
(** ** Decoding what the encoder wrote *)

Lemma mapM_map {A B} (f : A -> result B) (g : A -> B) (l : list A) :
  (forall x, In x l -> f x = Ok (g x)) -> mapM f l = Ok (map g l).
Proof.
  induction l as [|x t IH]; intros H; [reflexivity|].
  cbn [mapM map]. rewrite (H x (or_introl eq_refl)). cbn [bind].
  rewrite IH by (intros y Hy; apply H; now right). reflexivity.
Qed.

(** A packed column of any type reads back as its stored values. *)
Lemma stored_column_all (J : json_api) (col : list value) (t : storage_type)
    (blob : bytes) :
  json_roundtrip J ->
  pack_column J col t = Ok blob -> clean_column t col ->
  unpack_column J (VStr (type_name t)) blob = Ok (VList (map (stored t) col)).
Proof.
  intros Hjs H Hc.
  destruct (is_numeric_type t) eqn:Ht; [now apply stored_column|].
  unfold unpack_column. rewrite unpacker_of_type_name.
  destruct t; try discriminate; cbn [pack_column clean_column] in H, Hc.
  - assert (Hb : blob = map (fun v => byte_of_Z (if py_truth v then 1 else 0))
                          col) by congruence.
    rewrite Hb. rewrite map_map. do 2 f_equal. apply map_ext.
    intros v. cbn [stored]. destruct (py_truth v); reflexivity.
  - rewrite (Hjs _ _ Hc H). do 2 f_equal. symmetry. apply map_id.
  - rewrite (Hjs _ _ Hc H). do 2 f_equal. symmetry. apply map_id.
Qed.

Lemma read_columns_layout (Zs : zstd_api) (J : json_api) (types : value)
    (cvs : list (bytes * value)) :
  forall (flist : list value) (pre post : bytes)
         (acc : list (value * value)),
    Forall2 (fun f cv =>
               is_str f /\ len (fst cv) < 2 ^ 32
               /\ exists packed ty,
                    zstd_decompress Zs (fst cv) = Ok packed
                    /\ py_getitem types f = Ok ty
                    /\ unpack_column J ty packed = Ok (snd cv))
      flist cvs ->
    read_columns Zs J (pre ++ concat (map block (map fst cvs)) ++ post)
      types flist acc (len pre)
    = Ok (assign_all (combine flist (map snd cvs)) acc,
          len pre + len (concat (map block (map fst cvs)))).
Proof.
  induction cvs as [|[c v] cvs IH]; intros flist pre post acc H.
  - inversion H; subst. simpl. unfold len at 2. simpl.
    now rewrite Z.add_0_r.
  - inversion H as [|f ? fl ? ((s & ->) & Hc & packed & ty & Hz & Hty & Hun)
                      Hrest]; subst.
    cbn [fst snd] in *. cbn [read_columns map concat combine fst snd].
    pose proof (len_nonneg c) as Hc0.
    set (CB := concat (map block (map fst cvs))) in *.
    assert (Hr : read_u32 (pre ++ (block c ++ CB) ++ post) (len pre)
                 = Ok (len c)).
    { unfold block at 1. rewrite <- !app_assoc. apply read_u32_app. lia. }
    rewrite Hr. cbn [bind].
    assert (Hs : slice (pre ++ (block c ++ CB) ++ post)
                   (len pre + 4) (len pre + 4 + len c) = c).
    { unfold block at 1. rewrite <- !app_assoc.
      rewrite (app_assoc pre). apply slice_app3.
      - rewrite len_app, len_le_bytes. lia.
      - rewrite len_app, len_le_bytes. lia. }
    rewrite Hs, Hz. cbn [bind]. rewrite Hty. cbn [bind]. rewrite Hun.
    cbn [bind hashable].
    specialize (IH fl (pre ++ block c) post (dict_set acc (VStr s) v) Hrest).
    rewrite <- app_assoc in IH. rewrite <- (app_assoc (block c)).
    rewrite len_app, len_block in IH.
    replace (len pre + 4 + len c) with (len pre + (4 + len c)) by lia.
    rewrite IH. unfold assign_all. cbn [fold_left fst snd].
    rewrite len_app, len_block. f_equal. f_equal. lia.
Qed.

Lemma skip_indexes_layout (es : list (bytes * bytes)) :
  Forall (fun e => len (fst e) < 2 ^ 32 /\ len (snd e) < 2 ^ 32) es ->
  forall pre : bytes,
    skip_indexes (pre ++ concat (map entry_bytes es)) (length es) (len pre)
    = Ok (len pre + len (concat (map entry_bytes es))).
Proof.
  induction 1 as [|[name blob] es (Hn & Hb) _ IH]; intros pre.
  - simpl. unfold len at 2. simpl. now rewrite Z.add_0_r.
  - cbn [fst snd] in *. cbn [length skip_indexes map concat].
    pose proof (len_nonneg name) as Hn0. pose proof (len_nonneg blob) as Hb0.
    set (tail := concat (map entry_bytes es)) in *.
    assert (Hfull : pre ++ entry_bytes (name, blob) ++ tail
                    = pre ++ le_bytes 4 (len name)
                      ++ name ++ le_bytes 4 (len blob) ++ blob ++ tail).
    { unfold entry_bytes, block. cbn [fst snd]. now rewrite <- !app_assoc. }
    rewrite Hfull. rewrite read_u32_app by lia. cbn [bind].
    assert (Hr2 : read_u32 (pre ++ le_bytes 4 (len name) ++ name
                            ++ le_bytes 4 (len blob) ++ blob ++ tail)
                    (len pre + (4 + len name)) = Ok (len blob)).
    { replace (len pre + (4 + len name))
        with (len (pre ++ le_bytes 4 (len name) ++ name))
        by (rewrite !len_app, len_le_bytes; lia).
      replace (pre ++ le_bytes 4 (len name) ++ name
               ++ le_bytes 4 (len blob) ++ blob ++ tail)
        with ((pre ++ le_bytes 4 (len name) ++ name)
              ++ le_bytes 4 (len blob) ++ blob ++ tail)
        by (now rewrite <- !app_assoc).
      apply read_u32_app. lia. }
    rewrite Hr2. cbn [bind].
    specialize (IH (pre ++ entry_bytes (name, blob))).
    fold tail in IH. rewrite <- app_assoc, Hfull in IH.
    replace (len pre + (4 + len name) + (4 + len blob))
      with (len (pre ++ entry_bytes (name, blob))).
    + rewrite IH. f_equal. rewrite !len_app. lia.
    + unfold entry_bytes. cbn [fst snd]. rewrite !len_app, !len_block. lia.
Qed.

(** The rows rebuilt from columns that hold the stored values. *)
Lemma reconstruct_stored (b : blocks) (n : nat) (v : Z) (tys : value)
    (cols : list (value * value)) (endo : Z) :
  Forall is_str (e_fields b) ->
  (forall f, In f (e_fields b) ->
             dict_get cols f
             = Some (VList (map (stored (type_of b f)) (column_of b f)))
             /\ length (column_of b f) = n) ->
  reconstruct {| p_version := v; p_fields := VList (e_fields b);
                 p_types := tys; p_flist := e_fields b;
                 p_columns := cols; p_end := endo |}
  = Ok {| version := v; fields := VList (e_fields b); types := tys;
          num_rows := Z.of_nat (rows_found b n);
          json_data := stored_rows b (rows_found b n) |}.
Proof.
  intros Hstr Hcols. unfold reconstruct.
  cbn [p_fields p_columns p_flist p_version p_types].
  assert (Hnum : (if py_truth (VList (e_fields b)) then
                    f0 <- py_getitem (VList (e_fields b)) (VInt 0) ;;
                    col <- (if hashable f0 then lookup cols f0
                            else Err TypeError) ;;
                    py_len col
                  else Ok 0) = Ok (Z.of_nat (rows_found b n))).
  { unfold rows_found. destruct (e_fields b) as [|f0 fl] eqn:Ef;
      [reflexivity|].
    assert (Ht : py_truth (VList (f0 :: fl)) = true).
    { cbn [py_truth]. unfold len. cbn [length].
      destruct (Z.of_nat (S (length fl)) =? 0) eqn:E; [|reflexivity].
      apply Z.eqb_eq in E. lia. }
    rewrite Ht.
    change (py_getitem (VList (f0 :: fl)) (VInt 0)) with (Ok f0 : result value).
    cbn [bind].
    assert (Hf0 : is_str f0) by (inversion Hstr; assumption).
    rewrite (is_str_hashable f0 Hf0).
    destruct (Hcols f0 (or_introl eq_refl)) as (Hg & Hl).
    unfold lookup. rewrite Hg. cbn [bind py_len]. unfold len.
    now rewrite length_map, Hl. }
  rewrite Hnum. cbn [bind]. rewrite Nat2Z.id.
  assert (Hrows : mapM (fun i => build_row cols (e_fields b) (Z.of_nat i))
                    (seq 0 (rows_found b n))
                  = Ok (stored_rows b (rows_found b n))).
  { unfold stored_rows. apply mapM_map. intros i Hi. apply in_seq in Hi.
    unfold build_row, stored_row.
    rewrite (mapM_map _ (fun f => (f, stored (type_of b f)
                                        (nth i (column_of b f) VNone)))).
    - reflexivity.
    - intros f Hf. destruct (Hcols f Hf) as (Hg & Hl).
      unfold lookup. rewrite Hg. cbn [bind]. rewrite list_getitem_nat.
      assert (Hin : (i < n)%nat).
      { unfold rows_found in Hi. destruct (e_fields b); [destruct Hf|lia]. }
      rewrite (nth_error_nth' _ VNone)
        by (rewrite length_map, Hl; exact Hin).
      cbn [bind]. do 2 f_equal.
      rewrite (nth_indep _ VNone (stored (type_of b f) VNone))
        by (rewrite length_map, Hl; exact Hin).
      apply map_nth. }
  rewrite Hrows. reflexivity.
Qed.

Lemma combine_fst {A B} (l : list A) (l' : list B) :
  length l = length l' -> map fst (combine l l') = l.
Proof.
  revert l'. induction l as [|x t IH]; intros [|y t'] H; try discriminate;
    [reflexivity|].
  simpl in *. f_equal. apply IH. lia.
Qed.

Lemma combine_snd {A B} (l : list A) (l' : list B) :
  length l = length l' -> map snd (combine l l') = l'.
Proof.
  revert l'. induction l as [|x t IH]; intros [|y t'] H; try discriminate;
    [reflexivity|].
  simpl in *. f_equal. apply IH. lia.
Qed.

Lemma Forall2_combine_map {A B C} (P : A -> B * C -> Prop)
    (Q : A -> B -> Prop) (g : A -> C) (l : list A) (cs : list B) :
  Forall2 Q l cs ->
  (forall x c, In x l -> Q x c -> P x (c, g x)) ->
  Forall2 P l (combine cs (map g l)).
Proof.
  induction 1 as [|x c l cs Hq _ IH]; intros H; cbn [map combine];
    constructor.
  - apply H; [now left|assumption].
  - apply IH. intros y c' Hy. apply H. now right.
Qed.

Section Decoded.
Variable Zs : zstd_api.
Variable J : json_api.
Hypothesis Hrt : zstd_roundtrip Zs.
Hypothesis Hjs : json_roundtrip J.
Variable d0 : list (value * value).
Variable rest : list value.
Variable b : blocks.
Variable data : bytes.
Hypothesis Henc : encode_blocks Zs J (VList (VDict d0 :: rest)) = Ok b.
Hypothesis Hwr : write_container Zs J b = Ok data.
Hypothesis Hnames : ascii_names (e_fields b).
Hypothesis Hclean :
  forall f, In f (e_fields b) -> clean_column (type_of b f) (column_of b f).

(** What the decoder reads for one field of the container. *)
Lemma field_read (f : value) (c : bytes) :
  In f (e_fields b) -> lookup (e_compressed b) f = Ok c ->
  length (column_of b f) = S (length rest)
  /\ exists packed ty,
       zstd_decompress Zs c = Ok packed
       /\ py_getitem
            (VDict (map (fun ft => (fst ft, VStr (type_name (snd ft))))
                      (e_types b))) f = Ok ty
       /\ unpack_column J ty packed
          = Ok (VList (map (stored (type_of b f)) (column_of b f))).
Proof.
  intros Hf Hl.
  destruct (encode_blocks_inv _ _ _ _ _ Henc) as (Hfl & Hb & Hd & Hcc & Hi).
  assert (Hstr : Forall is_str (e_fields b)) by now apply ascii_names_str.
  assert (Hsf : is_str f) by (rewrite Forall_forall in Hstr; auto).
  destruct (compress_columns_field _ _ _ _ _ _ _ _ Hb Hd Hcc Hf Hsf)
    as (c0 & t0 & blob0 & Hcol & Hdet & Hc0 & Ht0 & _).
  destruct (compress_columns_get _ _ _ _ _ _ _ _ _ Hcc Hstr Hf Hc0 Ht0)
    as (blob & Hpack & Hlk).
  assert (Hty : type_of b f = t0)
    by (unfold type_of; now rewrite (lookup_ok _ _ _ Ht0)).
  assert (Hco : column_of b f = c0)
    by (unfold column_of; now rewrite (lookup_ok _ _ _ Hc0)).
  rewrite Hty, Hco. split.
  - apply mapM_length in Hcol. exact Hcol.
  - exists blob, (VStr (type_name t0)).
    assert (c = zstd_compress Zs ZSTD_level blob) by congruence. subst c.
    split; [apply Hrt|]. split.
    + cbn [py_getitem]. rewrite (is_str_hashable f Hsf).
      rewrite (dict_get_map_values (fun x => VStr (type_name x))
                 (e_types b) f).
      now rewrite (lookup_ok _ _ _ Ht0).
    + apply stored_column_all; [assumption|assumption|].
      specialize (Hclean f Hf). now rewrite Hty, Hco in Hclean.
Qed.

Lemma decode_written :
  decode_from_bytes Zs J data
  = Ok {| version := 1;
          fields := VList (e_fields b);
          types := VDict (map (fun ft => (fst ft, VStr (type_name (snd ft))))
                            (e_types b));
          num_rows := Z.of_nat (rows_found b (S (length rest)));
          json_data := stored_rows b (rows_found b (S (length rest))) |}.
Proof.
  destruct (encode_blocks_inv _ _ _ _ _ Henc) as (Hfl & Hb & Hd & Hcc & Hi).
  assert (Hstr : Forall is_str (e_fields b)) by now apply ascii_names_str.
  assert (Htk : forall k0, In k0 (map fst (e_types b)) -> In k0 (e_fields b)).
  { intros k0 Hk0. eapply build_columns_keys; [exact Hb|].
    eapply detect_types_keys; eauto. }
  assert (Hst : Forall is_str (map fst (e_types b))).
  { rewrite Forall_forall in Hstr |- *. auto. }
  assert (Hia : ascii_names (map fst (e_indexes b))).
  { unfold ascii_names in *. rewrite Forall_forall in *. intros k0 Hk0.
    apply Hnames. apply Htk. eapply build_indexes_keys; eauto. }
  destruct (write_container_layout _ _ _ _ Hwr Hia)
    as (sj & cs & Hsj & Hsc & Hcs & Hn & Hes & Hdata).
  set (sc := zstd_compress Zs ZSTD_level sj) in *.
  set (CB := concat (map block cs)) in *.
  set (N := len (e_indexes b)) in *.
  set (ES := concat (map entry_bytes (map index_entry (e_indexes b)))) in *.
  set (tys := VDict (map (fun ft => (fst ft, VStr (type_name (snd ft))))
                       (e_types b))).
  set (vals := fun f => VList (map (stored (type_of b f)) (column_of b f))).
  pose proof (len_nonneg sc) as Hsc0.
  pose proof (len_nonneg (e_indexes b)) as HN0. fold N in HN0.
  (* the reads, one after the other *)
  assert (Hsw : startswith data magic = true)
    by (rewrite Hdata; apply startswith_app).
  assert (Hver : unpack_I (slice data 4 8) = Ok 1).
  { change (unpack_I (slice data 4 8)) with (read_u32 data 4).
    rewrite Hdata. change 4 with (len magic) at 1.
    apply read_u32_app. lia. }
  destruct (block_at (magic ++ le_bytes 4 1) (CB ++ le_bytes 4 N ++ ES)
              sc Hsc) as (Hr & Hs).
  rewrite <- app_assoc in Hr, Hs. rewrite <- Hdata in Hr, Hs.
  change (len (magic ++ le_bytes 4 1)) with 8 in Hr, Hs.
  change (8 + 4) with 12 in Hs.
  assert (Hlen : length (e_fields b) = length cs)
    by (eapply Forall2_length; eauto).
  assert (Hcvs : Forall2
            (fun f cv =>
               is_str f /\ len (fst cv) < 2 ^ 32
               /\ exists packed ty,
                    zstd_decompress Zs (fst cv) = Ok packed
                    /\ py_getitem tys f = Ok ty
                    /\ unpack_column J ty packed = Ok (snd cv))
            (e_fields b) (combine cs (map vals (e_fields b)))).
  { apply (Forall2_combine_map _ _ vals _ _ Hcs).
    intros f c Hf (Hl & Hc). cbn [fst snd].
    split; [rewrite Forall_forall in Hstr; auto|]. split; [exact Hc|].
    destruct (field_read f c Hf Hl) as (_ & G). exact G. }
  pose proof (read_columns_layout Zs J tys
                (combine cs (map vals (e_fields b))) (e_fields b)
                (magic ++ le_bytes 4 1 ++ block sc)
                (le_bytes 4 N ++ ES) [] Hcvs) as Hrc.
  rewrite combine_fst in Hrc by (rewrite length_map; lia).
  rewrite combine_snd in Hrc by (rewrite length_map; lia).
  fold CB in Hrc.
  assert (Hl2 : len (magic ++ le_bytes 4 1 ++ block sc) = 12 + len sc).
  { rewrite !len_app, len_block, len_le_bytes. change (len magic) with 4.
    lia. }
  rewrite <- !app_assoc in Hrc. rewrite <- Hdata, Hl2 in Hrc.
  assert (Hni : read_u32 data (12 + len sc + len CB) = Ok N).
  { replace (12 + len sc + len CB)
      with (len (magic ++ le_bytes 4 1 ++ block sc ++ CB))
      by (rewrite !len_app, len_block, len_le_bytes;
          change (len magic) with 4; lia).
    rewrite Hdata.
    replace (magic ++ le_bytes 4 1 ++ block sc ++ CB ++ le_bytes 4 N ++ ES)
      with ((magic ++ le_bytes 4 1 ++ block sc ++ CB) ++ le_bytes 4 N ++ ES)
      by (now rewrite <- !app_assoc).
    apply read_u32_app. lia. }
  pose proof (skip_indexes_layout (map index_entry (e_indexes b)) Hes
                (magic ++ le_bytes 4 1 ++ block sc ++ CB ++ le_bytes 4 N))
    as Hsk.
  fold ES in Hsk.
  replace ((magic ++ le_bytes 4 1 ++ block sc ++ CB ++ le_bytes 4 N) ++ ES)
    with data in Hsk by (rewrite Hdata; now rewrite <- !app_assoc).
  replace (len (magic ++ le_bytes 4 1 ++ block sc ++ CB ++ le_bytes 4 N))
    with (12 + len sc + len CB + 4) in Hsk
    by (rewrite !len_app, len_block, !len_le_bytes;
        change (len magic) with 4; lia).
  rewrite length_map in Hsk.
  (* the decoder, step by step *)
  unfold decode_from_bytes, parse_container.
  rewrite Hsw. cbn [negb]. rewrite Hver. cbn [bind].
  rewrite Hr. cbn [bind]. rewrite Hs. unfold sc at 1. rewrite Hrt.
  cbn [bind].
  rewrite (Hjs _ _ (schema_clean _ _ Hstr Hst) Hsj). cbn [bind].
  rewrite schema_fields, schema_types. cbn [bind py_iter]. fold tys.
  rewrite Hrc. cbn [bind]. rewrite Hni. cbn [bind].
  replace (Z.to_nat N) with (length (e_indexes b))
    by (unfold N, len; now rewrite Nat2Z.id).
  rewrite Hsk. cbn [bind].
  apply reconstruct_stored; [assumption|].
  intros f Hf.
  assert (Hsf : is_str f) by (rewrite Forall_forall in Hstr; auto).
  destruct (dict_get_some (e_compressed b) f) as (c & Hc).
  { clear - Hcs Hf Hstr.
    induction Hcs as [|f0 c0 fl cs' (Hl0 & _) _ IH]; [destruct Hf|].
    destruct Hf as [->|Hf].
    - apply lookup_ok in Hl0. apply dict_get_in in Hl0.
      + apply (in_map fst) in Hl0. exact Hl0.
      + inversion Hstr; assumption.
    - apply IH; [inversion Hstr; assumption|assumption]. }
  { exact Hsf. }
  assert (Hlc : lookup (e_compressed b) f = Ok c)
    by (unfold lookup; now rewrite Hc).
  destruct (field_read f c Hf Hlc) as (Hlenf & _).
  split; [|exact Hlenf].
  rewrite (assign_all_get (combine (e_fields b) (map vals (e_fields b)))
             (fun k => Some (vals k)) f).
  - reflexivity.
  - rewrite combine_fst by (now rewrite length_map). exact Hstr.
  - intros [k v] Hin. cbn [fst snd]. f_equal.
    clear - Hin. induction (e_fields b) as [|f0 fl IH]; [destruct Hin|].
    cbn [map combine] in Hin. destruct Hin as [Heq|Hin]; [|auto].
    now inversion Heq.
  - left. rewrite combine_fst by (now rewrite length_map). exact Hf.
Qed.

End Decoded.

Lemma ascii_names_b_ok (keys : list value) :
  ascii_names_b keys = true -> ascii_names keys.
Proof.
  unfold ascii_names_b, ascii_names. rewrite forallb_forall, Forall_forall.
  intros H k Hk. specialize (H k Hk). destruct k; try discriminate.
  exists s. split; [reflexivity|]. unfold ascii_str.
  rewrite forallb_forall in H. rewrite Forall_forall. intros c Hc.
  specialize (H c Hc). apply andb_true_iff in H. destruct H as (H1 & H2).
  apply Z.leb_le in H1. apply Z.ltb_lt in H2. lia.
Qed.

Lemma clean_columns_b_ok (b : blocks) :
  clean_columns_b b = true ->
  forall f, In f (e_fields b) -> clean_column (type_of b f) (column_of b f).
Proof.
  unfold clean_columns_b. rewrite forallb_forall. intros H f Hf.
  specialize (H f Hf). unfold clean_column_b, clean_column in *.
  destruct (type_of b f); auto.
Qed.

(* ------------------------------------------------------------------ *)
(** ** Lists of records that come back unchanged *)

Lemma assign_all_fresh {V} (l : list (value * V)) :
  Forall is_str (map fst l) -> NoDup (map fst l) ->
  forall acc, (forall k, In k (map fst l) -> ~ In k (map fst acc)) ->
              assign_all l acc = acc ++ l.
Proof.
  unfold assign_all.
  induction l as [|[k v] t IH]; intros Hs Hn acc Hacc.
  - simpl. now rewrite app_nil_r.
  - simpl in Hs, Hn. inversion Hs as [|? ? Hk Hst]; subst.
    inversion Hn as [|? ? Hkt Hnt]; subst.
    cbn [fold_left fst snd].
    rewrite (dict_set_fresh acc k v Hk) by (apply Hacc; now left).
    rewrite IH; [now rewrite <- app_assoc|assumption|assumption|].
    intros k' Hk'. rewrite map_app, in_app_iff. cbn [map fst In].
    intros [C|[C|[]]].
    + apply (Hacc k'); [now right|assumption].
    + subst k'. contradiction.
Qed.

Lemma dict_of_list_id {V} (l : list (value * V)) :
  Forall is_str (map fst l) -> NoDup (map fst l) -> dict_of_list l = l.
Proof.
  intros Hs Hn. change (dict_of_list l) with (assign_all l []).
  rewrite (assign_all_fresh l Hs Hn []); [reflexivity|].
  intros k _ [].
Qed.

Lemma dict_self (d : list (value * value)) :
  Forall is_str (map fst d) -> NoDup (map fst d) ->
  map (fun k => (k, dict_get_default d k)) (map fst d) = d.
Proof.
  intros Hs Hn. rewrite map_map.
  transitivity (map (fun x : value * value => x) d); [|apply map_id].
  apply map_ext_in. intros [k v] Hin. cbn [fst].
  unfold dict_get_default. rewrite (dict_get_nodup d k v); auto.
  rewrite Forall_forall in Hs. apply Hs. apply (in_map fst) in Hin.
  exact Hin.
Qed.

Lemma mapM_nth {A B} (f : A -> result B) (l : list A) (r : list B)
    (i : nat) (da : A) (db : B) :
  mapM f l = Ok r -> (i < length l)%nat ->
  f (nth i l da) = Ok (nth i r db).
Proof.
  intros H. apply mapM_ok_inv in H. revert i.
  induction H as [|x y l r Hxy _ IH]; intros i Hi; [simpl in Hi; lia|].
  destruct i as [|i]; [exact Hxy|]. simpl in *. apply IH. lia.
Qed.

Lemma map_fixed {A} (g : A -> A) (l : list A) :
  map g l = l -> Forall (fun v => g v = v) l.
Proof.
  induction l as [|x t IH]; intros H; constructor; simpl in H;
    injection H; auto.
Qed.

Lemma stored_rows_exact (Zs : zstd_api) (J : json_api)
    (rows : list value) (b : blocks) :
  encode_blocks Zs J (VList rows) = Ok b ->
  Forall is_str (e_fields b) -> NoDup (e_fields b) -> e_fields b <> [] ->
  Forall (fun r => exists d, r = VDict d /\ map fst d = e_fields b) rows ->
  (forall f, In f (e_fields b) ->
             Forall (fun v => stored (type_of b f) v = v) (column_of b f)) ->
  stored_rows b (rows_found b (length rows)) = rows.
Proof.
  intros Henc Hstr Hnd Hne Hkeys Hexact.
  destruct (encode_blocks_rows _ _ _ _ Henc) as (d0 & rest & Hrows).
  injection Hrows as Hrows.
  assert (Henc' : encode_blocks Zs J (VList (VDict d0 :: rest)) = Ok b)
    by (rewrite <- Hrows; exact Henc).
  destruct (encode_blocks_inv _ _ _ _ _ Henc') as (Hfl & Hb & Hd & Hcc & Hi).
  rewrite <- Hrows in Hb.
  assert (Hrf : rows_found b (length rows) = length rows).
  { unfold rows_found. destruct (e_fields b); [now elim Hne|reflexivity]. }
  rewrite Hrf. unfold stored_rows.
  apply nth_ext with (d := stored_row b 0) (d' := VNone).
  - now rewrite length_map, length_seq.
  - intros i Hlt. rewrite length_map, length_seq in Hlt.
    rewrite map_nth, seq_nth by assumption. cbn [Nat.add].
    rewrite Forall_forall in Hkeys.
    destruct (Hkeys (nth i rows VNone) (nth_In _ _ Hlt)) as (d & Hd0 & Hdk).
    rewrite Hd0. unfold stored_row. f_equal.
    assert (Hsd : Forall is_str (map fst d)) by (rewrite Hdk; exact Hstr).
    assert (Hnd' : NoDup (map fst d)) by (rewrite Hdk; exact Hnd).
    transitivity (dict_of_list d); [|exact (dict_of_list_id d Hsd Hnd')].
    f_equal.
    transitivity (map (fun k => (k, dict_get_default d k)) (map fst d));
      [|exact (dict_self d Hsd Hnd')].
    rewrite Hdk. apply map_ext_in. intros f Hf. f_equal.
    assert (Hsf : is_str f) by (rewrite Forall_forall in Hstr; auto).
    destruct (compress_columns_field _ _ _ _ _ _ _ _ Hb Hd Hcc Hf Hsf)
      as (c0 & t0 & blob0 & Hcol & _ & Hc0 & _ & _).
    assert (Hco : column_of b f = c0)
      by (unfold column_of; now rewrite (lookup_ok _ _ _ Hc0)).
    pose proof (mapM_nth _ _ _ i VNone VNone Hcol Hlt) as Hnth.
    cbn beta in Hnth. rewrite Hd0 in Hnth. cbn [py_getitem] in Hnth.
    rewrite (is_str_hashable f Hsf) in Hnth.
    assert (Hli : (i < length c0)%nat)
      by (apply mapM_length in Hcol; lia).
    specialize (Hexact f Hf). rewrite Hco in Hexact |- *.
    rewrite Forall_forall in Hexact.
    rewrite (Hexact _ (nth_In _ _ Hli)).
    unfold dict_get_default. destruct (dict_get d f); congruence.
Qed.

(** An exact round trip.  When, besides, every record has the keys of the
    first one in the same order, there is at least one key, and every
    value of every column is its own stored form, the decoder returns the
    list that was encoded, row for row. *)
Theorem roundtrip_exact (Zs : zstd_api) (J : json_api)
    (rows : list value) (b : blocks) (data : bytes)
    (Hrt : zstd_roundtrip Zs)
    (Hjs : json_roundtrip J)
    (Henc : encode_blocks Zs J (VList rows) = Ok b)
    (Hwr : write_container Zs J b = Ok data)
    (Hnames : ascii_names (e_fields b))
    (Hclean : forall f, In f (e_fields b) ->
                        clean_column (type_of b f) (column_of b f))
    (Hnd : NoDup (e_fields b))
    (Hne : e_fields b <> [])
    (Hkeys : Forall (fun r => exists d, r = VDict d
                                        /\ map fst d = e_fields b) rows)
    (Hexact : forall f, In f (e_fields b) ->
                Forall (fun v => stored (type_of b f) v = v)
                  (column_of b f)) :
  exists r,
    decode_from_bytes Zs J data = Ok r
    /\ json_data r = rows /\ num_rows r = len rows.
Proof.
  destruct (encode_blocks_rows _ _ _ _ Henc) as (d0 & rest & Hrows).
  injection Hrows as Hrows.
  assert (Henc' : encode_blocks Zs J (VList (VDict d0 :: rest)) = Ok b)
    by (rewrite <- Hrows; exact Henc).
  pose proof (decode_written Zs J Hrt Hjs d0 rest b data Henc' Hwr Hnames
                Hclean) as Hdec.
  assert (Hstr : Forall is_str (e_fields b)) by now apply ascii_names_str.
  pose proof (stored_rows_exact Zs J rows b Henc Hstr Hnd Hne Hkeys Hexact)
    as Hex.
  assert (Hlen : length rows = S (length rest)) by (rewrite Hrows; reflexivity).
  rewrite <- Hlen in Hdec. eexists. split; [exact Hdec|].
  cbn [json_data num_rows]. split; [exact Hex|].
  unfold rows_found, len. destruct (e_fields b); [now elim Hne|reflexivity].
Qed.

Lemma roundtrip_exact_witness :
  exists r,
    decode_from_bytes stored_zstd ref_json (container_of shop_rows) = Ok r
    /\ json_data r = shop_records /\ num_rows r = len shop_records.
Proof.
  apply (roundtrip_exact stored_zstd ref_json shop_records
           (blocks_of shop_rows) (container_of shop_rows)
           stored_zstd_roundtrip ref_json_roundtrip).
  - vm_compute. reflexivity.
  - vm_compute. reflexivity.
  - apply ascii_names_b_ok. vm_compute. reflexivity.
  - apply clean_columns_b_ok. vm_compute. reflexivity.
  - vm_compute. repeat constructor; intros H; simpl in H;
      intuition discriminate.
  - vm_compute. discriminate.
  - unfold shop_records.
    repeat (apply Forall_cons;
            [eexists; split; [reflexivity|vm_compute; reflexivity]|]).
    apply Forall_nil.
  - intros f Hf. vm_compute in Hf. apply map_fixed.
    destruct Hf as [<-|[<-|[<-|[<-|[]]]]]; vm_compute; reflexivity.
Defined.

(* ------------------------------------------------------------------ *)
(** ** Decoding, read off the list of records *)

Lemma cell_none (f : value) : cell f VNone = VNone.
Proof. reflexivity. Qed.

Lemma mapM_cells (rows : list value) (f : value) (c : list value) :
  mapM (fun row => py_getitem row f) rows = Ok c -> c = input_column rows f.
Proof.
  intros H. apply mapM_ok_inv in H. unfold input_column.
  induction H as [|row v l r Hv _ IH]; [reflexivity|].
  cbn [map]. unfold cell at 1. rewrite Hv. now f_equal.
Qed.

(** What the encoder computes for a field, read off the list of records. *)
Lemma encode_input (Zs : zstd_api) (J : json_api) (rows : list value)
    (b : blocks) (f : value) :
  encode_blocks Zs J (VList rows) = Ok b ->
  Forall is_str (first_fields rows) -> In f (first_fields rows) ->
  e_fields b = first_fields rows
  /\ mapM (fun row => py_getitem row f) rows = Ok (input_column rows f)
  /\ detect_type (input_column rows f) = Ok (detected rows f)
  /\ lookup (e_columns b) f = Ok (input_column rows f)
  /\ lookup (e_types b) f = Ok (detected rows f)
  /\ column_of b f = input_column rows f
  /\ type_of b f = detected rows f.
Proof.
  intros Henc Hstr Hf.
  destruct (encode_blocks_rows _ _ _ _ Henc) as (d0 & rest & Hrows).
  injection Hrows as ->.
  destruct (encode_blocks_inv _ _ _ _ _ Henc) as (Hfl & Hb & Hd & Hcc & Hi).
  cbn [first_fields] in *. rewrite <- Hfl in Hstr, Hf.
  assert (Hsf : is_str f) by (rewrite Forall_forall in Hstr; auto).
  destruct (compress_columns_field _ _ _ _ _ _ _ _ Hb Hd Hcc Hf Hsf)
    as (c & t & blob & Hcol & Hdet & Hc & Ht & _).
  pose proof (mapM_cells _ _ _ Hcol) as ->.
  assert (Hdt : detected (VDict d0 :: rest) f = t)
    by (unfold detected; now rewrite Hdet).
  rewrite Hdt. repeat split; try assumption.
  - unfold column_of. now rewrite (lookup_ok _ _ _ Hc).
  - unfold type_of. now rewrite (lookup_ok _ _ _ Ht).
Qed.

Lemma encode_fields_input (Zs : zstd_api) (J : json_api) (rows : list value)
    (b : blocks) :
  encode_blocks Zs J (VList rows) = Ok b -> e_fields b = first_fields rows.
Proof.
  intros Henc.
  destruct (encode_blocks_rows _ _ _ _ Henc) as (d0 & rest & Hrows).
  injection Hrows as ->.
  destruct (encode_blocks_inv _ _ _ _ _ Henc) as (Hfl & _). exact Hfl.
Qed.

Lemma map_pair_fst {A B} (g : A -> B) (l : list A) :
  map fst (map (fun x => (x, g x)) l) = l.
Proof. rewrite map_map. cbn [fst]. apply map_id. Qed.

(** With each key once in the first record, the columns and the types of
    the encoder are lists in the order of the fields. *)
Lemma encode_tables_input (Zs : zstd_api) (J : json_api) (rows : list value)
    (b : blocks) :
  encode_blocks Zs J (VList rows) = Ok b ->
  Forall is_str (first_fields rows) -> NoDup (first_fields rows) ->
  e_columns b = map (fun f => (f, input_column rows f)) (first_fields rows)
  /\ e_types b = map (fun f => (f, detected rows f)) (first_fields rows).
Proof.
  intros Henc Hstr Hnd.
  destruct (encode_blocks_rows _ _ _ _ Henc) as (d0 & rest & Hrows).
  injection Hrows as Hrows.
  assert (Hall : forall f, In f (first_fields rows) ->
            mapM (fun row => py_getitem row f) rows
            = Ok (input_column rows f)
            /\ detect_type (input_column rows f) = Ok (detected rows f)).
  { intros f Hf.
    destruct (encode_input Zs J rows b f Henc Hstr Hf)
      as (_ & H1 & H2 & _). auto. }
  assert (Hfl0 : e_fields b = first_fields rows).
  { rewrite Hrows in Henc |- *.
    destruct (encode_blocks_inv _ _ _ _ _ Henc) as (Hfl & _). exact Hfl. }
  assert (Henc' := Henc). rewrite Hrows in Henc'.
  destruct (encode_blocks_inv _ _ _ _ _ Henc') as (_ & Hb & Hd & _).
  rewrite <- Hrows, Hfl0 in Hb.
  assert (Hc : e_columns b
               = map (fun f => (f, input_column rows f)) (first_fields rows)).
  { unfold build_columns in Hb.
    rewrite (mapM_map _ (fun f => (f, input_column rows f))) in Hb.
    - cbn [bind] in Hb. injection Hb as <-.
      apply dict_of_list_id; now rewrite map_pair_fst.
    - intros f Hf. destruct (Hall f Hf) as (-> & _). reflexivity. }
  split; [exact Hc|].
  unfold detect_types in Hd. rewrite Hc in Hd.
  rewrite (mapM_map _ (fun fc : value * list value =>
                         (fst fc, detected rows (fst fc)))) in Hd.
  - cbn [bind] in Hd. injection Hd as <-. rewrite map_map. cbn [fst].
    apply dict_of_list_id; now rewrite map_pair_fst.
  - intros fc Hfc. apply in_map_iff in Hfc. destruct Hfc as (f & <- & Hf).
    cbn [fst snd]. destruct (Hall f Hf) as (_ & ->). reflexivity.
Qed.

Lemma stored_rows_input (Zs : zstd_api) (J : json_api) (rows : list value)
    (b : blocks) :
  encode_blocks Zs J (VList rows) = Ok b ->
  Forall is_str (first_fields rows) -> NoDup (first_fields rows) ->
  stored_rows b (rows_found b (length rows)) = decoded_rows rows.
Proof.
  intros Henc Hstr Hnd.
  assert (Hfl : e_fields b = first_fields rows).
  { destruct (encode_blocks_rows _ _ _ _ Henc) as (d0 & rest & Hrows).
    injection Hrows as ->.
    destruct (encode_blocks_inv _ _ _ _ _ Henc) as (Hfl & _). exact Hfl. }
  unfold rows_found, decoded_rows. rewrite Hfl.
  destruct (first_fields rows) as [|f0 fl] eqn:Ef; [reflexivity|].
  rewrite <- Ef in *. unfold stored_rows.
  apply nth_ext with (d := stored_row b 0) (d' := stored_record rows VNone).
  - now rewrite !length_map, length_seq.
  - intros i Hlt. rewrite length_map, length_seq in Hlt.
    rewrite map_nth, seq_nth by assumption. cbn [Nat.add].
    rewrite (map_nth (stored_record rows)).
    unfold stored_row, stored_record. f_equal. rewrite Hfl.
    rewrite dict_of_list_id by (now rewrite map_pair_fst).
    apply map_ext_in. intros f Hf. f_equal.
    destruct (encode_input Zs J rows b f Henc Hstr Hf)
      as (_ & _ & _ & _ & _ & -> & ->).
    f_equal. unfold input_column.
    rewrite <- (cell_none f) at 1. apply map_nth.
Qed.

(** Decoding what the encoder wrote, read off the list of records. *)
Lemma decode_input (Zs : zstd_api) (J : json_api) (rows : list value)
    (data : bytes) :
  zstd_roundtrip Zs -> json_roundtrip J ->
  encode_to_bytes Zs J (VList rows) = Ok data ->
  ascii_names (first_fields rows) -> NoDup (first_fields rows) ->
  (forall f, In f (first_fields rows) ->
             clean_column (detected rows f) (input_column rows f)) ->
  decode_from_bytes Zs J data
  = Ok {| version := 1;
          fields := VList (first_fields rows);
          types := VDict (map (fun f => (f, VStr (type_name
                                                    (detected rows f))))
                            (first_fields rows));
          num_rows := len (decoded_rows rows);
          json_data := decoded_rows rows |}.
Proof.
  intros Hrt Hjs Henc Hnames Hnd Hclean.
  unfold encode_to_bytes in Henc. inv_bind_as Henc b Eb.
  assert (Hstr : Forall is_str (first_fields rows))
    by now apply ascii_names_str.
  destruct (encode_blocks_rows _ _ _ _ Eb) as (d0 & rest & Hrows).
  injection Hrows as Hrows.
  assert (Hfl : e_fields b = first_fields rows).
  { rewrite Hrows in Eb |- *.
    destruct (encode_blocks_inv _ _ _ _ _ Eb) as (Hfl & _). exact Hfl. }
  destruct (encode_tables_input Zs J rows b Eb Hstr Hnd) as (_ & Hty).
  pose proof (stored_rows_input Zs J rows b Eb Hstr Hnd) as Hsr.
  assert (Eb' := Eb). rewrite Hrows in Eb'.
  assert (Hn' : ascii_names (e_fields b)) by (rewrite Hfl; exact Hnames).
  assert (Hc' : forall f, In f (e_fields b) ->
                          clean_column (type_of b f) (column_of b f)).
  { intros f Hf. rewrite Hfl in Hf.
    destruct (encode_input Zs J rows b f Eb Hstr Hf)
      as (_ & _ & _ & _ & _ & -> & ->). auto. }
  rewrite (decode_written Zs J Hrt Hjs d0 rest b data Eb' Henc Hn' Hc').
  replace (S (length rest)) with (length rows) by (rewrite Hrows; reflexivity).
  rewrite Hsr, Hfl, Hty. rewrite map_map.
  cbn [fst snd]. do 2 f_equal.
  unfold rows_found, decoded_rows, len. rewrite Hfl.
  destruct (first_fields rows); [reflexivity|]. now rewrite length_map.
Qed.

(** Decoding an encoded list.  For records with ASCII field names, each
    key once in the first record, whose str and json columns hold values
    JSON carries exactly, the decoder succeeds on what the encoder wrote:
    it returns version 1, the keys of the first record as fields, for each
    field the type the detector gives its column, and one row per record,
    made of the first record's fields, each with the stored form of the
    value the record has for it (an int column value as an int, a float
    column value rounded to float16 or float32, a bool column value as its
    truth value, a str or json column value unchanged).  When the first
    record has no key, no row is returned. *)
Theorem decode_encode (Zs : zstd_api) (J : json_api) (rows : list value)
    (data : bytes)
    (Hrt : zstd_roundtrip Zs)
    (Hjs : json_roundtrip J)
    (Henc : encode_to_bytes Zs J (VList rows) = Ok data)
    (Hnames : ascii_names (first_fields rows))
    (Hnd : NoDup (first_fields rows))
    (Hclean : forall f, In f (first_fields rows) ->
                clean_column (detected rows f) (input_column rows f)) :
  decode_from_bytes Zs J data
  = Ok {| version := 1;
          fields := VList (first_fields rows);
          types := VDict (map (fun f => (f, VStr (type_name
                                                    (detected rows f))))
                            (first_fields rows));
          num_rows := len (decoded_rows rows);
          json_data := decoded_rows rows |}.
Proof.
  exact (decode_input Zs J rows data Hrt Hjs Henc Hnames Hnd Hclean).
Qed.

Lemma decode_encode_witness :
  decode_from_bytes stored_zstd ref_json (container_of shop_rows)
  = Ok {| version := 1;
          fields := VList (first_fields shop_records);
          types := VDict (map (fun f => (f, VStr (type_name
                                               (detected shop_records f))))
                            (first_fields shop_records));
          num_rows := len (decoded_rows shop_records);
          json_data := decoded_rows shop_records |}.
Proof.
  apply (decode_encode stored_zstd ref_json shop_records
           (container_of shop_rows) stored_zstd_roundtrip
           ref_json_roundtrip).
  - vm_compute. reflexivity.
  - apply ascii_names_b_ok. vm_compute. reflexivity.
  - vm_compute. repeat constructor; intros H; simpl in H;
      intuition discriminate.
  - intros f Hf. vm_compute in Hf.
    destruct Hf as [<-|[<-|[<-|[<-|[]]]]]; vm_compute; auto.
Defined.

(* ------------------------------------------------------------------ *)
(** ** Edge cases of the codec *)

(** A list whose first record has no key.  The encoder takes the fields
    from the first record only, so it writes a container without any
    column, whatever the other records hold; the decoder finds the row
    count in the first field's column, and with no field it returns no row
    at all. *)
Theorem empty_first_record (Zs : zstd_api) (J : json_api)
    (rest : list value) (data : bytes)
    (Hrt : zstd_roundtrip Zs)
    (Hjs : json_roundtrip J)
    (Henc : encode_to_bytes Zs J (VList (VDict [] :: rest)) = Ok data) :
  decode_from_bytes Zs J data
  = Ok {| version := 1; fields := VList []; types := VDict [];
          num_rows := 0; json_data := [] |}.
Proof.
  unfold encode_to_bytes in Henc.
  assert (Hb : encode_blocks Zs J (VList (VDict [] :: rest))
               = Ok empty_blocks) by reflexivity.
  rewrite Hb in Henc. cbn [bind] in Henc.
  apply (decode_written Zs J Hrt Hjs [] rest empty_blocks data Hb Henc).
  - constructor.
  - intros f [].
Qed.

Lemma empty_first_record_witness :
  decode_from_bytes stored_zstd ref_json (container_of hollow_rows)
  = Ok {| version := 1; fields := VList []; types := VDict [];
          num_rows := 0; json_data := [] |}.
Proof.
  apply (empty_first_record stored_zstd ref_json [VDict [fld "a" (VInt 1)]]
           (container_of hollow_rows) stored_zstd_roundtrip
           ref_json_roundtrip).
  vm_compute. reflexivity.
Defined.

(** Every index the encoder stores, for a column with or without NaN, is
    read back (decompressed and parsed) as a permutation of the row
    positions [0 .. n-1] of the encoded list. *)
Theorem stored_index_permutation (Zs : zstd_api) (J : json_api)
    (rows : list value) (b : blocks) (f : value) (blob : bytes)
    (Hrt : zstd_roundtrip Zs)
    (Hjs : json_roundtrip J)
    (Henc : encode_blocks Zs J (VList rows) = Ok b)
    (Hstr : Forall is_str (e_fields b))
    (Hf : In f (e_fields b))
    (Hblob : dict_get (e_indexes b) f = Some blob) :
  exists idx raw,
    zstd_decompress Zs blob = Ok raw
    /\ loads J raw = Ok (index_value idx)
    /\ Permutation idx (seq 0 (length rows)).
Proof.
  destruct (encode_blocks_rows _ _ _ _ Henc) as (d0 & rest & Hrows).
  injection Hrows as Hrows. subst rows.
  destruct (encode_blocks_inv _ _ _ _ _ Henc) as (Hfl & Hb & Hd & Hcc & Hi).
  assert (Hsf : is_str f) by (rewrite Forall_forall in Hstr; auto).
  assert (Hst : Forall is_str (map fst (e_types b))).
  { rewrite Forall_forall in Hstr |- *. intros k Hk. apply Hstr.
    eapply build_columns_keys; [exact Hb|].
    eapply detect_types_keys; eauto. }
  pose proof (build_indexes_get _ _ _ _ _ f Hi Hsf Hst) as G.
  rewrite Hblob in G.
  destruct G as (t & col & idx & bj & _ & _ & Hcol & Hidx & Hdump & ->).
  exists idx, bj. split; [apply Hrt|].
  split; [apply (Hjs _ _ (index_value_clean idx) Hdump)|].
  pose proof (sorted_index_perm col idx Hidx) as Hperm.
  apply lookup_ok in Hcol. apply (dict_get_in _ _ _ Hsf) in Hcol.
  destruct (build_columns_in _ _ _ _ _ Hb Hsf Hcol) as (_ & Hm).
  apply mapM_length in Hm. now rewrite <- Hm.
Qed.

Lemma stored_index_permutation_witness :
  exists idx raw,
    zstd_decompress stored_zstd
      (stored_compress ZSTD_level (js_ser (index_value [0; 1; 2]%nat)))
    = Ok raw
    /\ loads ref_json raw = Ok (index_value idx)
    /\ Permutation idx (seq 0 3).
Proof.
  apply (stored_index_permutation stored_zstd ref_json
           [VDict [fld "x" (flt 2 1)]; VDict [fld "x" (VFloat FNaN)];
            VDict [fld "x" (flt 1 1)]]
           (blocks_of nan_rows) (VStr (lit "x")) _
           stored_zstd_roundtrip ref_json_roundtrip).
  - vm_compute. reflexivity.
  - vm_compute. repeat constructor. eexists. reflexivity.
  - vm_compute. left. reflexivity.
  - vm_compute. reflexivity.
Defined.

Lemma pack_int_range (k : nat) (z : Z) (c : bytes) :
  pack_int k (VInt z) = Ok c ->
  - 2 ^ (8 * Z.of_nat k - 1) <= z < 2 ^ (8 * Z.of_nat k - 1).
Proof.
  unfold pack_int.
  destruct ((- 2 ^ (8 * Z.of_nat k - 1) <=? z)
            && (z <? 2 ^ (8 * Z.of_nat k - 1))) eqn:E; [|discriminate].
  intros _. apply andb_true_iff in E. destruct E as (E1 & E2).
  apply Z.leb_le in E1. apply Z.ltb_lt in E2. lia.
Qed.

(** Integers beyond 32 bits cannot be encoded: when the column of a field
    starts with an int and holds an int outside [-2^31, 2^31), the
    encoder raises (the column is typed int16 or int32 and [struct.pack]
    refuses the value, unless something else raised before). *)
Theorem encode_rejects_wide_int (Zs : zstd_api) (J : json_api)
    (d0 : list (value * value)) (rest : list value)
    (f : value) (z0 z : Z) (d : list (value * value))
    (Hkeys : Forall is_str (map fst d0))
    (Hsf : is_str f)
    (Hfirst : dict_get d0 f = Some (VInt z0))
    (Hrow : In (VDict d) (VDict d0 :: rest))
    (Hval : dict_get d f = Some (VInt z))
    (Hwide : z < - 2 ^ 31 \/ 2 ^ 31 <= z) :
  raises (encode_to_bytes Zs J (VList (VDict d0 :: rest))).
Proof.
  unfold encode_to_bytes.
  destruct (encode_blocks Zs J (VList (VDict d0 :: rest))) as [b|e] eqn:Henc;
    [|eexists; reflexivity].
  exfalso.
  destruct (encode_blocks_inv _ _ _ _ _ Henc) as (Hfl & Hb & Hd & Hcc & Hi).
  assert (Hf : In f (e_fields b)).
  { rewrite Hfl. apply (dict_get_in _ _ _ Hsf) in Hfirst.
    apply (in_map fst) in Hfirst. exact Hfirst. }
  destruct (compress_columns_field _ _ _ _ _ _ _ _ Hb Hd Hcc Hf Hsf)
    as (c & t & blob & Hcol & Hdet & _ & _ & Hpack).
  pose proof (mapM_ok_inv _ _ _ Hcol) as Hall.
  assert (Hc0 : exists c', c = VInt z0 :: c').
  { inversion Hall as [|? y ? c' Hy _]; subst.
    cbn [py_getitem] in Hy. rewrite (is_str_hashable f Hsf), Hfirst in Hy.
    injection Hy as <-. eauto. }
  destruct Hc0 as (c' & ->).
  assert (Hin : In (VInt z) (VInt z0 :: c')).
  { destruct (Forall2_in_left _ _ _ _ Hall Hrow) as (y & Hy & Hg).
    cbn [py_getitem] in Hg. rewrite (is_str_hashable f Hsf), Hval in Hg.
    injection Hg as <-. exact Hy. }
  cbn [detect_type] in Hdet.
  assert (G : forall k r, (k = 2 \/ k = 4)%nat ->
                          mapM (pack_int k) (VInt z0 :: c') = Ok r -> False).
  { intros k r Hk Hr. apply mapM_ok_inv in Hr.
    destruct (Forall2_in_left _ _ _ _ Hr Hin) as (cb & _ & Hp).
    apply pack_int_range in Hp.
    assert (2 ^ (8 * Z.of_nat k - 1) <= 2 ^ 31)
      by (apply Z.pow_le_mono_r; lia).
    lia. }
  destruct (detect_int_result _ _ Hdet) as [-> | ->];
    cbn [pack_column] in Hpack; inv_bind_as Hpack r Er.
  - apply (G 2%nat r); auto.
  - apply (G 4%nat r); auto.
Qed.

Lemma encode_rejects_wide_int_witness :
  raises (encode_to_bytes stored_zstd ref_json wide_rows).
Proof.
  apply (encode_rejects_wide_int stored_zstd ref_json
           [fld "id" (VInt 1)] [VDict [fld "id" (VInt 5000000000)]]
           (VStr (lit "id")) 1 5000000000 [fld "id" (VInt 5000000000)]).
  - repeat constructor. eexists. reflexivity.
  - eexists. reflexivity.
  - reflexivity.
  - right. left. reflexivity.
  - reflexivity.
  - right. vm_compute. discriminate.
Defined.

(** The bytes of a container, as the encoder lays them out: the magic
    number, version 1, the compressed schema, one block per field in field
    order, the number of indexes and one entry per index; every block is
    preceded by its length on four bytes.  The size of the container
    follows. *)
Theorem container_layout (Zs : zstd_api) (J : json_api) (input : value)
    (b : blocks) (data : bytes)
    (Henc : encode_blocks Zs J input = Ok b)
    (Hwr : write_container Zs J b = Ok data)
    (Hnames : ascii_names (map fst (e_indexes b))) :
  encode_to_bytes Zs J input = Ok data
  /\ exists schema_json cs,
       dumps J (schema_value (e_fields b) (e_types b)) = Ok schema_json
       /\ Forall2 (fun f c => lookup (e_compressed b) f = Ok c)
            (e_fields b) cs
       /\ data = magic ++ le_bytes 4 1
                 ++ block (zstd_compress Zs ZSTD_level schema_json)
                 ++ concat (map block cs)
                 ++ le_bytes 4 (len (e_indexes b))
                 ++ concat (map entry_bytes
                              (map index_entry (e_indexes b)))
       /\ len data
          = 16 + len (zstd_compress Zs ZSTD_level schema_json)
            + total (map (fun c => 4 + len c) cs)
            + total (map (fun kv => 8 + len (name_bytes (fst kv))
                                    + len (snd kv)) (e_indexes b)).
Proof.
  split; [unfold encode_to_bytes; rewrite Henc; exact Hwr|].
  destruct (write_container_layout _ _ _ _ Hwr Hnames)
    as (sj & cs & Hsj & Hsc & Hcs & Hn & Hes & Hdata).
  exists sj, cs. split; [exact Hsj|]. split.
  - clear - Hcs. induction Hcs as [|f c fl cs (Hl & _) _ IH];
      constructor; auto.
  - split; [exact Hdata|]. rewrite Hdata.
    rewrite !len_app, len_block, !len_le_bytes. change (len magic) with 4.
    assert (H1 : forall l : list bytes,
               len (concat (map block l))
               = total (map (fun c => 4 + len c) l)).
    { unfold total. induction l as [|c l IH]; [reflexivity|].
      cbn [map concat fold_right]. rewrite len_app, len_block, IH.
      reflexivity. }
    assert (H2 : forall l : list (value * bytes),
               len (concat (map entry_bytes (map index_entry l)))
               = total (map (fun kv => 8 + len (name_bytes (fst kv))
                                       + len (snd kv)) l)).
    { unfold total. induction l as [|kv l IH]; [reflexivity|].
      cbn [map concat fold_right]. rewrite len_app, IH.
      unfold entry_bytes, index_entry. cbn [fst snd].
      rewrite len_app, !len_block. unfold bytes in *. lia. }
    rewrite H1, H2. lia.
Qed.

Lemma container_layout_witness :
  exists (schema_json : bytes) (cs : list bytes),
    dumps ref_json (schema_value (e_fields (blocks_of shop_rows))
                      (e_types (blocks_of shop_rows))) = Ok schema_json
    /\ length cs = 4%nat
    /\ len (container_of shop_rows)
       = 16 + len (stored_compress ZSTD_level schema_json)
         + total (map (fun c => 4 + len c) cs)
         + total (map (fun kv => 8 + len (name_bytes (fst kv))
                                 + len (snd kv))
                    (e_indexes (blocks_of shop_rows))).
Proof.
  destruct (container_layout stored_zstd ref_json shop_rows
              (blocks_of shop_rows) (container_of shop_rows))
    as (_ & sj & cs & Hsj & Hcs & _ & Hlen).
  - vm_compute. reflexivity.
  - vm_compute. reflexivity.
  - apply ascii_names_b_ok. vm_compute. reflexivity.
  - exists sj, cs. split; [exact Hsj|]. split; [|exact Hlen].
    apply Forall2_length in Hcs. rewrite <- Hcs. vm_compute. reflexivity.
Defined.

(** Storing keeps the order.  A column of numbers without NaN that
    [pack_column] packs with a numeric type is unpacked as a column of the
    same length, in which two rows that were in order, [v[i] <= v[j]], are
    still in order: rounding to float16 or float32 never swaps two
    values. *)
Theorem storage_keeps_order (J : json_api) (c : list value)
    (t : storage_type) (blob : bytes)
    (Hnum : Forall number c)
    (Hpack : pack_column J c t = Ok blob)
    (Ht : is_numeric_type t = true)
    (Hnan : no_nan c)
    (Hbin : Forall binary64 c) :
  exists c',
    unpack_column J (VStr (type_name t)) blob = Ok (VList c')
    /\ length c' = length c
    /\ forall i j, (i < length c)%nat -> (j < length c)%nat ->
                   vle (nth i c VNone) (nth j c VNone) ->
                   vle (nth i c' VNone) (nth j c' VNone).
Proof.
  exists (map (stored t) c). split; [now apply stored_column|].
  split; [apply length_map|].
  destruct (stored_order J c t blob Hpack Ht Hnan Hbin) as (_ & Hmono).
  intros i j Hi Hj Hle.
  rewrite (nth_indep _ VNone (stored t VNone)) by (now rewrite length_map).
  rewrite (nth_indep (map (stored t) c) VNone (stored t VNone))
    by (now rewrite length_map).
  rewrite !map_nth. apply Hmono; auto using nth_In.
Qed.

Lemma storage_keeps_order_witness :
  exists c',
    unpack_column ref_json (VStr (type_name TFloat32))
      (match pack_column ref_json price_column TFloat32 with
       | Ok blob => blob
       | Err _ => []
       end) = Ok (VList c')
    /\ length c' = length price_column
    /\ forall i j, (i < length price_column)%nat ->
                   (j < length price_column)%nat ->
                   vle (nth i price_column VNone) (nth j price_column VNone) ->
                   vle (nth i c' VNone) (nth j c' VNone).
Proof.
  apply (storage_keeps_order ref_json price_column TFloat32).
  - unfold price_column; repeat apply Forall_cons; try apply Forall_nil;
      eexists; vm_compute; reflexivity.
  - vm_compute. reflexivity.
  - reflexivity.
  - unfold price_column; repeat apply Forall_cons; try apply Forall_nil;
      vm_compute; discriminate.
  - unfold price_column; repeat apply Forall_cons; try apply Forall_nil;
      vm_compute; (split; [reflexivity|]); repeat split; discriminate.
Defined.

(* ------------------------------------------------------------------ *)
(** ** The lazy reader, from the encoder's output *)

Lemma load_written (Zs : zstd_api) (J : json_api)
    (d0 : list (value * value)) (rest : list value) (b : blocks)
    (data : bytes) :
  zstd_roundtrip Zs -> json_roundtrip J ->
  encode_blocks Zs J (VList (VDict d0 :: rest)) = Ok b ->
  write_container Zs J b = Ok data ->
  ascii_names (e_fields b) ->
  (forall f, In f (e_fields b) ->
             clean_column (type_of b f) (column_of b f)) ->
  exists self, load_file Zs J data = Ok self.
Proof.
  intros Hrt Hjs Henc Hwr Hnames Hclean.
  pose proof (decode_written Zs J Hrt Hjs d0 rest b data Henc Hwr Hnames
                Hclean) as Hdec.
  destruct (encode_blocks_inv _ _ _ _ _ Henc) as (Hfl & Hb & Hd & Hcc & Hi).
  assert (Hstr : Forall is_str (e_fields b)) by now apply ascii_names_str.
  assert (Htk : forall k0, In k0 (map fst (e_types b)) -> In k0 (e_fields b)).
  { intros k0 Hk0. eapply build_columns_keys; [exact Hb|].
    eapply detect_types_keys; eauto. }
  assert (Hia : ascii_names (map fst (e_indexes b))).
  { unfold ascii_names in *. rewrite Forall_forall in *. intros k0 Hk0.
    apply Hnames. apply Htk. eapply build_indexes_keys; eauto. }
  destruct (write_container_layout _ _ _ _ Hwr Hia)
    as (sj & cs & Hsj & Hsc & Hcs & Hn & Hes & Hdata).
  set (sc := zstd_compress Zs ZSTD_level sj) in *.
  set (CB := concat (map block cs)) in *.
  set (N := len (e_indexes b)) in *.
  set (ES := concat (map entry_bytes (map index_entry (e_indexes b)))) in *.
  pose proof (len_nonneg (e_indexes b)) as HN0. fold N in HN0.
  assert (Hsw : startswith data magic = true)
    by (rewrite Hdata; apply startswith_app).
  destruct (block_at (magic ++ le_bytes 4 1) (CB ++ le_bytes 4 N ++ ES)
              sc Hsc) as (Hr & _).
  rewrite <- app_assoc in Hr. rewrite <- Hdata in Hr.
  change (len (magic ++ le_bytes 4 1)) with 8 in Hr.
  assert (Hcs' : Forall2 (fun f c => is_str f /\ len c < 2 ^ 32)
                   (e_fields b) cs).
  { rewrite Forall_forall in Hstr. clear - Hcs Hstr.
    induction Hcs as [|f c fl cs' (_ & Hc) _ IH]; constructor.
    - split; [apply Hstr; now left|assumption].
    - apply IH. intros x Hx. apply Hstr. now right. }
  pose proof (load_columns_layout cs (e_fields b)
                (magic ++ le_bytes 4 1 ++ block sc) (le_bytes 4 N ++ ES)
                [] Hcs') as Hlc.
  fold CB in Hlc.
  assert (Hl2 : len (magic ++ le_bytes 4 1 ++ block sc) = 12 + len sc).
  { rewrite !len_app, len_block, len_le_bytes. change (len magic) with 4.
    lia. }
  rewrite <- !app_assoc in Hlc. rewrite <- Hdata, Hl2 in Hlc.
  assert (Hni : read_u32 data (12 + len sc + len CB) = Ok N).
  { replace (12 + len sc + len CB)
      with (len (magic ++ le_bytes 4 1 ++ block sc ++ CB))
      by (rewrite !len_app, len_block, len_le_bytes;
          change (len magic) with 4; lia).
    rewrite Hdata.
    replace (magic ++ le_bytes 4 1 ++ block sc ++ CB ++ le_bytes 4 N ++ ES)
      with ((magic ++ le_bytes 4 1 ++ block sc ++ CB) ++ le_bytes 4 N ++ ES)
      by (now rewrite <- !app_assoc).
    apply read_u32_app. lia. }
  pose proof (load_indexes_layout (e_indexes b)
                (magic ++ le_bytes 4 1 ++ block sc ++ CB ++ le_bytes 4 N)
                [] Hia Hes) as Hli.
  fold ES in Hli.
  replace ((magic ++ le_bytes 4 1 ++ block sc ++ CB ++ le_bytes 4 N) ++ ES)
    with data in Hli by (rewrite Hdata; now rewrite <- !app_assoc).
  replace (len (magic ++ le_bytes 4 1 ++ block sc ++ CB ++ le_bytes 4 N))
    with (12 + len sc + len CB + 4) in Hli
    by (rewrite !len_app, len_block, !len_le_bytes;
        change (len magic) with 4; lia).
  unfold load_file. rewrite Hdec. cbn [bind fields]. rewrite Hsw.
  cbn [negb]. rewrite Hr. cbn [bind py_iter]. rewrite Hlc. cbn [bind].
  rewrite Hni. cbn [bind].
  replace (Z.to_nat N) with (length (e_indexes b))
    by (unfold N, len; now rewrite Nat2Z.id).
  rewrite Hli. cbn [bind]. eauto.
Qed.

(** What the lazy reader holds for a field of a container the encoder
    wrote. *)
Lemma reader_field (Zs : zstd_api) (J : json_api) (rows : list value)
    (data : bytes) (self : JONXFile) (f : value) :
  zstd_roundtrip Zs -> json_roundtrip J ->
  encode_to_bytes Zs J (VList rows) = Ok data ->
  ascii_names (first_fields rows) ->
  load_file Zs J data = Ok self ->
  In f (first_fields rows) ->
  is_str f
  /\ length (input_column rows f) = length rows
  /\ rows <> []
  /\ (exists blob,
        pack_column J (input_column rows f) (detected rows f) = Ok blob)
  /\ (clean_column (detected rows f) (input_column rows f) ->
      get_column Zs J self f
      = Ok (VList (map (stored (detected rows f)) (input_column rows f))))
  /\ (is_numeric_type (detected rows f) = false ->
      dict_get (jx_indexes self) f = None)
  /\ (is_numeric_type (detected rows f) = true ->
      exists idx bj,
        sorted_index (input_column rows f) = Ok idx
        /\ dumps J (index_value idx) = Ok bj
        /\ dict_get (jx_indexes self) f
           = Some (zstd_compress Zs ZSTD_level bj)).
Proof.
  intros Hrt Hjs Henc Hnames Hload Hf.
  unfold encode_to_bytes in Henc. inv_bind_as Henc b Eb.
  assert (Hstr0 : Forall is_str (first_fields rows))
    by now apply ascii_names_str.
  destruct (encode_input Zs J rows b f Eb Hstr0 Hf)
    as (Hfl0 & _ & _ & Hc & Ht & _ & _).
  destruct (encode_blocks_rows _ _ _ _ Eb) as (d0 & rest & Hrows).
  injection Hrows as Hrows.
  assert (Eb' := Eb). rewrite Hrows in Eb'.
  destruct (encode_blocks_inv _ _ _ _ _ Eb') as (Hfl & Hb & Hd & Hcc & Hi).
  assert (Hn' : ascii_names (e_fields b)) by (rewrite Hfl0; exact Hnames).
  assert (Hstr : Forall is_str (e_fields b)) by now apply ascii_names_str.
  assert (Hkeys : Forall is_str (map fst d0)) by (rewrite <- Hfl; exact Hstr).
  assert (Hf' : In f (e_fields b)) by (rewrite Hfl0; exact Hf).
  assert (Hsf : is_str f) by (rewrite Forall_forall in Hstr; auto).
  assert (Htk : forall k0, In k0 (map fst (e_types b)) -> In k0 (e_fields b)).
  { intros k0 Hk0. eapply build_columns_keys; [exact Hb|].
    eapply detect_types_keys; eauto. }
  assert (Hik : forall k0, In k0 (map fst (e_indexes b)) ->
                           In k0 (map fst (e_types b))).
  { intros k0 Hk0. eapply build_indexes_keys; eauto. }
  assert (Hst : Forall is_str (map fst (e_types b))).
  { rewrite Forall_forall in Hstr |- *. auto. }
  assert (Hsi : Forall is_str (map fst (e_indexes b))).
  { rewrite Forall_forall in Hst |- *. auto. }
  destruct (load_file_inv Zs J Hrt Hjs b data Henc Hn' Htk Hik self Hload)
    as (Htypes & Hcols & Hidx).
  assert (Hget : dict_get (jx_indexes self) f = dict_get (e_indexes b) f).
  { rewrite Hidx. apply assign_all_self; auto.
    eapply build_indexes_nodup; eauto. }
  destruct (encode_field_inv _ _ _ _ _ _ _ _ Hkeys Eb' Hf' Hc Ht)
    as (Hne & (blob & Hpack & Hlk) & Hnone & Hsome).
  split; [exact Hsf|]. split; [apply length_map|].
  split; [rewrite Hrows; discriminate|].
  split; [eauto|]. split; [|split].
  - intros Hclean. unfold get_column. rewrite (is_str_hashable f Hsf).
    unfold lookup at 1. rewrite (Hcols f _ Hf' Hlk). cbn [bind].
    unfold decompress_column. rewrite Hrt. cbn [bind].
    rewrite Htypes. cbn [py_getitem]. rewrite (is_str_hashable f Hsf).
    rewrite (dict_get_map_values (fun x => VStr (type_name x))
               (e_types b) f).
    rewrite (lookup_ok _ _ _ Ht). cbn [option_map bind].
    now apply stored_column_all.
  - intros Hn. rewrite Hget. auto.
  - intros Hn. rewrite Hget. auto.
Qed.

(** The lazy reader on an encoded list.  For records with ASCII field
    names, each key once in the first record, whose str and json columns
    hold values JSON carries exactly, [JONXFile] loads the container the
    encoder wrote.  Its fields are the keys of the first record;
    [get_column] returns, for every field, the stored forms of the values
    the records have for it, in row order; the reader holds no index for a
    field whose column is detected bool, str or json, and for a field of a
    numeric type it holds the compressed JSON of a permutation of the row
    positions, which lists the values in ascending order, rows with equal
    values in row order, when the column holds no NaN. *)
Theorem reader_columns (Zs : zstd_api) (J : json_api) (rows : list value)
    (data : bytes)
    (Hrt : zstd_roundtrip Zs)
    (Hjs : json_roundtrip J)
    (Henc : encode_to_bytes Zs J (VList rows) = Ok data)
    (Hnames : ascii_names (first_fields rows))
    (Hnd : NoDup (first_fields rows))
    (Hclean : forall f, In f (first_fields rows) ->
                clean_column (detected rows f) (input_column rows f)) :
  exists self,
    load_file Zs J data = Ok self
    /\ jx_fields self = VList (first_fields rows)
    /\ (forall f, In f (first_fields rows) ->
          get_column Zs J self f
          = Ok (VList (map (fun row => stored (detected rows f) (cell f row))
                         rows))
          /\ (is_numeric_type (detected rows f) = false ->
              dict_get (jx_indexes self) f = None)
          /\ (is_numeric_type (detected rows f) = true ->
              exists idx bj,
                Permutation idx (seq 0 (length rows))
                /\ dumps J (index_value idx) = Ok bj
                /\ dict_get (jx_indexes self) f
                   = Some (zstd_compress Zs ZSTD_level bj)
                /\ (no_nan (input_column rows f) ->
                    StronglySorted (index_order (input_column rows f))
                      idx))).
Proof.
  pose proof (decode_input Zs J rows data Hrt Hjs Henc Hnames Hnd Hclean)
    as Hdec.
  assert (Hstr : Forall is_str (first_fields rows))
    by now apply ascii_names_str.
  assert (Henc0 := Henc).
  unfold encode_to_bytes in Henc0. inv_bind_as Henc0 b Eb.
  destruct (encode_blocks_rows _ _ _ _ Eb) as (d0 & rest & Hrows).
  injection Hrows as Hrows. assert (Eb' := Eb). rewrite Hrows in Eb'.
  pose proof (encode_fields_input Zs J rows b Eb) as Hfl.
  assert (Hn' : ascii_names (e_fields b)) by (rewrite Hfl; exact Hnames).
  assert (Hc' : forall f, In f (e_fields b) ->
                          clean_column (type_of b f) (column_of b f)).
  { intros f Hf. rewrite Hfl in Hf.
    destruct (encode_input Zs J rows b f Eb Hstr Hf)
      as (_ & _ & _ & _ & _ & -> & ->). auto. }
  destruct (load_written Zs J d0 rest b data Hrt Hjs Eb' Henc0 Hn' Hc')
    as (self & Hload).
  exists self. split; [exact Hload|]. split.
  - unfold load_file in Hload. rewrite Hdec in Hload.
    cbn [bind fields types] in Hload.
    destruct (negb (startswith data magic)); [discriminate|].
    inv_bind_as Hload ss Ess. inv_bind_as Hload fl Efl.
    inv_bind_as Hload lc Elc. destruct lc as [cols off].
    inv_bind_as Hload ni Eni. inv_bind_as Hload ix Eix.
    injection Hload as <-. reflexivity.
  - intros f Hf.
    destruct (reader_field Zs J rows data self f Hrt Hjs Henc Hnames Hload Hf)
      as (Hsf & Hlen & Hrne & (blob & Hpack) & Hcolumn & Hnone & Hsome).
    split; [|split].
    + rewrite (Hcolumn (Hclean f Hf)). unfold input_column.
      now rewrite map_map.
    + exact Hnone.
    + intros Hn. destruct (Hsome Hn) as (idx & bj & Hsort & Hdump & Hin).
      exists idx, bj. split.
      { rewrite <- Hlen. now apply sorted_index_perm. }
      split; [exact Hdump|]. split; [exact Hin|]. intros Hnan.
      assert (Hr : Forall real (input_column rows f)).
      { pose proof (pack_column_numbers _ _ _ _ Hpack Hn) as Hnum.
        unfold no_nan in Hnan. rewrite Forall_forall in Hnum, Hnan |- *.
        intros v Hv. apply number_real; auto. }
      destruct (sorted_index_valid _ Hr) as (idx' & Hidx' & _ & Hsorted).
      assert (idx' = idx) by congruence. subst idx'. exact Hsorted.
Qed.

Lemma reader_columns_witness :
  exists self,
    load_file stored_zstd ref_json (container_of shop_rows) = Ok self
    /\ jx_fields self = VList (first_fields shop_records)
    /\ (forall f, In f (first_fields shop_records) ->
          get_column stored_zstd ref_json self f
          = Ok (VList (map (fun row => stored (detected shop_records f)
                                         (cell f row)) shop_records))
          /\ (is_numeric_type (detected shop_records f) = false ->
              dict_get (jx_indexes self) f = None)
          /\ (is_numeric_type (detected shop_records f) = true ->
              exists idx bj,
                Permutation idx (seq 0 (length shop_records))
                /\ dumps ref_json (index_value idx) = Ok bj
                /\ dict_get (jx_indexes self) f
                   = Some (zstd_compress stored_zstd ZSTD_level bj)
                /\ (no_nan (input_column shop_records f) ->
                    StronglySorted
                      (index_order (input_column shop_records f)) idx))).
Proof.
  apply (reader_columns stored_zstd ref_json shop_records
           (container_of shop_rows) stored_zstd_roundtrip
           ref_json_roundtrip).
  - vm_compute. reflexivity.
  - apply ascii_names_b_ok. vm_compute. reflexivity.
  - vm_compute. repeat constructor; intros H; simpl in H;
      intuition discriminate.
  - intros f Hf. vm_compute in Hf.
    destruct Hf as [<-|[<-|[<-|[<-|[]]]]]; vm_compute; auto.
Defined.

(* ------------------------------------------------------------------ *)
(** ** The minimum of a column, by scan and by index *)

(** C9, as the code has it.  On any reader, [find_min] without
    [use_index] is a linear scan, [min(column)]; so it is with [use_index]
    on a field for which the reader holds no index; with [use_index] and
    an index it is the value of the column at the first position the index
    lists.  On a reader loaded from a container the encoder wrote (records
    with ASCII field names), a field of type bool, str or json has no
    index and both modes scan; a field of a numeric type has one, a
    permutation of the row positions, and [get_column] returns the stored
    column.  When that column holds no NaN, both modes return a value, the
    two values are equal ([==]), and they are a least value of the column
    as it is stored. *)
Theorem find_min_modes (Zs : zstd_api) (J : json_api)
    (rows : list value) (data : bytes) (self : JONXFile) (f : value)
    (Hrt : zstd_roundtrip Zs)
    (Hjs : json_roundtrip J)
    (Henc : encode_to_bytes Zs J (VList rows) = Ok data)
    (Hnames : ascii_names (first_fields rows))
    (Hload : load_file Zs J data = Ok self)
    (Hf : In f (first_fields rows)) :
  (forall file field column,
     find_min Zs J file field (Some column) false = py_min_of column
     /\ (hashable field = true ->
         dict_get (jx_indexes file) field = None ->
         find_min Zs J file field (Some column) true = py_min_of column)
     /\ (forall blob raw idx i0,
           hashable field = true ->
           dict_get (jx_indexes file) field = Some blob ->
           zstd_decompress Zs blob = Ok raw ->
           loads J raw = Ok idx ->
           py_getitem idx (VInt 0) = Ok i0 ->
           find_min Zs J file field (Some column) true
           = py_getitem column i0))
  /\ (is_numeric_type (detected rows f) = false ->
      forall column,
        find_min Zs J self f column true = find_min Zs J self f column false)
  /\ (is_numeric_type (detected rows f) = true ->
      exists i0 rest bj,
        Permutation (i0 :: rest) (seq 0 (length rows))
        /\ dumps J (index_value (i0 :: rest)) = Ok bj
        /\ dict_get (jx_indexes self) f
           = Some (zstd_compress Zs ZSTD_level bj)
        /\ (forall column,
              find_min Zs J self f (Some column) true
              = py_getitem column (VInt (Z.of_nat i0)))
        /\ get_column Zs J self f
           = Ok (VList (map (stored (detected rows f))
                          (input_column rows f)))
        /\ (no_nan (input_column rows f) ->
            Forall binary64 (input_column rows f) ->
            exists a m,
              find_min Zs J self f None true = Ok a
              /\ find_min Zs J self f None false = Ok m
              /\ py_eq a m = true
              /\ In m (map (stored (detected rows f)) (input_column rows f))
              /\ Forall (vle m)
                   (map (stored (detected rows f)) (input_column rows f)))).
Proof.
  destruct (reader_field Zs J rows data self f Hrt Hjs Henc Hnames Hload Hf)
    as (Hsf & Hlen & Hrne & (blob & Hpack) & Hcolumn & Hnone & Hsome).
  set (c := input_column rows f) in *. set (t := detected rows f) in *.
  split; [|split].
  - intros file field column. split; [reflexivity|]. split.
    + intros Hh Hi. unfold find_min. cbn [bind]. now rewrite Hh, Hi.
    + intros bl raw idx i0 Hh Hi Hz Hl Hg. unfold find_min. cbn [bind].
      rewrite Hh, Hi, Hz. cbn [bind]. rewrite Hl. cbn [bind].
      rewrite Hg. reflexivity.
  - intros Hn column. apply find_min_no_index; auto.
  - intros Hn. destruct (Hsome Hn) as (idx & bj & Hsort & Hdump & Hin).
    pose proof (sorted_index_perm c idx Hsort) as Hperm.
    rewrite Hlen in Hperm.
    destruct idx as [|i0 rest].
    { exfalso. apply Permutation_nil in Hperm.
      destruct rows; [now apply Hrne|discriminate]. }
    assert (Hind : forall column,
               find_min Zs J self f (Some column) true
               = py_getitem column (VInt (Z.of_nat i0))).
    { intros column. eapply find_min_indexed; eauto. }
    assert (Hcl : clean_column t c) by (destruct t; try discriminate; exact I).
    pose proof (Hcolumn Hcl) as Hcol.
    exists i0, rest, bj. split; [exact Hperm|]. split; [exact Hdump|].
    split; [exact Hin|]. split; [exact Hind|].
    split; [exact Hcol|]. intros Hnan Hbin.
    assert (Hr : Forall real c).
    { pose proof (pack_column_numbers _ _ _ _ Hpack Hn) as Hnum.
      unfold no_nan in Hnan. rewrite Forall_forall in Hnum, Hnan |- *.
      intros v Hv. apply number_real; auto. }
    assert (Hne : c <> []).
    { intros E. rewrite E in Hlen. destruct rows; [now apply Hrne|].
      discriminate. }
    destruct (sorted_index_first c i0 rest Hr Hsort) as (Hi0 & Hleast).
    destruct (stored_order J c t blob Hpack Hn Hnan Hbin) as (Hsr & Hmono).
    destruct (py_min_real (map (stored t) c)) as (m & Hm & Hmin & Hmall);
      [destruct c; [now elim Hne|discriminate]|exact Hsr|].
    set (a := stored t (key_at c i0)).
    assert (Hain : In (key_at c i0) c) by (apply nth_In; exact Hi0).
    assert (Ha : In a (map (stored t) c)) by (apply in_map; exact Hain).
    exists a, m.
    rewrite !(find_min_loaded _ _ _ _ _ _ Hcol), Hind.
    split; [|split; [|split; [|split]]]; try assumption.
    + rewrite list_getitem_nat.
      rewrite (nth_error_nth' (map (stored t) c) VNone)
        by (rewrite length_map; exact Hi0).
      f_equal. unfold a, key_at.
      rewrite (nth_indep _ VNone (stored t VNone))
        by (rewrite length_map; exact Hi0).
      apply map_nth.
    + rewrite Forall_forall in Hsr, Hmall, Hleast.
      destruct (Hsr a Ha) as (xa & Hxa & _).
      destruct (Hsr m Hmin) as (xm & Hxm & _).
      rewrite (py_eq_number a m xa xm Hxa Hxm).
      apply x_le_antisym.
      * apply in_map_iff in Hmin. destruct Hmin as (u & Hu & Huc).
        assert (Hle : vle a m).
        { rewrite <- Hu. apply Hmono; auto. }
        unfold vle in Hle. now rewrite Hxa, Hxm in Hle.
      * pose proof (Hmall a Ha) as Hle. unfold vle in Hle.
        now rewrite Hxa, Hxm in Hle.
Qed.

Lemma find_min_modes_witness :
  exists a m,
    find_min stored_zstd ref_json (file_of price_rows) (VStr (lit "x"))
      None true = Ok a
    /\ find_min stored_zstd ref_json (file_of price_rows) (VStr (lit "x"))
         None false = Ok m
    /\ py_eq a m = true
    /\ In m (map (stored TFloat32) price_column)
    /\ Forall (vle m) (map (stored TFloat32) price_column).
Proof.
  assert (Ec : input_column (map (fun v => VDict [fld "x" v]) price_column)
                 (VStr (lit "x")) = price_column)
    by (vm_compute; reflexivity).
  assert (Et : detected (map (fun v => VDict [fld "x" v]) price_column)
                 (VStr (lit "x")) = TFloat32)
    by (vm_compute; reflexivity).
  refine (match find_min_modes stored_zstd ref_json
                  (map (fun v => VDict [fld "x" v]) price_column)
                  (container_of price_rows) (file_of price_rows)
                  (VStr (lit "x"))
                  stored_zstd_roundtrip ref_json_roundtrip _ _ _ _
          with
          | conj _ (conj _ H) => _
          end).
  - vm_compute. reflexivity.
  - apply ascii_names_b_ok. vm_compute. reflexivity.
  - vm_compute. reflexivity.
  - left. reflexivity.
  - rewrite Ec, Et in H.
    destruct (H eq_refl) as (i0 & rest & bj & _ & _ & _ & _ & _ & G).
    apply G.
    + unfold price_column; repeat apply Forall_cons; try apply Forall_nil;
        vm_compute; discriminate.
    + unfold price_column; repeat apply Forall_cons; try apply Forall_nil;
        vm_compute; (split; [reflexivity|]); repeat split; discriminate.
Defined.

(** C9 fails as stated: with a NaN the two modes differ.  On the float32
    column [2.0, NaN, 1.0] no value is below the one before it, so the
    sort leaves the rows as they are and the encoder stores the index
    [0, 1, 2]; read through the index the minimum is 2.0, while the linear
    scan returns 1.0. *)
Lemma find_min_nan_modes_differ :
  encode_to_bytes stored_zstd ref_json nan_rows
  = Ok (container_of nan_rows)
  /\ load_file stored_zstd ref_json (container_of nan_rows)
     = Ok (file_of nan_rows)
  /\ dict_get (jx_indexes (file_of nan_rows)) (VStr (lit "x"))
     = Some (stored_compress ZSTD_level
               (js_ser (index_value [0%nat; 1%nat; 2%nat])))
  /\ find_min stored_zstd ref_json (file_of nan_rows) (VStr (lit "x"))
       None true = Ok (flt 2 1)
  /\ find_min stored_zstd ref_json (file_of nan_rows) (VStr (lit "x"))
       None false = Ok (flt 1 1)
  /\ py_eq (flt 2 1) (flt 1 1) = false.
Proof.
  (repeat split; vm_compute; reflexivity).
Qed.

(* ------------------------------------------------------------------ *)
(** ** Bytes after the container *)

Lemma slice_app_l {A} (data extra : list A) (a b : Z) :
  0 <= a -> b <= len data -> slice (data ++ extra) a b = slice data a b.
Proof.
  unfold slice, len. intros Ha Hb.
  destruct (Z_lt_le_dec b a) as [Hlt|Hle].
  - replace (Z.to_nat (b - a)) with 0%nat by lia. reflexivity.
  - rewrite skipn_app.
    rewrite firstn_app.
    replace (Z.to_nat (b - a) - length (skipn (Z.to_nat a) data))%nat
      with 0%nat by (rewrite length_skipn; lia).
    cbn [firstn]. apply app_nil_r.
Qed.

Lemma read_u32_within (data : bytes) (off n : Z) :
  0 <= off -> read_u32 data off = Ok n -> off + 4 <= len data /\ 0 <= n.
Proof.
  unfold read_u32, unpack_I. intros Hoff H.
  destruct (len (slice data off (off + 4)) =? 4) eqn:E; [|discriminate].
  apply Z.eqb_eq in E. injection H as <-. split.
  - unfold slice, len in *. rewrite length_firstn, length_skipn in E. lia.
  - apply le_value_range.
Qed.

Lemma read_u32_append (data extra : bytes) (off n : Z) :
  0 <= off -> read_u32 data off = Ok n ->
  read_u32 (data ++ extra) off = Ok n.
Proof.
  intros Hoff H. destruct (read_u32_within data off n Hoff H) as (Hw & _).
  unfold read_u32 in *. rewrite slice_app_l by lia. exact H.
Qed.

Lemma startswith_append (data extra prefix : bytes) :
  startswith data prefix = true -> startswith (data ++ extra) prefix = true.
Proof.
  revert data. induction prefix as [|p ps IH]; intros data H;
    [destruct (data ++ extra); reflexivity|].
  destruct data as [|x t]; [discriminate|].
  cbn [startswith app] in *. apply andb_true_iff in H. destruct H as (H1 & H2).
  rewrite H1. cbn [andb]. now apply IH.
Qed.

Lemma read_columns_append (Zs : zstd_api) (J : json_api)
    (data extra : bytes) (types : value) (fl : list value) :
  forall (acc : list (value * value)) (off : Z)
         (cols : list (value * value)) (off' : Z),
    0 <= off ->
    read_columns Zs J data types fl acc off = Ok (cols, off') ->
    off' <= len data ->
    read_columns Zs J (data ++ extra) types fl acc off = Ok (cols, off')
    /\ off <= off'.
Proof.
  induction fl as [|f fl IH]; intros acc off cols off' Hoff H Hend.
  - cbn [read_columns] in *. injection H as <- <-. split; [reflexivity|lia].
  - cbn [read_columns] in H |- *.
    inv_bind_as H cs Ecs. inv_bind_as H packed Ep. inv_bind_as H ty Ety.
    inv_bind_as H col Ecol.
    destruct (hashable f) eqn:Hh; [|discriminate].
    destruct (read_u32_within data off cs Hoff Ecs) as (Hw & Hcs).
    assert (Hmid : 0 <= off + 4 + cs) by lia.
    destruct (IH _ _ _ _ Hmid H Hend) as (IH1 & IH2).
    rewrite (read_u32_append data extra off cs Hoff Ecs). cbn [bind].
    rewrite slice_app_l by lia. rewrite Ep. cbn [bind]. rewrite Ety.
    cbn [bind]. rewrite Ecol. cbn [bind].
    split; [exact IH1|lia].
Qed.

Lemma skip_indexes_append (data extra : bytes) (n : nat) :
  forall off e : Z,
    0 <= off -> skip_indexes data n off = Ok e ->
    skip_indexes (data ++ extra) n off = Ok e.
Proof.
  induction n as [|n IH]; intros off e Hoff H; [exact H|].
  cbn [skip_indexes] in H |- *.
  inv_bind_as H nl Enl.
  destruct (read_u32_within data off nl Hoff Enl) as (_ & Hnl).
  inv_bind_as H sz Esz.
  assert (Hmid : 0 <= off + (4 + nl)) by lia.
  destruct (read_u32_within data _ sz Hmid Esz) as (_ & Hsz).
  rewrite (read_u32_append data extra off nl Hoff Enl). cbn [bind].
  rewrite (read_u32_append data extra _ sz Hmid Esz). cbn [bind].
  apply IH; [lia|exact H].
Qed.

(** Bytes that follow a container are ignored: whenever the decoder
    returns on some bytes, it returns the same result on those bytes
    followed by anything. *)
Theorem decode_ignores_trailing (Zs : zstd_api) (J : json_api)
    (data extra : bytes) (r : decoded)
    (Hdec : decode_from_bytes Zs J data = Ok r) :
  decode_from_bytes Zs J (data ++ extra) = Ok r.
Proof.
  unfold decode_from_bytes in *. inv_bind_as Hdec p Ep.
  assert (G : parse_container Zs J (data ++ extra) = Ok p).
  { unfold parse_container in *.
    destruct (startswith data magic) eqn:Hsw; [|discriminate].
    rewrite (startswith_append _ extra _ Hsw). cbn [negb] in *.
    inv_bind_as Ep v Ev. inv_bind_as Ep ss Ess. inv_bind_as Ep sj Esj.
    inv_bind_as Ep schema Esc. inv_bind_as Ep fv Efv. inv_bind_as Ep tv Etv.
    inv_bind_as Ep fl Efl. inv_bind_as Ep rc Erc.
    destruct rc as [cols off]. inv_bind_as Ep ni Eni.
    inv_bind_as Ep e Ee.
    change (unpack_I (slice data 4 8)) with (read_u32 data 4) in Ev.
    change (unpack_I (slice (data ++ extra) 4 8))
      with (read_u32 (data ++ extra) 4).
    rewrite (read_u32_append data extra 4 v ltac:(lia) Ev). cbn [bind].
    destruct (read_u32_within data 8 ss ltac:(lia) Ess) as (_ & Hss).
    rewrite (read_u32_append data extra 8 ss ltac:(lia) Ess). cbn [bind].
    assert (H12 : 0 <= 12 + ss) by lia.
    assert (Hoff : 12 + ss <= off /\ off + 4 <= len data).
    { pose proof (len_nonneg data) as Hd0.
      destruct (Z_lt_le_dec off 0) as [Hneg|Ho].
      - exfalso.
        destruct (read_columns_append Zs J data [] tv fl [] (12 + ss)
                    cols off H12 Erc ltac:(lia)) as (_ & Hle).
        lia.
      - destruct (read_u32_within data off ni Ho Eni) as (Hw & _).
        destruct (read_columns_append Zs J data [] tv fl [] (12 + ss)
                    cols off H12 Erc ltac:(lia)) as (_ & Hle).
        lia. }
    rewrite slice_app_l by lia. rewrite Esj. cbn [bind]. rewrite Esc.
    cbn [bind]. rewrite Efv. cbn [bind]. rewrite Etv. cbn [bind].
    rewrite Efl. cbn [bind].
    destruct (read_columns_append Zs J data extra tv fl [] (12 + ss)
                cols off H12 Erc ltac:(lia)) as (Hrc & _).
    rewrite Hrc. cbn [bind].
    assert (Ho : 0 <= off) by lia. assert (Ho4 : 0 <= off + 4) by lia.
    rewrite (read_u32_append data extra off ni Ho Eni). cbn [bind].
    rewrite (skip_indexes_append data extra _ _ _ Ho4 Ee). cbn [bind].
    exact Ep. }
  rewrite G. cbn [bind]. exact Hdec.
Qed.

Lemma decode_ignores_trailing_witness :
  decode_from_bytes stored_zstd ref_json
    (container_of shop_rows ++ blit "anything")
  = decode_from_bytes stored_zstd ref_json (container_of shop_rows).
Proof.
  rewrite (decode_ignores_trailing stored_zstd ref_json
             (container_of shop_rows) (blit "anything")
             (match decode_from_bytes stored_zstd ref_json
                      (container_of shop_rows) with
              | Ok r => r
              | Err _ => {| version := 0; fields := VNone; types := VNone;
                            num_rows := 0; json_data := [] |}
              end)).
  - vm_compute. reflexivity.
  - vm_compute. reflexivity.
Defined.

(* ------------------------------------------------------------------ *)
(** ** The preview endpoint and the encoder *)

Lemma foldM_all_ok {A B} (f : B -> A -> result B) (l : list A) :
  (forall x, In x l -> forall acc, exists acc', f acc x = Ok acc') ->
  forall acc, exists r, foldM f l acc = Ok r.
Proof.
  induction l as [|x t IH]; intros H acc; [simpl; eauto|].
  cbn [foldM]. destruct (H x (or_introl eq_refl) acc) as (acc' & ->).
  cbn [bind]. apply IH. intros y Hy. apply H. now right.
Qed.

(** When every record has the key, [row[f]] and [p.get(f)] read the same
    column. *)
Lemma getitem_column (data : list (list (value * value))) (f : value)
    (col : list value) :
  mapM (fun row => py_getitem row f) (map VDict data) = Ok col ->
  col = map (fun p => dict_get_default p f) data.
Proof.
  revert col. induction data as [|p data IH]; intros col H.
  - simpl in *. congruence.
  - cbn [map mapM] in H. inv_bind_as H v Ev. inv_bind_as H r Er.
    injection H as <-. cbn [map]. rewrite <- (IH r Er). f_equal.
    cbn [py_getitem] in Ev. destruct (hashable f); [|discriminate].
    unfold dict_get_default. destruct (dict_get p f); congruence.
Qed.

Lemma build_columns_default (data : list (list (value * value)))
    (fields : list value) (cols : columns_t) :
  build_columns (map VDict data) fields = Ok cols ->
  cols = dict_of_list
           (map (fun f => (f, map (fun p => dict_get_default p f) data))
              fields).
Proof.
  unfold build_columns. intros H. inv_bind_as H r Er. injection H as <-.
  f_equal. apply mapM_ok_inv in Er.
  induction Er as [|f y fields r Hy _ IH]; [reflexivity|].
  cbn [map]. rewrite IH. f_equal.
  inv_bind_as Hy col Ec. injection Hy as <-.
  now rewrite (getitem_column data f col Ec).
Qed.

(** Whenever a list of records with string keys can be encoded, the
    preview answers, and it reports the fields and the types that the
    encoder stores, and the number of records. *)
Theorem preview_matches_encode (Zs : zstd_api) (J : json_api)
    (data : list (list (value * value))) (b : blocks) (out : bytes)
    (Henc : encode_blocks Zs J (VList (map VDict data)) = Ok b)
    (Hwr : write_container Zs J b = Ok out)
    (Hstr : Forall is_str (e_fields b)) :
  exists r,
    preview Zs J data = Ok r
    /\ pv_fields r = e_fields b
    /\ pv_types r = e_types b
    /\ pv_num_rows r = len data.
Proof.
  destruct data as [|row0 rest]; [discriminate|].
  cbn [map] in Henc.
  destruct (encode_blocks_inv _ _ _ _ _ Henc) as (Hfl & Hb & Hd & Hcc & Hi).
  change (VDict row0 :: map VDict rest) with (map VDict (row0 :: rest)) in Hb.
  pose proof (build_columns_default _ _ _ Hb) as Hcols.
  rewrite Hfl in Hcols.
  assert (Hst : Forall is_str (map fst (e_types b))).
  { rewrite Forall_forall in Hstr |- *. intros k Hk. apply Hstr.
    eapply build_columns_keys; [exact Hb|].
    eapply detect_types_keys; eauto. }
  unfold write_container in Hwr.
  inv_bind_as Hwr ver Ever. inv_bind_as Hwr sj Esj.
  inv_bind_as Hwr sb Esb. inv_bind_as Hwr cb Ecb. inv_bind_as Hwr ib Eib.
  unfold write_indexes in Eib. inv_bind_as Eib nb Enb.
  inv_bind_as Eib entries Eent.
  unfold preview, preview_body. cbv zeta.
  rewrite <- Hcols, <- Hfl. rewrite Hd. cbn [bind]. rewrite Esj.
  cbn [bind].
  match goal with
  | |- context [foldM ?g (e_fields b) ?s0] =>
      destruct (foldM_all_ok g (e_fields b)) with (acc := s0) as (s1 & E1)
  end.
  { intros f Hf acc. unfold compress_columns in Hcc.
    destruct (foldM_ok_inv _ _ _ _ Hcc f Hf) as (a' & b' & Hstep).
    inv_bind_as Hstep col Ecol. inv_bind_as Hstep t Et.
    inv_bind_as Hstep blob Eblob.
    rewrite Ecol. cbn [bind]. rewrite Et. cbn [bind]. rewrite Eblob.
    cbn [bind]. eauto. }
  rewrite E1. cbn [bind].
  match goal with
  | |- context [foldM ?g (e_types b) ?s0] =>
      destruct (foldM_all_ok g (e_types b)) with (acc := s0) as (s2 & E2)
  end.
  { intros [f t] Hft acc. cbn [fst snd].
    destruct (is_preview_indexed t) eqn:Hp; [|eauto].
    assert (Hn : is_numeric_type t = true) by (destruct t; auto; discriminate).
    unfold build_indexes in Hi.
    destruct (foldM_ok_inv _ _ _ _ Hi (f, t) Hft) as (a' & b' & Hstep).
    cbn [fst snd] in Hstep. rewrite Hn in Hstep.
    inv_bind_as Hstep col Ecol. inv_bind_as Hstep idx Eidx.
    inv_bind_as Hstep bj Ebj.
    rewrite Ecol. cbn [bind]. rewrite Eidx. cbn [bind]. rewrite Ebj.
    cbn [bind].
    assert (Hsf : is_str f).
    { rewrite Forall_forall in Hst. apply Hst.
      apply (in_map fst) in Hft. exact Hft. }
    destruct (build_indexes_some Zs J (e_columns b) (e_types b) (e_indexes b)
                f t) as (blob & Hblob); auto.
    apply (dict_get_in _ _ _ Hsf) in Hblob.
    apply mapM_ok_inv in Eent.
    destruct (Forall2_in_left _ _ _ _ Eent Hblob) as (y & _ & Hy).
    destruct Hsf as (s & ->). unfold write_index in Hy. cbn [fst snd] in Hy.
    inv_bind_as Hy n En. inv_bind_as Hy name Ename.
    rewrite Ename. cbn [bind]. eauto. }
  rewrite E2. cbn [bind]. eexists. split; [reflexivity|].
  cbn [pv_fields pv_types pv_num_rows]. auto.
Qed.

Lemma preview_matches_encode_witness :
  exists r,
    preview stored_zstd ref_json
      [[fld "id" (VInt 1); fld "name" (VStr (lit "pen"))];
       [fld "id" (VInt 70000); fld "name" (VStr (lit "ink"))]] = Ok r
    /\ pv_fields r = [VStr (lit "id"); VStr (lit "name")]
    /\ pv_types r = [(VStr (lit "id"), TInt32); (VStr (lit "name"), TStr)]
    /\ pv_num_rows r = 2.
Proof.
  refine (preview_matches_encode stored_zstd ref_json
            [[fld "id" (VInt 1); fld "name" (VStr (lit "pen"))];
             [fld "id" (VInt 70000); fld "name" (VStr (lit "ink"))]]
            {| e_fields := [VStr (lit "id"); VStr (lit "name")];
               e_columns := _;
               e_types := [(VStr (lit "id"), TInt32);
                           (VStr (lit "name"), TStr)];
               e_compressed := _; e_indexes := _ |} _ _ _ _).
  - vm_compute. reflexivity.
  - vm_compute. reflexivity.
  - repeat constructor; eexists; reflexivity.
Defined.

(* ------------------------------------------------------------------ *)
(** ** The endpoints *)

Lemma before_last_dot_none (s : pystr) :
  ~ In 46 s -> before_last_dot s = None.
Proof.
  induction s as [|c t IH]; intros H; [reflexivity|].
  cbn [before_last_dot]. rewrite IH by (intros C; apply H; now right).
  destruct (c =? 46) eqn:E; [|reflexivity].
  apply Z.eqb_eq in E. exfalso. apply H. now left.
Qed.

Lemma rsplit_head_stem (stem ext : pystr) :
  ~ In 46 ext -> rsplit_head (stem ++ 46 :: ext) = stem.
Proof.
  intros H. unfold rsplit_head.
  assert (G : before_last_dot (stem ++ 46 :: ext) = Some stem).
  { induction stem as [|c t IH].
    - cbn [app before_last_dot]. now rewrite (before_last_dot_none ext H).
    - cbn [app before_last_dot]. now rewrite IH. }
  now rewrite G.
Qed.

Lemma latin1_encode_spec (s : pystr) :
  latin1_encode s
  = if latin1 s then Ok (map byte_of_Z s) else Err UnicodeError.
Proof.
  unfold latin1_encode, latin1.
  induction s as [|c t IH]; [reflexivity|].
  cbn [mapM forallb map]. unfold latin1_char at 1.
  destruct ((0 <=? c) && (c <? 256)); cbn [bind andb]; [|reflexivity].
  rewrite IH. destruct (forallb _ t); reflexivity.
Qed.

Lemma latin1_app (a b : pystr) : latin1 (a ++ b) = latin1 a && latin1 b.
Proof. apply forallb_app. Qed.

Lemma latin1_attachment (name : pystr) :
  latin1 (attachment name) = latin1 name.
Proof.
  unfold attachment. rewrite !latin1_app.
  change (latin1 (lit "attachment; filename=")) with true.
  change (latin1 [34]) with true.
  cbn [andb]. apply andb_true_r.
Qed.

(** Building the response fails exactly when the name of the attachment
    holds a code point latin-1 cannot encode. *)
Lemma make_response_cases (bs : bytes) (name : pystr) :
  make_response bs (lit "application/octet-stream") (attachment name)
  = if latin1 name
    then Ok {| r_content := bs;
               r_media_type := lit "application/octet-stream";
               r_disposition := attachment name |}
    else Err UnicodeError.
Proof.
  unfold make_response. rewrite !latin1_encode_spec.
  change (latin1 (lit "content-disposition")) with true.
  change (latin1 (lit "application/octet-stream")) with true.
  rewrite latin1_attachment. cbn [bind].
  destruct (latin1 name); reflexivity.
Qed.

(** [encode_from_json] never answers 400.  The two checks of the body
    raise [HTTPException(400)] inside the [try] whose [except Exception]
    clause re-raises everything as 500: an empty list is answered 500,
    like any failure of the encoder; a list that the encoder accepts is
    answered with the container, named output.json++. *)
Theorem encode_from_json_never_400 (Zs : zstd_api) (J : json_api)
    (data : list (list (value * value))) :
  (forall x, api_encode_from_json Zs J data = Raise x -> x = Http 500)
  /\ (data = [] -> api_encode_from_json Zs J data = Raise (Http 500))
  /\ (forall r,
        api_encode_from_json Zs J data = Return r <->
        data <> []
        /\ encode_to_bytes Zs J (VList (map VDict data)) = Ok (r_content r)
        /\ r_media_type r = lit "application/octet-stream"
        /\ r_disposition r = attachment (lit "output.json++")).
Proof.
  unfold api_encode_from_json, api_encode_from_json_body.
  cbn [is_list negb]. cbv zeta.
  destruct data as [|row0 rest].
  - cbn [len length Z.of_nat Z.eqb]. split; [congruence|].
    split; [reflexivity|]. intros r. split; [discriminate|].
    intros (H & _). now elim H.
  - assert (Hl : (len (row0 :: rest) =? 0) = false).
    { apply Z.eqb_neq. unfold len. cbn [length]. lia. }
    rewrite Hl.
    destruct (encode_to_bytes Zs J (VList (map VDict (row0 :: rest))))
      as [bs|e]; cbn [lift obind].
    + rewrite make_response_cases.
      change (latin1 (lit "output.json++")) with true. cbn [lift].
      split; [discriminate|]. split; [discriminate|].
      intros r. split.
      * intros H. injection H as <-. cbn. repeat split. discriminate.
      * intros (_ & Hc & Hm & Hd). destruct r as [c m d]. cbn in *.
        congruence.
    + split; [congruence|]. split; [discriminate|].
      intros r. split; [discriminate|]. intros (_ & C & _). discriminate.
Qed.

(** The status of [encode].  Without a file name the answer is 500, not
    the 400 the body raises, and so it is for a JSON value that is not a
    list or is the empty list; 400 is the answer to malformed JSON.  For a
    list that the encoder accepts, the answer depends on the name of the
    upload: the response is built with a Content-Disposition header that
    is encoded as latin-1, so with a name latin-1 can encode the answer is
    the container, in an attachment named after the upload with its last
    extension replaced by json++, and with any other name it is 500. *)
Theorem encode_upload_status (Zs : zstd_api) (J : json_api) (file : upload) :
  (no_filename file = true -> api_encode Zs J file = Raise (Http 500))
  /\ (no_filename file = false ->
      loads J (content file) = Err JSONDecodeError ->
      api_encode Zs J file = Raise (Http 400))
  /\ (no_filename file = false ->
      forall v, loads J (content file) = Ok v ->
                is_list v = false \/ v = VList [] ->
                api_encode Zs J file = Raise (Http 500))
  /\ (forall stem ext rows bs,
        filename file = Some (stem ++ 46 :: ext) -> ~ In 46 ext ->
        loads J (content file) = Ok (VList rows) -> rows <> [] ->
        encode_to_bytes Zs J (VList rows) = Ok bs ->
        (latin1 stem = true ->
         api_encode Zs J file
         = Return {| r_content := bs;
                     r_media_type := lit "application/octet-stream";
                     r_disposition :=
                       attachment (stem ++ lit ".json++") |})
        /\ (latin1 stem = false ->
            api_encode Zs J file = Raise (Http 500))).
Proof.
  unfold api_encode, api_encode_body. split; [|split; [|split]].
  - intros ->. reflexivity.
  - intros -> ->. reflexivity.
  - intros -> v -> [Hv| ->]; cbn [lift obind].
    + rewrite Hv. reflexivity.
    + reflexivity.
  - intros stem ext rows bs Hn Hext Hl Hrows Henc.
    unfold no_filename, the_filename. rewrite Hn.
    assert (Hs : match stem ++ 46 :: ext with
                 | [] => true
                 | _ :: _ => false
                 end = false) by (destruct stem; reflexivity).
    rewrite Hs, Hl.
    cbn [lift obind is_list negb py_len].
    assert (Hlen : (len rows =? 0) = false).
    { apply Z.eqb_neq. unfold len. destruct rows; [now elim Hrows|].
      cbn [length]. lia. }
    rewrite Hlen, Henc. cbn [lift obind]. cbv zeta.
    rewrite (rsplit_head_stem stem ext Hext), make_response_cases.
    rewrite latin1_app.
    split; intros Hlat; rewrite Hlat; reflexivity.
Qed.

(** The status of [decode]: 400 is answered exactly when a file name came
    with the upload and the decoder raised a [ValueError] (or one of its
    subclasses); bytes that do not start with the magic number are such a
    case, while a missing file name is answered 500. *)
Theorem decode_upload_status (Zs : zstd_api) (J : json_api) (file : upload) :
  (api_decode Zs J file = Raise (Http 400) <->
   no_filename file = false
   /\ exists e, decode_from_bytes Zs J (content file) = Err e
                /\ is_value_error e = true)
  /\ (no_filename file = false ->
      startswith (content file) magic = false ->
      api_decode Zs J file = Raise (Http 400))
  /\ (no_filename file = true -> api_decode Zs J file = Raise (Http 500)).
Proof.
  unfold api_decode, api_decode_body. cbv zeta. split; [|split].
  - destruct (no_filename file).
    + split; [discriminate|]. intros (C & _). discriminate.
    + destruct (decode_from_bytes Zs J (content file)) as [r|e];
        cbn [lift obind].
      * split; [discriminate|]. intros (_ & e & C & _). discriminate.
      * destruct (is_value_error e) eqn:E.
        -- split; [eauto|reflexivity].
        -- split; [discriminate|]. intros (_ & e' & He & C).
           injection He as <-. congruence.
  - intros -> Hm. unfold decode_from_bytes, parse_container. rewrite Hm.
    reflexivity.
  - intros ->. reflexivity.
Qed.

(** [decode] on an encoded list: for an upload that has a name and holds
    the container the encoder wrote for records with ASCII field names
    (each key once in the first record, str and json columns holding
    values JSON carries exactly), whose rows are read back without NaN or
    infinity, so that the reply can be sent as JSON, the endpoint returns
    the decoder's result with the name of the file and its size in bytes:
    the keys of the first record, the detected types, and one row per
    record with each value in its stored form. *)
Theorem decode_upload_encoded (Zs : zstd_api) (J : json_api)
    (rows : list value) (data : bytes) (c : Z) (name : pystr)
    (Hrt : zstd_roundtrip Zs)
    (Hjs : json_roundtrip J)
    (Henc : encode_to_bytes Zs J (VList rows) = Ok data)
    (Hnames : ascii_names (first_fields rows))
    (Hnd : NoDup (first_fields rows))
    (Hclean : forall f, In f (first_fields rows) ->
                clean_column (detected rows f) (input_column rows f))
    (Hfinite : json_clean (VList (decoded_rows rows)) = true) :
  api_decode Zs J {| filename := Some (c :: name); content := data |}
  = Return {| d_success := true;
              d_file_name := c :: name;
              d_file_size := len data;
              d_version := 1;
              d_fields := VList (first_fields rows);
              d_types :=
                VDict (map (fun f => (f, VStr (type_name
                                                 (detected rows f))))
                         (first_fields rows));
              d_num_rows := len (decoded_rows rows);
              d_json_data := decoded_rows rows |}.
Proof.
  unfold api_decode, api_decode_body. cbn [no_filename filename content].
  cbv zeta.
  rewrite (decode_input Zs J rows data Hrt Hjs Henc Hnames Hnd Hclean).
  reflexivity.
Qed.

Lemma decode_upload_encoded_witness :
  api_decode stored_zstd ref_json
    {| filename := Some (lit "shop.jonx");
       content := container_of shop_rows |}
  = Return {| d_success := true;
              d_file_name := lit "shop.jonx";
              d_file_size := len (container_of shop_rows);
              d_version := 1;
              d_fields := VList (first_fields shop_records);
              d_types :=
                VDict (map (fun f => (f, VStr (type_name
                                                 (detected shop_records f))))
                         (first_fields shop_records));
              d_num_rows := len (decoded_rows shop_records);
              d_json_data := decoded_rows shop_records |}.
Proof.
  apply (decode_upload_encoded stored_zstd ref_json shop_records
           (container_of shop_rows) 115 (lit "hop.jonx")
           stored_zstd_roundtrip ref_json_roundtrip).
  - vm_compute. reflexivity.
  - apply ascii_names_b_ok. vm_compute. reflexivity.
  - vm_compute. repeat constructor; intros H; simpl in H;
      intuition discriminate.
  - intros f Hf. vm_compute in Hf.
    destruct Hf as [<-|[<-|[<-|[<-|[]]]]]; vm_compute; auto.
  - vm_compute. reflexivity.
Defined.

(* ------------------------------------------------------------------ *)
(** ** What the encoder looks at *)

Lemma mapM_ext_in {A B} (f g : A -> result B) (l : list A) :
  (forall x, In x l -> f x = g x) -> mapM f l = mapM g l.
Proof.
  induction l as [|x t IH]; intros H; [reflexivity|].
  cbn [mapM]. rewrite (H x (or_introl eq_refl)).
  rewrite IH by (intros y Hy; apply H; now right). reflexivity.
Qed.

Lemma mapM_pointwise {A B} (f : A -> result B) (l l' : list A) :
  Forall2 (fun x y => f x = f y) l l' -> mapM f l = mapM f l'.
Proof.
  induction 1 as [|x y l l' Hxy _ IH]; [reflexivity|].
  cbn [mapM]. now rewrite Hxy, IH.
Qed.

(** The encoder reads a record only through the keys of the first one.
    Two lists whose first records have the same keys in the same order,
    and whose records agree, row by row, on the values of those keys (or
    on the error of looking them up), are encoded to the same bytes: keys
    that the first record does not have are dropped without notice, and
    the order of the keys of the other records does not matter. *)
Theorem encode_projection (Zs : zstd_api) (J : json_api)
    (d0 d0' : list (value * value)) (rest rest' : list value)
    (Hkeys : map fst d0 = map fst d0')
    (Hrows : Forall2 (fun r r' => forall f, In f (map fst d0) ->
                                   py_getitem r f = py_getitem r' f)
               (VDict d0 :: rest) (VDict d0' :: rest')) :
  encode_to_bytes Zs J (VList (VDict d0 :: rest))
  = encode_to_bytes Zs J (VList (VDict d0' :: rest')).
Proof.
  assert (Hcols : build_columns (VDict d0 :: rest) (map fst d0)
                  = build_columns (VDict d0' :: rest') (map fst d0)).
  { unfold build_columns. f_equal. apply mapM_ext_in. intros f Hf.
    f_equal. apply mapM_pointwise.
    clear - Hrows Hf. induction Hrows as [|r r' l l' H _ IH];
      constructor; auto. }
  unfold encode_to_bytes, encode_blocks. cbn [bind].
  rewrite <- Hkeys, Hcols. reflexivity.
Qed.

Lemma encode_projection_witness :
  encode_to_bytes stored_zstd ref_json plain_rows
  = encode_to_bytes stored_zstd ref_json padded_rows.
Proof.
  apply (encode_projection stored_zstd ref_json
           [fld "a" (VInt 1); fld "b" (VStr (lit "x"))]
           [fld "a" (VInt 1); fld "b" (VStr (lit "x"))]
           [VDict [fld "a" (VInt 2); fld "b" (VStr (lit "y"))]]
           [VDict [fld "c" (VBool true); fld "b" (VStr (lit "y"));
                   fld "a" (VInt 2)]]).
  - reflexivity.
  - repeat constructor; intros f [<-|[<-|[]]]; reflexivity.
Defined.

(* ------------------------------------------------------------------ *)
(** ** The exceptions the encoder raises *)

Lemma only_ok {A} (a : A) : raises_only (Ok a).
Proof. intros e H. discriminate. Qed.

Lemma only_err {A} (e : pyerr) :
  encode_error e = true -> raises_only (@Err A e).
Proof. intros H e' He. injection He as <-. exact H. Qed.

Lemma only_bind {A B} (c : result A) (k : A -> result B) :
  raises_only c -> (forall a, raises_only (k a)) -> raises_only (bind c k).
Proof.
  intros Hc Hk e. destruct c as [a|e0]; cbn [bind].
  - apply Hk.
  - intros H. apply Hc. injection H as <-. reflexivity.
Qed.

Lemma only_mapM {A B} (f : A -> result B) (l : list A) :
  (forall x, raises_only (f x)) -> raises_only (mapM f l).
Proof.
  intros H. induction l as [|x t IH]; [apply only_ok|].
  cbn [mapM]. apply only_bind; [apply H|]. intros y.
  apply only_bind; [exact IH|]. intros ys. apply only_ok.
Qed.

Lemma only_foldM {A B} (f : B -> A -> result B) (l : list A) :
  (forall a x, raises_only (f a x)) -> forall a, raises_only (foldM f l a).
Proof.
  intros H. induction l as [|x t IH]; intros a; [apply only_ok|].
  cbn [foldM]. apply only_bind; [apply H|]. exact IH.
Qed.

Ltac only_step :=
  first
    [ apply only_ok
    | apply only_err; reflexivity
    | apply only_bind; [|intros ?]
    | apply only_mapM; intros ?
    | apply only_foldM; intros ? ?
    | match goal with
      | |- raises_only (if ?b then _ else _) => destruct b
      | |- raises_only (match ?x with _ => _ end) => destruct x
      | |- raises_only (let '(_, _) := ?x in _) => destruct x
      end ].

Ltac solve_only := repeat (cbv beta; only_step); eauto.

Lemma only_seq_index {A} (l : list A) (i : Z) : raises_only (seq_index l i).
Proof. unfold seq_index. solve_only. Qed.

Lemma only_getitem (c k : value) : raises_only (py_getitem c k).
Proof.
  destruct c; cbn [py_getitem]; solve_only; try apply only_seq_index;
    apply only_bind; try apply only_seq_index; intros ?; apply only_ok.
Qed.

Lemma only_cmp (op : cmpop) (a : value) :
  forall c, raises_only (py_cmp op a c).
Proof.
  induction a as [| | | | |la IH|da _] using value_nested_ind; intros c;
    try (destruct c; cbn [py_cmp]; solve_only; fail).
  destruct c as [| | | | |lb|]; try (cbn [py_cmp]; solve_only; fail).
  cbn [py_cmp]. revert lb.
  induction IH as [|x xs Hx _ IHxs]; intros lb.
  - destruct lb; solve_only.
  - destruct lb as [|y ys]; [solve_only|].
    destruct (py_eq x y); [apply IHxs|apply Hx].
Qed.

Lemma only_fold_left {A} (step : result A -> value -> result A)
    (t : list value) :
  (forall acc item, raises_only acc -> raises_only (step acc item)) ->
  forall init, raises_only init -> raises_only (fold_left step t init).
Proof.
  intros H. induction t as [|x t IH]; intros init Hi; [exact Hi|].
  cbn [fold_left]. apply IH. now apply H.
Qed.

Lemma only_min (values : list value) : raises_only (py_min values).
Proof.
  unfold py_min. destruct values as [|v t]; [solve_only|].
  apply only_fold_left; [|apply only_ok].
  intros acc item Hacc. apply only_bind; [exact Hacc|]. intros cur.
  apply only_bind; [apply only_cmp|]. intros b0. apply only_ok.
Qed.

Lemma only_max (values : list value) : raises_only (py_max values).
Proof.
  unfold py_max. destruct values as [|v t]; [solve_only|].
  apply only_fold_left; [|apply only_ok].
  intros acc item Hacc. apply only_bind; [exact Hacc|]. intros cur.
  apply only_bind; [apply only_cmp|]. intros b0. apply only_ok.
Qed.

Lemma only_between (lo : Z) (v : value) (hi : Z) :
  raises_only (py_between lo v hi).
Proof.
  unfold py_between. apply only_bind; [apply only_cmp|]. intros b1.
  destruct b1; [apply only_cmp|apply only_ok].
Qed.

Lemma only_round3 (v : value) : raises_only (py_round3 v).
Proof. unfold py_round3. solve_only. Qed.

Lemma only_detect_int (values : list value) :
  raises_only (detect_numeric_type_int values).
Proof.
  unfold detect_numeric_type_int.
  apply only_bind; [apply only_min|]. intros mn.
  apply only_bind; [apply only_max|]. intros mx.
  apply only_bind; [apply only_between|]. intros b1.
  apply only_bind; [destruct b1; [apply only_between|apply only_ok]|].
  intros b2. destruct b2; apply only_ok.
Qed.

Lemma only_detect_float (values : list value) :
  raises_only (detect_numeric_type_float values).
Proof.
  induction values as [|v t IH]; cbn [detect_numeric_type_float];
    [apply only_ok|].
  apply only_bind; [apply only_between|]. intros inr.
  destruct (negb inr); [apply only_ok|].
  apply only_bind; [apply only_round3|]. intros r.
  destruct (negb (py_eq r v)); [apply only_ok|exact IH].
Qed.

Lemma only_detect_type (values : list value) :
  raises_only (detect_type values).
Proof.
  unfold detect_type. destruct values as [|first t]; [solve_only|].
  destruct first; try apply only_ok;
    [apply only_detect_int|apply only_detect_float].
Qed.

Lemma only_lookup {V} (d : list (value * V)) (k : value) :
  raises_only (lookup d k).
Proof. unfold lookup. solve_only. Qed.

Lemma only_float_of_int (z : Z) : raises_only (float_of_int z).
Proof. unfold float_of_int. solve_only. Qed.

Lemma only_as_double (v : value) : raises_only (as_double v).
Proof. unfold as_double. destruct v; solve_only; apply only_float_of_int. Qed.

Lemma only_pack_int (k : nat) (v : value) : raises_only (pack_int k v).
Proof. unfold pack_int. solve_only. Qed.

Lemma only_pack_f16 (v : value) : raises_only (pack_f16 v).
Proof.
  unfold pack_f16. apply only_bind; [apply only_as_double|].
  intros x. apply only_ok.
Qed.

Lemma only_pack_f32 (v : value) : raises_only (pack_f32 v).
Proof. unfold pack_f32. solve_only. Qed.

Lemma only_insert (x : nat * value) (l : list (nat * value)) :
  raises_only (insert_by_key x l).
Proof.
  induction l as [|y t IH]; cbn [insert_by_key]; [apply only_ok|].
  apply only_bind; [apply only_cmp|]. intros b0. destruct b0;
    [|apply only_ok].
  apply only_bind; [exact IH|]. intros r. apply only_ok.
Qed.

Lemma only_sort (l : list (nat * value)) : raises_only (sort_by_key l).
Proof.
  induction l as [|x t IH]; cbn [sort_by_key]; [apply only_ok|].
  apply only_bind; [exact IH|]. intros r. apply only_insert.
Qed.

Lemma only_sorted_index (column : list value) :
  raises_only (sorted_index column).
Proof.
  unfold sorted_index. apply only_bind; [apply only_sort|]. intros r.
  apply only_ok.
Qed.

Lemma only_pack_I (n : Z) : raises_only (pack_I n).
Proof. unfold pack_I. solve_only. Qed.

Lemma only_write_block (b : bytes) : raises_only (write_block b).
Proof.
  unfold write_block. apply only_bind; [apply only_pack_I|]. intros n.
  apply only_ok.
Qed.

Lemma only_utf8_char (c : Z) : raises_only (utf8_char c).
Proof. unfold utf8_char. solve_only. Qed.

Lemma only_utf8_encode (s : pystr) : raises_only (utf8_encode s).
Proof.
  induction s as [|c t IH]; cbn [utf8_encode]; [apply only_ok|].
  apply only_bind; [apply only_utf8_char|]. intros b0.
  apply only_bind; [exact IH|]. intros r. apply only_ok.
Qed.

Section EncoderErrors.
Variable Zs : zstd_api.
Variable J : json_api.
Hypothesis Hdumps : dumps_errors J.

Lemma only_dumps (v : value) : raises_only (dumps J v).
Proof. intros e H. now rewrite (Hdumps v e H). Qed.

Lemma only_pack_column (values : list value) (t : storage_type) :
  raises_only (pack_column J values t).
Proof.
  destruct t; cbn [pack_column]; try apply only_ok; try apply only_dumps;
    (apply only_bind; [apply only_mapM; intros v|intros r; apply only_ok]).
  - apply only_pack_int.
  - apply only_pack_int.
  - apply only_pack_f16.
  - apply only_pack_f32.
Qed.

Lemma only_encode_blocks (v : value) : raises_only (encode_blocks Zs J v).
Proof.
  unfold encode_blocks. destruct v as [| | | | |l|]; try (solve_only; fail).
  destruct l as [|row0 rest]; [solve_only|].
  apply only_bind; [destruct row0; solve_only|]. intros fields.
  apply only_bind.
  { unfold build_columns. apply only_bind; [|intros r; apply only_ok].
    apply only_mapM. intros f. apply only_bind; [|intros c; apply only_ok].
    apply only_mapM. intros row. apply only_getitem. }
  intros columns. apply only_bind.
  { unfold detect_types. apply only_bind; [|intros r; apply only_ok].
    apply only_mapM. intros fc.
    apply only_bind; [apply only_detect_type|intros t; apply only_ok]. }
  intros types. apply only_bind.
  { unfold compress_columns. apply only_foldM. intros d f.
    apply only_bind; [apply only_lookup|]. intros col.
    apply only_bind; [apply only_lookup|]. intros t.
    apply only_bind; [apply only_pack_column|]. intros blob.
    apply only_ok. }
  intros cc. apply only_bind; [|intros ix; apply only_ok].
  unfold build_indexes. apply only_foldM. intros d ft.
  destruct (is_numeric_type (snd ft)); [|apply only_ok].
  apply only_bind; [apply only_lookup|]. intros col.
  apply only_bind; [apply only_sorted_index|]. intros idx.
  apply only_bind; [apply only_dumps|]. intros bj. apply only_ok.
Qed.

Lemma only_write_container (b : blocks) :
  raises_only (write_container Zs J b).
Proof.
  unfold write_container.
  apply only_bind; [apply only_pack_I|]. intros ver.
  apply only_bind; [apply only_dumps|]. intros sj.
  apply only_bind; [apply only_write_block|]. intros sb.
  apply only_bind.
  { unfold write_columns. apply only_bind; [|intros r; apply only_ok].
    apply only_mapM. intros f.
    apply only_bind; [apply only_lookup|]. intros c.
    apply only_write_block. }
  intros cols. apply only_bind; [|intros ix; apply only_ok].
  unfold write_indexes. apply only_bind; [apply only_pack_I|]. intros n.
  apply only_bind; [|intros r; apply only_ok].
  apply only_mapM. intros entry. unfold write_index.
  destruct (fst entry); try (apply only_err; reflexivity).
  apply only_bind; [apply only_pack_I|]. intros n0.
  apply only_bind; [apply only_utf8_encode|]. intros name.
  apply only_bind; [apply only_write_block|]. intros blk. apply only_ok.
Qed.

End EncoderErrors.

Lemma encode_only (Zs : zstd_api) (J : json_api) (input : value) :
  dumps_errors J -> raises_only (encode_to_bytes Zs J input).
Proof.
  intros Hdumps. unfold encode_to_bytes.
  apply only_bind; [now apply only_encode_blocks|].
  intros b. now apply only_write_container.
Qed.

(** The exceptions of the encoder.  Given that [orjson.dumps] raises
    nothing but its [JSONEncodeError], whatever [encode_to_bytes] raises is
    one of [ValueError], [KeyError], [TypeError], [IndexError],
    [AttributeError], [OverflowError], [struct.error], [UnicodeError] and
    [JSONEncodeError]: never a [ZstdError], a [JSONDecodeError] or an
    [HTTPException]. *)
Theorem encode_raises_only (Zs : zstd_api) (J : json_api) (input : value)
    (e : pyerr)
    (Hdumps : dumps_errors J)
    (Herr : encode_to_bytes Zs J input = Err e) :
  encode_error e = true.
Proof. exact (encode_only Zs J input Hdumps e Herr). Qed.

Lemma encode_raises_only_witness :
  encode_to_bytes stored_zstd ref_json wide_rows = Err StructError
  /\ encode_error StructError = true.
Proof.
  split; [vm_compute; reflexivity|].
  apply (encode_raises_only stored_zstd ref_json wide_rows StructError).
  - intros v e H. discriminate.
  - vm_compute. reflexivity.
Defined.

(** When [encode] answers 400.  Given that [orjson.dumps] raises nothing
    but its [JSONEncodeError], the upload endpoint answers 400 exactly
    when the upload has a file name and its content is malformed JSON: no
    failure of the encoder and none of the checks of the body is answered
    400. *)
Theorem encode_upload_400 (Zs : zstd_api) (J : json_api) (file : upload)
    (Hdumps : dumps_errors J) :
  api_encode Zs J file = Raise (Http 400) <->
  no_filename file = false /\ loads J (content file) = Err JSONDecodeError.
Proof.
  unfold api_encode, api_encode_body.
  destruct (no_filename file).
  { split; [discriminate|]. intros (C & _). discriminate. }
  destruct (loads J (content file)) as [v|e]; cbn [lift obind].
  - split; [|intros (_ & C); discriminate].
    destruct v as [| | | | |l|]; cbn [is_list negb]; try discriminate.
    cbn [py_len lift obind].
    destruct (len l =? 0); [discriminate|].
    destruct (encode_to_bytes Zs J (VList l)) as [bs|e] eqn:E;
      cbn [lift obind].
    + cbv zeta. rewrite make_response_cases.
      destruct (latin1 _); discriminate.
    + pose proof (encode_only Zs J (VList l) Hdumps e E) as He.
      destruct e; try discriminate; discriminate He.
  - split.
    + intros H. split; [reflexivity|]. destruct e; try discriminate.
      reflexivity.
    + intros (_ & He). injection He as ->. reflexivity.
Qed.

Lemma encode_upload_400_witness :
  api_encode stored_zstd ref_json
    {| filename := Some (lit "rows.json"); content := blit "oops" |}
  = Raise (Http 400).
Proof.
  apply (encode_upload_400 stored_zstd ref_json
           {| filename := Some (lit "rows.json"); content := blit "oops" |}).
  - intros v e H. discriminate.
  - split; [reflexivity|vm_compute; reflexivity].
Defined.
